(** * Prompt optimizer: evaluation / optimization pipelines

    A shallow embedding of the two streaming route handlers of the
    prompt-optimizer application,

      - [app/api/braintrust-eval/route.ts]   (module [Braintrust]) and
      - [app/api/langsmith-prompts/route.ts] (module [Langsmith]),

    of the routes that answer with one JSON response (modules
    [PromptTest], [PromptList] and [LlmJudge]) and of the readers of
    the event streams in [app/page.tsx] (module [Client]),
    together with the JavaScript built-ins they rely on
    ([String.prototype.replace] with a global regular expression,
    [String.prototype.match], property access on parsed JSON, [||],
    the conversion of a value to text inside a template literal, which
    throws for an object with a member [toString], number division and
    [toFixed]).

    A request is what [request.json()] settles to: the parsed body, or
    the rejection for a body that is no JSON text.  Numbers are
    doubles: a quotient or a product is the nearest double of the exact
    result.  Strings are sequences of code units, written here as
    [string], one [ascii] for each code unit below 256; hosted model
    providers, the clock and [JSON.parse] are operations of a run-time
    interface ([Runtime]) that every theorem quantifies over. *)

From Stdlib Require Import String Ascii List Bool Arith ZArith QArith Lia.
From Stdlib Require DecimalString.
From Stdlib Require Import Qround Qabs.
Import ListNotations.

Close Scope Q_scope.
Open Scope string_scope.

(* ================================================================== *)
(** * Strings *)
(* ================================================================== *)

Module Str.

(** [s.length]. *)
Definition len (s : string) : nat := String.length s.

(** The code units of [s] after the first [n]. *)
Fixpoint drop (n : nat) (s : string) : string :=
  match n, s with
  | O, _ => s
  | S _, EmptyString => EmptyString
  | S k, String _ s' => drop k s'
  end.

(** [s.substring(0, n)]. *)
Definition take (n : nat) (s : string) : string := substring 0 n s.

(** Occurrences of [c] in [s]. *)
Fixpoint occurs (c : ascii) (s : string) : bool :=
  match s with
  | EmptyString => false
  | String d s' => Ascii.eqb d c || occurs c s'
  end.

(** [s] with [c] appended. *)
Definition snoc (s : string) (c : ascii) : string := s ++ String c EmptyString.

(** The double quote. *)
Definition dquote : string := String (ascii_of_nat 34) EmptyString.

(** Decimal rendering of a natural number ([String(n)] for a
    non-negative integer such as an array length). *)
Definition of_nat (n : nat) : string := DecimalString.NilZero.string_of_uint (Nat.to_uint n).

(** The line break of a template literal. *)
Definition nl : string := String (ascii_of_nat 10) EmptyString.

(** [l.join(sep)]. *)
Fixpoint join (sep : string) (l : list string) : string :=
  match l with
  | [] => EmptyString
  | x :: rest =>
      match rest with
      | [] => x
      | _ => x ++ sep ++ join sep rest
      end
  end.

End Str.

(* ================================================================== *)
(** * The template renderer: [prompt.replace(/\{\{input\}\}/g, input)] *)
(* ================================================================== *)

Module Render.

(** The text the regular expression [/\{\{input\}\}/] matches. *)
Definition placeholder : string := "{{input}}".

(** [GetSubstitution] of ECMAScript for a pattern with no capture
    group: in the replacement string, [$$] stands for [$], [$&] for the
    matched text, [$`] for the part of the subject before the match and
    [$'] for the part after it; a [$] followed by anything else (a
    digit, [<], the end of the string) stands for itself. *)
Fixpoint getSubstitution (matched before after replacement : string) : string :=
  match replacement with
  | EmptyString => EmptyString
  | String c rest =>
      if Ascii.eqb c "$" then
        match rest with
        | String d rest' =>
            if Ascii.eqb d "$" then
              String "$" (getSubstitution matched before after rest')
            else if Ascii.eqb d "&" then
              matched ++ getSubstitution matched before after rest'
            else if Ascii.eqb d "`" then
              before ++ getSubstitution matched before after rest'
            else if Ascii.eqb d "'" then
              after ++ getSubstitution matched before after rest'
            else String c (getSubstitution matched before after rest)
        | EmptyString => String c EmptyString
        end
      else String c (getSubstitution matched before after rest)
  end.

(** The global replace loop.  [s] is the rest of the subject, [before]
    the part already scanned, and [skip] the number of code units of
    [s] that belong to the match found last (the scan resumes behind
    it).  [subst matched before after] is the text put in place of a
    match. *)
Fixpoint replace_loop (subst : string -> string -> string -> string)
    (skip : nat) (before s : string) : string :=
  match s with
  | EmptyString => EmptyString
  | String c s' =>
      match skip with
      | S k => replace_loop subst k (Str.snoc before c) s'
      | O =>
          if prefix placeholder s then
            subst placeholder before (Str.drop (Str.len placeholder) s)
              ++ replace_loop subst (Str.len placeholder - 1) (Str.snoc before c) s'
          else String c (replace_loop subst 0 (Str.snoc before c) s')
      end
  end.

(** [prompt.replace(/\{\{input\}\}/g, input)], as [runPrompt],
    [runClaudePrompt] and [executePromptWithGemini] compute
    [formattedPrompt]. *)
Definition render (prompt input : string) : string :=
  replace_loop (fun matched before after =>
                  getSubstitution matched before after input)
               0 EmptyString prompt.

(** Replacement of every match by the input taken literally. *)
Definition render_literal (prompt input : string) : string :=
  replace_loop (fun _ _ _ => input) 0 EmptyString prompt.

(** Number of matches of the placeholder, scanning as [replace_loop]
    does. *)
Fixpoint count_loop (skip : nat) (s : string) : nat :=
  match s with
  | EmptyString => 0
  | String c s' =>
      match skip with
      | S k => count_loop k s'
      | O =>
          if prefix placeholder s
          then S (count_loop (Str.len placeholder - 1) s')
          else count_loop 0 s'
      end
  end.

Definition count (prompt : string) : nat := count_loop 0 prompt.

(** [s.includes(t)]. *)
Fixpoint includes (s t : string) : bool :=
  prefix t s ||
  match s with
  | EmptyString => false
  | String _ s' => includes s' t
  end.

End Render.

(* ================================================================== *)
(** * JavaScript values, exceptions and effects *)
(* ================================================================== *)

Module Js.

(** What [JSON.parse] returns.  Numbers are kept as exact rationals. *)
#[warnings="-register-all"]
Inductive json : Type :=
| JNull
| JBool (b : bool)
| JNum (q : Q)
| JStr (s : string)
| JArr (items : list json)
| JObj (fields : list (string * json)).

(** A value read out of parsed JSON; [None] is [undefined]. *)
Definition value : Type := option json.

(** What a [throw] carries.  [Error] is [new Error(message)] (the
    routes' own errors and the rejections of the provider SDKs);
    [TypeError] and [SyntaxError] are raised by the engine, with a
    message of its choosing. *)
Inductive exn : Type :=
| Error (message : string)
| TypeError
| SyntaxError.

Inductive Result (A : Type) : Type :=
| Ok (a : A)
| Throw (e : exn).
Arguments Ok {A} a.
Arguments Throw {A} e.

Fixpoint assoc (k : string) (fields : list (string * json)) : value :=
  match fields with
  | [] => None
  | (k', v) :: rest => if String.eqb k k' then Some v else assoc k rest
  end.

(** [v.k] for a [v] that is neither [undefined] nor [null].  None of
    the keys the routes read is a property of the built-in prototypes,
    so only an object has them. *)
Definition field (k : string) (v : json) : value :=
  match v with
  | JObj fields => assoc k fields
  | _ => None
  end.

(** [v.k]: a [TypeError] on [undefined] and [null]. *)
Definition get (v : value) (k : string) : Result value :=
  match v with
  | None | Some JNull => Throw TypeError
  | Some j => Ok (field k j)
  end.

(** [v?.k]. *)
Definition get_opt (v : value) (k : string) : value :=
  match v with
  | None | Some JNull => None
  | Some j => field k j
  end.

(** [ToBoolean]. *)
Definition truthy (v : value) : bool :=
  match v with
  | None | Some JNull => false
  | Some (JBool b) => b
  | Some (JNum q) => negb (Qeq_bool q 0)
  | Some (JStr s) => negb (String.eqb s EmptyString)
  | Some (JArr _) | Some (JObj _) => true
  end.

(** [a || b]. *)
Definition or_else (a b : value) : value := if truthy a then a else b.

(** [v === "s"]. *)
Definition is_string (s : string) (v : value) : bool :=
  match v with
  | Some (JStr t) => String.eqb t s
  | _ => false
  end.

(** [v === 0]. *)
Definition is_zero (v : value) : bool :=
  match v with
  | Some (JNum q) => Qeq_bool q 0
  | _ => false
  end.

(** ** Numbers

    A number is a double.  A finite one is written as the rational it
    denotes; sums of small integers and of quarters are doubles again,
    a quotient or a product is rounded to the nearest double. *)
Inductive number : Type :=
| Fin (q : Q)
| NaN
| Infinity (negative : bool).

Definition pow2 (e : Z) : Q := (2 ^ e)%Q.

(** The largest [e] with [2 ^ e <= a], for a positive [a]. *)
Definition floor_log2 (a : Q) : Z :=
  let e := (Z.log2 (Qnum a) - Z.log2 (Zpos (Qden a)))%Z in
  if Qle_bool (pow2 e) a then e else (e - 1)%Z.

(** The integer nearest to [x], the even one of two. *)
Definition nearest_even (x : Q) : Z :=
  let f := Qfloor x in
  match Qcompare (x - inject_Z f) (1 # 2) with
  | Lt => f
  | Gt => (f + 1)%Z
  | Eq => if Z.even f then f else (f + 1)%Z
  end.

(** The double nearest to the rational [q], as the arithmetic of the
    engine rounds an exact result: 53 significant bits from [2 ^ -1022]
    on, multiples of [2 ^ -1074] below, ties to the even neighbour,
    and an infinity from [2 ^ 1024] on. *)
Definition to_double (q : Q) : number :=
  if Qeq_bool q 0 then Fin 0
  else
    let a := Qabs q in
    let ulp := pow2 (Z.max (floor_log2 a) (-1022) - 52) in
    let r := Qred (inject_Z (nearest_even (a / ulp)) * ulp) in
    let negative := Qle_bool q 0 in
    if Qle_bool (pow2 1024) r then Infinity negative
    else Fin (if negative then Qopp r else r).

(** [a / b] for finite [a] and a non-negative divisor [b]. *)
Definition div (a b : Q) : number :=
  if Qeq_bool b 0 then
    if Qeq_bool a 0 then NaN
    else Infinity (match Qcompare a 0 with Lt => true | _ => false end)
  else to_double (a / b).

(** [x * k] for a finite positive [k]. *)
Definition scale (x : number) (k : Q) : number :=
  match x with
  | Fin q => to_double (q * k)
  | other => other
  end.

(** The double nearest to the decimal [0.8], which is what the literal
    [0.8] denotes: 3602879701896397 / 2^52. *)
Definition lit_0_8 : Q := 3602879701896397 # 4503599627370496.

(** ** [String.prototype.match] with [/\[[\s\S]*\]/] and [/\{[\s\S]*\}/] *)

(** The suffix of [s] that starts at the first [o]. *)
Fixpoint from_first (o : ascii) (s : string) : option string :=
  match s with
  | EmptyString => None
  | String c s' => if Ascii.eqb c o then Some s else from_first o s'
  end.

(** The prefix of [s] that ends with the last [c]. *)
Fixpoint upto_last (c : ascii) (s : string) : option string :=
  match s with
  | EmptyString => None
  | String d s' =>
      match upto_last c s' with
      | Some p => Some (String d p)
      | None => if Ascii.eqb d c then Some (String d EmptyString) else None
      end
  end.

(** [s.match(/o[\s\S]*c/)] for two characters [o] and [c]: the match
    starts at the first [o] and, the star being greedy, ends at the
    last [c] behind it; [None] is [null]. *)
Definition match_span (o c : ascii) (s : string) : option string :=
  match from_first o s with
  | Some (String o' rest) =>
      match upto_last c rest with
      | Some p => Some (String o' p)
      | None => None
      end
  | _ => None
  end.

(** [response.match(/\[[\s\S]*\]/)]. *)
Definition match_array (s : string) : option string := match_span "[" "]" s.

(** [text.match(/\{[\s\S]*\}/)]. *)
Definition match_object (s : string) : option string := match_span "{" "}" s.

(** ** Effects: a state and exception monad *)

Definition M (S A : Type) : Type := S -> Result A * S.

Definition ret {S A} (a : A) : M S A := fun s => (Ok a, s).

Definition throw {S A} (e : exn) : M S A := fun s => (Throw e, s).

Definition bind {S A B} (m : M S A) (k : A -> M S B) : M S B :=
  fun s =>
    match m s with
    | (Ok a, s') => k a s'
    | (Throw e, s') => (Throw e, s')
    end.

(** [try { m } catch (e) { h e }]. *)
Definition try_catch {S A} (m : M S A) (h : exn -> M S A) : M S A :=
  fun s =>
    match m s with
    | (Ok a, s') => (Ok a, s')
    | (Throw e, s') => h e s'
    end.

Definition of_result {S A} (r : Result A) : M S A := fun s => (r, s).

Definition modify {S} (f : S -> S) : M S unit := fun s => (Ok tt, f s).

Definition gets {S A} (f : S -> A) : M S A := fun s => (Ok (f s), s).

End Js.

Export Js.

Declare Scope js_scope.
Delimit Scope js_scope with js.
Notation "x <- m ;; k" := (bind m (fun x => k))
  (at level 61, m at next level, right associativity) : js_scope.
Notation "m ;;; k" := (bind m (fun _ => k))
  (at level 61, right associativity) : js_scope.
Open Scope js_scope.

(* ================================================================== *)
(** * The run-time interface *)
(* ================================================================== *)

(** Everything the routes obtain from outside: the three model
    providers, the tracing service, the clock, the environment and the
    engine's [JSON.parse] and number formatting.  A provider call takes
    the state of the outside world and returns its answer (or the
    rejection it raises) with the next state, so two calls with the same
    prompt may answer differently. *)
Class Runtime : Type := {
  World : Type;
  (** [genAI.getGenerativeModel(..).generateContent(p)] followed by
      [result.response.text()]. *)
  gemini_generateContent : string -> World -> Result string * World;
  (** [groq.chat.completions.create(..)] followed by
      [completion.choices[0]?.message?.content]. *)
  groq_create : string -> World -> Result (option string) * World;
  (** [anthropic.messages.create({max_tokens, messages})] followed by the
      text of the first block of type [text], if there is one. *)
  anthropic_create : nat -> string -> World -> Result (option string) * World;
  (** [langsmithClient.createDataset(name, ..)]: the dataset id. *)
  langsmith_createDataset : string -> World -> Result string * World;
  (** [langsmithClient.createExample({.., datasetId})] for one failure. *)
  langsmith_createExample :
    string -> string -> string -> list (string * value) -> World -> Result unit * World;
  (** The tracing done by the [traceable] wrapper around a call, which
      is taken to return normally. *)
  langsmith_trace : value -> string -> string -> json -> World -> World;
  (** [JSON.parse]; [None] is the [SyntaxError]. *)
  JSON_parse : string -> option json;
  (** [new Date().toISOString()] and [Date.now()] as text. *)
  toISOString : World -> string;
  Date_now : World -> string;
  (** [process.env.GEMINI_API_KEY] and [LANGSMITH_API_KEY] are set. *)
  env_GEMINI_API_KEY : bool;
  env_LANGSMITH_API_KEY : bool;
  (** [x.toFixed(digits)] for a finite [x]. *)
  toFixed_finite : nat -> Q -> string;
  (** [String(x)] for a finite [x]. *)
  number_text : Q -> string;
  (** [e.message] of an error the engine raised. *)
  engine_message : exn -> string
}.

(** ** The event stream *)

Inductive Status : Type := running | completed | error.

(** One [data: ...] record written to the response stream; [L] is the
    type of a log entry and [E] of the final result. *)
Inductive Sse (L E : Type) : Type :=
| SseLog (log : L)
| SseComplete (evaluation : E)
| SseError (err : string) (details : option string) (logs : option (list L)).
Arguments SseLog {L E} log.
Arguments SseComplete {L E} evaluation.
Arguments SseError {L E} err details logs.

Section Runtime.
Context `{RT : Runtime}.

(** [JSON.parse(s)]. *)
Definition parse (s : string) : Result json :=
  match JSON_parse s with
  | Some j => Ok j
  | None => Throw SyntaxError
  end.

(** [x.toFixed(digits)]. *)
Definition toFixed (digits : nat) (x : number) : string :=
  match x with
  | Fin q => toFixed_finite digits q
  | NaN => "NaN"
  | Infinity false => "Infinity"
  | Infinity true => "-Infinity"
  end.

(** [items.join(",")]: the texts of the elements, [text] giving the
    text of one that is not [null], joined by commas; [null] has the
    empty text here. *)
Definition join_texts (text : json -> Result string) : list json -> Result string :=
  fix join (l : list json) : Result string :=
    match l with
    | [] => Ok EmptyString
    | x :: rest =>
        match match x with JNull => Ok EmptyString | _ => text x end with
        | Throw e => Throw e
        | Ok t =>
            match rest with
            | [] => Ok t
            | _ =>
                match join rest with
                | Throw e => Throw e
                | Ok ts => Ok (t ++ "," ++ ts)
                end
            end
        end
    end.

(** [ToString(j)] for a value of parsed JSON, as a template literal,
    [String(..)], a property key and [+] with a string apply it.  An
    array is the texts of its elements joined by commas.  An object
    has the text [[object Object]] that [Object.prototype.toString]
    returns, unless it has a member [toString] of its own: a member
    read from JSON is no function, and [valueOf] returns the object
    itself, so the conversion ends in a [TypeError]. *)
Fixpoint text_of (j : json) : Result string :=
  match j with
  | JNull => Ok "null"
  | JBool true => Ok "true"
  | JBool false => Ok "false"
  | JNum q => Ok (number_text q)
  | JStr s => Ok s
  | JArr items => join_texts text_of items
  | JObj fields =>
      match assoc "toString" fields with
      | Some _ => Throw TypeError
      | None => Ok "[object Object]"
      end
  end.

(** [ToString(v)]. *)
Definition to_text (v : value) : Result string :=
  match v with
  | Some j => text_of j
  | None => Ok "undefined"
  end.

(** [error instanceof Error ? error.message : "Unknown error"]; every
    value thrown here is an [Error]. *)
Definition message_of (e : exn) : string :=
  match e with
  | Error m => m
  | other => engine_message other
  end.

(** The state the route functions run in: the outside world and, for
    the specification only, the names of the route functions entered so
    far. *)
Record Sys : Type := { world : World; entered : list string }.

(** A call to the outside. *)
Definition call {A} (f : World -> Result A * World) : M Sys A :=
  fun s =>
    let (r, w) := f (world s) in
    (r, {| world := w; entered := entered s |}).

(** Entry into the route function [fn]. *)
Definition enter (fn : string) : M Sys unit :=
  modify (fun s => {| world := world s; entered := entered s ++ [fn] |}).

(** ** The state of a run *)

(** The state of one [POST]: the system, the [logs] array ([run_logs]) and the
    records written to the stream so far. *)
Record Run (L E : Type) : Type := {
  sys : Sys;
  run_logs : list L;
  written : list (Sse L E)
}.
Arguments sys {L E} r.
Arguments run_logs {L E} r.
Arguments written {L E} r.

(** A route function awaited from [POST]. *)
Definition await {L E A} (m : M Sys A) : M (Run L E) A :=
  fun st =>
    let (r, s) := m (sys st) in
    (r, {| sys := s; run_logs := run_logs st; written := written st |}).

(** [writer.write(encoder.encode(`data: ${JSON.stringify(record)}\n\n`))]. *)
Definition write {L E} (record : Sse L E) : M (Run L E) unit :=
  modify (fun st => {| sys := sys st; run_logs := run_logs st;
                       written := written st ++ [record] |}).

(** The body of [sendLog] once the entry is built: [logs.push(log)] and
    the write of the log record. *)
Definition push_log {L E} (mk : string -> L) : M (Run L E) unit :=
  fun st =>
    let log := mk (toISOString (world (sys st))) in
    (Ok tt, {| sys := sys st; run_logs := run_logs st ++ [log];
               written := written st ++ [SseLog log] |}).

(** [v.substring(..)] and [v.replace(..)] exist on strings only. *)
Definition as_string (v : value) : Result string :=
  match v with
  | Some (JStr s) => Ok s
  | _ => Throw TypeError
  end.

(** [v.entries()], [v.map(..)], [v.filter(..)] exist on arrays only. *)
Definition as_array (v : value) : Result (list json) :=
  match v with
  | Some (JArr items) => Ok items
  | _ => Throw TypeError
  end.

(** [JSON.parse(m)] for a match [m] of [/\[[\s\S]*\]/]: a JSON text
    that starts with a bracket denotes an array. *)
Definition parse_array (m : string) : Result (list json) :=
  match parse m with
  | Ok (JArr items) => Ok items
  | Ok _ => Throw SyntaxError
  | Throw e => Throw e
  end.

(** [JSON.parse(m)] for a match [m] of [/\{[\s\S]*\}/]: a JSON text
    that starts with a brace denotes an object. *)
Definition parse_object (m : string) : Result json :=
  match parse m with
  | Ok (JObj fields) => Ok (JObj fields)
  | Ok _ => Throw SyntaxError
  | Throw e => Throw e
  end.

(** [try { m } catch (e) { .. }] with the outcome made a value. *)
Definition attempt {S A} (m : M S A) : M S (Result A) :=
  fun s => let (r, s') := m s in (Ok r, s').

(** The text of [v.length] inside a template literal: the length of
    an array or a string, the member [length] of an object, and
    [undefined] on a number or a truth value. *)
Definition length_text (v : value) : Result string :=
  match v with
  | None | Some JNull => Throw TypeError
  | Some (JArr items) => Ok (Str.of_nat (length items))
  | Some (JStr s) => Ok (Str.of_nat (Str.len s))
  | Some (JObj fields) => to_text (assoc "length" fields)
  | Some _ => Ok "undefined"
  end.

(** [items.map((r) => `${r}`)], up to the wording around [r]. *)
Fixpoint texts_of (items : list json) : Result (list string) :=
  match items with
  | [] => Ok []
  | r :: rest =>
      match text_of r with
      | Throw e => Throw e
      | Ok t =>
          match texts_of rest with
          | Throw e => Throw e
          | Ok ts => Ok (t :: ts)
          end
      end
  end.

Definition is_complete {L E} (r : Sse L E) : bool :=
  match r with SseComplete _ => true | _ => false end.

Definition is_error {L E} (r : Sse L E) : bool :=
  match r with SseError _ _ _ => true | _ => false end.

End Runtime.

Arguments sys {RT L E} r.
Arguments run_logs {RT L E} r.
Arguments written {RT L E} r.

(** [x < y] and [x >= y] on finite numbers. *)
Definition Qltb (x y : Q) : bool := negb (Qle_bool y x).
Definition Qgeb (x y : Q) : bool := Qle_bool y x.

(** The characters [String.prototype.trim] removes, among the code
    units below 256. *)
Definition is_space (c : ascii) : bool :=
  match nat_of_ascii c with
  | 9 | 10 | 11 | 12 | 13 | 32 | 160 => true
  | _ => false
  end.

Fixpoint trim_start (s : string) : string :=
  match s with
  | String c s' => if is_space c then trim_start s' else s
  | EmptyString => EmptyString
  end.

Fixpoint trim_end (s : string) : string :=
  match s with
  | EmptyString => EmptyString
  | String c s' =>
      match trim_end s' with
      | EmptyString => if is_space c then EmptyString else String c EmptyString
      | t => String c t
      end
  end.

(** [s.trim()]. *)
Definition trim (s : string) : string := trim_end (trim_start s).

(** The last element of [s.match(/[01]/g)]: the last [0] or [1] in [s],
    as a truth value. *)
Fixpoint last_binary_digit (s : string) : option bool :=
  match s with
  | EmptyString => None
  | String c s' =>
      match last_binary_digit s' with
      | Some b => Some b
      | None =>
          if Ascii.eqb c "1" then Some true
          else if Ascii.eqb c "0" then Some false
          else None
      end
  end.

(* ================================================================== *)
(** * [app/api/braintrust-eval/route.ts] *)
(* ================================================================== *)

Module Braintrust.

Record Scores : Type := {
  factuality : Q;
  battle : Q;
  jsonValidity : Q;
  tone : Q;
  overall : Q
}.

Record TestResult : Type := {
  input : string;
  output : string;
  expected : value;
  scores : Scores;
  metadata : value
}.

Record LogEntry : Type := {
  timestamp : string;
  step : string;
  status : Status;
  details : option string
}.

Record Summary : Type := {
  total_tests : nat;
  passed_tests : nat;
  failed_tests : nat;
  success_rate : string;
  average_score : string
}.

Record Evaluation : Type := {
  prompt : string;
  summary : Summary;
  results : list TestResult;
  improvedPrompts : list json;
  syntheticDataset : list json;
  logs : list LogEntry
}.

(** The instruction texts the route builds with template literals, as
    functions of the texts they interpolate.  Their wording plays no
    part in what follows, so it is left open; the conversion of the
    interpolated values to text, which can throw, is done by the route
    functions below. *)
Class Prompts : Type := {
  generationPrompt : string -> string;
  (** The output and the text of [expectedTone]. *)
  tonePrompt : string -> string -> string;
  (** The output and the text of [expected]. *)
  factualityPrompt_recommendation : string -> string -> string;
  factualityPrompt_creative : string -> string -> string;
  factualityPrompt_factual : string -> string -> string;
  (** The text of [input], the output and the text of [expected]. *)
  battlePrompt_recommendation : string -> string -> string;
  battlePrompt_compare : string -> string -> string -> string;
  (** [originalPrompt] and [failureAnalysis]. *)
  improvementPrompt : string -> string -> string
}.

Section Route.
Context `{RT : Runtime} `{PR : Prompts}.

(** [generateSyntheticDataset(prompt)]. *)
Definition generateSyntheticDataset (prompt : string) : M Sys (list json) :=
  enter "generateSyntheticDataset" ;;;
  try_catch
    (response <- call (gemini_generateContent (generationPrompt prompt)) ;;
     match match_array response with
     | None => throw (Error "Failed to parse Gemini response as JSON")
     | Some jsonMatch => of_result (parse_array jsonMatch)
     end)
    (fun geminiError =>
       content <- call (groq_create (generationPrompt prompt)) ;;
       let response := match content with Some c => c | None => EmptyString end in
       match match_array response with
       | None =>
           throw (Error "Failed to generate synthetic dataset with both Gemini and Groq")
       | Some jsonMatch => of_result (parse_array jsonMatch)
       end).

(** [runPrompt(prompt, input)]. *)
Definition runPrompt (prompt input : string) : M Sys string :=
  enter "runPrompt" ;;;
  let formattedPrompt := Render.render prompt input in
  textContent <- call (anthropic_create 2048 formattedPrompt) ;;
  ret (match textContent with Some t => t | None => EmptyString end).

(** [scoreTone(output, expectedTone)]: the instruction text is built
    in front of the [try] block. *)
Definition scoreTone (output : string) (expectedTone : value) : M Sys Q :=
  enter "scoreTone" ;;;
  if negb (truthy expectedTone) then ret 1%Q
  else
    tone <- of_result (to_text expectedTone) ;;
    let tonePrompt := tonePrompt output tone in
    try_catch
      (textContent <- call (anthropic_create 10 tonePrompt) ;;
       let response := match textContent with Some t => trim t | None => "0" end in
       ret (if String.eqb response "1" then 1%Q else 0%Q))
      (fun _ => ret 0%Q).

(** [metadata?.promptType || metadata?.category || "factual"]. *)
Definition promptType_of (metadata : value) : value :=
  or_else (or_else (get_opt metadata "promptType") (get_opt metadata "category"))
          (Some (JStr "factual")).

(** The end of [scoreFactuality] and [scoreBattle]: ask, then read the
    last binary digit of the answer. *)
Definition ask_binary (question : string) : M Sys Q :=
  try_catch
    (textContent <- call (anthropic_create 50 question) ;;
     let response := match textContent with Some t => trim t | None => "0" end in
     ret (match last_binary_digit response with
          | Some true => 1%Q
          | _ => 0%Q
          end))
    (fun _ => ret 0%Q).

(** [scoreFactuality(output, expected, metadata)]: each of the three
    instruction texts interpolates [expected], in front of the [try]
    block. *)
Definition scoreFactuality (output : string) (expected metadata : value) : M Sys Q :=
  enter "scoreFactuality" ;;;
  let promptType := promptType_of metadata in
  expectedText <- of_result (to_text expected) ;;
  let factualityPrompt :=
    if is_string "recommendation" promptType then
      factualityPrompt_recommendation output expectedText
    else if is_string "creative" promptType then
      factualityPrompt_creative output expectedText
    else factualityPrompt_factual output expectedText in
  ask_binary factualityPrompt.

(** [scoreBattle(input, output, expected, metadata)]: the instruction
    text for a recommendation interpolates [input], the other one
    [input] and [expected]. *)
Definition scoreBattle (input : value) (output : string) (expected metadata : value) : M Sys Q :=
  enter "scoreBattle" ;;;
  let promptType := promptType_of metadata in
  inputText <- of_result (to_text input) ;;
  if is_string "recommendation" promptType then
    ask_binary (battlePrompt_recommendation inputText output)
  else
    expectedText <- of_result (to_text expected) ;;
    ask_binary (battlePrompt_compare inputText output expectedText).

(** The [scores] object [evaluateTestCase] fills in. *)
Definition initial_scores : Scores :=
  {| factuality := 0; battle := 0; jsonValidity := 0; tone := 0; overall := 0 |}.

Definition set_factuality (v : Q) (s : Scores) : Scores :=
  {| factuality := v; battle := battle s; jsonValidity := jsonValidity s;
     tone := tone s; overall := overall s |}.
Definition set_battle (v : Q) (s : Scores) : Scores :=
  {| factuality := factuality s; battle := v; jsonValidity := jsonValidity s;
     tone := tone s; overall := overall s |}.
Definition set_jsonValidity (v : Q) (s : Scores) : Scores :=
  {| factuality := factuality s; battle := battle s; jsonValidity := v;
     tone := tone s; overall := overall s |}.
Definition set_tone (v : Q) (s : Scores) : Scores :=
  {| factuality := factuality s; battle := battle s; jsonValidity := jsonValidity s;
     tone := v; overall := overall s |}.
Definition set_overall (v : Q) (s : Scores) : Scores :=
  {| factuality := factuality s; battle := battle s; jsonValidity := jsonValidity s;
     tone := tone s; overall := v |}.

(** A route function awaited while [scores] is being filled in. *)
Definition scoring {A} (m : M Sys A) : M (Sys * Scores) A :=
  fun st => let (r, s) := m (fst st) in (r, (s, snd st)).

(** An assignment to a field of [scores]. *)
Definition assign (f : Scores -> Scores) : M (Sys * Scores) unit :=
  modify (fun st => (fst st, f (snd st))).

(** The [try] block of [evaluateTestCase]. *)
Definition evaluate_block (testCase : json) (output : string) : M (Sys * Scores) unit :=
  (* 1. Factuality *)
  expected <- of_result (get (Some testCase) "expected") ;;
  metadata <- of_result (get (Some testCase) "metadata") ;;
  f <- scoring (scoreFactuality output expected metadata) ;;
  assign (set_factuality f) ;;;
  (* 2. Battle *)
  input <- of_result (get (Some testCase) "input") ;;
  b <- scoring (scoreBattle input output expected metadata) ;;
  assign (set_battle b) ;;;
  (* 3. JSON validity *)
  (if truthy (get_opt metadata "expectsJSON") then
     match parse output with
     | Ok _ => assign (set_jsonValidity 1)
     | Throw _ => assign (set_jsonValidity 0)
     end
   else assign (set_jsonValidity 1)) ;;;
  (* 4. Tone *)
  (if truthy (get_opt metadata "expectedTone") then
     t <- scoring (scoreTone output (get_opt metadata "expectedTone")) ;;
     assign (set_tone t)
   else assign (set_tone 1)) ;;;
  (* Overall score (average of all scores) *)
  assign (fun s =>
            set_overall ((factuality s + battle s + jsonValidity s + tone s) / 4)%Q s).

(** [evaluateTestCase(testCase, output)]: whatever the [try] block
    did, the [scores] object as it then stands is returned. *)
Definition evaluateTestCase (testCase : json) (output : string) : M Sys Scores :=
  enter "evaluateTestCase" ;;;
  fun s =>
    let (_, st) := evaluate_block testCase output (s, initial_scores) in
    (Ok (snd st), fst st).

(** The text of one failed test in [failureAnalysis]; [idx] counts
    from 0. *)
Definition failure_text (idx : nat) (test : TestResult) : Result string :=
  match to_text (expected test) with
  | Throw e => Throw e
  | Ok expectedText =>
      Ok (Str.nl ++ "Test " ++ Str.of_nat (idx + 1) ++ ":" ++ Str.nl
          ++ "Input: " ++ input test ++ Str.nl
          ++ "Expected: " ++ expectedText ++ Str.nl
          ++ "Got: " ++ output test ++ Str.nl
          ++ "Scores: Factuality=" ++ number_text (factuality (scores test))
          ++ ", Battle=" ++ number_text (battle (scores test))
          ++ ", JSON=" ++ number_text (jsonValidity (scores test))
          ++ ", Tone=" ++ number_text (tone (scores test)) ++ Str.nl)
  end.

(** [failedTests.map((test, idx) => ..)]. *)
Fixpoint failure_texts (idx : nat) (failedTests : list TestResult) : Result (list string) :=
  match failedTests with
  | [] => Ok []
  | test :: rest =>
      match failure_text idx test with
      | Throw e => Throw e
      | Ok t =>
          match failure_texts (S idx) rest with
          | Throw e => Throw e
          | Ok ts => Ok (t :: ts)
          end
      end
  end.

(** [failureAnalysis]: the texts of the failed tests, one per line. *)
Definition failureAnalysis (failedTests : list TestResult) : Result string :=
  match failure_texts 0 failedTests with
  | Throw e => Throw e
  | Ok ts => Ok (Str.join Str.nl ts)
  end.

(** [getImprovedPrompts(originalPrompt, failedTests)]: the failure
    analysis and the instruction text are built in front of the [try]
    block. *)
Definition getImprovedPrompts (originalPrompt : string) (failedTests : list TestResult)
  : M Sys (list json) :=
  enter "getImprovedPrompts" ;;;
  failureAnalysis <- of_result (failureAnalysis failedTests) ;;
  let improvementPrompt := improvementPrompt originalPrompt failureAnalysis in
  try_catch
    (textContent <- call (anthropic_create 2048 improvementPrompt) ;;
     let response := match textContent with Some t => t | None => EmptyString end in
     match match_array response with
     | Some jsonMatch => of_result (parse_array jsonMatch)
     | None => ret []
     end)
    (fun _ => ret []).

(** ** [POST] *)

Definition P : Type -> Type := M (Run LogEntry Evaluation).

Definition sendLog (step : string) (status : Status) (details : option string) : P unit :=
  push_log (fun now => {| timestamp := now; step := step; status := status;
                          details := details |}).

(** One turn of the loop over [testCases.entries()]. *)
Definition evaluate_one (prompt : string) (total index : nat) (testCase : json)
  : P TestResult :=
  input <- of_result (match get (Some testCase) "input" with
                      | Ok v => as_string v
                      | Throw e => Throw e
                      end) ;;
  sendLog ("Evaluating test " ++ Str.of_nat (index + 1) ++ "/" ++ Str.of_nat total)
          running (Some ("Input: " ++ Str.take 50 input ++ "...")) ;;;
  output <- await (runPrompt prompt input) ;;
  scores <- await (evaluateTestCase testCase output) ;;
  sendLog ("Test " ++ Str.of_nat (index + 1) ++ " completed") completed
          (Some ("Score: " ++ toFixed 0 (Fin (overall scores * 100)) ++ "%")) ;;;
  ret {| input := input; output := output; expected := field "expected" testCase;
         scores := scores; metadata := field "metadata" testCase |}.

(** The loop: [results] is the array the turns push to. *)
Fixpoint evaluate_all (prompt : string) (total index : nat) (testCases : list json)
    (results : list TestResult) : P (list TestResult) :=
  match testCases with
  | [] => ret results
  | testCase :: rest =>
      r <- evaluate_one prompt total index testCase ;;
      evaluate_all prompt total (S index) rest (results ++ [r])
  end.

(** [results.filter((r) => r.scores.overall < 0.8)]. *)
Definition failing (results : list TestResult) : list TestResult :=
  filter (fun r => Qltb (overall (scores r)) lit_0_8) results.

(** [results.filter((r) => r.scores.overall >= 0.8)]. *)
Definition passing (results : list TestResult) : list TestResult :=
  filter (fun r => Qgeb (overall (scores r)) lit_0_8) results.

(** [results.reduce((sum, r) => sum + r.scores.overall, 0)]. *)
Definition sum_overall (results : list TestResult) : Q :=
  fold_left (fun sum r => (sum + overall (scores r))%Q) results 0%Q.

Definition Q_of_nat (n : nat) : Q := inject_Z (Z.of_nat n).

(** The [summary] of the final result. *)
Definition summarize (results failedTests : list TestResult) : Summary :=
  let totalTests := length results in
  let passedTests := length (passing results) in
  let avgScore := div (sum_overall results) (Q_of_nat totalTests) in
  {| total_tests := totalTests;
     passed_tests := passedTests;
     failed_tests := length failedTests;
     success_rate :=
       toFixed 1 (scale (div (Q_of_nat passedTests) (Q_of_nat totalTests)) 100);
     average_score := toFixed 1 (scale avgScore 100) |}.

(** Steps 3 and 4: the failing tests and, if there are any, the
    improved prompts. *)
Definition improve (prompt : string) (failedTests : list TestResult) : P (list json) :=
  match failedTests with
  | _ :: _ =>
      sendLog "Analyzing failures" running
        (Some (Str.of_nat (length failedTests)
               ++ " test(s) failed - generating improvements")) ;;;
      improvedPrompts <- await (getImprovedPrompts prompt failedTests) ;;
      sendLog "Improvement suggestions ready" completed
        (Some ("Generated " ++ Str.of_nat (length improvedPrompts)
               ++ " improved prompt versions")) ;;;
      ret improvedPrompts
  | [] =>
      sendLog "All tests passed" completed
        (Some "No improvements needed - prompt performed well!") ;;;
      ret []
  end.

(** The statistics and the final record. *)
Definition report (prompt : string) (testCases : list json)
    (results failedTests : list TestResult) (improvedPrompts : list json) : P unit :=
  let summary := summarize results failedTests in
  sendLog "Evaluation complete" completed
    (Some ("Success rate: " ++ success_rate summary ++ "%")) ;;;
  logs <- gets run_logs ;;
  write (SseComplete
           {| prompt := prompt;
              summary := summary;
              results := results;
              improvedPrompts := firstn 3 improvedPrompts;
              syntheticDataset := testCases;
              logs := logs |}).

(** Step 1: the synthetic dataset. *)
Definition prepare (prompt : string) : P (list json) :=
  sendLog "Analyzing prompt" running None ;;;
  sendLog "Generating synthetic dataset with Gemini Flash 2.5" running None ;;;
  testCases <- await (generateSyntheticDataset prompt) ;;
  sendLog "Dataset generation complete" completed
    (Some ("Generated " ++ Str.of_nat (length testCases) ++ " test cases")) ;;;
  sendLog "Running evaluations" running (Some "Testing prompt against dataset") ;;;
  ret testCases.

(** Everything from the end of the evaluation loop on. *)
Definition conclude (prompt : string) (testCases : list json)
    (results : list TestResult) : P unit :=
  sendLog "All tests completed" completed
    (Some (Str.of_nat (length results) ++ " tests executed")) ;;;
  let failedTests := failing results in
  improvedPrompts <- improve prompt failedTests ;;
  report prompt testCases results failedTests improvedPrompts.

(** What follows the two checks at the head of the [try] block. *)
Definition pipeline (prompt : string) : P unit :=
  testCases <- prepare prompt ;;
  results <- evaluate_all prompt (length testCases) 0 testCases [] ;;
  conclude prompt testCases results.

(** A configuration error: logged, reported, and the stream closed. *)
Definition reject (reason : string) : P unit :=
  sendLog "Error" error (Some reason) ;;;
  write (SseError reason None None).

(** The [try] block of the background task; [prompt] is the field of
    the request body. *)
Definition task (prompt : value) : P unit :=
  match prompt with
  | Some (JStr p) =>
      if String.eqb p EmptyString then reject "Prompt string is required"
      else if negb env_GEMINI_API_KEY then reject "GEMINI_API_KEY not configured"
      else pipeline p
  | _ => reject "Prompt string is required"
  end.

(** The [catch] block of the background task. *)
Definition on_error (e : exn) : P unit :=
  sendLog "Error occurred" error (Some (message_of e)) ;;;
  logs <- gets run_logs ;;
  write (SseError "Failed to run Braintrust evaluation" (Some (message_of e)) (Some logs)).

(** The task [POST] starts in the background, as the records it
    writes to the response stream. *)
Definition background (prompt : value) : P unit := try_catch (task prompt) on_error.

(** [POST(request)]; [request] is what [request.json()] settles to:
    the parsed body, or the rejection for a body that is no JSON text.
    The body is read and taken apart in front of the task and outside
    its [try] block: a [Throw] here is the rejection of the promise
    [POST] returns, with no response and nothing written. *)
Definition POST (request : Result json) : P unit :=
  body <- of_result request ;;
  prompt <- of_result (get (Some body) "prompt") ;;
  background prompt.

End Route.
End Braintrust.

(* ================================================================== *)
(** * [app/api/langsmith-prompts/route.ts] *)
(* ================================================================== *)

Module Langsmith.

Record TestResult : Type := {
  input : string;
  output : string;
  score : value;
  failureReason : value;
  rubricResults : value
}.

Record LogEntry : Type := {
  timestamp : string;
  phase : string;
  status : Status;
  details : option string
}.

Record Metrics : Type := {
  originalPassRate : string;
  totalTests : nat;
  failures : nat
}.

Record Optimization : Type := {
  reasoning : value;
  changes : value
}.

Record Evaluation : Type := {
  originalPrompt : value;
  optimizedPrompt : value;
  promptName : string;
  goal : value;
  rubric : value;
  originalResults : list TestResult;
  metrics : Metrics;
  optimization : Optimization;
  logs : list LogEntry
}.

(** The request body: [{ prompt, goal, promptName, rubric }]. *)
Record Request : Type := {
  req_prompt : value;
  req_goal : value;
  req_promptName : value;
  req_rubric : value
}.

(** An element of [failureAnalysis] in [generateOptimizedPrompt]. *)
Record FailureAnalysis : Type := {
  fa_input : string;
  fa_output : string;
  fa_failureReason : value;
  failedCriteria : list json
}.

(** The instruction texts, left open as in [Braintrust]. *)
Class Prompts : Type := {
  (** The texts of [prompt], of [goal] and of the criteria, and the
      rubric that [JSON.stringify] prints. *)
  generationPrompt : string -> string -> list string -> list json -> string;
  (** The text of [goal], the input, the output and the texts of the
      criteria. *)
  judgePrompt : string -> string -> string -> list string -> string;
  (** The texts of [originalPrompt], of [goal] and of the criteria,
      [failures.length] and the failure analysis that [JSON.stringify]
      prints. *)
  optimizationPrompt :
    string -> string -> list string -> nat -> list FailureAnalysis -> string
}.

Section Route.
Context `{RT : Runtime} `{PR : Prompts}.

(** [generateSyntheticDataset(prompt, goal, rubric)]: the instruction
    text is built in front of the [try] block. *)
Definition generateSyntheticDataset (prompt goal rubric : value) : M Sys (list json) :=
  enter "generateSyntheticDataset" ;;;
  promptText <- of_result (to_text prompt) ;;
  goalText <- of_result (to_text goal) ;;
  criteria <- of_result (as_array rubric) ;;
  criteriaTexts <- of_result (texts_of criteria) ;;
  let generationPrompt := generationPrompt promptText goalText criteriaTexts criteria in
  try_catch
    (response <- call (gemini_generateContent generationPrompt) ;;
     match match_array response with
     | None => throw (Error "Failed to parse Gemini response")
     | Some jsonMatch => of_result (parse_array jsonMatch)
     end)
    (fun geminiError =>
       content <- call (groq_create generationPrompt) ;;
       let response := match content with Some c => c | None => EmptyString end in
       match match_array response with
       | None => throw (Error "Failed to generate test cases with both Gemini and Groq")
       | Some jsonMatch => of_result (parse_array jsonMatch)
       end).

(** [executePromptWithGemini(prompt, input)]. *)
Definition executePromptWithGemini (prompt : value) (input : string) : M Sys string :=
  enter "executePromptWithGemini" ;;;
  template <- of_result (as_string prompt) ;;
  let formattedPrompt := Render.render template input in
  try_catch
    (call (gemini_generateContent formattedPrompt))
    (fun geminiError =>
       content <- call (groq_create formattedPrompt) ;;
       ret (match content with Some c => c | None => EmptyString end)).

(** [rubric.map((r) => ({ criterion: r, passed: false }))]. *)
Definition all_failed (criteria : list json) : json :=
  JArr (map (fun r => JObj [("criterion", r); ("passed", JBool false)]) criteria).

(** [judgeWithClaude(input, output, rubric, goal)]. *)
Definition judgeWithClaude (input output : string) (rubric goal : value) : M Sys json :=
  enter "judgeWithClaude" ;;;
  goalText <- of_result (to_text goal) ;;
  criteria <- of_result (as_array rubric) ;;
  criteriaTexts <- of_result (texts_of criteria) ;;
  let judgePrompt := judgePrompt goalText input output criteriaTexts in
  textContent <- call (anthropic_create 500 judgePrompt) ;;
  let text := match textContent with Some t => t | None => "{}" end in
  match match_object text with
  | None =>
      ret (JObj [("score", JNum 0);
                 ("failureReason", JStr "Failed to parse judge response");
                 ("rubricResults", all_failed criteria)])
  | Some jsonMatch => of_result (parse_object jsonMatch)
  end.

(** [logToLangSmith(promptName, input, output, judgeResult)]. *)
Definition logToLangSmith (promptName : value) (input output : string) (judgeResult : json)
  : M Sys unit :=
  enter "logToLangSmith" ;;;
  call (fun w => (Ok tt, langsmith_trace promptName input output judgeResult w)).

(** The loop of [createFailureDataset] over the failures. *)
Fixpoint createExamples (datasetId : string) (failures : list TestResult) : M Sys unit :=
  match failures with
  | [] => ret tt
  | failure :: rest =>
      call (langsmith_createExample datasetId (input failure) (output failure)
              [("score", score failure);
               ("failureReason", failureReason failure);
               ("rubricResults", rubricResults failure)]) ;;;
      createExamples datasetId rest
  end.

(** [createFailureDataset(datasetName, failures)]. *)
Definition createFailureDataset (datasetName : string) (failures : list TestResult)
  : M Sys unit :=
  enter "createFailureDataset" ;;;
  try_catch
    (datasetId <- call (langsmith_createDataset datasetName) ;;
     createExamples datasetId failures)
    (fun _ => ret tt).

(** [f.rubricResults.filter((r) => !r.passed)]. *)
Fixpoint not_passed (rubricResults : list json) : Result (list json) :=
  match rubricResults with
  | [] => Ok []
  | r :: rest =>
      match get (Some r) "passed" with
      | Throw e => Throw e
      | Ok passed =>
          match not_passed rest with
          | Throw e => Throw e
          | Ok kept => Ok (if truthy passed then kept else r :: kept)
          end
      end
  end.

(** [failures.map((f) => ({ input, output, failureReason, failedCriteria }))]. *)
Fixpoint analyse (failures : list TestResult) : Result (list FailureAnalysis) :=
  match failures with
  | [] => Ok []
  | f :: rest =>
      match as_array (rubricResults f) with
      | Throw e => Throw e
      | Ok rs =>
          match not_passed rs with
          | Throw e => Throw e
          | Ok failed =>
              match analyse rest with
              | Throw e => Throw e
              | Ok others =>
                  Ok ({| fa_input := input f;
                         fa_output := Str.take 200 (output f);
                         fa_failureReason := failureReason f;
                         failedCriteria := failed |} :: others)
              end
          end
      end
  end.

(** [generateOptimizedPrompt(originalPrompt, failures, goal, rubric)]. *)
Definition generateOptimizedPrompt (originalPrompt : value) (failures : list TestResult)
    (goal rubric : value) : M Sys json :=
  enter "generateOptimizedPrompt" ;;;
  failureAnalysis <- of_result (analyse failures) ;;
  promptText <- of_result (to_text originalPrompt) ;;
  goalText <- of_result (to_text goal) ;;
  criteria <- of_result (as_array rubric) ;;
  criteriaTexts <- of_result (texts_of criteria) ;;
  let optimizationPrompt :=
    optimizationPrompt promptText goalText criteriaTexts (length failures)
      failureAnalysis in
  textContent <- call (anthropic_create 2000 optimizationPrompt) ;;
  let text := match textContent with Some t => t | None => "{}" end in
  match match_object text with
  | None => throw (Error "Failed to generate optimization")
  | Some jsonMatch => of_result (parse_object jsonMatch)
  end.

(** ** [POST] *)

Definition P : Type -> Type := M (Run LogEntry Evaluation).

Definition sendLog (phase : string) (status : Status) (details : option string) : P unit :=
  push_log (fun now => {| timestamp := now; phase := phase; status := status;
                          details := details |}).

(** [testCase.input] where a string method is called on it. *)
Definition input_of (testCase : json) : Result string :=
  match get (Some testCase) "input" with
  | Ok v => as_string v
  | Throw e => Throw e
  end.

(** The result pushed for a judged output. *)
Definition result_of (input output : string) (judgeResult : json) : TestResult :=
  {| input := input; output := output;
     score := field "score" judgeResult;
     failureReason := field "failureReason" judgeResult;
     rubricResults := field "rubricResults" judgeResult |}.

(** One turn of the loop of phase 3. *)
Definition test_one (req : Request) (total index : nat) (testCase : json) : P TestResult :=
  input <- of_result (input_of testCase) ;;
  sendLog ("Test " ++ Str.of_nat (index + 1) ++ "/" ++ Str.of_nat total) running
          (Some ("Input: " ++ Str.take 50 input ++ "...")) ;;;
  output <- await (executePromptWithGemini (req_prompt req) input) ;;
  judgeResult <- await (judgeWithClaude input output (field "rubric" testCase)
                          (req_goal req)) ;;
  await (logToLangSmith (req_promptName req) input output judgeResult) ;;;
  scoreText <- of_result (to_text (field "score" judgeResult)) ;;
  sendLog ("Test " ++ Str.of_nat (index + 1) ++ " completed") completed
          (Some ("Score: " ++ scoreText)) ;;;
  ret (result_of input output judgeResult).

(** The loop of phase 3: [results] is the array the turns push to. *)
Fixpoint test_all (req : Request) (total index : nat) (testCases : list json)
    (results : list TestResult) : P (list TestResult) :=
  match testCases with
  | [] => ret results
  | testCase :: rest =>
      r <- test_one req total index testCase ;;
      test_all req total (S index) rest (results ++ [r])
  end.

(** The loop of phase 5: no log entries, the optimized prompt. *)
Fixpoint retest_all (req : Request) (optimizedPrompt : value) (testCases : list json)
    (optimizedResults : list TestResult) : P (list TestResult) :=
  match testCases with
  | [] => ret optimizedResults
  | testCase :: rest =>
      input <- of_result (input_of testCase) ;;
      output <- await (executePromptWithGemini optimizedPrompt input) ;;
      judgeResult <- await (judgeWithClaude input output (field "rubric" testCase)
                              (req_goal req)) ;;
      retest_all req optimizedPrompt rest
        (optimizedResults ++ [result_of input output judgeResult])
  end.

(** [results.filter((r) => r.score === 0)]. *)
Definition failed (results : list TestResult) : list TestResult :=
  filter (fun r => is_zero (score r)) results.

(** Phases 4 and 5: what becomes of [optimizedPrompt],
    [optimizationReasoning] and [changes]. *)
Definition optimize (req : Request) (promptVersion : string) (testCases : list json)
    (failedResults : list TestResult) : P (value * Optimization) :=
  match failedResults with
  | _ :: _ =>
      sendLog "Analyzing failures" running (Some "Creating failure dataset in LangSmith") ;;;
      name <- of_result (to_text (req_promptName req)) ;;
      let datasetName := name ++ "-Failures-" ++ promptVersion in
      await (createFailureDataset datasetName failedResults) ;;;
      sendLog "Generating optimized prompt" running
        (Some "Claude analyzing failure patterns") ;;;
      optimization <- await (generateOptimizedPrompt (req_prompt req) failedResults
                               (req_goal req) (req_rubric req)) ;;
      let optimizedPrompt := field "prompt" optimization in
      let optimizationReasoning := field "reasoning" optimization in
      let changes := field "changes" optimization in
      count <- of_result (length_text changes) ;;
      sendLog "Optimization complete" completed
        (Some ("Generated improved prompt with " ++ count ++ " changes")) ;;;
      sendLog "Testing optimized prompt" running (Some "Running A/B comparison") ;;;
      optimizedResults <- retest_all req optimizedPrompt testCases [] ;;
      let optimizedFailures := length (failed optimizedResults) in
      sendLog "A/B test complete" completed
        (Some ("Original: " ++ Str.of_nat (length failedResults)
               ++ " failures, Optimized: " ++ Str.of_nat optimizedFailures
               ++ " failures")) ;;;
      ret (optimizedPrompt, {| reasoning := optimizationReasoning; changes := changes |})
  | [] =>
      sendLog "All tests passed" completed
        (Some "No optimization needed - prompt is already performing well!") ;;;
      ret (req_prompt req,
           {| reasoning := Some (JStr EmptyString); changes := Some (JArr []) |})
  end.

(** [((results.length - failedResults.length) / results.length) * 100]. *)
Definition pass_rate (results failedResults : list TestResult) : number :=
  scale (div (inject_Z (Z.of_nat (length results) - Z.of_nat (length failedResults)))
             (inject_Z (Z.of_nat (length results))))
        100.

(** The metrics and the final record. *)
Definition report (req : Request) (fullPromptName : string)
    (results failedResults : list TestResult) (optimizedPrompt : value)
    (optimization : Optimization) : P unit :=
  let originalPassRate := pass_rate results failedResults in
  logs <- gets run_logs ;;
  write (SseComplete
           {| originalPrompt := req_prompt req;
              optimizedPrompt := optimizedPrompt;
              promptName := fullPromptName;
              goal := req_goal req;
              rubric := req_rubric req;
              originalResults := results;
              metrics := {| originalPassRate := toFixed 1 originalPassRate;
                            totalTests := length results;
                            failures := length failedResults |};
              optimization := optimization;
              logs := logs |}).

(** Everything from the end of the test loop on. *)
Definition conclude (req : Request) (promptVersion fullPromptName : string)
    (testCases : list json) (results : list TestResult) : P unit :=
  let failedResults := failed results in
  sendLog "Tests completed" completed
    (Some (Str.of_nat (length failedResults) ++ "/" ++ Str.of_nat (length results)
           ++ " tests failed")) ;;;
  o <- optimize req promptVersion testCases failedResults ;;
  report req fullPromptName results failedResults (fst o) (snd o).

(** Phases 1 and 2: the version of the prompt, its full name and the
    test cases. *)
Definition prepare (req : Request) : P (string * string * list json) :=
  (* Phase 1 *)
  name <- of_result (to_text (req_promptName req)) ;;
  sendLog "Saving to Prompt Hub" running
    (Some ("Saving as " ++ Str.dquote ++ name ++ Str.dquote)) ;;;
  now <- gets (fun st => Date_now (world (sys st))) ;;
  let promptVersion := "v" ++ now in
  let fullPromptName := name ++ "-" ++ promptVersion in
  sendLog "Prompt saved" completed (Some ("Version: " ++ promptVersion)) ;;;
  (* Phase 2 *)
  sendLog "Generating test dataset" running
    (Some "Using Gemini 2.0 Flash to create 2 test cases") ;;;
  testCases <- await (generateSyntheticDataset (req_prompt req) (req_goal req)
                        (req_rubric req)) ;;
  sendLog "Dataset generated" completed
    (Some ("Created " ++ Str.of_nat (length testCases) ++ " test cases")) ;;;
  (* Phase 3 *)
  sendLog "Running tests" running (Some "Executing prompt with Gemini 2.0 Flash") ;;;
  ret (promptVersion, fullPromptName, testCases).

(** What follows the three checks at the head of the [try] block. *)
Definition pipeline (req : Request) : P unit :=
  names <- prepare req ;;
  let '(promptVersion, fullPromptName, testCases) := names in
  results <- test_all req (length testCases) 0 testCases [] ;;
  conclude req promptVersion fullPromptName testCases results.

(** A configuration error: logged, reported, and the stream closed. *)
Definition reject (reason err : string) (details : option string) : P unit :=
  sendLog "Error" error (Some reason) ;;;
  write (SseError err details None).

(** The [try] block of the background task. *)
Definition task (req : Request) : P unit :=
  if negb (truthy (req_prompt req)) || negb (truthy (req_goal req))
     || negb (truthy (req_promptName req))
  then reject "Missing required fields" "Missing prompt, goal, or promptName" None
  else if negb env_GEMINI_API_KEY
  then reject "Gemini API key not configured" "Gemini API key not configured"
         (Some "Please add GEMINI_API_KEY to your environment variables")
  else if negb env_LANGSMITH_API_KEY
  then reject "LangSmith API key not configured" "LangSmith API key not configured"
         (Some "Please add LANGSMITH_API_KEY to your environment variables")
  else pipeline req.

(** The [catch] block of the background task. *)
Definition on_error (e : exn) : P unit :=
  sendLog "Error occurred" error (Some (message_of e)) ;;;
  logs <- gets run_logs ;;
  write (SseError "Failed to optimize prompt" (Some (message_of e)) (Some logs)).

(** The task [POST] starts in the background, as the records it
    writes to the response stream. *)
Definition background (req : Request) : P unit := try_catch (task req) on_error.

(** [const { prompt, goal, promptName, rubric } = body]: a
    [TypeError] for [null], and the four members otherwise. *)
Definition destructure (body : json) : Result Request :=
  match body with
  | JNull => Throw TypeError
  | _ =>
      Ok {| req_prompt := field "prompt" body; req_goal := field "goal" body;
            req_promptName := field "promptName" body;
            req_rubric := field "rubric" body |}
  end.

(** [POST(request)]; [request] is what [request.json()] settles to.
    As in [Braintrust], the body is read and taken apart outside the
    [try] block of the task: a [Throw] is the rejection of the promise
    [POST] returns, with nothing written. *)
Definition POST (request : Result json) : P unit :=
  body <- of_result request ;;
  req <- of_result (destructure body) ;;
  background req.

End Route.
End Langsmith.

(* ================================================================== *)
(** * The prompt-test route *)
(* ================================================================== *)

Section Text.
Context `{RT : Runtime}.

(** [String(v)]: the text of [v] as a property key, as the message of
    [new Error(v)] and in [text + v]. *)
Definition to_string (v : value) : Result string := to_text v.

End Text.

(** The route that runs a prompt against one of three built-in
    datasets and answers with one JSON response. *)
Module PromptTest.

Record TestCase : Type := {
  input : string;
  expected_quality : string
}.

(** [SAMPLE_DATASETS]. *)
Definition general : list TestCase :=
  [ {| input := "Explain quantum computing"; expected_quality := "comprehensive" |};
    {| input := "What is photosynthesis?"; expected_quality := "clear" |};
    {| input := "How does blockchain work?"; expected_quality := "detailed" |};
    {| input := "Describe machine learning"; expected_quality := "accessible" |} ].

Definition creative : list TestCase :=
  [ {| input := "Write a story about a robot"; expected_quality := "creative" |};
    {| input := "Compose a haiku about nature"; expected_quality := "poetic" |};
    {| input := "Create a product slogan"; expected_quality := "catchy" |} ].

Definition analytical : list TestCase :=
  [ {| input := "Analyze climate change data"; expected_quality := "analytical" |};
    {| input := "Compare two programming languages"; expected_quality := "balanced" |};
    {| input := "Evaluate market trends"; expected_quality := "data-driven" |} ].

(** The properties an object literal inherits from [Object.prototype]:
    functions all, but for [__proto__], the prototype itself. *)
Definition inherited : list string :=
  [ "constructor"; "__defineGetter__"; "__defineSetter__"; "hasOwnProperty";
    "__lookupGetter__"; "__lookupSetter__"; "isPrototypeOf"; "propertyIsEnumerable";
    "toString"; "valueOf"; "__proto__"; "toLocaleString" ].

(** [SAMPLE_DATASETS[dataset] || SAMPLE_DATASETS.general] up to the
    head of the loop, [testData.entries()]: an inherited member is a
    truthy value on which [entries] is missing or rejects its
    argument, either way a [TypeError]. *)
Definition select (key : string) : Result (list TestCase) :=
  if String.eqb key "general" then Ok general
  else if String.eqb key "creative" then Ok creative
  else if String.eqb key "analytical" then Ok analytical
  else if existsb (String.eqb key) inherited then Throw TypeError
  else Ok general.

Record TestResult : Type := {
  result_input : string;
  output : string;
  passed : value;
  score : value;
  feedback : value
}.

Record Summary : Type := {
  total_tests : nat;
  passed_tests : nat;
  success_rate : string;
  average_score : string
}.

Record Stats : Type := {
  total_assertions : nat;
  passed_assertions : nat;
  failed_assertions : nat
}.

Record Evaluation : Type := {
  prompt : string;
  dataset : value;
  experiment_name : string;
  langsmith_enabled : bool;
  summary : Summary;
  results : list TestResult;
  stats : Stats
}.

(** The three responses: 200, 400 and 500. *)
Inductive Response : Type :=
| Success (evaluation : Evaluation)
| BadRequest (error : string)
| ServerError (error : string) (details : string).

(** What the route needs beyond [Runtime]: identifiers, the run log
    of LangSmith, and the arithmetic of [totalScore], a sum of values
    taken from parsed JSON as they come. *)
Class Host `{RT : Runtime} : Type := {
  uuidv4 : World -> string * World;
  (** [langsmithClient.createRun({name, inputs, outputs, id, ..})]. *)
  langsmith_createRun :
    string -> list (string * string) -> list (string * value) -> string ->
    World -> Result unit * World;
  (** The values of [totalScore], with [0] and [+=].  The sum with a
      value that has no text throws as the conversion of the value
      does, and no other sum throws. *)
  Total : Type;
  total_zero : Total;
  total_add : Total -> value -> Result Total;
  total_add_throws :
    forall (t : Total) (v : value) (e : exn), to_text v = Throw e -> total_add t v = Throw e;
  total_add_returns :
    forall (t : Total) (v : value) (s : string),
      to_text v = Ok s -> exists t', total_add t v = Ok t';
  (** [((totalScore / totalTests) * 10).toFixed(1)] for a positive
      [totalTests]. *)
  average_text : Total -> nat -> string;
  (** The instructions of the evaluator, for an output and a quality. *)
  evaluationPrompt : string -> string -> string
}.

Section Route.
Context `{RT : Runtime} `{HO : @Host RT}.

(** [runClaudePrompt(prompt, input)]. *)
Definition runClaudePrompt (prompt input : string) : M Sys string :=
  enter "runClaudePrompt" ;;;
  let formattedPrompt := Render.render prompt input in
  textContent <- call (anthropic_create 1024 formattedPrompt) ;;
  ret (match textContent with Some t => t | None => EmptyString end).

(** The three verdicts the evaluator makes up itself. *)
Definition made_up (feedback : string) : json :=
  JObj [("score", JNum 0); ("passed", JBool false); ("feedback", JStr feedback)].

(** [evaluateWithLangSmith(output, expectedQuality)]. *)
Definition evaluateWithLangSmith (output expectedQuality : string) : M Sys json :=
  enter "evaluateWithLangSmith" ;;;
  try_catch
    (textContent <- call (anthropic_create 512 (evaluationPrompt output expectedQuality)) ;;
     match textContent with
     | None => ret (made_up "Evaluation failed")
     | Some text =>
         match match_object text with
         | None => ret (made_up "Could not parse evaluation")
         | Some jsonMatch => of_result (parse_object jsonMatch)
         end
     end)
    (fun _ => ret (made_up "Evaluation error occurred")).

(** The variables the loop updates. *)
Record Tally : Type := {
  testResults : list TestResult;
  passedTests : nat;
  totalScore : Total;
  passedAssertions : nat;
  failedAssertions : nat
}.

Definition start : Tally :=
  {| testResults := []; passedTests := 0; totalScore := total_zero;
     passedAssertions := 0; failedAssertions := 0 |}.

Definition pass (t : Tally) : Tally :=
  {| testResults := testResults t; passedTests := S (passedTests t);
     totalScore := totalScore t; passedAssertions := S (passedAssertions t);
     failedAssertions := failedAssertions t |}.

Definition fail (t : Tally) : Tally :=
  {| testResults := testResults t; passedTests := passedTests t;
     totalScore := totalScore t; passedAssertions := passedAssertions t;
     failedAssertions := S (failedAssertions t) |}.

Definition set_total (total : Total) (t : Tally) : Tally :=
  {| testResults := testResults t; passedTests := passedTests t;
     totalScore := total; passedAssertions := passedAssertions t;
     failedAssertions := failedAssertions t |}.

Definition push (r : TestResult) (t : Tally) : Tally :=
  {| testResults := testResults t ++ [r]; passedTests := passedTests t;
     totalScore := totalScore t; passedAssertions := passedAssertions t;
     failedAssertions := failedAssertions t |}.

(** A route function awaited inside the loop. *)
Definition lift {A} (m : M Sys A) : M (Sys * Tally) A :=
  fun st => let (r, s) := m (fst st) in (r, (s, snd st)).

(** An update of the loop's variables. *)
Definition update (f : Tally -> Tally) : M (Sys * Tally) unit :=
  modify (fun st => (fst st, f (snd st))).

(** [totalScore += v]. *)
Definition add (v : value) : M (Sys * Tally) unit :=
  total <- gets (fun st => totalScore (snd st)) ;;
  total' <- of_result (total_add total v) ;;
  update (set_total total').

(** The result pushed when a turn has thrown. *)
Definition broken (testCase : TestCase) : TestResult :=
  {| result_input := input testCase;
     output := "Error running test";
     passed := Some (JBool false);
     score := Some (JNum 0);
     feedback := Some (JStr "Test execution failed") |}.

(** One turn of the loop over [testData.entries()]. *)
Definition test_one (prompt experimentName : string) (tracingEnabled : bool)
    (index : nat) (testCase : TestCase) : M (Sys * Tally) unit :=
  try_catch
    (runId <- lift (call (fun w => let (id, w') := uuidv4 w in (Ok id, w'))) ;;
     output <- lift (runClaudePrompt prompt (input testCase)) ;;
     evaluation <- lift (evaluateWithLangSmith output (expected_quality testCase)) ;;
     (if tracingEnabled then
        try_catch
          (lift (call (langsmith_createRun
                         (experimentName ++ "-test-" ++ Str.of_nat (index + 1))
                         [("prompt", prompt); ("input", input testCase);
                          ("expected_quality", expected_quality testCase)]
                         [("output", Some (JStr output));
                          ("score", field "score" evaluation);
                          ("passed", field "passed" evaluation);
                          ("feedback", field "feedback" evaluation)]
                         runId)))
          (fun langsmithError => ret tt)
      else ret tt) ;;;
     let passed := field "passed" evaluation in
     (if truthy passed then update pass else update fail) ;;;
     add (field "score" evaluation) ;;;
     update (push {| result_input := input testCase;
                     output := output;
                     passed := passed;
                     score := field "score" evaluation;
                     feedback := field "feedback" evaluation |}))
    (fun error =>
       update (push (broken testCase)) ;;;
       update fail).

Fixpoint test_all (prompt experimentName : string) (tracingEnabled : bool)
    (index : nat) (testData : list TestCase) : M (Sys * Tally) unit :=
  match testData with
  | [] => ret tt
  | testCase :: rest =>
      test_one prompt experimentName tracingEnabled index testCase ;;;
      test_all prompt experimentName tracingEnabled (S index) rest
  end.

(** The loop, from the initial values of its variables to their final
    ones. *)
Definition tally (prompt experimentName : string) (tracingEnabled : bool)
    (testData : list TestCase) : M Sys Tally :=
  fun s =>
    match test_all prompt experimentName tracingEnabled 0 testData (s, start) with
    | (Ok _, st) => (Ok (snd st), fst st)
    | (Throw e, st) => (Throw e, fst st)
    end.

(** The [evaluation] of the response. *)
Definition evaluation_of (prompt : string) (dataset : value) (experimentName : string)
    (tracingEnabled : bool) (testData : list TestCase) (t : Tally) : Evaluation :=
  let totalTests := length testData in
  let successRate :=
    if Nat.ltb 0 totalTests
    then scale (div (inject_Z (Z.of_nat (passedTests t))) (inject_Z (Z.of_nat totalTests)))
               100
    else Fin 0 in
  {| prompt := prompt;
     dataset := dataset;
     experiment_name := experimentName;
     langsmith_enabled := tracingEnabled;
     summary :=
       {| total_tests := totalTests;
          passed_tests := passedTests t;
          success_rate := toFixed 1 successRate;
          average_score :=
            if Nat.ltb 0 totalTests then average_text (totalScore t) totalTests
            else toFixed 1 (Fin 0) |};
     results := testResults t;
     stats :=
       {| total_assertions := passedAssertions t + failedAssertions t;
          passed_assertions := passedAssertions t;
          failed_assertions := failedAssertions t |} |}.

(** What follows the check of the prompt; [dataset] is the field of
    the request body, [undefined] if it has none. *)
Definition run (prompt : string) (dataset : value) : M Sys Response :=
  let dataset := match dataset with None => Some (JStr "general") | some => some end in
  (* the property key of [SAMPLE_DATASETS[dataset]] *)
  key <- of_result (to_string dataset) ;;
  id <- call (fun w => let (id, w') := uuidv4 w in (Ok id, w')) ;;
  let experimentName := "prompt-test-" ++ key ++ "-" ++ Str.take 8 id in
  let tracingEnabled := env_LANGSMITH_API_KEY in
  testData <- of_result (select key) ;;
  t <- tally prompt experimentName tracingEnabled testData ;;
  ret (Success (evaluation_of prompt dataset experimentName tracingEnabled testData t)).

(** The [try] block behind the reading of the body, for its fields
    [prompt] and [dataset]. *)
Definition respond (prompt dataset : value) : M Sys Response :=
  match prompt with
  | Some (JStr p) =>
      if String.eqb p EmptyString then ret (BadRequest "Prompt string is required")
      else run p dataset
  | _ => ret (BadRequest "Prompt string is required")
  end.

(** [POST(request)]; [request] is what [request.json()] settles to.
    The body is read and taken apart inside the [try] block. *)
Definition POST (request : Result json) : M Sys Response :=
  try_catch
    (body <- of_result request ;;
     prompt <- of_result (get (Some body) "prompt") ;;
     dataset <- of_result (get (Some body) "dataset") ;;
     respond prompt dataset)
    (fun e => ret (ServerError "Failed to evaluate prompt" (message_of e))).

End Route.
End PromptTest.

(* ================================================================== *)
(** * The list of saved prompts: [GET] *)
(* ================================================================== *)

Module PromptList.

(** One pull on an async iterator. *)
Inductive Step : Type :=
| Item (prompt : json)
| Done
| Fail (e : exn).

(** What the race between [listPrompts] and the timer settles to, as
    far as the route tells values apart. *)
Inductive Listing : Type :=
| Falsy
| AnArray (items : list json)
| AnIterable (next : nat -> Step)
| AnObject (prompts : option (list json))
| WithoutPrompts.

(** [AnIterable next]: the pull number [i] (from 0) gives [next i],
    and the iterator closes normally when the loop leaves it.
    [AnObject (Some items)]: an object whose [prompts] is the array
    [items]; [AnObject None]: one whose [prompts] is no array.
    [WithoutPrompts]: any other truthy value. *)

Inductive Response : Type :=
| Listed (prompts : list json) (count : nat)
| NotConfigured (error : string)
| Failed (error : string) (details : string).

Class Hub `{RT : Runtime} : Type := {
  (** [parseInt(s)]: an integer, [NaN], or an infinity for a text of
      more digits than a double can hold. *)
  parseInt : string -> number;
  (** [Promise.race([langsmithClient.listPrompts({limit, offset}),
      timeoutPromise])]; the timer's rejection is
      [Error "Request timeout"]. *)
  listPrompts : number -> number -> World -> Result Listing * World
}.

Section Route.
Context `{RT : Runtime} `{HU : @Hub RT}.

(** [searchParams.get(name) || fallback]. *)
Definition param (got : option string) (fallback : string) : string :=
  match got with
  | Some s => if String.eqb s EmptyString then fallback else s
  | None => fallback
  end.

(** [limit || 100]: [0] and [NaN] are falsy. *)
Definition maxItems_of (limit : number) : number :=
  match limit with
  | Fin q => if Qeq_bool q 0 then Fin 100 else limit
  | NaN => Fin 100
  | Infinity _ => limit
  end.

(** [count >= maxItems]. *)
Definition reached (count : nat) (maxItems : number) : bool :=
  match maxItems with
  | Fin q => Qle_bool q (inject_Z (Z.of_nat count))
  | NaN => false
  | Infinity negative => negative
  end.

(** The [for await] loop: every turn pulls an item first and then
    looks at [count].  The loop is followed for [pulls] pulls; [None]
    says that it has not ended within them. *)
Fixpoint collect (next : nat -> Step) (maxItems : number) (pulls : nat) (count : nat)
    (promptsArray : list json) : option (Result (list json)) :=
  match pulls with
  | O => None
  | S pulls' =>
      match next count with
      | Fail e => Some (Throw e)
      | Done => Some (Ok promptsArray)
      | Item prompt =>
          if reached count maxItems then Some (Ok promptsArray)
          else collect next maxItems pulls' (S count) (promptsArray ++ [prompt])
      end
  end.

(** The conversion of the response to an array. *)
Definition to_array (pulls : nat) (limit : number) (promptsResponse : Listing)
  : option (Result (list json)) :=
  match promptsResponse with
  | Falsy => Some (Ok [])
  | AnArray items => Some (Ok items)
  | AnIterable next => collect next (maxItems_of limit) pulls 0 []
  | AnObject (Some items) => Some (Ok items)
  | AnObject None => Some (Ok [])
  | WithoutPrompts => Some (Ok [])
  end.

(** [GET(request)] for the query parameters [limit] and [offset],
    followed for [pulls] pulls on an iterator; [None] says that the
    loop over the iterator has not ended within them. *)
Definition GET (pulls : nat) (limit_param offset_param : option string)
  : M Sys (option Response) :=
  try_catch
    (if negb env_LANGSMITH_API_KEY
     then ret (Some (NotConfigured "LangSmith API key not configured"))
     else
       let limit := parseInt (param limit_param "20") in
       let offset := parseInt (param offset_param "0") in
       promptsResponse <- call (listPrompts limit offset) ;;
       match to_array pulls limit promptsResponse with
       | None => ret None
       | Some converted =>
           promptsArray <- of_result converted ;;
           ret (Some (Listed promptsArray (length promptsArray)))
       end)
    (fun e => ret (Some (Failed "Failed to fetch prompts" (message_of e)))).

End Route.
End PromptList.

(* ================================================================== *)
(** * [app/api/llm-judge/route.ts] *)
(* ================================================================== *)

Module LlmJudge.

(** [subject.replace(pattern, replacement)] for a string pattern: the
    first occurrence only, with the [$] patterns of the replacement
    expanded. *)
Fixpoint replace_first (pattern replacement before subject : string) : string :=
  if prefix pattern subject then
    Render.getSubstitution pattern before (Str.drop (Str.len pattern) subject) replacement
    ++ Str.drop (Str.len pattern) subject
  else
    match subject with
    | EmptyString => EmptyString
    | String c rest =>
        String c (replace_first pattern replacement (Str.snoc before c) rest)
    end.

Definition nl : string := String (ascii_of_nat 10) EmptyString.

Definition fence : string := Str.dquote ++ Str.dquote ++ Str.dquote.

(** [JUDGE_PROMPT], in the two parts around [{output_text}]. *)
Definition judge_head : string :=
  "You are an objective AI evaluator. Your task is to assess the quality of an AI assistant's response based strictly on the provided criteria." ++ nl
  ++ nl
  ++ "EVALUATION CRITERIA:" ++ nl
  ++ "1. Clarity (1-5): Is the response easy to understand? Is the language clear and well-structured?" ++ nl
  ++ "2. Accuracy (1-5): Is the information factually correct and reliable?" ++ nl
  ++ "3. Helpfulness (1-5): Does the response effectively address what was asked?" ++ nl
  ++ "4. Completeness (1-5): Does the response cover all relevant aspects of the question?" ++ nl
  ++ nl
  ++ "RESPONSE TO EVALUATE:" ++ nl
  ++ fence ++ nl.

Definition quoted_key (k : string) : string := Str.dquote ++ k ++ Str.dquote.

Definition judge_tail : string :=
  nl ++ fence ++ nl
  ++ nl
  ++ "INSTRUCTIONS:" ++ nl
  ++ "- Rate each criterion on a scale of 1-5 (1=poor, 5=excellent)" ++ nl
  ++ "- Be objective and consistent in your scoring" ++ nl
  ++ "- Provide brief reasoning for each score" ++ nl
  ++ "- Do not be influenced by response length alone" ++ nl
  ++ "- Focus on quality, not style preferences" ++ nl
  ++ nl
  ++ "Respond ONLY with valid JSON in this exact format:" ++ nl
  ++ "{" ++ nl
  ++ "  " ++ quoted_key "clarity" ++ ": <number 1-5>," ++ nl
  ++ "  " ++ quoted_key "accuracy" ++ ": <number 1-5>," ++ nl
  ++ "  " ++ quoted_key "helpfulness" ++ ": <number 1-5>," ++ nl
  ++ "  " ++ quoted_key "completeness" ++ ": <number 1-5>," ++ nl
  ++ "  " ++ quoted_key "reasoning" ++ ": {" ++ nl
  ++ "    " ++ quoted_key "clarity" ++ ": " ++ quoted_key "<one sentence explanation>" ++ "," ++ nl
  ++ "    " ++ quoted_key "accuracy" ++ ": " ++ quoted_key "<one sentence explanation>" ++ "," ++ nl
  ++ "    " ++ quoted_key "helpfulness" ++ ": " ++ quoted_key "<one sentence explanation>" ++ "," ++ nl
  ++ "    " ++ quoted_key "completeness" ++ ": " ++ quoted_key "<one sentence explanation>" ++ nl
  ++ "  }," ++ nl
  ++ "  " ++ quoted_key "overall_score" ++ ": <average of all scores>" ++ nl
  ++ "}".

Definition JUDGE_PROMPT : string := judge_head ++ "{output_text}" ++ judge_tail.

(** [JUDGE_PROMPT.replace("{output_text}", aiOutput)]. *)
Definition judgePrompt_of (aiOutput : string) : string :=
  replace_first "{output_text}" aiOutput EmptyString JUDGE_PROMPT.

Inductive Response : Type :=
| Success (prompt ai_response : string) (evaluation : json)
| BadRequest (error : string)
| ServerError (error : string) (details : string).

Section Route.
Context `{RT : Runtime}.

(** The two steps behind the check of the prompt. *)
Definition judge (prompt : string) : M Sys Response :=
  (* Step 1: Get the initial AI response *)
  initialTextContent <- call (anthropic_create 2048 prompt) ;;
  match initialTextContent with
  | None => throw (Error "No text content in initial response")
  | Some aiOutput =>
      (* Step 2: Send the output to a judge AI *)
      judgeTextContent <- call (anthropic_create 1024 (judgePrompt_of aiOutput)) ;;
      match judgeTextContent with
      | None => throw (Error "No text content in judge response")
      | Some text =>
          match match_object text with
          | None => throw (Error "Could not parse judge evaluation")
          | Some jsonMatch =>
              evaluation <- of_result (parse jsonMatch) ;;
              ret (Success prompt aiOutput evaluation)
          end
      end
  end.

(** The [try] block behind the reading of the body, for its field
    [prompt]. *)
Definition respond (prompt : value) : M Sys Response :=
  match prompt with
  | Some (JStr p) =>
      if String.eqb p EmptyString then ret (BadRequest "Prompt string is required")
      else judge p
  | _ => ret (BadRequest "Prompt string is required")
  end.

(** [POST(request)]; [request] is what [request.json()] settles to.
    The body is read and taken apart inside the [try] block. *)
Definition POST (request : Result json) : M Sys Response :=
  try_catch
    (body <- of_result request ;;
     prompt <- of_result (get (Some body) "prompt") ;;
     respond prompt)
    (fun e => ret (ServerError "Failed to evaluate with LLM judge" (message_of e))).

End Route.
End LlmJudge.

(* ================================================================== *)
(** * [app/page.tsx]: the readers of the event streams *)
(* ================================================================== *)

Module Client.

Definition newline : ascii := ascii_of_nat 10.

(** [s.split("\n")] as the lines before the last separator and the
    piece behind it: [lines.pop()] gives the second, and leaves the
    first. *)
Fixpoint split_lines (s : string) : list string * string :=
  match s with
  | EmptyString => ([], EmptyString)
  | String c rest =>
      let (lines, last) := split_lines rest in
      if Ascii.eqb c newline then (EmptyString :: lines, last)
      else
        match lines with
        | [] => ([], String c last)
        | line :: others => (String c line :: others, last)
        end
  end.

(** [line.startsWith("data: ")] and [line.slice(6)]. *)
Definition payload_of (line : string) : option string :=
  if prefix "data: " line then Some (Str.drop 6 line) else None.

(** The lines handed to the handler when the chunk [chunk] arrives,
    and the new [buffer]. *)
Definition feed (buffer chunk : string) : list string * string :=
  split_lines (buffer ++ chunk).

(** The payloads the handler parses. *)
Fixpoint payloads (lines : list string) : list string :=
  match lines with
  | [] => []
  | line :: rest =>
      match payload_of line with
      | Some p => p :: payloads rest
      | None => payloads rest
      end
  end.

(** What the server writes for a record whose JSON text is [text]:
    [`data: ${JSON.stringify(data)}\n\n`]. *)
Definition frame (text : string) : string :=
  "data: " ++ text ++ String newline (String newline EmptyString).

(** The state the handlers update. *)
Record Ui : Type := {
  processingLogs : list value;
  evaluation : value;
  alerts : list string
}.

Definition add_log (log : value) (ui : Ui) : Ui :=
  {| processingLogs := processingLogs ui ++ [log]; evaluation := evaluation ui;
     alerts := alerts ui |}.

Definition set_evaluation (e : value) (ui : Ui) : Ui :=
  {| processingLogs := processingLogs ui; evaluation := e; alerts := alerts ui |}.

Definition alert (message : string) (ui : Ui) : Ui :=
  {| processingLogs := processingLogs ui; evaluation := evaluation ui;
     alerts := alerts ui ++ [message] |}.

Section Readers.
Context `{RT : Runtime}.

(** The [try] block for one payload, in [runBraintrustEval]. *)
Definition evaluation_event (payload : string) : M Ui unit :=
  data <- of_result (parse payload) ;;
  type <- of_result (get (Some data) "type") ;;
  if is_string "log" type then modify (add_log (field "log" data))
  else if is_string "complete" type then modify (set_evaluation (field "evaluation" data))
  else if is_string "error" type then
    message <- of_result
                 (to_string (or_else (field "error" data) (Some (JStr "Evaluation failed")))) ;;
    throw (Error message)
  else ret tt.

(** One line in [runBraintrustEval]: whatever the [try] block throws
    is logged to the console. *)
Definition evaluation_line (line : string) : M Ui unit :=
  match payload_of line with
  | Some payload => try_catch (evaluation_event payload) (fun e => ret tt)
  | None => ret tt
  end.

(** The [try] block for one payload, in [runLangSmithOptimization]. *)
Definition optimization_event (payload : string) : M Ui unit :=
  data <- of_result (parse payload) ;;
  type <- of_result (get (Some data) "type") ;;
  if is_string "log" type then modify (add_log (field "log" data))
  else if is_string "complete" type then modify (set_evaluation (field "evaluation" data))
  else if is_string "error" type then
    let errorMsg :=
      or_else (or_else (field "details" data) (field "error" data))
              (Some (JStr "Optimization failed")) in
    message <- of_result (to_string errorMsg) ;;
    modify (alert ("Error: " ++ message)) ;;;
    throw (Error message)
  else ret tt.

(** One line in [runLangSmithOptimization]: an error whose message is
    [Optimization failed] is thrown on, any other is logged to the
    console. *)
Definition optimization_line (line : string) : M Ui unit :=
  match payload_of line with
  | Some payload =>
      try_catch (optimization_event payload)
        (fun e =>
           if String.eqb (message_of e) "Optimization failed" then throw e else ret tt)
  | None => ret tt
  end.

(** [for (const line of lines) ..]. *)
Fixpoint handle (on_line : string -> M Ui unit) (lines : list string) : M Ui unit :=
  match lines with
  | [] => ret tt
  | line :: rest => on_line line ;;; handle on_line rest
  end.

(** The reading loop, for a response that arrives in the chunks
    [chunks]: each chunk is appended to [buffer], the complete lines
    are handled and the rest is kept. *)
Fixpoint reading (on_line : string -> M Ui unit) (buffer : string) (chunks : list string)
  : M Ui unit :=
  match chunks with
  | [] => ret tt
  | chunk :: rest =>
      let (lines, buffer') := feed buffer chunk in
      handle on_line lines ;;;
      reading on_line buffer' rest
  end.

(** The body of [runBraintrustEval] from the reading loop on. *)
Definition runBraintrustEval (chunks : list string) : M Ui unit :=
  try_catch
    (reading evaluation_line EmptyString chunks)
    (fun error => modify (alert "Failed to run Braintrust evaluation. Please try again.")).

(** The same for [runLangSmithOptimization]. *)
Definition runLangSmithOptimization (chunks : list string) : M Ui unit :=
  try_catch
    (reading optimization_line EmptyString chunks)
    (fun error =>
       modify (alert "Failed to run LangSmith optimization. Please try again.")).

(** ** [generateRubric]

    The reader of the chat stream keeps no buffer: every chunk is
    split on its own, and all its pieces are handled as lines. *)

(** One line: [None] is the [break] on [[DONE]], which leaves the
    loop over the lines of the chunk. *)
Definition rubric_line (line fullText : string) : option string :=
  match payload_of line with
  | Some data =>
      if String.eqb data "[DONE]" then None
      else
        match parse data with
        | Ok parsed =>
            match get (Some parsed) "text" with
            | Ok text =>
                if truthy text then
                  match to_string text with
                  | Ok t => Some (fullText ++ t)
                  | Throw _ => Some fullText
                  end
                else Some fullText
            | Throw _ => Some fullText
            end
        | Throw _ => Some fullText
        end
  | None => Some fullText
  end.

Fixpoint rubric_lines (lines : list string) (fullText : string) : string :=
  match lines with
  | [] => fullText
  | line :: rest =>
      match rubric_line line fullText with
      | Some fullText' => rubric_lines rest fullText'
      | None => fullText
      end
  end.

(** [chunk.split("\n")], all pieces. *)
Definition pieces (chunk : string) : list string :=
  let (lines, last) := split_lines chunk in (lines ++ [last])%list.

(** The reading loop of [generateRubric]: [fullText] after the chunks
    [chunks]. *)
Fixpoint rubric_read (chunks : list string) (fullText : string) : string :=
  match chunks with
  | [] => fullText
  | chunk :: rest => rubric_read rest (rubric_lines (pieces chunk) fullText)
  end.

(** [s.replace(/fence\s*/g, empty)] for a fence without white space:
    [skip] counts the code units of the fence still to drop, and
    [spaces] tells that the white space behind a fence is being
    dropped. *)
Fixpoint strip (fence : string) (skip : nat) (spaces : bool) (s : string) : string :=
  match s with
  | EmptyString => EmptyString
  | String c s' =>
      match skip with
      | S k => strip fence k true s'
      | O =>
          if spaces && is_space c then strip fence 0 true s'
          else if prefix fence s then strip fence (Str.len fence - 1) true s'
          else String c (strip fence 0 false s')
      end
  end.

Definition backticks : string := "```".

(** [fullText] without [```json] and then without [```], each with the
    white space behind it. *)
Definition without_fences (fullText : string) : string :=
  strip backticks 0 false (strip (backticks ++ "json") 0 false fullText).

(** The state [generateRubric] updates. *)
Record Rubric : Type := {
  suggestedRubric : list json;
  rubric_alerts : list string
}.

(** What [generateRubric] does with the text it has read. *)
Definition suggest (fullText : string) : M Rubric unit :=
  try_catch
    (match match_array (without_fences fullText) with
     | Some jsonMatch =>
         try_catch
           (criteria <- of_result (parse_array jsonMatch) ;;
            match criteria with
            | _ :: _ =>
                modify (fun r => {| suggestedRubric := criteria;
                                    rubric_alerts := rubric_alerts r |})
            | [] => throw (Error "Parsed result is not a valid array")
            end)
           (fun parseError => throw (Error "Failed to parse JSON array from response"))
     | None => throw (Error "No valid JSON array found in response. Please try again.")
     end)
    (fun error =>
       modify (fun r =>
                 {| suggestedRubric := [];
                    rubric_alerts :=
                      rubric_alerts r ++ ["Failed to generate rubric. Please try again."] |})).

(** The body of [generateRubric] from the reading loop on. *)
Definition generateRubric (chunks : list string) : M Rubric unit :=
  suggest (rubric_read chunks EmptyString).

End Readers.
End Client.

(* ================================================================== *)
(** * A scripted runtime *)
(* ================================================================== *)

(** An instance of the run-time interface for concrete runs: every
    provider answers from a script, one entry per call, and rejects
    the call when its script is used up. *)
Module Stub.

(** ** A reader for JSON texts

    It covers the texts used in the examples: [null], [true], [false],
    integers, strings without escapes, arrays and objects.  Of two
    members of an object with the same key the later one gives the
    value, at the place of the earlier one. *)

Definition is_ws (c : ascii) : bool :=
  match nat_of_ascii c with
  | 9 | 10 | 13 | 32 => true
  | _ => false
  end.

Fixpoint skip_ws (s : string) : string :=
  match s with
  | String c s' => if is_ws c then skip_ws s' else s
  | EmptyString => EmptyString
  end.

Definition digit_of (c : ascii) : option Z :=
  let n := nat_of_ascii c in
  if Nat.leb 48 n && Nat.leb n 57 then Some (Z.of_nat (n - 48)) else None.

(** The digits at the head of [s], read from the value [acc] on. *)
Fixpoint read_digits (acc : Z) (s : string) : Z * string :=
  match s with
  | String c s' =>
      match digit_of c with
      | Some d => read_digits (10 * acc + d) s'
      | None => (acc, s)
      end
  | EmptyString => (acc, s)
  end.

(** The characters of a string literal up to its closing quote. *)
Fixpoint read_string (s : string) : option (string * string) :=
  match s with
  | EmptyString => None
  | String c s' =>
      if Ascii.eqb c (ascii_of_nat 34) then Some (EmptyString, s')
      else if Ascii.eqb c (ascii_of_nat 92) then None
      else if Nat.ltb (nat_of_ascii c) 32 then None
      else match read_string s' with
           | Some (t, rest) => Some (String c t, rest)
           | None => None
           end
  end.

Definition head_is (c : ascii) (s : string) : bool :=
  match s with
  | String d _ => Ascii.eqb d c
  | EmptyString => false
  end.

(** The member [key: v] in front of the members [later] that follow
    it in the text. *)
Definition member (key : string) (v : json) (later : list (string * json))
  : list (string * json) :=
  (key, match assoc key later with Some v' => v' | None => v end)
  :: filter (fun kv => negb (String.eqb (fst kv) key)) later.

Fixpoint read_value (fuel : nat) (s : string) {struct fuel} : option (json * string) :=
  match fuel with
  | O => None
  | S fuel' =>
      let s := skip_ws s in
      if prefix "null" s then Some (JNull, Str.drop 4 s)
      else if prefix "true" s then Some (JBool true, Str.drop 4 s)
      else if prefix "false" s then Some (JBool false, Str.drop 5 s)
      else
        match s with
        | EmptyString => None
        | String c rest =>
            if Ascii.eqb c (ascii_of_nat 34) then
              match read_string rest with
              | Some (t, rest') => Some (JStr t, rest')
              | None => None
              end
            else if Ascii.eqb c "[" then
              if head_is "]" (skip_ws rest)
              then Some (JArr [], Str.drop 1 (skip_ws rest))
              else match read_items fuel' rest with
                   | Some (items, rest') => Some (JArr items, rest')
                   | None => None
                   end
            else if Ascii.eqb c "{" then
              if head_is "}" (skip_ws rest)
              then Some (JObj [], Str.drop 1 (skip_ws rest))
              else match read_members fuel' rest with
                   | Some (fields, rest') => Some (JObj fields, rest')
                   | None => None
                   end
            else if Ascii.eqb c "-" then
              match rest with
              | String d _ =>
                  match digit_of d with
                  | Some _ =>
                      let (n, rest') := read_digits 0 rest in
                      Some (JNum (inject_Z (- n)), rest')
                  | None => None
                  end
              | EmptyString => None
              end
            else
              match digit_of c with
              | Some _ =>
                  let (n, rest') := read_digits 0 s in
                  Some (JNum (inject_Z n), rest')
              | None => None
              end
        end
  end
with read_items (fuel : nat) (s : string) {struct fuel} : option (list json * string) :=
  match fuel with
  | O => None
  | S fuel' =>
      match read_value fuel' s with
      | Some (v, rest) =>
          match skip_ws rest with
          | String c rest' =>
              if Ascii.eqb c "," then
                match read_items fuel' rest' with
                | Some (vs, rest'') => Some (v :: vs, rest'')
                | None => None
                end
              else if Ascii.eqb c "]" then Some ([v], rest')
              else None
          | EmptyString => None
          end
      | None => None
      end
  end
with read_members (fuel : nat) (s : string) {struct fuel}
  : option (list (string * json) * string) :=
  match fuel with
  | O => None
  | S fuel' =>
      match skip_ws s with
      | String q rest =>
          if Ascii.eqb q (ascii_of_nat 34) then
            match read_string rest with
            | Some (key, rest1) =>
                match skip_ws rest1 with
                | String colon rest2 =>
                    if Ascii.eqb colon ":" then
                      match read_value fuel' rest2 with
                      | Some (v, rest3) =>
                          match skip_ws rest3 with
                          | String c rest4 =>
                              if Ascii.eqb c "," then
                                match read_members fuel' rest4 with
                                | Some (fs, rest5) => Some (member key v fs, rest5)
                                | None => None
                                end
                              else if Ascii.eqb c "}" then Some ([(key, v)], rest4)
                              else None
                          | EmptyString => None
                          end
                      | None => None
                      end
                    else None
                | EmptyString => None
                end
            | None => None
            end
          else None
      | EmptyString => None
      end
  end.

Definition read_json (s : string) : option json :=
  match read_value (2 * String.length s + 2) s with
  | Some (v, rest) =>
      match skip_ws rest with
      | EmptyString => Some v
      | _ => None
      end
  | None => None
  end.

(** A string literal of a JSON text. *)
Definition quoted (s : string) : string := Str.dquote ++ s ++ Str.dquote.

(** ** Number and value formatting *)

Definition Z_text (z : Z) : string :=
  (if Z.ltb z 0 then "-" else EmptyString) ++ Str.of_nat (Z.to_nat (Z.abs z)).

Fixpoint zeros (n : nat) : string :=
  match n with
  | O => EmptyString
  | S k => String "0" (zeros k)
  end.

(** [x.toFixed(digits)] for a finite [x], rounding the exact value
    half up. *)
Definition fixed (digits : nat) (q : Q) : string :=
  let scale := Z.pow 10 (Z.of_nat digits) in
  let negative := Qle_bool q 0 && negb (Qeq_bool q 0) in
  let a := if negative then Qopp q else q in
  let n := Qfloor (a * inject_Z scale + (1 # 2)) in
  let whole := Z.div n scale in
  let part := Str.of_nat (Z.to_nat (Z.modulo n scale)) in
  (if negative then "-" else EmptyString)
  ++ Z_text whole
  ++ match digits with
     | O => EmptyString
     | _ => "." ++ zeros (digits - String.length part) ++ part
     end.

(** The decimal with [digits] digits behind the point that is
    nearest to [q]. *)
Definition decimal (digits : nat) (q : Q) : Q :=
  let scale := Z.pow 10 (Z.of_nat digits) in
  (inject_Z (Qfloor (Qabs q * inject_Z scale + (1 # 2))) / inject_Z scale)%Q.

(** The shortest decimal that denotes the double [q], tried with
    [digits] digits behind the point and more, [fuel] times. *)
Fixpoint shortest (fuel digits : nat) (q : Q) : string :=
  match fuel with
  | O => fixed digits q
  | S fuel' =>
      match to_double (decimal digits q) with
      | Fin r => if Qeq_bool r (Qabs q) then fixed digits q else shortest fuel' (S digits) q
      | _ => shortest fuel' (S digits) q
      end
  end.

(** [String(x)] for a finite [x] between [10 ^ -6] and [10 ^ 21]. *)
Definition number (q : Q) : string :=
  let r := Qred q in
  if Pos.eqb (Qden r) 1 then Z_text (Qnum r) else shortest 20 1 q.

(** ** The scripts *)

Record Script : Type := {
  gemini_script : list (Result string);
  groq_script : list (Result (option string));
  anthropic_script : list (Result (option string))
}.

Definition unavailable {A} : Result A := Throw (Error "service unavailable").

Definition next_gemini (w : Script) : Result string * Script :=
  match gemini_script w with
  | r :: rest =>
      (r, {| gemini_script := rest; groq_script := groq_script w;
             anthropic_script := anthropic_script w |})
  | [] => (unavailable, w)
  end.

Definition next_groq (w : Script) : Result (option string) * Script :=
  match groq_script w with
  | r :: rest =>
      (r, {| gemini_script := gemini_script w; groq_script := rest;
             anthropic_script := anthropic_script w |})
  | [] => (unavailable, w)
  end.

Definition next_anthropic (w : Script) : Result (option string) * Script :=
  match anthropic_script w with
  | r :: rest =>
      (r, {| gemini_script := gemini_script w; groq_script := groq_script w;
             anthropic_script := rest |})
  | [] => (unavailable, w)
  end.

#[local] Instance runtime : Runtime := {|
  World := Script;
  gemini_generateContent := fun _ => next_gemini;
  groq_create := fun _ => next_groq;
  anthropic_create := fun _ _ => next_anthropic;
  langsmith_createDataset := fun _ w => (Ok "dataset-1", w);
  langsmith_createExample := fun _ _ _ _ w => (Ok tt, w);
  langsmith_trace := fun _ _ _ _ w => w;
  JSON_parse := read_json;
  toISOString := fun _ => "2025-01-01T00:00:00.000Z";
  Date_now := fun _ => "1735689600000";
  env_GEMINI_API_KEY := true;
  env_LANGSMITH_API_KEY := true;
  toFixed_finite := fixed;
  number_text := number;
  engine_message := fun e =>
    match e with
    | Error m => m
    | TypeError => "TypeError"
    | SyntaxError => "SyntaxError"
    end
|}.

(** Instruction texts for the two routes, cut down to their first line
    and the texts they interpolate. *)
#[local] Instance braintrust_prompts : Braintrust.Prompts := {|
  Braintrust.generationPrompt := fun prompt =>
    "You are a test case generator for prompt evaluation. " ++ prompt;
  Braintrust.tonePrompt := fun output expectedTone =>
    "Does this text have a " ++ expectedTone ++ " tone? " ++ output;
  Braintrust.factualityPrompt_recommendation := fun output expected =>
    "Does this output provide relevant recommendations? " ++ output ++ expected;
  Braintrust.factualityPrompt_creative := fun output expected =>
    "Evaluate if this creative output meets the quality criteria. "
    ++ output ++ expected;
  Braintrust.factualityPrompt_factual := fun output expected =>
    "Is this output factually consistent with the expected answer? "
    ++ output ++ expected;
  Braintrust.battlePrompt_recommendation := fun input output =>
    "Is this response helpful and adequate? " ++ input ++ output;
  Braintrust.battlePrompt_compare := fun input output expected =>
    "Compare these two responses. " ++ input ++ output ++ expected;
  Braintrust.improvementPrompt := fun originalPrompt failureAnalysis =>
    "You are a prompt engineering expert. " ++ originalPrompt ++ failureAnalysis
|}.

#[local] Instance langsmith_prompts : Langsmith.Prompts := {|
  Langsmith.generationPrompt := fun prompt goal criteria rubric =>
    "Generate 5 diverse test cases. " ++ prompt ++ goal ++ Str.join Str.nl criteria;
  Langsmith.judgePrompt := fun goal input output criteria =>
    "You are evaluating LLM output against a rubric. "
    ++ goal ++ input ++ output ++ Str.join Str.nl criteria;
  Langsmith.optimizationPrompt := fun originalPrompt goal criteria n failureAnalysis =>
    "You are a prompt engineer. " ++ originalPrompt ++ goal
    ++ Str.join Str.nl criteria
|}.

(** The start of a run: nothing entered, logged or written. *)
Definition start {L E} (w : Script) : Run L E :=
  {| sys := {| world := w; entered := [] |}; run_logs := []; written := [] |}.

End Stub.

(* ================================================================== *)
(** * Scenarios *)
(* ================================================================== *)

(** Requests, provider scripts and the runs they give, for the
    examples that close the development. *)
Module Scenarios.
Import Stub.

#[local] Existing Instance Stub.runtime.
#[local] Existing Instance Stub.braintrust_prompts.
#[local] Existing Instance Stub.langsmith_prompts.

(** [{"k1": v1, ...}] and ["a", ...] as JSON text. *)
Fixpoint members (fields : list (string * string)) : string :=
  match fields with
  | [] => EmptyString
  | [(k, v)] => quoted k ++ ":" ++ v
  | (k, v) :: rest => quoted k ++ ":" ++ v ++ "," ++ members rest
  end.

Definition object (fields : list (string * string)) : string :=
  "{" ++ members fields ++ "}".

(** The request of scenario 1: its body and the fields taken from
    it. *)
Definition body : json :=
  JObj [("prompt", JStr "Answer: {{input}}");
        ("goal", JStr "Answer arithmetic questions");
        ("promptName", JStr "arithmetic");
        ("rubric", JArr [JStr "must state 4"])].

Definition request : Langsmith.Request :=
  {| Langsmith.req_prompt := Some (JStr "Answer: {{input}}");
     Langsmith.req_goal := Some (JStr "Answer arithmetic questions");
     Langsmith.req_promptName := Some (JStr "arithmetic");
     Langsmith.req_rubric := Some (JArr [JStr "must state 4"]) |}.

(** One test case, [{input: "2+2?", rubric: ["must state 4"]}]. *)
Definition case_text : string :=
  object [("input", quoted "2+2?"); ("rubric", "[" ++ quoted "must state 4" ++ "]")].

Definition case_json : json :=
  JObj [("input", JStr "2+2?"); ("rubric", JArr [JStr "must state 4"])].

Definition one_case : string := "[" ++ case_text ++ "]".
Definition two_cases : string := "[" ++ case_text ++ "," ++ case_text ++ "]".

(** Verdicts of the judge. *)
Definition verdict_text (score passed : string) : string :=
  object [("score", score);
          ("rubricResults",
           "[" ++ object [("criterion", quoted "must state 4"); ("passed", passed)] ++ "]")].

Definition rejected {A} : Result A := Throw (Error "503 Service Unavailable").

(** Scenario 1: the completion is [4] and the judge passes it. *)
Definition world_pass : Script :=
  {| gemini_script := [Ok one_case; Ok "4"];
     groq_script := [];
     anthropic_script := [Ok (Some (verdict_text "1" "true"))] |}.

(** Scenario 2: the first provider rejects the completion, the
    fallback provider answers. *)
Definition world_fallback : Script :=
  {| gemini_script := [Ok one_case; rejected];
     groq_script := [Ok (Some "fallback text")];
     anthropic_script := [Ok (Some (verdict_text "1" "true"))] |}.

(** Both providers reject the completion of the first of two test
    cases; the completion of the second would be answered. *)
Definition world_both_fail : Script :=
  {| gemini_script := [Ok two_cases; rejected; Ok "4"];
     groq_script := [rejected];
     anthropic_script := [Ok (Some (verdict_text "1" "true"))] |}.

(** The judge fails the output and the optimizer answers without JSON. *)
Definition world_optimizer_text : Script :=
  {| gemini_script := [Ok one_case; Ok "5"];
     groq_script := [];
     anthropic_script := [Ok (Some (verdict_text "0" "false"));
                          Ok (Some "I cannot suggest an improvement.")] |}.

(** The generator's first answer has no array, its second is empty. *)
Definition world_second_attempt : Script :=
  {| gemini_script := [Ok "Here are your test cases."];
     groq_script := [Ok (Some "[]")];
     anthropic_script := [] |}.

(** Neither answer of the generator has an array. *)
Definition world_no_array : Script :=
  {| gemini_script := [Ok "Here are your test cases."];
     groq_script := [Ok (Some "I have none.")];
     anthropic_script := [] |}.

Definition run (w : Script) : Run Langsmith.LogEntry Langsmith.Evaluation :=
  snd (Langsmith.POST (Ok body) (start w)).

(** The final results of the records written. *)
Fixpoint finals {L E} (records : list (Sse L E)) : list E :=
  match records with
  | [] => []
  | SseComplete e :: rest => e :: finals rest
  | _ :: rest => finals rest
  end.

(** The state in which the test loop of a run starts. *)
Definition prepared (w : Script) : Run Langsmith.LogEntry Langsmith.Evaluation :=
  snd (Langsmith.prepare request (start w)).

Definition judge_world (answer : string) : Sys :=
  {| world := {| gemini_script := []; groq_script := [];
                 anthropic_script := [Ok (Some answer)] |};
     entered := [] |}.

Definition judged (criteria : list json) (answer : string) : Result json :=
  fst (Langsmith.judgeWithClaude "2+2?" "5" (Some (JArr criteria))
         (Some (JStr "Answer arithmetic questions")) (judge_world answer)).

Definition template : string := "Answer: {{input}}".

(** The body of a request to the evaluation route. *)
Definition template_body : json := JObj [("prompt", JStr template)].

(** A test case that asks for a formal tone. *)
Definition formal_case_text : string :=
  object [("input", quoted "2+2?"); ("expected", quoted "4");
          ("metadata", object [("expectedTone", quoted "formal")])].

Definition formal_case : json :=
  JObj [("input", JStr "2+2?"); ("expected", JStr "4");
        ("metadata", JObj [("expectedTone", JStr "formal")])].

(** A test case without metadata. *)
Definition plain_case_text : string :=
  object [("input", quoted "2+2?"); ("expected", quoted "4")].

(** The output is [4]; the judge finds it factual and as good as the
    reference, but not formal; the optimizer answers without JSON. *)
Definition world_informal : Script :=
  {| gemini_script := [Ok ("[" ++ formal_case_text ++ "]")];
     groq_script := [];
     anthropic_script :=
       [Ok (Some "4"); Ok (Some "1"); Ok (Some "Answer: 1"); Ok (Some "0");
        Ok (Some "Sorry, no suggestions.")] |}.

(** A test case whose expected tone is an object with a member
    [toString], which has no text. *)
Definition textless_tone_text : string :=
  object [("input", quoted "2+2?"); ("expected", quoted "4");
          ("metadata",
           object [("expectedTone", object [("toString", "1")])])].

Definition textless_tone_case : json :=
  JObj [("input", JStr "2+2?"); ("expected", JStr "4");
        ("metadata", JObj [("expectedTone", JObj [("toString", JNum 1)])])].

(** The output is [4]; the judge finds it factual and as good as the
    reference and is not asked about the tone; the optimizer answers
    without JSON. *)
Definition world_textless_tone : Script :=
  {| gemini_script := [Ok ("[" ++ textless_tone_text ++ "]")];
     groq_script := [];
     anthropic_script :=
       [Ok (Some "4"); Ok (Some "1"); Ok (Some "Answer: 1");
        Ok (Some "Sorry, no suggestions.")] |}.

(** The output is [4] and the judge finds it factual and as good as
    the reference. *)
Definition world_good : Script :=
  {| gemini_script := [Ok ("[" ++ plain_case_text ++ "]")];
     groq_script := [];
     anthropic_script := [Ok (Some "4"); Ok (Some "1"); Ok (Some "1")] |}.

(** The generator answers with an array whose element has no [input]. *)
Definition world_shapeless : Script :=
  {| gemini_script := [Ok "[{}]"]; groq_script := []; anthropic_script := [] |}.


Definition evaluate (w : Script) : Run Braintrust.LogEntry Braintrust.Evaluation :=
  snd (Braintrust.POST (Ok template_body) (start w)).

Definition no_summary : Braintrust.Summary :=
  {| Braintrust.total_tests := 0; Braintrust.passed_tests := 0;
     Braintrust.failed_tests := 0; Braintrust.success_rate := EmptyString;
     Braintrust.average_score := EmptyString |}.

Definition no_evaluation : Braintrust.Evaluation :=
  {| Braintrust.prompt := EmptyString; Braintrust.summary := no_summary;
     Braintrust.results := []; Braintrust.improvedPrompts := [];
     Braintrust.syntheticDataset := []; Braintrust.logs := [] |}.

(** The final record of a run. *)
Definition final_of (w : Script) : Braintrust.Evaluation :=
  hd no_evaluation (finals (written (evaluate w))).

Definition final_informal : Braintrust.Evaluation :=
  Eval vm_compute in final_of world_informal.

Definition final_good : Braintrust.Evaluation :=
  Eval vm_compute in final_of world_good.

Definition final_textless_tone : Braintrust.Evaluation :=
  Eval vm_compute in final_of world_textless_tone.


(** The system at the start, with the world [w]. *)
Definition fresh (w : Script) : Sys := {| world := w; entered := [] |}.

(** The judge's answers on factuality, quality and tone. *)
Definition judge_answers : Script :=
  {| gemini_script := []; groq_script := [];
     anthropic_script := [Ok (Some "1"); Ok (Some "Answer: 1"); Ok (Some "0")] |}.

Definition world_drained : Script :=
  {| gemini_script := []; groq_script := []; anthropic_script := [] |}.

(** The system once the generator has used up its answers. *)
Definition generated : Sys :=
  {| world := world_drained; entered := ["generateSyntheticDataset"] |}.




Definition no_record : Langsmith.Evaluation :=
  {| Langsmith.originalPrompt := None; Langsmith.optimizedPrompt := None;
     Langsmith.promptName := EmptyString; Langsmith.goal := None;
     Langsmith.rubric := None; Langsmith.originalResults := [];
     Langsmith.metrics := {| Langsmith.originalPassRate := EmptyString;
                             Langsmith.totalTests := 0; Langsmith.failures := 0 |};
     Langsmith.optimization := {| Langsmith.reasoning := None;
                                  Langsmith.changes := None |};
     Langsmith.logs := [] |}.

(** The final record of scenario 1. *)
Definition final_pass : Langsmith.Evaluation :=
  Eval vm_compute in hd no_record (finals (written (run world_pass))).

End Scenarios.

(* ================================================================== *)
(** * The template renderer *)
(* ================================================================== *)

Module RenderFacts.
Import Render.

Lemma length_append (a b : string) :
  String.length (a ++ b) = String.length a + String.length b.
Proof. induction a as [|c a IH]; simpl; [reflexivity | now rewrite IH]. Qed.

Lemma prefix_length (p s : string) :
  prefix p s = true -> String.length p <= String.length s.
Proof.
  revert s; induction p as [|c p IH]; intros [|d s]; simpl; intros H;
    try lia; try discriminate.
  destruct (ascii_dec c d); [apply IH in H; lia | discriminate].
Qed.


(** A replacement text without [$] is taken as it is. *)
Lemma getSubstitution_plain (matched before after replacement : string) :
  Str.occurs "$" replacement = false ->
  getSubstitution matched before after replacement = replacement.
Proof.
  induction replacement as [|c r IH]; simpl; [reflexivity|].
  destruct (Ascii.eqb c "$"); simpl; [discriminate|].
  intros H; now rewrite IH.
Qed.

Lemma replace_loop_ext (f g : string -> string -> string -> string) :
  (forall m b a, f m b a = g m b a) ->
  forall s skip before, replace_loop f skip before s = replace_loop g skip before s.
Proof.
  intros E; induction s as [|c s IH]; intros skip before; simpl; [reflexivity|].
  destruct skip as [|k]; [|apply IH].
  rewrite E, !IH; reflexivity.
Qed.

(** For an input without [$] the renderer replaces every placeholder
    by the input itself. *)
Lemma render_plain (prompt input : string) :
  Str.occurs "$" input = false ->
  render prompt input = render_literal prompt input.
Proof.
  intros H; unfold render, render_literal.
  apply replace_loop_ext; intros; now apply getSubstitution_plain.
Qed.

(** Lengths under literal replacement: every match trades the nine
    code units of the placeholder for the input. *)
Lemma render_literal_length_loop (input : string) :
  forall s skip before,
    skip <= String.length s ->
    String.length (replace_loop (fun _ _ _ => input) skip before s)
      + skip + count_loop skip s * Str.len placeholder
    = String.length s + count_loop skip s * String.length input.
Proof.
  induction s as [|c s IH]; intros skip before Hs.
  - simpl in *; lia.
  - destruct skip as [|k].
    + cbn [replace_loop count_loop].
      destruct (prefix placeholder (String c s)) eqn:E.
      * apply prefix_length in E.
        change (String.length placeholder) with 9 in E.
        change (Str.len placeholder) with 9.
        rewrite length_append.
        specialize (IH 8 (Str.snoc before c)).
        change (9 - 1) with 8.
        cbn [String.length] in *.
        assert (8 <= String.length s) as H8 by lia.
        specialize (IH H8). change (Str.len placeholder) with 9 in IH. lia.
      * specialize (IH 0 (Str.snoc before c)).
        cbn [String.length] in *. lia.
    + cbn [replace_loop count_loop].
      specialize (IH k (Str.snoc before c)).
      cbn [String.length] in *. lia.
Qed.

Lemma render_literal_length (prompt input : string) :
  String.length (render_literal prompt input) + count prompt * Str.len placeholder
  = String.length prompt + count prompt * String.length input.
Proof.
  pose proof (render_literal_length_loop input prompt 0 EmptyString) as H.
  unfold render_literal, count. lia.
Qed.

(** The length property of the renderer for inputs without [$]. *)
Lemma render_length_plain (prompt input : string) :
  Str.occurs "$" input = false ->
  (Z.of_nat (String.length (render prompt input)) - Z.of_nat (String.length prompt)
   = Z.of_nat (count prompt)
     * (Z.of_nat (String.length input) - Z.of_nat (Str.len placeholder)))%Z.
Proof.
  intros H. rewrite (render_plain _ _ H).
  pose proof (render_literal_length prompt input). nia.
Qed.

Example render_scenario_1 : render "Answer: {{input}}" "2+2?" = "Answer: 2+2?".
Proof. reflexivity. Qed.

(** Single pass: a placeholder brought in by the input stays. *)
Example render_single_pass :
  render "a {{input}} b {{input}}" "<{{input}}>" = "a <{{input}}> b <{{input}}>".
Proof. reflexivity. Qed.

(** C2: with the replacement string handed to [replace] as it is, the
    engine expands the patterns [$$], [$&], [$`] and [$'] of a test
    input instead of copying them: the input [Is $$5 enough?] loses a
    dollar sign, the input [$&] turns into the placeholder, and for the
    template [{{input}}] and the input [$$] (which does not contain the
    placeholder) the length changes by -8 where one match and a
    two-character input call for 1 * (2 - 9) = -7. *)
Theorem C2_render_expands_dollar_patterns :
  render "Answer: {{input}}" "Is $$5 enough?" = "Answer: Is $5 enough?"
  /\ render "Answer: {{input}}" "What does $& mean?"
     = "Answer: What does {{input}} mean?"
  /\ render "A {{input}} B" "[$`|$']" = "A [A | B] B"
  /\ includes "$$" placeholder = false
  /\ count "{{input}}" = 1
  /\ (Z.of_nat (String.length (render "{{input}}" "$$"))
      - Z.of_nat (String.length "{{input}}") = -8)%Z
  /\ (Z.of_nat (count "{{input}}")
      * (Z.of_nat (String.length "$$") - Z.of_nat (String.length placeholder)) = -7)%Z.
Proof. repeat split; reflexivity. Qed.

End RenderFacts.

(* ================================================================== *)
(** * Text: the renderer and the bracket matcher, in general *)
(* ================================================================== *)

Module TextFacts.
Import Render.

Lemma occurs_append (c : ascii) (a b : string) :
  Str.occurs c (a ++ b) = Str.occurs c a || Str.occurs c b.
Proof.
  induction a as [|d a IH]; cbn [append Str.occurs]; [reflexivity|].
  now rewrite IH, orb_assoc.
Qed.

Lemma append_assoc (a b c : string) : (a ++ b) ++ c = a ++ (b ++ c).
Proof. induction a as [|d a IH]; cbn; [reflexivity | now rewrite IH]. Qed.

(** ** The bracket matcher *)

Lemma from_first_some (o : ascii) (s t : string) :
  from_first o s = Some t ->
  exists pre rest, s = pre ++ t /\ t = String o rest /\ Str.occurs o pre = false.
Proof.
  revert t; induction s as [|d s IH]; intros t; cbn [from_first]; [discriminate|].
  destruct (Ascii.eqb d o) eqn:E.
  - intros H; inversion H; subst. apply Ascii.eqb_eq in E; subst.
    exists EmptyString, s. repeat split.
  - intros H. destruct (IH _ H) as (pre & rest & -> & -> & Hpre).
    exists (String d pre), rest. cbn [append Str.occurs]. rewrite E, Hpre.
    repeat split.
Qed.

Lemma from_first_none (o : ascii) (s : string) :
  from_first o s = None <-> Str.occurs o s = false.
Proof.
  induction s as [|d s IH]; cbn [from_first Str.occurs]; [tauto|].
  destruct (Ascii.eqb d o); cbn [orb]; [split; discriminate | exact IH].
Qed.

Lemma upto_last_none (c : ascii) (s : string) :
  upto_last c s = None <-> Str.occurs c s = false.
Proof.
  induction s as [|d s IH]; cbn [upto_last Str.occurs]; [tauto|].
  destruct (upto_last c s) as [p|].
  - split; [discriminate|]. intros H. apply orb_false_iff in H.
    destruct H as [_ H]. apply IH in H. discriminate.
  - destruct IH as [IH _]. rewrite (IH eq_refl), orb_false_r.
    destruct (Ascii.eqb d c); split; congruence.
Qed.

Lemma upto_last_some (c : ascii) (s p : string) :
  upto_last c s = Some p ->
  exists body post,
    p = body ++ String c EmptyString /\ s = p ++ post /\ Str.occurs c post = false.
Proof.
  revert p; induction s as [|d s IH]; intros p; cbn [upto_last]; [discriminate|].
  destruct (upto_last c s) as [q|] eqn:E.
  - intros H; inversion H; subst.
    destruct (IH _ eq_refl) as (body & post & -> & Hs & Hpost).
    exists (String d body), post. cbn [append]. rewrite Hs at 1. repeat split.
    assumption.
  - destruct (Ascii.eqb d c) eqn:Ed; [|discriminate].
    intros H; inversion H; subst. apply Ascii.eqb_eq in Ed; subst.
    exists EmptyString, s. repeat split. now apply upto_last_none.
Qed.

(** Of two ways to cut a text at an [o], the one whose first part has
    no [o] cuts first. *)
Lemma first_cut (o : ascii) (pre1 rest1 pre2 rest2 : string) :
  pre1 ++ String o rest1 = pre2 ++ String o rest2 ->
  Str.occurs o pre1 = false ->
  exists mid, rest1 = mid ++ rest2.
Proof.
  revert pre2; induction pre1 as [|x pre1 IH]; intros pre2 H Hno.
  - destruct pre2 as [|y pre2]; cbn [append] in H.
    + injection H as ->. now exists EmptyString.
    + injection H as Hy Hr. subst y rest1.
      exists (pre2 ++ String o EmptyString). now rewrite append_assoc.
  - cbn [Str.occurs] in Hno. apply orb_false_iff in Hno. destruct Hno as [Hx Hno].
    destruct pre2 as [|y pre2]; cbn [append] in H.
    + injection H as Hy Hr. subst x. rewrite Ascii.eqb_refl in Hx. discriminate.
    + injection H as Hy Hr. eapply IH; eassumption.
Qed.

(** ** The renderer *)

Lemma prefix_true (p s : string) :
  prefix p s = true -> exists rest, s = p ++ rest.
Proof.
  revert s; induction p as [|c p IH]; intros s; cbn [prefix].
  - intros _. now exists s.
  - destruct s as [|d s]; [discriminate|].
    cbn [prefix]. destruct (ascii_dec c d) as [->|]; [|discriminate].
    intros H. destruct (IH _ H) as [rest ->]. now exists rest.
Qed.

Lemma prefix_append (p rest : string) : prefix p (p ++ rest) = true.
Proof.
  induction p as [|c p IH]; cbn [append prefix]; [now destruct rest|].
  destruct (ascii_dec c c); [exact IH | congruence].
Qed.

Lemma includes_append (s t rest : string) :
  includes s t = true -> includes (s ++ rest) t = true.
Proof.
  induction s as [|c s IH]; cbn [includes append].
  - rewrite orb_false_r. intros H. apply prefix_true in H.
    destruct H as [r H]. destruct t; [|discriminate].
    destruct rest; reflexivity.
  - intros H. apply orb_true_iff in H. destruct H as [H|H].
    + apply prefix_true in H. destruct H as [r H].
      change (String c (s ++ rest)) with (String c s ++ rest).
      rewrite H, append_assoc, prefix_append. reflexivity.
    + rewrite (IH H). apply orb_true_r.
Qed.

(** Literal replacement does not look at what lies before a match. *)
Lemma replace_loop_before (input : string) (s : string) :
  forall skip before before',
    replace_loop (fun _ _ _ => input) skip before s
    = replace_loop (fun _ _ _ => input) skip before' s.
Proof.
  induction s as [|c s IH]; intros skip before before'; cbn [replace_loop];
    [reflexivity|].
  destruct skip as [|k]; [|apply IH].
  destruct (prefix placeholder (String c s));
    now rewrite (IH _ (Str.snoc before c) (Str.snoc before' c)).
Qed.

(** Behind a match the scan resumes after the placeholder. *)
Lemma replace_loop_skip (subst : string -> string -> string -> string) (p : string) :
  forall before rest,
    replace_loop subst (String.length p) before (p ++ rest)
    = replace_loop subst 0 (before ++ p) rest.
Proof.
  induction p as [|c p IH]; intros before rest; cbn [String.length append].
  - assert (before ++ EmptyString = before) as ->
      by (induction before as [|d b IHb]; cbn; [reflexivity | now rewrite IHb]).
    reflexivity.
  - cbn [replace_loop]. rewrite IH. unfold Str.snoc.
    now rewrite append_assoc.
Qed.

(** The placeholder does not overlap itself: a text without it,
    followed by the placeholder, has no match that starts inside the
    text. *)
Lemma no_straddle (a b : string) :
  a <> EmptyString ->
  includes a placeholder = false ->
  prefix placeholder (a ++ placeholder ++ b) = false.
Proof.
  intros Ha Hno.
  destruct (prefix placeholder (a ++ placeholder ++ b)) eqn:E; [exfalso|reflexivity].
  apply prefix_correct in E. unfold placeholder in E, Hno.
  destruct a as [|c1 [|c2 [|c3 [|c4 [|c5 [|c6 [|c7 [|c8 [|c9 a]]]]]]]]];
    [congruence | cbn in E; inversion E ..|].
  cbn in E. inversion E; subst.
  change (includes ("{{input}}" ++ a) "{{input}}" = false) in Hno.
  rewrite includes_append in Hno by reflexivity. discriminate.
Qed.

Lemma append_empty (s : string) : s ++ EmptyString = s.
Proof. induction s as [|c s IH]; cbn; [reflexivity | now rewrite IH]. Qed.

(** At a match, the substitution is emitted and the scan resumes
    behind the placeholder. *)
Lemma replace_loop_match (subst : string -> string -> string -> string)
    (before b : string) :
  replace_loop subst 0 before (placeholder ++ b)
  = subst placeholder before b ++ replace_loop subst 0 (before ++ placeholder) b.
Proof.
  transitivity (subst placeholder before b
                ++ replace_loop subst (String.length "{input}}") (Str.snoc before "{")
                     ("{input}}" ++ b)).
  - pose proof (prefix_append placeholder b) as Hp.
    change (placeholder ++ b) with (String "{" ("{input}}" ++ b)) in Hp |- *.
    cbn [replace_loop]. rewrite Hp. reflexivity.
  - rewrite replace_loop_skip. unfold Str.snoc. now rewrite append_assoc.
Qed.

Lemma replace_loop_first (subst : string -> string -> string -> string) (a b : string) :
  includes a placeholder = false ->
  forall before,
    replace_loop subst 0 before (a ++ placeholder ++ b)
    = a ++ subst placeholder (before ++ a) b
        ++ replace_loop subst 0 (before ++ a ++ placeholder) b.
Proof.
  induction a as [|c a IH]; intros Hno before.
  - cbn [append]. rewrite append_empty. apply replace_loop_match.
  - pose proof (no_straddle (String c a) b) as Hs.
    change (String c a ++ placeholder ++ b) with (String c (a ++ placeholder ++ b)) in *.
    cbn [replace_loop].
    rewrite Hs; [|discriminate | assumption].
    cbn [includes] in Hno. apply orb_false_iff in Hno. destruct Hno as [_ Hno].
    rewrite (IH Hno). unfold Str.snoc. cbn [append]. rewrite !append_assoc. reflexivity.
Qed.

Lemma replace_loop_no_match (subst : string -> string -> string -> string) (s : string) :
  includes s placeholder = false ->
  forall before, replace_loop subst 0 before s = s.
Proof.
  induction s as [|c s IH]; intros Hno before; cbn [replace_loop]; [reflexivity|].
  cbn [includes] in Hno. apply orb_false_iff in Hno. destruct Hno as [Hp Hno].
  rewrite Hp. now rewrite IH.
Qed.

(** X1: what [s.match(/o[\s\S]*c/)] finds, for two characters [o] and
    [c] ([\[] and [\]] for the datasets and the improved prompts, [{]
    and [}] for the verdicts).  A match starts at the first [o] of [s]
    and ends at the last [c] of [s]: no [o] comes before it and no [c]
    after it, so everything the model wrote around its JSON, and
    nothing else, is cut off.  There is no match exactly when no [c]
    comes after the first [o], that is when [s] has no [o] followed
    somewhere by a [c]. *)
Theorem match_span_leftmost_longest (o c : ascii) (s : string) :
  match match_span o c s with
  | Some m =>
      exists pre body post,
        s = pre ++ m ++ post
        /\ m = String o (body ++ String c EmptyString)
        /\ Str.occurs o pre = false
        /\ Str.occurs c post = false
  | None =>
      forall pre body post, s <> pre ++ String o (body ++ String c post)
  end.
Proof.
  unfold match_span.
  destruct (from_first o s) as [t|] eqn:Ef.
  - destruct (from_first_some o s t Ef) as (pre & rest & Hs & -> & Hpre).
    destruct (upto_last c rest) as [p|] eqn:Eu.
    + destruct (upto_last_some c rest p Eu) as (body & post & -> & Hrest & Hpost).
      exists pre, body, post. repeat split; try assumption.
      rewrite Hs, Hrest. reflexivity.
    + intros pre' body post Hs'. rewrite Hs in Hs'.
      destruct (first_cut o pre rest pre' _ Hs' Hpre) as [mid Hmid].
      apply upto_last_none in Eu. rewrite Hmid, !occurs_append in Eu.
      cbn [Str.occurs] in Eu. rewrite Ascii.eqb_refl in Eu.
      rewrite orb_true_r in Eu. cbn in Eu. rewrite orb_true_r in Eu. discriminate.
  - intros pre body post Hs. apply from_first_none in Ef.
    rewrite Hs, occurs_append in Ef. cbn [Str.occurs] in Ef.
    rewrite Ascii.eqb_refl in Ef. cbn in Ef. rewrite orb_true_r in Ef. discriminate.
Qed.

(** X2: a template without the placeholder is sent as it is, whatever
    the test input: the input does not reach the model. *)
Theorem render_without_placeholder (prompt input : string) :
  includes prompt placeholder = false ->
  render prompt input = prompt.
Proof. intros H. unfold render. now apply replace_loop_no_match. Qed.

(** X3: for a test input without [$], rendering replaces the
    placeholders from left to right, each by the input as it is: the
    text up to the first placeholder stays, the input follows, and the
    text behind the placeholder is rendered in the same way.  The
    input is not scanned again. *)
Theorem render_first_placeholder (before after input : string) :
  Str.occurs "$" input = false ->
  includes before placeholder = false ->
  render (before ++ placeholder ++ after) input
  = before ++ input ++ render after input.
Proof.
  intros Hd Hb.
  rewrite !(RenderFacts.render_plain _ _ Hd). unfold render_literal.
  rewrite (replace_loop_first _ before after Hb). cbn [append].
  do 2 f_equal. apply replace_loop_before.
Qed.

End TextFacts.

(* ================================================================== *)
(** * Conversion to text *)
(* ================================================================== *)

Section Conversion.
Context `{RT : Runtime}.

(** A value that has a text. *)
Definition has_text (v : value) : Prop := exists t, to_text v = Ok t.

Lemma to_text_string (s : string) : to_text (Some (JStr s)) = Ok s.
Proof. reflexivity. Qed.

Lemma has_text_string (s : string) : has_text (Some (JStr s)).
Proof. now exists s. Qed.

(** Induction on a JSON value, with the property at hand for the
    elements of an array. *)
Fixpoint json_elements_ind (P : json -> Prop)
    (Hnull : P JNull) (Hbool : forall b, P (JBool b)) (Hnum : forall q, P (JNum q))
    (Hstr : forall s, P (JStr s))
    (Harr : forall items, Forall P items -> P (JArr items))
    (Hobj : forall fields, P (JObj fields)) (j : json) : P j :=
  match j with
  | JNull => Hnull
  | JBool b => Hbool b
  | JNum q => Hnum q
  | JStr s => Hstr s
  | JArr items =>
      Harr items
        ((fix all (l : list json) : Forall P l :=
            match l with
            | [] => Forall_nil P
            | x :: rest =>
                Forall_cons x (json_elements_ind P Hnull Hbool Hnum Hstr Harr Hobj x)
                  (all rest)
            end) items)
  | JObj fields => Hobj fields
  end.

Lemma join_texts_throws (items : list json) (e : exn) :
  Forall (fun j => forall e, text_of j = Throw e -> e = TypeError) items ->
  join_texts text_of items = Throw e -> e = TypeError.
Proof.
  induction 1 as [|x rest Hx _ IH]; [discriminate|].
  cbn [join_texts]. fold (join_texts text_of rest).
  destruct (match x with JNull => Ok EmptyString | _ => text_of x end) as [t|e'] eqn:Ex.
  - destruct rest as [|y rest']; [discriminate|].
    destruct (join_texts text_of (y :: rest')) as [ts|e''] eqn:Er; [discriminate|].
    intros E. inversion E; subst. now apply IH.
  - intros E. inversion E; subst.
    destruct x; try discriminate; now apply Hx.
Qed.

(** The conversion throws nothing but a [TypeError]. *)
Lemma text_of_throws (j : json) : forall e : exn, text_of j = Throw e -> e = TypeError.
Proof.
  induction j as [| b | q | s | items IH | fields] using json_elements_ind;
    intros e; cbn [text_of]; try discriminate.
  - destruct b; discriminate.
  - now apply join_texts_throws.
  - destruct (assoc "toString" fields); [|discriminate].
    intros E. now inversion E.
Qed.

Lemma to_text_throws (v : value) (e : exn) : to_text v = Throw e -> e = TypeError.
Proof. destruct v as [j|]; [apply text_of_throws | discriminate]. Qed.

(** An object with a member [toString] has no text. *)
Lemma to_text_toString (fields : list (string * json)) (member : json) :
  assoc "toString" fields = Some member ->
  to_text (Some (JObj fields)) = Throw TypeError.
Proof. intros H. cbn [to_text text_of]. now rewrite H. Qed.

Lemma has_text_dec (v : value) : has_text v \/ to_text v = Throw TypeError.
Proof.
  destruct (to_text v) as [t|e] eqn:E; [left; now exists t | right].
  now rewrite (to_text_throws v e E).
Qed.

End Conversion.

(* ================================================================== *)
(** * Reasoning about effects *)
(* ================================================================== *)

Section Keeps.
Context {S : Type} (R : S -> S -> Prop).
Hypothesis R_refl : forall s, R s s.
Hypothesis R_trans : forall a b c, R a b -> R b c -> R a c.

(** [m] moves every state to one related to it, whatever it returns
    or throws. *)
Definition keeps {A} (m : M S A) : Prop := forall s, R s (snd (m s)).

Lemma keeps_ret {A} (a : A) : keeps (ret a).
Proof. intros s; apply R_refl. Qed.

Lemma keeps_throw {A} (e : exn) : keeps (@throw S A e).
Proof. intros s; apply R_refl. Qed.

Lemma keeps_of_result {A} (r : Result A) : keeps (of_result r).
Proof. intros s; apply R_refl. Qed.

Lemma keeps_gets {A} (f : S -> A) : keeps (gets f).
Proof. intros s; apply R_refl. Qed.

Lemma keeps_bind {A B} (m : M S A) (k : A -> M S B) :
  keeps m -> (forall a, keeps (k a)) -> keeps (bind m k).
Proof.
  intros Hm Hk s. unfold bind.
  specialize (Hm s). destruct (m s) as [[a|e] s1]; simpl in *; [|assumption].
  eapply R_trans; [eassumption | apply Hk].
Qed.

Lemma keeps_try_catch {A} (m : M S A) (h : exn -> M S A) :
  keeps m -> (forall e, keeps (h e)) -> keeps (try_catch m h).
Proof.
  intros Hm Hh s. unfold try_catch.
  specialize (Hm s). destruct (m s) as [[a|e] s1]; simpl in *; [assumption|].
  eapply R_trans; [eassumption | apply Hh].
Qed.

Lemma keeps_attempt {A} (m : M S A) : keeps m -> keeps (attempt m).
Proof.
  intros Hm s. unfold attempt. specialize (Hm s).
  destruct (m s) as [r s1]; assumption.
Qed.

End Keeps.

(** What [obs] gains from one state to a later one is [good]. *)
Definition adds {S X} (obs : S -> list X) (good : X -> Prop) (s s' : S) : Prop :=
  forall x, In x (obs s') -> In x (obs s) \/ good x.

Lemma adds_refl {S X} (obs : S -> list X) good s : adds obs good s s.
Proof. intros x H; left; exact H. Qed.

Lemma adds_trans {S X} (obs : S -> list X) good a b c :
  adds obs good a b -> adds obs good b c -> adds obs good a c.
Proof.
  intros H1 H2 x Hc. destruct (H2 x Hc) as [Hb|Hg]; [now apply H1 | now right].
Qed.

Create HintDb keeps.
#[local] Hint Resolve adds_refl adds_trans : keeps.

Section Effects.
Context `{RT : Runtime}.

(** ** Route functions: which of them are entered *)

(** [m] enters no function called [fn]. *)
Definition quiet (fn : string) {A} (m : M Sys A) : Prop :=
  keeps (adds entered (fun g => g <> fn)) m.

Lemma quiet_call fn {A} (f : World -> Result A * World) : quiet fn (call f).
Proof.
  intros s x. unfold call. destruct (f (world s)); simpl. now left.
Qed.

Lemma quiet_enter fn g : g <> fn -> quiet fn (enter g).
Proof.
  intros Hne s x. unfold enter, modify; simpl.
  rewrite in_app_iff; simpl. intros [H|[<-|[]]]; [now left | now right].
Qed.

(** ** Runs: what is written, and which functions are entered *)

(** Every record [m] writes is [good]. *)
Definition writes {L E} (good : Sse L E -> Prop) {A} (m : M (Run L E) A) : Prop :=
  keeps (adds written good) m.

(** [m] enters no function called [fn]. *)
Definition hushed {L E} (fn : string) {A} (m : M (Run L E) A) : Prop :=
  keeps (adds (fun st => entered (sys st)) (fun g => g <> fn)) m.

Lemma writes_await {L E} good {A} (m : M Sys A) : @writes L E good A (await m).
Proof.
  intros st x. unfold await. destruct (m (sys st)); simpl. now left.
Qed.

Lemma hushed_await {L E} fn {A} (m : M Sys A) : quiet fn m -> @hushed L E fn A (await m).
Proof.
  intros Hm st x. unfold await. specialize (Hm (sys st) x).
  destruct (m (sys st)); simpl in *. assumption.
Qed.

Lemma writes_push_log {L E} (good : Sse L E -> Prop) (mk : string -> L) :
  (forall l, good (SseLog l)) -> writes good (push_log mk).
Proof.
  intros Hl st x. unfold push_log; simpl.
  rewrite in_app_iff; simpl. intros [H|[<-|[]]]; [now left | right; apply Hl].
Qed.

Lemma hushed_push_log {L E} fn (mk : string -> L) : @hushed L E fn unit (push_log mk).
Proof. intros st x. unfold push_log; simpl. now left. Qed.

Lemma writes_write {L E} (good : Sse L E -> Prop) (r : Sse L E) :
  good r -> writes good (write r).
Proof.
  intros Hr st x. unfold write, modify; simpl.
  rewrite in_app_iff; simpl. intros [H|[<-|[]]]; [now left | now right].
Qed.

Lemma hushed_write {L E} fn (r : Sse L E) : hushed fn (write r).
Proof. intros st x. unfold write, modify; simpl. now left. Qed.

End Effects.

(** One step of a proof that a computation keeps an [adds] relation:
    the rule for the construct at its head. *)
Ltac keeps_step :=
  lazymatch goal with
  | |- keeps _ (bind _ _) =>
      apply keeps_bind; [eauto with keeps | | intros]
  | |- keeps _ (try_catch _ _) =>
      apply keeps_try_catch; [eauto with keeps | | intros]
  | |- keeps _ (ret _) => apply keeps_ret; eauto with keeps
  | |- keeps _ (throw _) => apply keeps_throw; eauto with keeps
  | |- keeps _ (of_result _) => apply keeps_of_result; eauto with keeps
  | |- keeps _ (gets _) => apply keeps_gets; eauto with keeps
  | |- keeps _ (attempt _) => apply keeps_attempt
  | |- keeps _ (match ?x with _ => _ end) => destruct x
  | |- keeps _ (let (_, _) := ?x in _) => destruct x
  end.

(** Closes a goal [quiet fn m], [hushed fn m] or [writes good m] for a
    computation built from calls, entries into other functions, log
    entries and facts in [keeps]. *)
Ltac quiet_tac :=
  unfold quiet, hushed, writes;
  repeat first
    [ keeps_step
    | apply quiet_call
    | apply quiet_enter; discriminate
    | apply writes_await
    | apply hushed_await
    | apply hushed_push_log
    | apply hushed_write
    | apply writes_push_log; intros; exact I
    | solve [eauto with keeps] ].

(* ================================================================== *)
(** * The event stream and the order of the phases *)
(* ================================================================== *)

Section Stream.
Context `{RT : Runtime} {L E : Type}.

(** From [st] to [st'] log entries were pushed to [logs] and written
    to the stream, the same ones in the same order, and nothing else
    was written. *)
Definition logs_only (st st' : Run L E) : Prop :=
  exists ls,
    run_logs st' = (run_logs st ++ ls)%list
    /\ written st' = (written st ++ map SseLog ls)%list.

Lemma logs_only_refl (st : Run L E) : logs_only st st.
Proof. exists []. cbn [map]. now rewrite !app_nil_r. Qed.

Lemma logs_only_trans (a b c : Run L E) :
  logs_only a b -> logs_only b c -> logs_only a c.
Proof.
  intros (l1 & H1 & W1) (l2 & H2 & W2). exists (l1 ++ l2)%list.
  rewrite H2, W2, H1, W1, map_app, !app_assoc. split; reflexivity.
Qed.

Lemma logs_only_await {A} (m : M Sys A) : keeps logs_only (await m : M (Run L E) A).
Proof.
  intros st. unfold await. destruct (m (sys st)); cbn [snd].
  exists []. cbn [map run_logs written]. now rewrite !app_nil_r.
Qed.

Lemma logs_only_push_log (mk : string -> L) :
  keeps logs_only (push_log mk : M (Run L E) unit).
Proof.
  intros st. unfold push_log; cbn [snd].
  eexists [_]. cbn [map run_logs written]. split; reflexivity.
Qed.

(** The [logs] field of a final result. *)
Variable logs_of : E -> list L.

(** [final] is a record that ends a stream, and the log entries it
    carries are those of [logs]. *)
Definition terminal (logs : list L) (final : Sse L E) : Prop :=
  match final with
  | SseLog _ => False
  | SseComplete e => logs_of e = logs
  | SseError _ _ (Some l) => l = logs
  | SseError _ _ None => True
  end.

(** From [st] to [st'] log entries were pushed and written, and then
    one terminal record. *)
Definition closed (st st' : Run L E) : Prop :=
  exists ls final,
    run_logs st' = (run_logs st ++ ls)%list
    /\ written st' = (written st ++ map SseLog ls ++ [final])%list
    /\ terminal (run_logs st') final.

(** [m] either closes the stream and returns, or throws having
    written log records only. *)
Definition ends (m : M (Run L E) unit) : Prop :=
  forall st,
    match m st with
    | (Ok _, st') => closed st st'
    | (Throw _, st') => logs_only st st'
    end.

Lemma logs_only_closed (a b c : Run L E) : logs_only a b -> closed b c -> closed a c.
Proof.
  intros (l1 & H1 & W1) (l2 & final & H2 & W2 & T). exists (l1 ++ l2)%list, final.
  rewrite H2, W2, H1, W1, map_app, !app_assoc in *. repeat split; assumption.
Qed.

Lemma ends_bind {A} (m : M (Run L E) A) (k : A -> M (Run L E) unit) :
  keeps logs_only m -> (forall a, ends (k a)) -> ends (bind m k).
Proof.
  intros Hm Hk st. unfold bind. specialize (Hm st).
  destruct (m st) as [[a|e] st1]; cbn [snd] in Hm; [|assumption].
  specialize (Hk a st1). destruct (k a st1) as [[u|e] st2].
  - eapply logs_only_closed; eassumption.
  - eapply logs_only_trans; eassumption.
Qed.

(** The last two statements of a run: read [logs], write the record
    that carries them. *)
Lemma ends_final (record : list L -> Sse L E) :
  (forall logs, terminal logs (record logs)) ->
  ends (bind (gets run_logs) (fun logs => write (record logs))).
Proof.
  intros H st. cbv [bind gets write modify].
  exists [], (record (run_logs st)). cbn [map app run_logs written].
  rewrite app_nil_r. repeat split. apply H.
Qed.

Lemma ends_write (final : Sse L E) :
  (forall logs, terminal logs final) -> ends (write final).
Proof.
  intros H st. cbv [write modify].
  exists [], final. cbn [map app run_logs written].
  rewrite app_nil_r. repeat split. apply H.
Qed.

(** A [try] block that ends the stream unless it throws, with a
    [catch] block that ends it. *)
Lemma ends_try_catch (task : M (Run L E) unit) (on_error : exn -> M (Run L E) unit) :
  ends task ->
  (forall e, ends (on_error e)) ->
  (forall e st, fst (on_error e st) = Ok tt) ->
  forall st, exists st',
    try_catch task on_error st = (Ok tt, st') /\ closed st st'.
Proof.
  intros Ht He Hok st. unfold try_catch. specialize (Ht st).
  destruct (task st) as [[[]|e] st1].
  - now exists st1.
  - specialize (He e st1). specialize (Hok e st1).
    destruct (on_error e st1) as [r st2]. cbn [fst] in Hok. subst r.
    exists st2. split; [reflexivity|]. eapply logs_only_closed; eassumption.
Qed.

End Stream.

#[local] Hint Resolve logs_only_refl logs_only_trans : keeps.

(** Closes a goal [keeps logs_only m] for a computation built from log
    entries, awaited route functions and facts in [keeps]. *)
Ltac logs_tac :=
  repeat first
    [ keeps_step
    | apply logs_only_push_log
    | apply logs_only_await
    | solve [eauto with keeps] ].

Section Trace.
Context `{RT : Runtime}.

(** From [s] to [s'] the route functions entered are [l], in that
    order. *)
Definition trace (s s' : Sys) (l : list string) : Prop :=
  entered s' = (entered s ++ l)%list.

(** From [s] to [s'] only functions named in [names] were entered. *)
Definition enters (names : list string) (s s' : Sys) : Prop :=
  exists l, trace s s' l /\ Forall (fun g => In g names) l.

Lemma enters_refl names s : enters names s s.
Proof. exists []. split; [unfold trace; now rewrite app_nil_r | constructor]. Qed.

Lemma enters_trans names a b c : enters names a b -> enters names b c -> enters names a c.
Proof.
  intros (l1 & H1 & F1) (l2 & H2 & F2). exists (l1 ++ l2)%list.
  unfold trace in *. rewrite H2, H1, app_assoc. split; [reflexivity|].
  apply Forall_app. now split.
Qed.

Lemma enters_call names {A} (f : World -> Result A * World) : keeps (enters names) (call f).
Proof.
  intros s. unfold call. destruct (f (world s)); cbn [snd].
  exists []. split; [unfold trace; cbn; now rewrite app_nil_r | constructor].
Qed.

Lemma enters_enter names g : In g names -> keeps (enters names) (enter g).
Proof.
  intros Hg s. unfold enter, modify; cbn [snd].
  exists [g]. split; [reflexivity | now constructor].
Qed.

(** The same, for the state of a run. *)
Definition run_enters {L E} (names : list string) (st st' : Run L E) : Prop :=
  enters names (sys st) (sys st').

Lemma run_enters_refl {L E} names (st : Run L E) : run_enters names st st.
Proof. apply enters_refl. Qed.

Lemma run_enters_trans {L E} names (a b c : Run L E) :
  run_enters names a b -> run_enters names b c -> run_enters names a c.
Proof. apply enters_trans. Qed.

Lemma run_enters_await {L E} names {A} (m : M Sys A) :
  keeps (enters names) m -> keeps (run_enters names) (await m : M (Run L E) A).
Proof.
  intros Hm st. unfold await. specialize (Hm (sys st)).
  destruct (m (sys st)); cbn [snd] in *. exact Hm.
Qed.

Lemma run_enters_push_log {L E} names (mk : string -> L) :
  keeps (run_enters names) (push_log mk : M (Run L E) unit).
Proof. intros st. apply enters_refl. Qed.

Lemma run_enters_write {L E} names (r : Sse L E) : keeps (run_enters names) (write r).
Proof. intros st. apply enters_refl. Qed.

End Trace.

#[local] Hint Resolve enters_refl enters_trans run_enters_refl run_enters_trans : keeps.

(** Closes a goal [keeps (enters names) m] or [keeps (run_enters names) m]. *)
Ltac enters_tac :=
  repeat first
    [ keeps_step
    | apply enters_call
    | apply enters_enter; cbn [In]; tauto
    | apply run_enters_push_log
    | apply run_enters_write
    | apply run_enters_await
    | solve [eauto with keeps] ].

(* ================================================================== *)
(** * The multi-dimension judge *)
(* ================================================================== *)

Module BraintrustFacts.
Import Braintrust.

Section Facts.
Context `{RT : Runtime} `{PR : Prompts}.

Definition binary (q : Q) : Prop := q = 0%Q \/ q = 1%Q.

(** A yes/no question to the judge always yields 0 or 1: a rejection
    by the provider and an answer without a binary digit both count
    as 0. *)
Lemma ask_binary_total (question : string) (s : Sys) :
  exists q s', ask_binary question s = (Ok q, s') /\ binary q.
Proof.
  unfold ask_binary, try_catch, bind, call, ret.
  destruct (anthropic_create 50 question (world s)) as [[t|e] w]; simpl.
  - eexists _, _; split; [reflexivity|].
    destruct (last_binary_digit _) as [[|]|]; unfold binary; auto.
  - eexists _, _; split; [reflexivity | left; reflexivity].
Qed.

(** [scoreFactuality] throws when [expected] has no text, before the
    judge is asked; with a text it returns 0 or 1. *)
Lemma scoreFactuality_cases (output : string) (expected metadata : value) (s : Sys) :
  match to_text expected with
  | Ok _ => exists q s', scoreFactuality output expected metadata s = (Ok q, s') /\ binary q
  | Throw e =>
      scoreFactuality output expected metadata s
      = (Throw e, {| world := world s; entered := entered s ++ ["scoreFactuality"] |})
  end.
Proof.
  unfold scoreFactuality, bind at 1, enter, modify.
  unfold bind at 1, of_result.
  destruct (to_text expected) as [x|e]; [|reflexivity].
  apply ask_binary_total.
Qed.

(** With texts of [input] and [expected], [scoreBattle] returns 0 or
    1. *)
Lemma scoreBattle_total (input : value) (output : string) (expected metadata : value)
    (s : Sys) (i x : string) :
  to_text input = Ok i -> to_text expected = Ok x ->
  exists q s', scoreBattle input output expected metadata s = (Ok q, s') /\ binary q.
Proof.
  intros Hi Hx.
  unfold scoreBattle, bind at 1, enter, modify.
  unfold bind at 1, of_result. rewrite Hi.
  destruct (is_string "recommendation" (promptType_of metadata)).
  - apply ask_binary_total.
  - unfold bind at 1. rewrite Hx. apply ask_binary_total.
Qed.

(** [scoreTone] returns 1 when no tone is specified; it throws when
    the tone has no text, before the judge is asked; with a text it
    returns 0 or 1. *)
Lemma scoreTone_cases (output : string) (expectedTone : value) (s : Sys) :
  let s0 := {| world := world s; entered := entered s ++ ["scoreTone"] |} in
  if truthy expectedTone then
    match to_text expectedTone with
    | Ok _ => exists q s', scoreTone output expectedTone s = (Ok q, s') /\ binary q
    | Throw e => scoreTone output expectedTone s = (Throw e, s0)
    end
  else scoreTone output expectedTone s = (Ok 1%Q, s0).
Proof.
  unfold scoreTone, bind at 1, enter, modify; simpl.
  destruct (truthy expectedTone); simpl; [|reflexivity].
  unfold bind at 1, of_result.
  destruct (to_text expectedTone) as [t|e]; [|reflexivity].
  unfold try_catch, bind, call, ret; simpl.
  destruct (anthropic_create 10 _ _) as [[c|e] w]; simpl.
  - eexists _, _; split; [reflexivity|].
    destruct (String.eqb _ _); unfold binary; auto.
  - eexists _, _; split; [reflexivity | left; reflexivity].
Qed.

(** The JSON-validity score [evaluateTestCase] assigns. *)
Definition jsonValidity_of (testCase : json) (output : string) : Q :=
  if truthy (get_opt (field "metadata" testCase) "expectsJSON") then
    match parse output with
    | Ok _ => 1%Q
    | Throw _ => 0%Q
    end
  else 1%Q.

(** The mean of the four dimension scores. *)
Definition mean (scores : Scores) : Q :=
  ((factuality scores + battle scores + jsonValidity scores + tone scores) / 4)%Q.

(** The scores of an output for a test case with the members
    [expected] and [metadata].  When [expected] has no text, the first
    scorer throws and every score stays 0.  Otherwise factuality and
    battle are 0 or 1, the JSON dimension is 1 when no JSON is
    expected and else tells whether the output parses, and the tone
    dimension is 1 when no tone is specified; [overall] is the mean of
    the four, unless a tone is specified that has no text: then the
    tone scorer throws, and tone and [overall] stay 0 beside the three
    dimensions scored before. *)
Definition scored (expected metadata : value) (output : string) (scores : Scores) : Prop :=
  match to_text expected with
  | Throw _ => scores = initial_scores
  | Ok _ =>
      binary (factuality scores) /\ binary (battle scores)
      /\ jsonValidity scores
         = (if truthy (get_opt metadata "expectsJSON")
            then match parse output with Ok _ => 1%Q | Throw _ => 0%Q end
            else 1%Q)
      /\ if truthy (get_opt metadata "expectedTone") then
           match to_text (get_opt metadata "expectedTone") with
           | Ok _ => binary (tone scores) /\ overall scores = mean scores
           | Throw _ => tone scores = 0%Q /\ overall scores = 0%Q
           end
         else tone scores = 1%Q /\ overall scores = mean scores
  end.

(** For a test case of the run loop (its [input] is a string)
    [evaluateTestCase] returns, and never throws. *)
Lemma evaluateTestCase_scores (testCase : json) (output input : string) (s : Sys) :
  field "input" testCase = Some (JStr input) ->
  exists scores s',
    evaluateTestCase testCase output s = (Ok scores, s')
    /\ scored (field "expected" testCase) (field "metadata" testCase) output scores.
Proof.
  intros Hin.
  assert (testCase <> JNull) as Hnn by (intros ->; discriminate).
  unfold evaluateTestCase, bind at 1, enter, modify; cbn beta iota.
  set (s0 := {| world := world s; entered := entered s ++ ["evaluateTestCase"] |}).
  unfold evaluate_block, scored.
  assert (forall k, get (Some testCase) k = Ok (field k testCase)) as Hget
    by (intros k; destruct testCase; try reflexivity; congruence).
  unfold bind, of_result, scoring, assign, modify; rewrite !Hget; cbn [fst snd].
  pose proof (scoreFactuality_cases output (field "expected" testCase)
                (field "metadata" testCase) s0) as Hf.
  destruct (to_text (field "expected" testCase)) as [x|e] eqn:Ex.
  2:{ rewrite Hf. cbn [fst snd]. eexists _, _. split; reflexivity. }
  destruct Hf as (f & s1 & -> & Hf).
  cbn [fst snd].
  destruct (scoreBattle_total (field "input" testCase) output
              (field "expected" testCase) (field "metadata" testCase) s1 input x)
    as (b & s2 & -> & Hb); [rewrite Hin; reflexivity | assumption |].
  cbn [fst snd].
  pose proof (scoreTone_cases output
                (get_opt (field "metadata" testCase) "expectedTone") s2) as Ht.
  cbv zeta in Ht.
  destruct (truthy (get_opt (field "metadata" testCase) "expectsJSON"));
    [destruct (parse output)|];
    (destruct (truthy (get_opt (field "metadata" testCase) "expectedTone")) eqn:Et;
     cbn [fst snd];
     [ destruct (to_text (get_opt (field "metadata" testCase) "expectedTone"));
       [ destruct Ht as (t & s3 & -> & Ht) | rewrite Ht ]; cbn [fst snd]
     | ];
     eexists _, _; (split; [reflexivity|]); cbn;
     repeat split; auto; unfold binary; auto).
Qed.

(** ** Which functions a run enters, and what it writes *)

(** The one-shot optimizer of this route. *)
Definition optimizer : string := "getImprovedPrompts".

Lemma quiet_generateSyntheticDataset prompt :
  quiet optimizer (generateSyntheticDataset prompt).
Proof. unfold generateSyntheticDataset; quiet_tac. Qed.

Lemma quiet_runPrompt prompt input : quiet optimizer (runPrompt prompt input).
Proof. unfold runPrompt; quiet_tac. Qed.

Lemma quiet_ask_binary question : quiet optimizer (ask_binary question).
Proof. unfold ask_binary; quiet_tac. Qed.

Lemma quiet_scoreFactuality output expected metadata :
  quiet optimizer (scoreFactuality output expected metadata).
Proof.
  unfold scoreFactuality; quiet_tac; apply quiet_ask_binary.
Qed.

Lemma quiet_scoreBattle input output expected metadata :
  quiet optimizer (scoreBattle input output expected metadata).
Proof.
  unfold scoreBattle; quiet_tac; apply quiet_ask_binary.
Qed.

Lemma quiet_scoreTone output expectedTone :
  quiet optimizer (scoreTone output expectedTone).
Proof. unfold scoreTone; quiet_tac. Qed.

#[local] Hint Resolve quiet_generateSyntheticDataset quiet_runPrompt
  quiet_scoreFactuality quiet_scoreBattle quiet_scoreTone : keeps.

Definition scoring_quiet {A} (m : M (Sys * Scores) A) : Prop :=
  keeps (adds (fun st => entered (fst st)) (fun g => g <> optimizer)) m.

Lemma scoring_quiet_scoring {A} (m : M Sys A) :
  quiet optimizer m -> scoring_quiet (scoring m).
Proof.
  intros Hm st x. unfold scoring. specialize (Hm (fst st) x).
  destruct (m (fst st)); simpl in *. assumption.
Qed.

Lemma scoring_quiet_assign f : scoring_quiet (assign f).
Proof. intros st x. unfold assign, modify; simpl. now left. Qed.

Lemma scoring_quiet_evaluate_block testCase output :
  scoring_quiet (evaluate_block testCase output).
Proof.
  unfold evaluate_block, scoring_quiet.
  repeat first
    [ keeps_step
    | apply scoring_quiet_assign
    | apply scoring_quiet_scoring; solve [eauto with keeps]
    | solve [eauto with keeps] ].
Qed.

Lemma quiet_evaluateTestCase testCase output :
  quiet optimizer (evaluateTestCase testCase output).
Proof.
  unfold evaluateTestCase, quiet.
  keeps_step. { apply quiet_enter; discriminate. }
  intros s x.
  pose proof (scoring_quiet_evaluate_block testCase output (s, initial_scores) x) as H.
  destruct (evaluate_block testCase output (s, initial_scores)) as [r st].
  exact H.
Qed.

#[local] Hint Resolve quiet_evaluateTestCase : keeps.

Section Written.
Variable good : Sse LogEntry Evaluation -> Prop.
Hypothesis good_log : forall l, good (SseLog l).

Lemma writes_sendLog step status details : writes good (sendLog step status details).
Proof. apply writes_push_log, good_log. Qed.

Lemma writes_evaluate_one prompt total index testCase :
  writes good (evaluate_one prompt total index testCase).
Proof.
  unfold evaluate_one, writes.
  repeat first [ keeps_step | apply writes_sendLog | apply writes_await ].
Qed.

Lemma writes_evaluate_all prompt total testCases :
  forall index results, writes good (evaluate_all prompt total index testCases results).
Proof.
  induction testCases as [|testCase rest IH]; intros index results; cbn [evaluate_all].
  - apply keeps_ret; eauto with keeps.
  - apply keeps_bind; [eauto with keeps | apply writes_evaluate_one | intros; apply IH].
Qed.

Lemma writes_prepare prompt : writes good (prepare prompt).
Proof.
  unfold prepare, writes.
  repeat first [ keeps_step | apply writes_sendLog | apply writes_await ].
Qed.

Lemma writes_improve prompt failedTests : writes good (improve prompt failedTests).
Proof.
  unfold improve, writes.
  repeat first [ keeps_step | apply writes_sendLog | apply writes_await ].
Qed.

Lemma writes_reject reason : good (SseError reason None None) -> writes good (reject reason).
Proof.
  intros H. unfold reject, writes.
  repeat first [ keeps_step | apply writes_sendLog | apply writes_write; assumption ].
Qed.

End Written.




(** ** Runs, step by step *)

(** The state after [sendLog(step, status, details)]. *)
Definition logged (st : Run LogEntry Evaluation) (step : string) (status : Status)
    (details : option string) : Run LogEntry Evaluation :=
  let log := {| timestamp := toISOString (world (sys st)); step := step;
                status := status; details := details |} in
  {| sys := sys st; run_logs := run_logs st ++ [log];
     written := written st ++ [SseLog log] |}.

Lemma sendLog_eq step status details st :
  sendLog step status details st = (Ok tt, logged st step status details).
Proof. reflexivity. Qed.

(** A request that passes the two checks runs the pipeline. *)
Lemma task_accepted (p : string) :
  p <> EmptyString -> env_GEMINI_API_KEY = true ->
  task (Some (JStr p)) = pipeline p.
Proof.
  intros Hp Hk. unfold task.
  apply String.eqb_neq in Hp. now rewrite Hp, Hk.
Qed.


(** ** The generator *)

(** What the generator makes of the first provider's answer. *)
Definition first_attempt (r : Result string) : Result (list json) :=
  match r with
  | Ok response =>
      match match_array response with
      | None => Throw (Error "Failed to parse Gemini response as JSON")
      | Some jsonMatch => parse_array jsonMatch
      end
  | Throw e => Throw e
  end.

(** What it makes of the fallback provider's answer. *)
Definition second_attempt (r : Result (option string)) : Result (list json) :=
  match r with
  | Ok content =>
      match match_array (match content with Some c => c | None => EmptyString end) with
      | None =>
          Throw (Error "Failed to generate synthetic dataset with both Gemini and Groq")
      | Some jsonMatch => parse_array jsonMatch
      end
  | Throw e => Throw e
  end.

(** The generator asks the first provider; whenever that attempt
    fails, be it by a rejection, by an answer without a bracketed part
    or by one that is not JSON, it asks the fallback provider, once. *)
Lemma generateSyntheticDataset_eq (prompt : string) (s : Sys) :
  generateSyntheticDataset prompt s =
  let names := (entered s ++ ["generateSyntheticDataset"])%list in
  let (r1, w1) := gemini_generateContent (generationPrompt prompt) (world s) in
  match first_attempt r1 with
  | Ok testCases => (Ok testCases, {| world := w1; entered := names |})
  | Throw _ =>
      let (r2, w2) := groq_create (generationPrompt prompt) w1 in
      (second_attempt r2, {| world := w2; entered := names |})
  end.
Proof.
  unfold generateSyntheticDataset, bind at 1, enter, modify, try_catch, bind, call.
  cbn [world entered].
  destruct (gemini_generateContent _ _) as [[response|e] w1]; cbn.
  - destruct (match_array response) as [m|]; cbn.
    + unfold of_result. destruct (parse_array m); cbn; [reflexivity|].
      destruct (groq_create _ _) as [[c|e'] w2]; cbn; [|reflexivity].
      destruct (match_array _); reflexivity.
    + destruct (groq_create _ _) as [[c|e'] w2]; cbn; [|reflexivity].
      destruct (match_array _); reflexivity.
  - destruct (groq_create _ _) as [[c|e'] w2]; cbn; [|reflexivity].
    destruct (match_array _); reflexivity.
Qed.

(** A run whose generator throws. *)
Lemma generation_failure_run (p : string) (st : Run LogEntry Evaluation) (e : exn)
    (s1 : Sys) :
  p <> EmptyString -> env_GEMINI_API_KEY = true ->
  generateSyntheticDataset p (sys st) = (Throw e, s1) ->
  exists st' l1 l2 l3,
    background (Some (JStr p)) st = (Ok tt, st')
    /\ written st'
       = (written st
          ++ [SseLog l1; SseLog l2; SseLog l3;
              SseError "Failed to run Braintrust evaluation" (Some (message_of e))
                       (Some (run_logs st'))])%list
    /\ step l3 = "Error occurred" /\ status l3 = error
    /\ details l3 = Some (message_of e).
Proof.
  intros Hp Hk Hgen.
  unfold background. rewrite (task_accepted p Hp Hk).
  unfold try_catch, pipeline, prepare.
  cbv beta iota zeta delta [bind sendLog push_log await ret].
  cbn [sys run_logs written].
  rewrite Hgen.
  cbv beta iota zeta delta [on_error bind sendLog push_log gets write modify].
  cbn [sys run_logs written].
  eexists _, _, _, _.
  split; [reflexivity|].
  split; [cbn [written]; rewrite <- !app_assoc; reflexivity|].
  repeat split; reflexivity.
Qed.

Lemma no_complete_app {L E} (l : list (Sse L E)) (l' : list (Sse L E)) :
  (forall r, In r l -> is_complete r = false) ->
  forallb (fun r => negb (is_complete r)) l' = true ->
  forall r, In r (l ++ l') -> is_complete r = false.
Proof.
  intros Hl Hl' r Hr. apply in_app_or in Hr. destruct Hr as [H|H]; [now apply Hl|].
  rewrite forallb_forall in Hl'. apply Hl' in H. now destruct (is_complete r).
Qed.

(** ** The one-shot optimizer *)

(** The failure analysis has a text when the [expected] of every
    failed test has one, and throws otherwise. *)
Lemma failure_texts_ok (failedTests : list TestResult) :
  Forall (fun test => has_text (expected test)) failedTests ->
  forall idx, exists ts, failure_texts idx failedTests = Ok ts.
Proof.
  induction 1 as [|test rest [x Hx] _ IH]; intros idx; cbn [failure_texts].
  - now eexists.
  - unfold failure_text. rewrite Hx.
    destruct (IH (S idx)) as [ts ->]. now eexists.
Qed.

Lemma failureAnalysis_ok (failedTests : list TestResult) :
  Forall (fun test => has_text (expected test)) failedTests ->
  exists analysis, failureAnalysis failedTests = Ok analysis.
Proof.
  intros H. unfold failureAnalysis.
  destruct (failure_texts_ok failedTests H 0) as [ts ->]. now eexists.
Qed.

Lemma failure_texts_throw (failedTests : list TestResult) :
  Exists (fun test => ~ has_text (expected test)) failedTests ->
  forall idx, failure_texts idx failedTests = Throw TypeError.
Proof.
  induction 1 as [test rest Hx | test rest _ IH]; intros idx; cbn [failure_texts];
    unfold failure_text.
  - destruct (has_text_dec (expected test)) as [H| ->]; [contradiction | reflexivity].
  - destruct (to_text (expected test)) as [x|e] eqn:Ex.
    + now rewrite IH.
    + now rewrite (to_text_throws _ _ Ex).
Qed.

Lemma failureAnalysis_throw (failedTests : list TestResult) :
  Exists (fun test => ~ has_text (expected test)) failedTests ->
  failureAnalysis failedTests = Throw TypeError.
Proof.
  intros H. unfold failureAnalysis. now rewrite (failure_texts_throw failedTests H 0).
Qed.

(** [getImprovedPrompts] returns once the failure analysis is built:
    whatever the provider and the parser do then is caught. *)
Lemma getImprovedPrompts_total (p : string) (failedTests : list TestResult) (s : Sys)
    (analysis : string) :
  failureAnalysis failedTests = Ok analysis ->
  exists improved s', getImprovedPrompts p failedTests s = (Ok improved, s').
Proof.
  intros Ha.
  unfold getImprovedPrompts, bind at 1, enter, modify.
  unfold bind at 1, of_result. rewrite Ha.
  unfold try_catch, bind, call, ret. cbn [world entered].
  destruct (anthropic_create _ _ _) as [[t|e] w1]; cbn; [|eauto].
  destruct (match_array _) as [m|]; cbn; [|eauto].
  unfold of_result. destruct (parse_array m); cbn; eauto.
Qed.

(** It throws, before the provider is asked, when the failure
    analysis cannot be built. *)
Lemma getImprovedPrompts_throws (p : string) (failedTests : list TestResult) (s : Sys)
    (e : exn) :
  failureAnalysis failedTests = Throw e ->
  getImprovedPrompts p failedTests s
  = (Throw e, {| world := world s; entered := entered s ++ ["getImprovedPrompts"] |}).
Proof.
  intros Ha.
  unfold getImprovedPrompts, bind at 1, enter, modify.
  unfold bind at 1, of_result. now rewrite Ha.
Qed.


(** ** The request *)

(** [POST] rejects a request whose body is no JSON text or is [null],
    with nothing written; for any other body it runs the background
    task on the member [prompt]. *)
Lemma POST_cases (request : Result json) (st : Run LogEntry Evaluation) :
  match request with
  | Throw e => POST request st = (Throw e, st)
  | Ok JNull => POST request st = (Throw TypeError, st)
  | Ok body => POST request st = background (field "prompt" body) st
  end.
Proof. destruct request as [[| | | | |]|]; reflexivity. Qed.

Lemma POST_body (body : json) (p : string) :
  field "prompt" body = Some (JStr p) -> POST (Ok body) = background (Some (JStr p)).
Proof.
  intros H. unfold POST, bind, of_result.
  destruct body; try discriminate. cbn [get]. now rewrite H.
Qed.

(** What [POST] writes, the background task has written. *)
Lemma POST_written (request : Result json) (st : Run LogEntry Evaluation) :
  (exists prompt, POST request st = background prompt st)
  \/ snd (POST request st) = st.
Proof.
  pose proof (POST_cases request st) as H.
  destruct request as [[| | | | |]|]; rewrite H; eauto.
Qed.

(** A final record in the stream of [POST] was written by the
    background task, for the [prompt] member of a parsed body. *)
Lemma POST_complete (request : Result json) (st : Run LogEntry Evaluation)
    (e : Evaluation) :
  (forall r, In r (written st) -> is_complete r = false) ->
  In (SseComplete e) (written (snd (POST request st))) ->
  exists body,
    request = Ok body
    /\ POST request st = background (field "prompt" body) st.
Proof.
  intros Hst Hin. pose proof (POST_cases request st) as H.
  destruct request as [body|e1].
  - exists body. split; [reflexivity|].
    destruct body; try exact H.
    rewrite H in Hin. apply Hst in Hin. discriminate.
  - rewrite H in Hin. apply Hst in Hin. discriminate.
Qed.

(** ** The summary *)

Lemma passing_failing_length (results : list TestResult) :
  length (passing results) + length (failing results) = length results.
Proof.
  unfold passing, failing, Qltb, Qgeb.
  induction results as [|r rest IH]; cbn [filter length]; [reflexivity|].
  destruct (Qle_bool lit_0_8 (overall (scores r))); cbn [negb length]; lia.
Qed.

Lemma failing_iff (results : list TestResult) (r : TestResult) :
  In r (failing results) <-> In r results /\ (overall (scores r) < lit_0_8)%Q.
Proof.
  unfold failing, Qltb. rewrite filter_In.
  split; intros [Hin H]; split; try assumption.
  - apply negb_true_iff in H.
    apply Qnot_le_lt. intros Hle. apply Qle_bool_iff in Hle. congruence.
  - apply negb_true_iff. destruct (Qle_bool _ _) eqn:E; [|reflexivity].
    apply Qle_bool_iff in E. apply Qle_not_lt in E. contradiction.
Qed.

(** The summary of a final record is computed from its results. *)
Definition consistent (r : Sse LogEntry Evaluation) : Prop :=
  match r with
  | SseComplete e => summary e = summarize (results e) (failing (results e))
  | _ => True
  end.

Lemma background_consistent (prompt : value) : writes consistent (background prompt).
Proof.
  assert (forall l, consistent (SseLog l)) as Hlog by (intros; exact I).
  assert (forall reason, writes consistent (reject reason)) as Hrej
    by (intros; apply writes_reject; [assumption | exact I]).
  unfold background, writes. apply keeps_try_catch; [eauto with keeps | |].
  - unfold task.
    destruct prompt as [[| | |p| |]|]; try apply Hrej.
    destruct (String.eqb p EmptyString); [apply Hrej|].
    destruct (negb env_GEMINI_API_KEY); [apply Hrej|].
    unfold pipeline.
    apply keeps_bind; [eauto with keeps | now apply writes_prepare | intros testCases].
    apply keeps_bind; [eauto with keeps | now apply writes_evaluate_all | intros results].
    unfold conclude.
    apply keeps_bind; [eauto with keeps | now apply writes_sendLog | intros _].
    apply keeps_bind; [eauto with keeps | now apply writes_improve | intros improved].
    unfold report.
    apply keeps_bind; [eauto with keeps | now apply writes_sendLog | intros _].
    apply keeps_bind; [eauto with keeps | apply keeps_gets; eauto with keeps | intros logs].
    apply writes_write. reflexivity.
  - intros e. unfold on_error.
    apply keeps_bind; [eauto with keeps | now apply writes_sendLog | intros _].
    apply keeps_bind; [eauto with keeps | apply keeps_gets; eauto with keeps | intros logs].
    apply writes_write. exact I.
Qed.

(** The optimizer is called with the list [failedTests] when
    [improve] returns for a list that is not empty. *)
Lemma improve_calls (p : string) (failedTests : list TestResult)
    (st st' : Run LogEntry Evaluation) (improved : list json) :
  failedTests <> [] ->
  improve p failedTests st = (Ok improved, st') ->
  getImprovedPrompts p failedTests (sys st) = (Ok improved, sys st').
Proof.
  intros Hne. unfold improve.
  destruct failedTests as [|f fs]; [congruence|].
  cbv beta iota zeta delta [bind sendLog push_log await ret].
  cbn [sys run_logs written].
  destruct (getImprovedPrompts p (f :: fs) (sys st)) as [[improved'|e] s1];
    cbn [sys]; [|discriminate].
  intros H. now inversion H.
Qed.

(** The run behind a final record: the dataset was generated, the
    loop returned the results of the record, and [improve] was run on
    the failing ones of them. *)
Lemma final_record_run (prompt : value) (st : Run LogEntry Evaluation) (e : Evaluation) :
  (forall r, In r (written st) -> is_complete r = false) ->
  In (SseComplete e) (written (snd (background prompt st))) ->
  exists p testCases st1 st2 improved st3,
    prompt = Some (JStr p)
    /\ prepare p st = (Ok testCases, st1)
    /\ evaluate_all p (length testCases) 0 testCases [] st1 = (Ok (results e), st2)
    /\ sys st2
       = sys (logged st2 "All tests completed" completed
                (Some (Str.of_nat (length (results e)) ++ " tests executed")))
    /\ improve p (failing (results e))
         (logged st2 "All tests completed" completed
            (Some (Str.of_nat (length (results e)) ++ " tests executed")))
       = (Ok improved, st3)
    /\ Braintrust.prompt e = p
    /\ improvedPrompts e = firstn 3 improved
    /\ syntheticDataset e = testCases
    /\ sys (snd (background prompt st)) = sys st3.
Proof.
  intros Hst Hin.
  assert (forall reason st0,
             In (SseComplete e) (written (snd (reject reason st0))) ->
             In (SseComplete e) (written st0)) as Hrej.
  { intros reason st0 H.
    destruct (writes_reject (fun r => is_complete r = false) (fun _ => eq_refl)
                reason eq_refl st0 _ H)
      as [H'|H']; [assumption | discriminate]. }
  assert (forall e1 st0,
             In (SseComplete e) (written (snd (on_error e1 st0))) ->
             In (SseComplete e) (written st0)) as Herr.
  { intros e1 st0. unfold on_error.
    cbv beta iota zeta delta [bind sendLog push_log gets write modify].
    cbn [sys run_logs written snd]. intros H.
    rewrite !in_app_iff in H. cbn [In] in H.
    destruct H as [[H|[H|[]]]|[H|[]]]; [assumption | discriminate ..]. }
  assert (forall reason, In (SseComplete e) (written (snd (reject reason st))) -> False)
    as Hno by (intros reason H; apply Hrej, Hst in H; discriminate).
  unfold background, try_catch in *.
  destruct (task prompt st) as [r st'] eqn:Et.
  unfold task in Et.
  assert (forall reason, reject reason st = (r, st') ->
                         In (SseComplete e) (written (snd (reject reason st)))) as Hrun.
  { intros reason Hr. rewrite Hr. destruct r as [[]|e1]; cbn [snd] in *; [assumption|].
    apply Herr in Hin. assumption. }
  destruct prompt as [[| | |p| |]|];
    try (exfalso; eapply Hno; eapply Hrun; exact Et).
  destruct (String.eqb p EmptyString);
    [exfalso; eapply Hno; eapply Hrun; exact Et|].
  destruct (negb env_GEMINI_API_KEY);
    [exfalso; eapply Hno; eapply Hrun; exact Et|].
  clear Hrun Hno Hrej.
  unfold pipeline in Et. unfold bind at 1 in Et.
  pose proof (writes_prepare (fun r => is_complete r = false) (fun _ => eq_refl) p st)
    as Hw1.
  destruct (prepare p st) as [[testCases|e1] st1] eqn:Eprep; cbn [snd] in *.
  2:{ inversion Et; subst. cbn [snd] in Hin. apply Herr in Hin.
      destruct (Hw1 _ Hin) as [H|H]; [apply Hst in H|]; discriminate. }
  unfold bind at 1 in Et.
  pose proof (writes_evaluate_all (fun r => is_complete r = false) (fun _ => eq_refl)
                p (length testCases) testCases 0 [] st1) as Hw2.
  assert (forall x, In x (written st1) -> is_complete x = false) as Hst1.
  { intros x Hx. destruct (Hw1 _ Hx) as [H|H]; [now apply Hst | exact H]. }
  destruct (evaluate_all p (length testCases) 0 testCases [] st1)
    as [[results|e2] st2] eqn:Eall; cbn [snd] in *.
  2:{ inversion Et; subst. cbn [snd] in Hin. apply Herr in Hin.
      destruct (Hw2 _ Hin) as [H|H]; [apply Hst1 in H|]; discriminate. }
  assert (forall x, In x (written st2) -> is_complete x = false) as Hst2.
  { intros x Hx. destruct (Hw2 _ Hx) as [H|H]; [now apply Hst1 | exact H]. }
  unfold conclude in Et.
  unfold bind at 1 in Et. rewrite sendLog_eq in Et.
  set (st2' := logged st2 "All tests completed" completed
                 (Some (Str.of_nat (length results) ++ " tests executed"))) in *.
  assert (forall x, In x (written st2') -> is_complete x = false) as Hst2'.
  { intros x Hx. unfold st2', logged in Hx. cbn [written] in Hx.
    apply in_app_or in Hx. destruct Hx as [Hx|[<-|[]]]; [now apply Hst2 | reflexivity]. }
  unfold bind at 1 in Et.
  pose proof (writes_improve (fun r => is_complete r = false) (fun _ => eq_refl)
                p (failing results) st2') as Hw3.
  destruct (improve p (failing results) st2') as [[improved|e3] st3] eqn:Eimp;
    cbn [snd] in *.
  2:{ inversion Et; subst. cbn [snd] in Hin. apply Herr in Hin.
      destruct (Hw3 _ Hin) as [H|H]; [apply Hst2' in H|]; discriminate. }
  revert Et. unfold report.
  cbv beta iota zeta delta [bind sendLog push_log gets write modify].
  cbn [sys run_logs written]. intros Et. inversion Et; subst r st'; clear Et.
  cbn [snd written sys] in *.
  rewrite !in_app_iff in Hin. cbn [In] in Hin.
  destruct Hin as [[Hin|[Hin|[]]]|[Hin|[]]]; try discriminate.
  { destruct (Hw3 _ Hin) as [H|H]; [apply Hst2' in H|]; discriminate. }
  inversion Hin; subst e; clear Hin. cbn.
  exists p, testCases, st1, st2, improved, st3.
  repeat split; try reflexivity; assumption.
Qed.

(** C4: in every final record a run writes, the summary counts the
    results: [total_tests] is their number, [passed_tests] and
    [failed_tests] add up to it, and [failed_tests] is the size of the
    failing set, which holds the results whose overall score is below
    the literal 0.8: one of 0.75 is in it, one of 0.8 is not.  When
    the failing set is not empty it is the list the optimizer was
    called with: the record carries the first three prompts that call
    returned, and the system is left as that call left it. *)
Theorem C4_summary_partitions_results
    (request : Result json) (st : Run LogEntry Evaluation) (e : Evaluation) :
  (forall r, In r (written st) -> is_complete r = false) ->
  In (SseComplete e) (written (snd (POST request st))) ->
  total_tests (summary e) = length (results e)
  /\ passed_tests (summary e) + failed_tests (summary e) = total_tests (summary e)
  /\ failed_tests (summary e) = length (failing (results e))
  /\ (forall r, In r (results e) -> (overall (scores r) == 3 # 4)%Q ->
                In r (failing (results e)))
  /\ (forall r, (overall (scores r) == lit_0_8)%Q -> ~ In r (failing (results e)))
  /\ (failing (results e) <> [] ->
      exists s improved,
        getImprovedPrompts (Braintrust.prompt e) (failing (results e)) s
        = (Ok improved, sys (snd (POST request st)))
        /\ improvedPrompts e = firstn 3 improved).
Proof.
  intros Hst Hin.
  destruct (POST_written request st) as [[prompt HP]|HP]; rewrite HP in *.
  2:{ apply Hst in Hin. discriminate. }
  destruct (background_consistent prompt st _ Hin) as [Hold|Hc].
  { apply Hst in Hold. discriminate. }
  cbn in Hc. rewrite Hc. cbn [summarize total_tests passed_tests failed_tests].
  split; [reflexivity|].
  split; [apply passing_failing_length|].
  split; [reflexivity|].
  split; [|split].
  - intros r Hr Ho. apply failing_iff. split; [assumption|].
    rewrite Ho. reflexivity.
  - intros r Ho Hr. apply failing_iff in Hr. destruct Hr as [_ Hlt].
    rewrite Ho in Hlt. now apply Qlt_irrefl in Hlt.
  - intros Hne.
    destruct (final_record_run prompt st e Hst Hin)
      as (p & testCases & st1 & st2 & improved & st3
          & _ & _ & _ & _ & Himp & Hp & Hfirst & _ & Hsys).
    rewrite Hp, Hsys. eexists _, improved. split; [|exact Hfirst].
    eapply improve_calls; eassumption.
Qed.

(** For the scores the judge produces, quarters from 0 to 1, the
    literal 0.8 separates as the rational 4/5 does. *)
Lemma quarters_threshold (k : Z) :
  (0 <= k <= 4)%Z ->
  Qltb (inject_Z k / 4) lit_0_8 = Qltb (inject_Z k / 4) (4 # 5).
Proof.
  intros Hk.
  assert (k = 0 \/ k = 1 \/ k = 2 \/ k = 3 \/ k = 4)%Z as H by lia.
  destruct H as [->|[->|[->|[->| ->]]]]; reflexivity.
Qed.

(** ** Runs without a failing test *)

Definition not_complete (r : Sse LogEntry Evaluation) : Prop := is_complete r = false.

(** What the end of a run writes for the results [results]. *)
Definition concludes (results : list TestResult) (st st' : Run LogEntry Evaluation)
    (r : Sse LogEntry Evaluation) : Prop :=
  match r with
  | SseComplete e =>
      Braintrust.results e = results
      /\ (failing results = [] ->
          improvedPrompts e = [] /\ entered (sys st') = entered (sys st))
  | _ => True
  end.

Lemma conclude_spec (p : string) (testCases : list json) (results : list TestResult)
    (st : Run LogEntry Evaluation) :
  let st' := snd (conclude p testCases results st) in
  forall x, In x (written st') -> In x (written st) \/ concludes results st st' x.
Proof.
  destruct (failing results) as [|f fs] eqn:Hf.
  - (* no failing test: the run is a computation *)
    unfold conclude, improve. rewrite Hf.
    cbv beta iota zeta delta [bind sendLog push_log ret report gets write modify].
    cbn [sys run_logs written snd].
    intros x Hx. rewrite !in_app_iff in Hx. cbn [In] in Hx.
    destruct Hx as [[[[H|[<-|[]]]|[<-|[]]]|[<-|[]]]|[<-|[]]];
      [now left | right; exact I ..|].
    right. cbn. rewrite Hf. repeat split; reflexivity.
  - (* failing tests: only the shape of the final record matters *)
    intros st' x Hx.
    assert (writes (fun r => match r with
                             | SseComplete e => Braintrust.results e = results
                             | _ => True
                             end) (conclude p testCases results)) as Hw.
    { unfold conclude, writes.
      apply keeps_bind; [eauto with keeps | now apply writes_sendLog | intros _].
      apply keeps_bind; [eauto with keeps | now apply writes_improve | intros improved].
      unfold report.
      apply keeps_bind; [eauto with keeps | now apply writes_sendLog | intros _].
      apply keeps_bind; [eauto with keeps | apply keeps_gets; eauto with keeps | intros l].
      apply writes_write. reflexivity. }
    destruct (Hw st x Hx) as [H|H]; [now left | right].
    destruct x; cbn in *; try exact I.
    split; [assumption | intros Hnil; rewrite Hnil in Hf; discriminate].
Qed.

Lemma not_complete_log l : not_complete (SseLog l).
Proof. reflexivity. Qed.

#[local] Hint Resolve not_complete_log : keeps.


(** ** The results of a run *)

(** The results of a final record are those the evaluation loop
    returned. *)
Lemma final_record_results (prompt : value) (st : Run LogEntry Evaluation)
    (e : Evaluation) :
  (forall r, In r (written st) -> is_complete r = false) ->
  In (SseComplete e) (written (snd (background prompt st))) ->
  exists p testCases st1 st2,
    evaluate_all p (length testCases) 0 testCases [] st1 = (Ok (results e), st2).
Proof.
  intros Hst Hin.
  assert (forall reason st0,
             In (SseComplete e) (written (snd (reject reason st0))) ->
             In (SseComplete e) (written st0)) as Hrej.
  { intros reason st0 H.
    destruct (writes_reject not_complete not_complete_log reason eq_refl st0 _ H)
      as [H'|H']; [assumption | discriminate]. }
  assert (In (SseComplete e) (written (snd (task prompt st)))) as Ht.
  { unfold background, try_catch in *.
    destruct (task prompt st) as [[[]|e1] st1]; cbn [snd] in *; [assumption|].
    revert Hin. unfold on_error.
    cbv beta iota zeta delta [bind sendLog push_log gets write modify].
    cbn [sys run_logs written snd]. intros H.
    rewrite !in_app_iff in H. cbn [In] in H.
    destruct H as [[H|[H|[]]]|[H|[]]]; [assumption | discriminate ..]. }
  clear Hin.
  assert (forall reason, In (SseComplete e) (written (snd (reject reason st))) -> False)
    as Hno by (intros reason H; apply Hrej, Hst in H; discriminate).
  unfold task in Ht.
  destruct prompt as [[| | |p| |]|]; try (exfalso; eapply Hno; eassumption).
  destruct (String.eqb p EmptyString); [exfalso; eapply Hno; eassumption|].
  destruct (negb env_GEMINI_API_KEY); [exfalso; eapply Hno; eassumption|].
  unfold pipeline in Ht. unfold bind at 1 in Ht.
  pose proof (writes_prepare not_complete not_complete_log p st) as Hw1.
  destruct (prepare p st) as [[testCases|e1] st1]; cbn [snd] in *.
  2:{ destruct (Hw1 _ Ht) as [H|H]; [apply Hst in H|]; discriminate. }
  unfold bind at 1 in Ht.
  pose proof (writes_evaluate_all not_complete not_complete_log p (length testCases)
                testCases 0 [] st1) as Hw2.
  destruct (evaluate_all p (length testCases) 0 testCases [] st1)
    as [[results|e2] st2] eqn:Eall; cbn [snd] in *.
  2:{ destruct (Hw2 _ Ht) as [H|H]; [|discriminate].
      destruct (Hw1 _ H) as [H'|H']; [apply Hst in H'|]; discriminate. }
  destruct (conclude_spec p testCases results st2 _ Ht) as [H|[Hres _]].
  { destruct (Hw2 _ H) as [H'|H']; [|discriminate].
    destruct (Hw1 _ H') as [H''|H'']; [apply Hst in H''|]; discriminate. }
  exists p, testCases, st1, st2. now rewrite Hres.
Qed.

(** The scores of a result are those of its output for its [expected]
    and [metadata]. *)
Definition result_scored (r : TestResult) : Prop :=
  scored (expected r) (metadata r) (output r) (scores r).

Lemma evaluate_one_scored prompt total index testCase st r st' :
  evaluate_one prompt total index testCase st = (Ok r, st') -> result_scored r.
Proof.
  unfold evaluate_one.
  destruct testCase as [| | | | |fields] eqn:Etc; cbn [get field];
    cbv beta iota zeta delta [bind of_result sendLog push_log await ret];
    try discriminate.
  destruct (assoc "input" fields) as [[| | |input| |]|] eqn:Ein; cbn [as_string];
    try discriminate.
  cbn [sys run_logs written].
  destruct (runPrompt prompt input (sys st)) as [[output|e] s1]; [|discriminate].
  cbn [sys run_logs written].
  destruct (evaluateTestCase_scores (JObj fields) output input s1 Ein)
    as (sc & s' & Heq & Hsc).
  rewrite Heq. cbn [sys run_logs written].
  intros H. inversion H; subst; clear H.
  exact Hsc.
Qed.

Lemma evaluate_all_scored prompt total testCases :
  forall index results st results' st',
    evaluate_all prompt total index testCases results st = (Ok results', st') ->
    Forall result_scored results -> Forall result_scored results'.
Proof.
  induction testCases as [|testCase rest IH]; intros index results st results' st';
    cbn [evaluate_all].
  - cbv [ret]. intros H Hall. now inversion H; subst.
  - unfold bind at 1.
    destruct (evaluate_one prompt total index testCase st) as [[r|e] st1] eqn:E1;
      [|discriminate].
    intros H Hall. eapply IH; [exact H|].
    apply Forall_app. split; [assumption|].
    constructor; [|constructor]. eapply evaluate_one_scored; eassumption.
Qed.

(** A result whose [expected] has no text has failed. *)
Lemma textless_fails (results : list TestResult) (r : TestResult) :
  In r results -> result_scored r -> ~ has_text (expected r) -> In r (failing results).
Proof.
  intros Hin Hsc Hno. apply failing_iff. split; [assumption|].
  unfold result_scored, scored in Hsc.
  destruct (to_text (expected r)) as [x|e] eqn:Ex; [exfalso; apply Hno; now exists x|].
  rewrite Hsc. reflexivity.
Qed.

(** In a final record the [expected] of every result has a text:
    without one the result fails, and the failure analysis of the
    optimizer throws. *)
Lemma final_record_texts (prompt : value) (st : Run LogEntry Evaluation) (e : Evaluation)
    (r : TestResult) :
  (forall x, In x (written st) -> is_complete x = false) ->
  In (SseComplete e) (written (snd (background prompt st))) ->
  In r (results e) ->
  has_text (expected r).
Proof.
  intros Hst Hin Hr.
  destruct (final_record_run prompt st e Hst Hin)
    as (p & testCases & st1 & st2 & improved & st3
        & _ & _ & Hall & _ & Himp & _).
  destruct (has_text_dec (expected r)) as [H|Hno]; [assumption | exfalso].
  assert (Forall result_scored (results e)) as Hsc
    by (eapply evaluate_all_scored; [exact Hall | constructor]).
  rewrite Forall_forall in Hsc.
  assert (In r (failing (results e))) as Hf.
  { apply textless_fails; [assumption | now apply Hsc |].
    intros [t Ht]. congruence. }
  assert (failing (results e) <> []) as Hne by (intros E; rewrite E in Hf; contradiction).
  apply improve_calls in Himp; [|assumption].
  rewrite getImprovedPrompts_throws with (e := TypeError) in Himp; [discriminate|].
  apply failureAnalysis_throw. apply Exists_exists. exists r. split; [assumption|].
  intros [t Ht]. congruence.
Qed.

(** The scores of a result of a final record.  Factuality and battle
    are 0 or 1; the JSON dimension is 1 when no JSON is expected and
    else tells whether the output parses; the tone dimension is 1 when
    no tone is specified.  [overall] is the mean of the four, with one
    exception: when the tone specified has no text, the tone scorer
    throws while it builds its question, and [evaluateTestCase]
    returns the scores as they stand, tone and [overall] still 0. *)
Definition well_scored (r : TestResult) : Prop :=
  binary (factuality (scores r))
  /\ binary (battle (scores r))
  /\ jsonValidity (scores r)
     = (if truthy (get_opt (metadata r) "expectsJSON")
        then match parse (output r) with Ok _ => 1%Q | Throw _ => 0%Q end
        else 1%Q)
  /\ if truthy (get_opt (metadata r) "expectedTone") then
       match to_text (get_opt (metadata r) "expectedTone") with
       | Ok _ => binary (tone (scores r)) /\ overall (scores r) = mean (scores r)
       | Throw _ => tone (scores r) = 0%Q /\ overall (scores r) = 0%Q
       end
     else tone (scores r) = 1%Q /\ overall (scores r) = mean (scores r).

Lemma final_record_scored (prompt : value) (st : Run LogEntry Evaluation)
    (e : Evaluation) (r : TestResult) :
  (forall x, In x (written st) -> is_complete x = false) ->
  In (SseComplete e) (written (snd (background prompt st))) ->
  In r (results e) ->
  well_scored r.
Proof.
  intros Hst Hin Hr.
  destruct (final_record_texts prompt st e r Hst Hin Hr) as [x Hx].
  destruct (final_record_run prompt st e Hst Hin)
    as (p & testCases & st1 & st2 & improved & st3 & _ & _ & Hall & _).
  apply evaluate_all_scored in Hall; [|constructor].
  rewrite Forall_forall in Hall. specialize (Hall r Hr).
  unfold result_scored, scored in Hall. rewrite Hx in Hall. exact Hall.
Qed.



(** C5 (as the code has it): the generator fails exactly when its
    second attempt fails.  If the first provider's answer holds a
    bracketed part that parses, that array is the dataset, whatever its
    elements are.  Otherwise (a rejection, no bracketed part, or a
    bracketed part that is not JSON) the fallback provider is asked
    once: a bracketed part of its answer that parses is the dataset,
    and else the generator throws the provider's rejection, "Failed to
    generate synthetic dataset with both Gemini and Groq" for an answer
    without a bracketed part, or the parse error.  When it throws, the
    run logs the error and ends the stream with an error record that
    carries its message; no final record is written. *)
Theorem C5_generator_failure
    (body : json) (p : string) (st : Run LogEntry Evaluation)
    (r1 : Result string) (w1 : World) (r2 : Result (option string)) (w2 : World) :
  field "prompt" body = Some (JStr p) ->
  p <> EmptyString -> env_GEMINI_API_KEY = true ->
  (forall r, In r (written st) -> is_complete r = false) ->
  gemini_generateContent (generationPrompt p) (world (sys st)) = (r1, w1) ->
  groq_create (generationPrompt p) w1 = (r2, w2) ->
  let names := (entered (sys st) ++ ["generateSyntheticDataset"])%list in
  match first_attempt r1, second_attempt r2 with
  | Ok testCases, _ =>
      generateSyntheticDataset p (sys st)
      = (Ok testCases, {| world := w1; entered := names |})
  | Throw _, Ok testCases =>
      generateSyntheticDataset p (sys st)
      = (Ok testCases, {| world := w2; entered := names |})
  | Throw _, Throw e =>
      generateSyntheticDataset p (sys st)
      = (Throw e, {| world := w2; entered := names |})
      /\ exists st' l1 l2 l3,
           POST (Ok body) st = (Ok tt, st')
           /\ written st'
              = (written st
                 ++ [SseLog l1; SseLog l2; SseLog l3;
                     SseError "Failed to run Braintrust evaluation"
                              (Some (message_of e)) (Some (run_logs st'))])%list
           /\ status l3 = error /\ details l3 = Some (message_of e)
           /\ (forall r, In r (written st') -> is_complete r = false)
  end.
Proof.
  intros Hbody Hp Hk Hst H1 H2 names.
  rewrite (POST_body body p Hbody).
  pose proof (generateSyntheticDataset_eq p (sys st)) as Hgen.
  cbv zeta in Hgen. rewrite H1 in Hgen.
  destruct (first_attempt r1) as [testCases|e1]; [exact Hgen|].
  rewrite H2 in Hgen.
  destruct (second_attempt r2) as [testCases|e]; [exact Hgen|].
  split; [exact Hgen|].
  destruct (generation_failure_run p st e _ Hp Hk Hgen)
    as (st' & l1 & l2 & l3 & HP & Hw & _ & Hs & Hd).
  exists st', l1, l2, l3. repeat split; try assumption.
  rewrite Hw. apply no_complete_app; [assumption | reflexivity].
Qed.

End Facts.
End BraintrustFacts.

(* ================================================================== *)
(** * The optimization pipeline *)
(* ================================================================== *)

Module LangsmithFacts.
Import Langsmith.

Section Facts.
Context `{RT : Runtime} `{PR : Prompts}.

(** The optimizer of this route. *)
Definition optimizer : string := "generateOptimizedPrompt".

(** ** Which functions a run enters, and what it writes *)

Lemma quiet_pipeline_generator prompt goal rubric :
  quiet optimizer (generateSyntheticDataset prompt goal rubric).
Proof. unfold generateSyntheticDataset; quiet_tac. Qed.

Lemma quiet_executePromptWithGemini prompt input :
  quiet optimizer (executePromptWithGemini prompt input).
Proof. unfold executePromptWithGemini; quiet_tac. Qed.

Lemma quiet_judgeWithClaude input output rubric goal :
  quiet optimizer (judgeWithClaude input output rubric goal).
Proof. unfold judgeWithClaude; quiet_tac. Qed.

Lemma quiet_logToLangSmith promptName input output judgeResult :
  quiet optimizer (logToLangSmith promptName input output judgeResult).
Proof. unfold logToLangSmith; quiet_tac. Qed.

#[local] Hint Resolve quiet_pipeline_generator quiet_executePromptWithGemini
  quiet_judgeWithClaude quiet_logToLangSmith : keeps.

Section Written.
Variable good : Sse LogEntry Evaluation -> Prop.
Hypothesis good_log : forall l, good (SseLog l).

Lemma writes_pipeline_sendLog phase status details : writes good (sendLog phase status details).
Proof. apply writes_push_log, good_log. Qed.

Lemma writes_test_one req total index testCase :
  writes good (test_one req total index testCase).
Proof.
  unfold test_one, writes.
  repeat first [ keeps_step | apply writes_pipeline_sendLog | apply writes_await ].
Qed.

Lemma writes_test_all req total testCases :
  forall index results, writes good (test_all req total index testCases results).
Proof.
  induction testCases as [|testCase rest IH]; intros index results; cbn [test_all].
  - apply keeps_ret; eauto with keeps.
  - apply keeps_bind; [eauto with keeps | apply writes_test_one | intros; apply IH].
Qed.

Lemma writes_retest_all req optimizedPrompt testCases :
  forall results, writes good (retest_all req optimizedPrompt testCases results).
Proof.
  induction testCases as [|testCase rest IH]; intros results; cbn [retest_all].
  - apply keeps_ret; eauto with keeps.
  - unfold writes.
    repeat first [ keeps_step | apply writes_await | apply IH ].
Qed.

Lemma writes_pipeline_prepare req : writes good (prepare req).
Proof.
  unfold prepare, writes.
  repeat first [ keeps_step | apply writes_pipeline_sendLog | apply writes_await ].
Qed.

Lemma writes_optimize req promptVersion testCases failedResults :
  writes good (optimize req promptVersion testCases failedResults).
Proof.
  unfold optimize, writes.
  repeat first [ keeps_step | apply writes_pipeline_sendLog | apply writes_await
               | apply writes_retest_all ].
Qed.

Lemma writes_pipeline_reject reason err details :
  good (SseError err details None) -> writes good (reject reason err details).
Proof.
  intros H. unfold reject, writes.
  repeat first [ keeps_step | apply writes_pipeline_sendLog | apply writes_write; assumption ].
Qed.

End Written.




(** ** Runs, step by step *)

(** The request has a prompt, a goal and a name. *)
Definition complete_request (req : Request) : Prop :=
  truthy (req_prompt req) = true /\ truthy (req_goal req) = true
  /\ truthy (req_promptName req) = true.

(** Both keys are configured. *)
Definition configured : Prop :=
  env_GEMINI_API_KEY = true /\ env_LANGSMITH_API_KEY = true.

Lemma pipeline_task_accepted (req : Request) :
  complete_request req -> configured -> task req = pipeline req.
Proof.
  intros (H1 & H2 & H3) (K1 & K2). unfold task.
  now rewrite H1, H2, H3, K1, K2.
Qed.

(** [POST] rejects a request whose body is no JSON text or is [null],
    with nothing written; for any other body it runs the background
    task on the four members it reads. *)
Lemma pipeline_POST_cases (request : Result json) (st : Run LogEntry Evaluation) :
  match request with
  | Throw e => POST request st = (Throw e, st)
  | Ok JNull => POST request st = (Throw TypeError, st)
  | Ok body =>
      exists req, destructure body = Ok req /\ POST request st = background req st
  end.
Proof. destruct request as [[| | | | |]|]; try reflexivity; eexists; split; reflexivity. Qed.

Lemma pipeline_POST_body (body : json) (req : Request) :
  destructure body = Ok req -> POST (Ok body) = background req.
Proof. intros H. unfold POST, bind, of_result. now rewrite H. Qed.


(** The state after [sendLog(phase, status, details)]. *)
Definition logged (st : Run LogEntry Evaluation) (phase : string) (status : Status)
    (details : option string) : Run LogEntry Evaluation :=
  let log := {| timestamp := toISOString (world (sys st)); phase := phase;
                status := status; details := details |} in
  {| sys := sys st; run_logs := run_logs st ++ [log];
     written := written st ++ [SseLog log] |}.

Lemma pipeline_sendLog_eq phase status details st :
  sendLog phase status details st = (Ok tt, logged st phase status details).
Proof. reflexivity. Qed.

(** The loop over a dataset is the loop over its first part followed
    by the loop over the rest. *)
Lemma test_all_app req total (first rest : list json) :
  forall index results st,
    test_all req total index (first ++ rest) results st =
    match test_all req total index first results st with
    | (Ok results', st') => test_all req total (index + length first) rest results' st'
    | (Throw e, st') => (Throw e, st')
    end.
Proof.
  induction first as [|testCase first IH]; intros index results st.
  - cbn. now rewrite Nat.add_0_r.
  - cbn [app test_all length]. unfold bind at 1 2.
    destruct (test_one req total index testCase st) as [[r|e] st1]; [|reflexivity].
    rewrite IH. now rewrite Nat.add_succ_r.
Qed.

(** ** The completion with its fallback *)

(** [content], or the empty string if it is falsy. *)
Definition or_empty (content : option string) : string :=
  match content with Some c => c | None => EmptyString end.

(** The prompt is rendered, the first provider asked and, when it
    rejects the call, the fallback provider asked once; a rejection by
    the fallback provider is thrown on. *)
Lemma executePromptWithGemini_eq (template input : string) (s : Sys) :
  executePromptWithGemini (Some (JStr template)) input s =
  let names := (entered s ++ ["executePromptWithGemini"])%list in
  let formattedPrompt := Render.render template input in
  match gemini_generateContent formattedPrompt (world s) with
  | (Ok text, w1) => (Ok text, {| world := w1; entered := names |})
  | (Throw _, w1) =>
      match groq_create formattedPrompt w1 with
      | (Ok content, w2) => (Ok (or_empty content), {| world := w2; entered := names |})
      | (Throw e, w2) => (Throw e, {| world := w2; entered := names |})
      end
  end.
Proof.
  unfold executePromptWithGemini, bind at 1, enter, modify.
  unfold bind at 1, of_result, as_string.
  unfold try_catch, bind, call, ret. cbn [world entered].
  destruct (gemini_generateContent _ _) as [[text|e] w1]; [reflexivity|].
  cbn [world entered].
  destruct (groq_create _ _) as [[content|e'] w2]; reflexivity.
Qed.

(** ** A run whose pipeline throws *)

Definition not_complete (r : Sse LogEntry Evaluation) : Prop := is_complete r = false.

Lemma pipeline_not_complete_log l : not_complete (SseLog l).
Proof. reflexivity. Qed.

#[local] Hint Resolve pipeline_not_complete_log : keeps.

(** [report] returns. *)
Lemma report_ok req fullPromptName results failedResults optimizedPrompt optimization st :
  exists st', report req fullPromptName results failedResults optimizedPrompt
                optimization st = (Ok tt, st').
Proof. eexists; reflexivity. Qed.

(** A pipeline that throws has written log records only. *)
Lemma pipeline_throw_writes (req : Request) (st st1 : Run LogEntry Evaluation) (e : exn) :
  pipeline req st = (Throw e, st1) ->
  adds written not_complete st st1.
Proof.
  unfold pipeline, bind at 1. intros H.
  pose proof (writes_pipeline_prepare not_complete pipeline_not_complete_log req st) as Hw1.
  destruct (prepare req st) as [[[[pv fpn] testCases]|e1] s1]; cbn [snd] in *.
  2:{ now inversion H; subst. }
  unfold bind at 1 in H.
  pose proof (writes_test_all not_complete pipeline_not_complete_log req (length testCases)
                testCases 0 [] s1) as Hw2.
  destruct (test_all req (length testCases) 0 testCases [] s1) as [[results|e2] s2];
    cbn [snd] in *.
  2:{ inversion H; subst. eapply adds_trans; eassumption. }
  unfold conclude, bind at 1 in H.
  pose proof (writes_pipeline_sendLog not_complete pipeline_not_complete_log "Tests completed" completed
                (Some (Str.of_nat (length (failed results)) ++ "/"
                       ++ Str.of_nat (length results) ++ " tests failed")) s2) as Hw3.
  destruct (sendLog _ _ _ s2) as [[[]|e3] s3]; cbn [snd] in *.
  2:{ inversion H; subst. eauto using adds_trans. }
  unfold bind at 1 in H.
  pose proof (writes_optimize not_complete pipeline_not_complete_log req pv testCases
                (failed results) s3) as Hw4.
  destruct (optimize req pv testCases (failed results) s3) as [[o|e4] s4];
    cbn [snd] in *.
  2:{ inversion H; subst. eauto using adds_trans. }
  destruct (report_ok req fpn results (failed results) (fst o) (snd o) s4) as [s5 Hr].
  rewrite Hr in H. discriminate.
Qed.

(** The records of the [catch] block. *)
Lemma on_error_eq (e : exn) (st : Run LogEntry Evaluation) :
  on_error e st =
  let st1 := logged st "Error occurred" error (Some (message_of e)) in
  (Ok tt,
   {| sys := sys st; run_logs := run_logs st1;
      written := written st1
                 ++ [SseError "Failed to optimize prompt" (Some (message_of e))
                              (Some (run_logs st1))] |}).
Proof. reflexivity. Qed.

(** A run whose pipeline throws [e] ends with an error record that
    carries the message of [e], and writes no final record. *)
Lemma failed_run (req : Request) (st st1 : Run LogEntry Evaluation) (e : exn) :
  complete_request req -> configured ->
  (forall r, In r (written st) -> is_complete r = false) ->
  pipeline req st = (Throw e, st1) ->
  exists st' log,
    background req st = (Ok tt, st')
    /\ written st'
       = (written st1
          ++ [SseLog log;
              SseError "Failed to optimize prompt" (Some (message_of e))
                       (Some (run_logs st'))])%list
    /\ details log = Some (message_of e)
    /\ sys st' = sys st1
    /\ (forall r, In r (written st') -> is_complete r = false).
Proof.
  intros Hreq Hcfg Hst Hp.
  pose proof (pipeline_throw_writes req st st1 e Hp) as Hw.
  unfold background, try_catch. rewrite (pipeline_task_accepted req Hreq Hcfg), Hp, on_error_eq.
  cbv zeta. unfold logged. cbn [sys run_logs written].
  eexists _, _. split; [reflexivity|]. cbn [sys run_logs written details].
  split; [rewrite <- app_assoc; reflexivity|].
  split; [reflexivity|]. split; [reflexivity|].
  intros r Hr. rewrite !in_app_iff in Hr. cbn [In] in Hr.
  destruct Hr as [[Hr|[<-|[]]]|[<-|[]]]; try reflexivity.
  destruct (Hw r Hr) as [H|H]; [now apply Hst | exact H].
Qed.

(** ** A test case whose completion fails *)

(** The rest of a turn once the completion has given [output]: the
    judge, the trace, the log entry with the score, and the result. *)
Definition judge_turn (req : Request) (index : nat) (testCase : json)
    (input output : string) : P TestResult :=
  judgeResult <- await (judgeWithClaude input output (field "rubric" testCase)
                          (req_goal req)) ;;
  await (logToLangSmith (req_promptName req) input output judgeResult) ;;;
  scoreText <- of_result (to_text (field "score" judgeResult)) ;;
  sendLog ("Test " ++ Str.of_nat (index + 1) ++ " completed") completed
          (Some ("Score: " ++ scoreText)) ;;;
  ret (result_of input output judgeResult).

(** The state of a run once the completion of a turn has been
    answered in the world [w]: the turn has written the log entry
    [log] and entered [executePromptWithGemini]. *)
Definition completed_in (st : Run LogEntry Evaluation) (log : LogEntry) (w : World)
  : Run LogEntry Evaluation :=
  {| sys := {| world := w; entered := entered (sys st) ++ ["executePromptWithGemini"] |};
     run_logs := run_logs st ++ [log];
     written := written st ++ [SseLog log] |}.

(** The log entry a turn starts with. *)
Definition turn_log (st : Run LogEntry Evaluation) (total index : nat) (input : string)
  : LogEntry :=
  {| timestamp := toISOString (world (sys st));
     phase := "Test " ++ Str.of_nat (index + 1) ++ "/" ++ Str.of_nat total;
     status := running;
     details := Some ("Input: " ++ Str.take 50 input ++ "...") |}.

(** The turn of a test case for which both providers reject the call
    throws the fallback provider's rejection, after its one log
    entry. *)
Lemma test_one_both_fail (req : Request) (total index : nat) (testCase : json)
    (st : Run LogEntry Evaluation) (template input : string)
    (e1 e2 : exn) (w1 w2 : World) :
  req_prompt req = Some (JStr template) ->
  input_of testCase = Ok input ->
  gemini_generateContent (Render.render template input) (world (sys st)) = (Throw e1, w1) ->
  groq_create (Render.render template input) w1 = (Throw e2, w2) ->
  test_one req total index testCase st
  = (Throw e2, completed_in st (turn_log st total index input) w2).
Proof.
  intros Hp Hi Hg Hq.
  unfold test_one. rewrite Hi, Hp.
  cbv beta iota zeta delta [bind of_result sendLog push_log await].
  cbn [sys run_logs written].
  rewrite executePromptWithGemini_eq. cbv zeta. rewrite Hg, Hq.
  reflexivity.
Qed.

(** The turn of a test case for which the first provider rejects the
    call and the fallback provider answers goes on with the fallback
    provider's text as the output. *)
Lemma test_one_fallback (req : Request) (total index : nat) (testCase : json)
    (st : Run LogEntry Evaluation) (template input : string)
    (e1 : exn) (w1 w2 : World) (content : option string) :
  req_prompt req = Some (JStr template) ->
  input_of testCase = Ok input ->
  gemini_generateContent (Render.render template input) (world (sys st)) = (Throw e1, w1) ->
  groq_create (Render.render template input) w1 = (Ok content, w2) ->
  test_one req total index testCase st
  = judge_turn req index testCase input (or_empty content)
      (completed_in st (turn_log st total index input) w2).
Proof.
  intros Hp Hi Hg Hq.
  unfold test_one, judge_turn. rewrite Hi, Hp.
  unfold bind at 1, of_result at 1.
  unfold bind at 1. rewrite pipeline_sendLog_eq.
  unfold bind at 1, await at 1. unfold logged at 1. cbn [sys run_logs written].
  rewrite executePromptWithGemini_eq. cbv zeta. rewrite Hg, Hq.
  reflexivity.
Qed.

(** The output of the result of a turn. *)
Lemma judge_turn_output (req : Request) (index : nat) (testCase : json)
    (input output : string) (st st' : Run LogEntry Evaluation) (r : TestResult) :
  judge_turn req index testCase input output st = (Ok r, st') ->
  Langsmith.output r = output /\ Langsmith.input r = input.
Proof.
  unfold judge_turn.
  cbv beta iota zeta delta [bind of_result sendLog push_log await ret].
  destruct (judgeWithClaude _ _ _ _ _) as [[j|e] s1]; [|discriminate].
  cbn [sys run_logs written].
  destruct (logToLangSmith _ _ _ _ _) as [[[]|e] s2]; [|discriminate].
  destruct (to_text (field "score" j)); [|discriminate].
  intros H. inversion H; subst. split; reflexivity.
Qed.

(** How a run ends whose test loop throws [e] in the state [stx]: the
    error is logged, the stream ends with an error record that carries
    the message of [e], no final record is written, and nothing more
    is asked of a provider. *)
Definition ended_with (body : json) (st stx : Run LogEntry Evaluation) (e : exn) : Prop :=
  exists st' log,
    POST (Ok body) st = (Ok tt, st')
    /\ written st'
       = (written stx
          ++ [SseLog log;
              SseError "Failed to optimize prompt" (Some (message_of e))
                       (Some (run_logs st'))])%list
    /\ (forall r, In r (written st') -> is_complete r = false)
    /\ sys st' = sys stx.

(** C1: when the first provider rejects the completion of a test
    case, the fallback provider is asked, once and with the same
    rendered prompt.  If it answers, the turn goes on with its text
    (the empty string when the answer has no content) as the output:
    when the judging that follows returns, the result the turn records
    has that output and the loop goes on with the next test case; when
    the judging throws, the run ends with that error.  If the fallback
    provider rejects the call too, no result is recorded for the test
    case: the run stops there, logs the error, and ends the stream
    with an error record and without a final record; no further
    provider call is made. *)
Theorem C1_completion_failure
    (body : json) (req : Request) (st st1 st2 : Run LogEntry Evaluation)
    (promptVersion fullPromptName : string) (first rest : list json) (testCase : json)
    (results : list TestResult) (template input : string) (e1 : exn) (w1 : World) :
  destructure body = Ok req ->
  complete_request req -> configured ->
  (forall r, In r (written st) -> is_complete r = false) ->
  req_prompt req = Some (JStr template) ->
  prepare req st = (Ok (promptVersion, fullPromptName, (first ++ testCase :: rest)%list), st1) ->
  test_all req (length (first ++ testCase :: rest)%list) 0 first [] st1 = (Ok results, st2) ->
  input_of testCase = Ok input ->
  gemini_generateContent (Render.render template input) (world (sys st2))
    = (Throw e1, w1) ->
  let total := length (first ++ testCase :: rest)%list in
  let asked := completed_in st2 (turn_log st2 total (length first) input) in
  match groq_create (Render.render template input) w1 with
  | (Ok content, w2) =>
      match judge_turn req (length first) testCase input (or_empty content) (asked w2) with
      | (Ok r, st3) =>
          test_one req total (length first) testCase st2 = (Ok r, st3)
          /\ output r = or_empty content
          /\ test_all req total 0 (first ++ testCase :: rest) [] st1
             = test_all req total (S (length first)) rest (results ++ [r]) st3
      | (Throw e, st3) => ended_with body st st3 e
      end
  | (Throw e2, w2) => ended_with body st (asked w2) e2
  end.
Proof.
  intros Hbody Hreq Hcfg Hst Hp Hprep Htest Hi Hg total asked.
  fold total in Htest.
  assert (forall e stx,
             test_one req total (length first) testCase st2 = (Throw e, stx) ->
             ended_with body st stx e) as Hend.
  { intros e stx Hone.
    assert (pipeline req st = (Throw e, stx)) as Hpipe.
    { unfold pipeline, bind at 1. rewrite Hprep. unfold bind at 1.
      fold total. rewrite test_all_app, Htest. cbn [test_all]. unfold bind at 1.
      cbn [Nat.add]. rewrite Hone. reflexivity. }
    destruct (failed_run req st _ e Hreq Hcfg Hst Hpipe)
      as (st' & log2 & HP & Hw & _ & Hsys & Hnc).
    exists st', log2. rewrite (pipeline_POST_body body req Hbody).
    repeat split; assumption. }
  destruct (groq_create (Render.render template input) w1) as [[content|e2] w2] eqn:Hq.
  - pose proof (test_one_fallback req total (length first) testCase st2 template input
                  e1 w1 w2 content Hp Hi Hg Hq) as Hone.
    fold (asked w2) in Hone.
    destruct (judge_turn req (length first) testCase input (or_empty content) (asked w2))
      as [[r|e] st3] eqn:Hturn.
    + split; [exact Hone|].
      split; [eapply judge_turn_output; exact Hturn|].
      rewrite test_all_app, Htest. cbn [test_all Nat.add]. unfold bind at 1.
      rewrite Hone. reflexivity.
    + now apply Hend.
  - apply Hend.
    apply (test_one_both_fail req total (length first) testCase st2 template input
             e1 e2 w1 w2 Hp Hi Hg Hq).
Qed.

(** ** The generator *)

(** What the generator makes of the first provider's answer. *)
Definition first_attempt (r : Result string) : Result (list json) :=
  match r with
  | Ok response =>
      match match_array response with
      | None => Throw (Error "Failed to parse Gemini response")
      | Some jsonMatch => parse_array jsonMatch
      end
  | Throw e => Throw e
  end.

(** What it makes of the fallback provider's answer. *)
Definition second_attempt (r : Result (option string)) : Result (list json) :=
  match r with
  | Ok content =>
      match match_array (or_empty content) with
      | None => Throw (Error "Failed to generate test cases with both Gemini and Groq")
      | Some jsonMatch => parse_array jsonMatch
      end
  | Throw e => Throw e
  end.

(** As in the evaluation route, every failure of the first attempt
    leads to one attempt with the fallback provider. *)
Lemma pipeline_generator_eq (prompt goal : value) (criteria : list json) (s : Sys)
    (promptText goalText : string) (criteriaTexts : list string) :
  to_text prompt = Ok promptText ->
  to_text goal = Ok goalText ->
  texts_of criteria = Ok criteriaTexts ->
  generateSyntheticDataset prompt goal (Some (JArr criteria)) s =
  let names := (entered s ++ ["generateSyntheticDataset"])%list in
  let instruction := generationPrompt promptText goalText criteriaTexts criteria in
  let (r1, w1) := gemini_generateContent instruction (world s) in
  match first_attempt r1 with
  | Ok testCases => (Ok testCases, {| world := w1; entered := names |})
  | Throw _ =>
      let (r2, w2) := groq_create instruction w1 in
      (second_attempt r2, {| world := w2; entered := names |})
  end.
Proof.
  intros Hp Hg Hc.
  unfold generateSyntheticDataset, bind at 1, enter, modify.
  unfold bind at 1, of_result at 1. rewrite Hp.
  unfold bind at 1, of_result at 1. rewrite Hg.
  unfold bind at 1, of_result at 1, as_array.
  unfold bind at 1, of_result at 1. rewrite Hc.
  unfold try_catch, bind, call. cbn [world entered].
  destruct (gemini_generateContent _ _) as [[response|e] w1]; cbn.
  - destruct (match_array response) as [m|]; cbn.
    + unfold of_result. destruct (parse_array m); cbn; [reflexivity|].
      destruct (groq_create _ _) as [[c|e'] w2]; cbn; [|reflexivity].
      destruct (match_array _); reflexivity.
    + destruct (groq_create _ _) as [[c|e'] w2]; cbn; [|reflexivity].
      destruct (match_array _); reflexivity.
  - destruct (groq_create _ _) as [[c|e'] w2]; cbn; [|reflexivity].
    destruct (match_array _); reflexivity.
Qed.

(** ** The rubric judge *)

(** The verdict for an answer without braces. *)
Definition unparsed_verdict (criteria : list json) : json :=
  JObj [("score", JNum 0);
        ("failureReason", JStr "Failed to parse judge response");
        ("rubricResults", all_failed criteria)].

(** What the judge returns for the model's answer: the object parsed
    from the part between the first [{] and the last [}], as it is. *)
Definition verdict (criteria : list json) (textContent : option string) : Result json :=
  match match_object (match textContent with Some t => t | None => "{}" end) with
  | None => Ok (unparsed_verdict criteria)
  | Some jsonMatch => parse_object jsonMatch
  end.

Lemma judgeWithClaude_eq (input output : string) (criteria : list json) (goal : value)
    (s : Sys) (goalText : string) (criteriaTexts : list string) :
  to_text goal = Ok goalText ->
  texts_of criteria = Ok criteriaTexts ->
  judgeWithClaude input output (Some (JArr criteria)) goal s =
  let names := (entered s ++ ["judgeWithClaude"])%list in
  match anthropic_create 500 (judgePrompt goalText input output criteriaTexts) (world s) with
  | (Ok textContent, w1) => (verdict criteria textContent, {| world := w1; entered := names |})
  | (Throw e, w1) => (Throw e, {| world := w1; entered := names |})
  end.
Proof.
  intros Hg Hc.
  unfold judgeWithClaude, bind at 1, enter, modify.
  unfold bind at 1, of_result at 1. rewrite Hg.
  unfold bind at 1, of_result at 1, as_array.
  unfold bind at 1, of_result at 1. rewrite Hc.
  unfold bind, call, verdict. cbn [world entered].
  destruct (anthropic_create _ _ _) as [[t|e] w1]; cbn; [|reflexivity].
  destruct (match_object _); reflexivity.
Qed.

(** [rubricResults.every((r) => r.passed)] on a verdict. *)
Definition every_passed (rubricResults : value) : bool :=
  match rubricResults with
  | Some (JArr rs) => forallb (fun r => truthy (field "passed" r)) rs
  | _ => false
  end.

(** [score === 1]. *)
Definition is_one (v : value) : bool :=
  match v with
  | Some (JNum q) => Qeq_bool q 1
  | _ => false
  end.

Lemma every_passed_all_failed (criteria : list json) :
  every_passed (Some (all_failed criteria))
  = match criteria with [] => true | _ => false end.
Proof. destruct criteria; reflexivity. Qed.

(** ** The optimizer *)


(** [createFailureDataset] swallows every error. *)
Lemma createFailureDataset_ok (datasetName : string) (failures : list TestResult) (s : Sys) :
  createFailureDataset datasetName failures s
  = (Ok tt, snd (createFailureDataset datasetName failures s)).
Proof.
  unfold createFailureDataset, bind at 1 3, enter, modify, try_catch.
  destruct (bind _ _ _) as [[[]|e] s1]; reflexivity.
Qed.


(** ** Runs without a failing test *)

(** What the end of a run writes for the results [results]. *)
Definition concludes (req : Request) (results : list TestResult)
    (st st' : Run LogEntry Evaluation) (r : Sse LogEntry Evaluation) : Prop :=
  match r with
  | SseComplete e =>
      originalResults e = results
      /\ originalPrompt e = req_prompt req
      /\ (failed results = [] ->
          optimizedPrompt e = req_prompt req
          /\ changes (optimization e) = Some (JArr [])
          /\ entered (sys st') = entered (sys st))
  | _ => True
  end.




(** C9 (as the code has it): the rubric judge returns what the model
    answered.  When the answer has a part between braces, the verdict
    is that part parsed, whatever score and criterion results it
    holds; the score is not compared with the criterion results.  When
    the answer has no such part, the verdict is score 0 with every
    listed criterion marked as not passed. *)
Theorem C9_judge_relays_verdict
    (input output : string) (criteria : list json) (goal : value) (s : Sys)
    (goalText : string) (criteriaTexts : list string)
    (textContent : option string) (w1 : World) :
  to_text goal = Ok goalText ->
  texts_of criteria = Ok criteriaTexts ->
  anthropic_create 500 (judgePrompt goalText input output criteriaTexts) (world s)
    = (Ok textContent, w1) ->
  let s' := {| world := w1; entered := entered s ++ ["judgeWithClaude"] |} in
  match match_object (match textContent with Some t => t | None => "{}" end) with
  | Some jsonMatch =>
      judgeWithClaude input output (Some (JArr criteria)) goal s
      = (parse_object jsonMatch, s')
  | None =>
      exists verdict,
        judgeWithClaude input output (Some (JArr criteria)) goal s = (Ok verdict, s')
        /\ is_zero (field "score" verdict) = true
        /\ field "rubricResults" verdict = Some (all_failed criteria)
  end.
Proof.
  intros Hg Hct Hc s'.
  rewrite (judgeWithClaude_eq input output criteria goal s goalText criteriaTexts Hg Hct).
  cbv zeta. rewrite Hc. unfold verdict.
  destruct (match_object _) as [m|]; [reflexivity|].
  eexists. split; [reflexivity|]. split; reflexivity.
Qed.

End Facts.
End LangsmithFacts.

(* ================================================================== *)
(** * Properties of both routes *)
(* ================================================================== *)

Module Both.

Section Facts.
Context `{RT : Runtime} `{BP : Braintrust.Prompts} `{LP : Langsmith.Prompts}.

(** C6 (as the code has it): in both routes an answer of the first
    provider that arrives but holds no bracketed array is treated as a
    failure of the first provider: the same instruction is sent once
    to the fallback provider, and what the generator returns or throws
    is decided by that second answer alone. *)
Theorem C6_unparsed_answer_falls_back
    (p : string) (sB : Sys) (responseB : string) (wB : World)
    (prompt goal : value) (criteria : list json) (sL : Sys) (responseL : string)
    (wL : World) (promptText goalText : string) (criteriaTexts : list string) :
  gemini_generateContent (Braintrust.generationPrompt p) (world sB)
    = (Ok responseB, wB) ->
  match_array responseB = None ->
  to_text prompt = Ok promptText ->
  to_text goal = Ok goalText ->
  texts_of criteria = Ok criteriaTexts ->
  let instruction :=
    Langsmith.generationPrompt promptText goalText criteriaTexts criteria in
  gemini_generateContent instruction (world sL) = (Ok responseL, wL) ->
  match_array responseL = None ->
  Braintrust.generateSyntheticDataset p sB
  = (let (r2, w2) := groq_create (Braintrust.generationPrompt p) wB in
     (BraintrustFacts.second_attempt r2,
      {| world := w2; entered := entered sB ++ ["generateSyntheticDataset"] |}))
  /\ Langsmith.generateSyntheticDataset prompt goal (Some (JArr criteria)) sL
     = (let (r2, w2) := groq_create instruction wL in
        (LangsmithFacts.second_attempt r2,
         {| world := w2; entered := entered sL ++ ["generateSyntheticDataset"] |})).
Proof.
  intros HB HmB Hpt Hgt Hct instruction HL HmL. split.
  - rewrite BraintrustFacts.generateSyntheticDataset_eq. cbv zeta.
    rewrite HB. cbn [BraintrustFacts.first_attempt]. now rewrite HmB.
  - rewrite (LangsmithFacts.pipeline_generator_eq prompt goal criteria sL
               promptText goalText criteriaTexts Hpt Hgt Hct).
    cbv zeta. fold instruction.
    rewrite HL. cbn [LangsmithFacts.first_attempt]. now rewrite HmL.
Qed.




End Facts.
End Both.

(* ================================================================== *)
(** * Runs of the evaluation route, in general *)
(* ================================================================== *)

Module EvaluationRuns.
Import Braintrust BraintrustFacts.

Section Facts.
Context `{RT : Runtime} `{PR : Prompts}.

(** ** The stream *)

Lemma logs_only_sendLog step status details :
  keeps logs_only (sendLog step status details).
Proof. apply logs_only_push_log. Qed.

Lemma logs_only_evaluate_all prompt total testCases :
  forall index results,
    keeps logs_only (evaluate_all prompt total index testCases results).
Proof.
  induction testCases as [|testCase rest IH]; intros index results; cbn [evaluate_all].
  - logs_tac.
  - apply keeps_bind; [eauto with keeps .. | | intros; apply IH].
    unfold evaluate_one, sendLog. logs_tac.
Qed.

Lemma logs_only_prepare prompt : keeps logs_only (prepare prompt).
Proof. unfold prepare, sendLog. logs_tac. Qed.

Lemma logs_only_improve prompt failedTests : keeps logs_only (improve prompt failedTests).
Proof. unfold improve, sendLog. logs_tac. Qed.

Lemma ends_reject reason : ends logs (reject reason).
Proof.
  unfold reject. apply ends_bind; [apply logs_only_sendLog | intros _].
  apply ends_write. intros l. exact I.
Qed.

Lemma ends_pipeline p : ends logs (pipeline p).
Proof.
  unfold pipeline.
  apply ends_bind; [apply logs_only_prepare | intros testCases].
  apply ends_bind; [apply logs_only_evaluate_all | intros results].
  unfold conclude.
  apply ends_bind; [apply logs_only_sendLog | intros _].
  apply ends_bind; [apply logs_only_improve | intros improved].
  unfold report.
  apply ends_bind; [apply logs_only_sendLog | intros _].
  apply (ends_final logs (fun l => SseComplete _)). intros l. reflexivity.
Qed.

Lemma ends_task prompt : ends logs (task prompt).
Proof.
  unfold task.
  destruct prompt as [[| | |p| |]|]; try apply ends_reject.
  destruct (String.eqb p EmptyString); [apply ends_reject|].
  destruct (negb env_GEMINI_API_KEY); [apply ends_reject | apply ends_pipeline].
Qed.

Lemma ends_on_error e : ends logs (on_error e).
Proof.
  unfold on_error. apply ends_bind; [apply logs_only_sendLog | intros _].
  apply (ends_final logs (fun l => SseError _ _ (Some l))). intros l. reflexivity.
Qed.

(** Whatever the providers do, the background task returns normally,
    and what it adds to the stream is a sequence of log records
    followed by exactly one record of type [complete] or [error]. *)
Lemma background_stream_shape (prompt : value) (st : Run LogEntry Evaluation) :
  exists st' ls final,
    background prompt st = (Ok tt, st')
    /\ run_logs st' = (run_logs st ++ ls)%list
    /\ written st' = (written st ++ map SseLog ls ++ [final])%list
    /\ match final with
       | SseLog _ => False
       | SseComplete e => logs e = run_logs st'
       | SseError _ _ (Some l) => l = run_logs st'
       | SseError _ _ None => True
       end.
Proof.
  destruct (ends_try_catch logs (task prompt) on_error (ends_task prompt) ends_on_error
              (fun e st0 => eq_refl) st)
    as (st' & HP & ls & final & Hl & Hw & Ht).
  exists st', ls, final. repeat split; assumption.
Qed.

(** X4: what [POST] does with a request.  A body that is no JSON text
    makes [request.json()] reject, and the body [null] cannot be taken
    apart: both happen in front of the [try] block, so [POST] throws,
    with no response and nothing written.  For every other body,
    whatever its [prompt] member is and whatever the providers do,
    [POST] returns normally, and what it adds to the stream is a
    sequence of log records followed by exactly one record of type
    [complete] or [error], the last one.  The log records are the
    entries pushed to the [logs] array, in the same order, and the
    [logs] field of the closing record (the error records of the two
    configuration checks have none) is the whole array. *)
Theorem evaluation_stream_shape (request : Result json) (st : Run LogEntry Evaluation) :
  match request with
  | Throw e => POST request st = (Throw e, st)
  | Ok JNull => POST request st = (Throw TypeError, st)
  | Ok _ =>
      exists st' ls final,
        POST request st = (Ok tt, st')
        /\ run_logs st' = (run_logs st ++ ls)%list
        /\ written st' = (written st ++ map SseLog ls ++ [final])%list
        /\ match final with
           | SseLog _ => False
           | SseComplete e => logs e = run_logs st'
           | SseError _ _ (Some l) => l = run_logs st'
           | SseError _ _ None => True
           end
  end.
Proof.
  pose proof (POST_cases request st) as H.
  destruct request as [[| | | | |]|]; try exact H; rewrite H;
    apply background_stream_shape.
Qed.

(** ** The order of the phases *)

(** The functions a test case passes through. *)
Definition test_functions : list string :=
  ["runPrompt"; "evaluateTestCase"; "scoreFactuality"; "scoreBattle"; "scoreTone"].

Lemma enters_runPrompt prompt input : keeps (enters test_functions) (runPrompt prompt input).
Proof. unfold runPrompt, test_functions. enters_tac. Qed.

Lemma enters_ask_binary question : keeps (enters test_functions) (ask_binary question).
Proof. unfold ask_binary. enters_tac. Qed.

Lemma enters_scoreFactuality output expected metadata :
  keeps (enters test_functions) (scoreFactuality output expected metadata).
Proof.
  unfold scoreFactuality.
  repeat first
    [ apply enters_ask_binary
    | keeps_step
    | apply enters_enter; cbn; tauto
    | solve [eauto with keeps] ].
Qed.

Lemma enters_scoreBattle input output expected metadata :
  keeps (enters test_functions) (scoreBattle input output expected metadata).
Proof.
  unfold scoreBattle.
  repeat first
    [ apply enters_ask_binary
    | keeps_step
    | apply enters_enter; cbn; tauto
    | solve [eauto with keeps] ].
Qed.

Lemma enters_scoreTone output expectedTone :
  keeps (enters test_functions) (scoreTone output expectedTone).
Proof. unfold scoreTone, test_functions. enters_tac. Qed.

Definition scoring_enters (a b : Sys * Scores) : Prop :=
  enters test_functions (fst a) (fst b).

Lemma scoring_enters_refl a : scoring_enters a a.
Proof. apply enters_refl. Qed.

Lemma scoring_enters_trans a b c :
  scoring_enters a b -> scoring_enters b c -> scoring_enters a c.
Proof. apply enters_trans. Qed.

Lemma scoring_enters_scoring {A} (m : M Sys A) :
  keeps (enters test_functions) m -> keeps scoring_enters (scoring m).
Proof.
  intros Hm st. unfold scoring. specialize (Hm (fst st)).
  destruct (m (fst st)); cbn [snd fst] in *. exact Hm.
Qed.

Lemma scoring_enters_assign f : keeps scoring_enters (assign f).
Proof. intros st. apply enters_refl. Qed.

Lemma scoring_enters_evaluate_block testCase output :
  keeps scoring_enters (evaluate_block testCase output).
Proof.
  pose proof scoring_enters_refl. pose proof scoring_enters_trans.
  unfold evaluate_block.
  repeat first
    [ keeps_step
    | apply scoring_enters_assign
    | apply scoring_enters_scoring;
      first [apply enters_scoreFactuality | apply enters_scoreBattle
            | apply enters_scoreTone]
    | solve [eauto with keeps] ].
Qed.

Lemma enters_evaluateTestCase testCase output :
  keeps (enters test_functions) (evaluateTestCase testCase output).
Proof.
  unfold evaluateTestCase.
  apply keeps_bind; [eauto with keeps .. | | intros _].
  - apply enters_enter. cbn; tauto.
  - intros s.
    pose proof (scoring_enters_evaluate_block testCase output (s, initial_scores)) as H.
    destruct (evaluate_block testCase output (s, initial_scores)) as [r st].
    exact H.
Qed.

Lemma run_enters_evaluate_all prompt total testCases :
  forall index results,
    keeps (run_enters test_functions) (evaluate_all prompt total index testCases results).
Proof.
  induction testCases as [|testCase rest IH]; intros index results; cbn [evaluate_all].
  - enters_tac.
  - apply keeps_bind; [eauto with keeps .. | | intros; apply IH].
    unfold evaluate_one, sendLog.
    repeat first
      [ keeps_step
      | apply run_enters_push_log
      | apply run_enters_await;
        first [apply enters_runPrompt | apply enters_evaluateTestCase]
      | solve [eauto with keeps] ].
Qed.

(** The generator is entered once, whatever the providers answer. *)
Lemma generator_trace prompt s :
  trace s (snd (generateSyntheticDataset prompt s)) ["generateSyntheticDataset"].
Proof.
  rewrite generateSyntheticDataset_eq. cbv zeta.
  destruct (gemini_generateContent _ _) as [r1 w1].
  destruct (first_attempt r1); [reflexivity|].
  destruct (groq_create _ _) as [r2 w2]. reflexivity.
Qed.

Lemma prepare_trace prompt (st : Run LogEntry Evaluation) :
  trace (sys st) (sys (snd (prepare prompt st))) ["generateSyntheticDataset"].
Proof.
  pose proof (generator_trace prompt (sys st)) as H.
  unfold prepare.
  cbv beta iota zeta delta [bind sendLog push_log await ret].
  cbn [sys run_logs written].
  destruct (generateSyntheticDataset prompt (sys st)) as [[testCases|e] s1];
    cbn [snd sys] in *; exact H.
Qed.

(** So is the optimizer, when it is called. *)
Lemma optimizer_trace prompt failedTests s :
  trace s (snd (getImprovedPrompts prompt failedTests s)) ["getImprovedPrompts"].
Proof.
  unfold getImprovedPrompts, bind at 1, enter, modify.
  unfold bind at 1, of_result.
  destruct (failureAnalysis failedTests) as [analysis|e]; [|reflexivity].
  unfold try_catch, bind, call, ret.
  cbn [world entered].
  destruct (anthropic_create _ _ _) as [[t|e] w1]; cbn; [|reflexivity].
  destruct (match_array _) as [m|]; cbn; [|reflexivity].
  unfold of_result. destruct (parse_array m); reflexivity.
Qed.

(** The calls of the optimizer after a loop that returned [results]:
    one when a result has failed, none otherwise. *)
Definition optimizer_calls (results : list TestResult) : list string :=
  match failing results with
  | [] => []
  | _ :: _ => ["getImprovedPrompts"]
  end.

Lemma conclude_trace prompt testCases results (st : Run LogEntry Evaluation) :
  trace (sys st) (sys (snd (conclude prompt testCases results st)))
        (optimizer_calls results).
Proof.
  unfold conclude, improve, optimizer_calls.
  destruct (failing results) as [|f fs].
  - unfold trace. now rewrite app_nil_r.
  - cbv beta iota zeta delta [bind sendLog push_log await ret report gets write modify].
    cbn [sys run_logs written].
    pose proof (optimizer_trace prompt (f :: fs) (sys st)) as H.
    destruct (getImprovedPrompts prompt (f :: fs) (sys st)) as [[improved|e] s1];
      cbn [snd sys] in *; exact H.
Qed.

(** The prompt of a request that passes the two configuration checks:
    a string that is not empty, with the generator's key configured. *)
Definition accepted_prompt (prompt : value) : option string :=
  match prompt with
  | Some (JStr p) =>
      if String.eqb p EmptyString then None
      else if env_GEMINI_API_KEY then Some p else None
  | _ => None
  end.

Definition accepted (request : Result json) : option string :=
  match request with
  | Ok body => accepted_prompt (field "prompt" body)
  | Throw _ => None
  end.

(** The functions a run enters, by how far it gets. *)
Definition phases (p : string) (st : Run LogEntry Evaluation) (l : list string) : Prop :=
  match prepare p st with
  | (Throw _, _) => l = ["generateSyntheticDataset"]
  | (Ok testCases, st1) =>
      exists t,
        Forall (fun g => In g test_functions) t
        /\ match evaluate_all p (length testCases) 0 testCases [] st1 with
           | (Throw _, _) => l = "generateSyntheticDataset" :: t
           | (Ok results, _) =>
               l = ("generateSyntheticDataset" :: t ++ optimizer_calls results)%list
           end
  end.

Lemma background_phases (prompt : value) (st : Run LogEntry Evaluation) :
  exists l,
    entered (sys (snd (background prompt st))) = (entered (sys st) ++ l)%list
    /\ match accepted_prompt prompt with
       | None => l = []
       | Some p => phases p st l
       end.
Proof.
  assert (forall reason,
             entered (sys (snd (try_catch (reject reason) on_error st)))
             = (entered (sys st) ++ [])%list) as Hrej
    by (intros reason; now rewrite app_nil_r).
  unfold background, task, accepted_prompt.
  destruct prompt as [[| | |p| |]|]; try (exists []; split; [apply Hrej | reflexivity]).
  destruct (String.eqb p EmptyString); [exists []; split; [apply Hrej | reflexivity]|].
  destruct env_GEMINI_API_KEY; cbn [negb];
    [|exists []; split; [apply Hrej | reflexivity]].
  assert (forall e st1, sys (snd (on_error e st1)) = sys st1) as Herr by reflexivity.
  unfold try_catch, pipeline, bind at 1, phases.
  pose proof (prepare_trace p st) as H1.
  destruct (prepare p st) as [[testCases|e1] st1]; cbn [snd] in H1.
  2:{ exists ["generateSyntheticDataset"]. rewrite Herr. split; [exact H1 | reflexivity]. }
  unfold bind at 1.
  destruct (run_enters_evaluate_all p (length testCases) testCases 0 [] st1)
    as (t & H2 & Ht).
  destruct (evaluate_all p (length testCases) 0 testCases [] st1) as [[results|e2] st2];
    cbn [snd] in H2.
  2:{ exists ("generateSyntheticDataset" :: t)%list. rewrite Herr.
      unfold trace in *. rewrite H2, H1, <- app_assoc.
      split; [reflexivity | exists t; split; [assumption | reflexivity]]. }
  pose proof (conclude_trace p testCases results st2) as H3.
  exists ("generateSyntheticDataset" :: t ++ optimizer_calls results)%list.
  split; [|exists t; split; [assumption | reflexivity]].
  assert (sys (snd (let (r, st3) := conclude p testCases results st2 in
                    match r with
                    | Ok a => (Ok a, st3)
                    | Throw e => on_error e st3
                    end))
          = sys (snd (conclude p testCases results st2))) as ->.
  { destruct (conclude p testCases results st2) as [[[]|e3] st3]; [reflexivity|].
    apply Herr. }
  unfold trace in *. rewrite H3, H2, H1, <- !app_assoc. reflexivity.
Qed.

(** X5: the route functions a run enters, in order.  A request that
    is rejected or turned down by a configuration check (its body is
    no JSON text, its prompt is not a string or is empty, the
    generator's key is not configured) enters none.  Every other run
    enters the dataset generator first and once, and nothing else if
    the dataset cannot be had; then, in the evaluation loop, only
    [runPrompt], [evaluateTestCase] and the three scorers; and last,
    if the loop returned, [getImprovedPrompts] once when a result has
    failed and not at all otherwise.  In particular the dataset is
    generated once per run and nothing is scored after the improved
    prompts were asked for. *)
Theorem evaluation_phases (request : Result json) (st : Run LogEntry Evaluation) :
  exists l,
    entered (sys (snd (POST request st))) = (entered (sys st) ++ l)%list
    /\ match accepted request with
       | None => l = []
       | Some p => phases p st l
       end.
Proof.
  pose proof (POST_cases request st) as H. unfold accepted.
  destruct request as [[| | | | |]|]; rewrite H;
    first [ apply background_phases
          | exists []; split; [cbn [snd]; now rewrite app_nil_r | reflexivity] ].
Qed.

(** ** The results of a run and its dataset *)

(** [r] is a result for [testCase]: its input, reference answer and
    metadata are the test case's, and the input is a string. *)
Definition from_case (testCase : json) (r : TestResult) : Prop :=
  field "input" testCase = Some (JStr (input r))
  /\ expected r = field "expected" testCase
  /\ metadata r = field "metadata" testCase.

Lemma evaluate_one_from_case prompt total index testCase st r st' :
  evaluate_one prompt total index testCase st = (Ok r, st') -> from_case testCase r.
Proof.
  unfold evaluate_one.
  destruct testCase as [| | | | |fields]; cbn [get field];
    cbv beta iota zeta delta [bind of_result sendLog push_log await ret];
    try discriminate.
  destruct (assoc "input" fields) as [[| | |i| |]|] eqn:Ei; cbn [as_string];
    try discriminate.
  cbn [sys run_logs written].
  destruct (runPrompt prompt i (sys st)) as [[output|e] s1]; [|discriminate].
  cbn [sys run_logs written].
  destruct (evaluateTestCase (JObj fields) output s1) as [[sc|e] s2]; [|discriminate].
  intros H. inversion H; subst. unfold from_case. cbn [field input expected metadata].
  rewrite Ei. repeat split.
Qed.

Lemma evaluate_all_from_cases prompt total testCases :
  forall index results st results' st',
    evaluate_all prompt total index testCases results st = (Ok results', st') ->
    exists rs, results' = (results ++ rs)%list /\ Forall2 from_case testCases rs.
Proof.
  induction testCases as [|testCase rest IH]; intros index results st results' st';
    cbn [evaluate_all].
  - cbv [ret]. intros H. inversion H; subst. exists []. rewrite app_nil_r.
    split; [reflexivity | constructor].
  - unfold bind at 1.
    destruct (evaluate_one prompt total index testCase st) as [[r|e] st1] eqn:E1;
      [|discriminate].
    intros H. destruct (IH _ _ _ _ _ H) as (rs & -> & Hrs).
    exists (r :: rs). rewrite <- app_assoc. split; [reflexivity|].
    constructor; [|assumption]. eapply evaluate_one_from_case; eassumption.
Qed.

(** The final record [conclude] writes. *)
Definition reports (p : string) (testCases : list json) (results : list TestResult)
    (r : Sse LogEntry Evaluation) : Prop :=
  match r with
  | SseComplete e =>
      Braintrust.prompt e = p
      /\ syntheticDataset e = testCases
      /\ Braintrust.results e = results
      /\ exists improved, improvedPrompts e = firstn 3 improved
  | _ => True
  end.

Lemma writes_conclude p testCases results :
  writes (reports p testCases results) (conclude p testCases results).
Proof.
  assert (forall l, reports p testCases results (SseLog l)) as Hlog by (intros; exact I).
  unfold conclude, writes.
  apply keeps_bind; [eauto with keeps .. | now apply writes_sendLog | intros _].
  apply keeps_bind; [eauto with keeps .. | now apply writes_improve | intros improved].
  unfold report.
  apply keeps_bind; [eauto with keeps .. | now apply writes_sendLog | intros _].
  apply keeps_bind; [eauto with keeps .. | apply keeps_gets; eauto with keeps | intros l].
  apply writes_write. cbn. repeat split. now exists improved.
Qed.

(** A final record comes from a run that went through all phases. *)
Lemma final_record_inv (prompt : value) (st : Run LogEntry Evaluation) (e : Evaluation) :
  (forall r, In r (written st) -> is_complete r = false) ->
  In (SseComplete e) (written (snd (background prompt st))) ->
  exists p st1 st2,
    prompt = Some (JStr p)
    /\ prepare p st = (Ok (syntheticDataset e), st1)
    /\ evaluate_all p (length (syntheticDataset e)) 0 (syntheticDataset e) [] st1
       = (Ok (results e), st2)
    /\ reports p (syntheticDataset e) (results e) (SseComplete e).
Proof.
  intros Hst Hin.
  assert (forall reason st0,
             In (SseComplete e) (written (snd (reject reason st0))) ->
             In (SseComplete e) (written st0)) as Hrej.
  { intros reason st0 H.
    destruct (writes_reject not_complete not_complete_log reason eq_refl st0 _ H)
      as [H'|H']; [assumption | discriminate]. }
  assert (In (SseComplete e) (written (snd (task prompt st)))) as Ht.
  { unfold background, try_catch in *.
    destruct (task prompt st) as [[[]|e1] st1]; cbn [snd] in *; [assumption|].
    revert Hin. unfold on_error.
    cbv beta iota zeta delta [bind sendLog push_log gets write modify].
    cbn [sys run_logs written snd]. intros H.
    rewrite !in_app_iff in H. cbn [In] in H.
    destruct H as [[H|[H|[]]]|[H|[]]]; [assumption | discriminate ..]. }
  clear Hin.
  assert (forall reason, In (SseComplete e) (written (snd (reject reason st))) -> False)
    as Hno by (intros reason H; apply Hrej, Hst in H; discriminate).
  unfold task in Ht.
  destruct prompt as [[| | |p| |]|]; try (exfalso; eapply Hno; eassumption).
  destruct (String.eqb p EmptyString); [exfalso; eapply Hno; eassumption|].
  destruct (negb env_GEMINI_API_KEY); [exfalso; eapply Hno; eassumption|].
  unfold pipeline in Ht. unfold bind at 1 in Ht.
  pose proof (writes_prepare not_complete not_complete_log p st) as Hw1.
  destruct (prepare p st) as [[testCases|e1] st1] eqn:Eprep; cbn [snd] in *.
  2:{ destruct (Hw1 _ Ht) as [H|H]; [apply Hst in H|]; discriminate. }
  unfold bind at 1 in Ht.
  pose proof (writes_evaluate_all not_complete not_complete_log p (length testCases)
                testCases 0 [] st1) as Hw2.
  destruct (evaluate_all p (length testCases) 0 testCases [] st1)
    as [[results|e2] st2] eqn:Eall; cbn [snd] in *.
  2:{ destruct (Hw2 _ Ht) as [H|H]; [|discriminate].
      destruct (Hw1 _ H) as [H'|H']; [apply Hst in H'|]; discriminate. }
  destruct (writes_conclude p testCases results st2 _ Ht) as [H|H].
  { destruct (Hw2 _ H) as [H'|H']; [|discriminate].
    destruct (Hw1 _ H') as [H''|H'']; [apply Hst in H''|]; discriminate. }
  pose proof H as (Hp & Hd & Hr & Hi). subst testCases results.
  exists p, st1, st2. repeat split; try assumption.
Qed.

(** X6: the final record of a run answers its dataset.  The [prompt]
    it carries is the prompt of the request; [results] has one result
    for each test case of [syntheticDataset], in the same order, with
    the test case's input (a string), reference answer and metadata;
    and [improvedPrompts] has at most three entries. *)
Theorem final_record_follows_dataset
    (request : Result json) (st : Run LogEntry Evaluation) (e : Evaluation) :
  (forall r, In r (written st) -> is_complete r = false) ->
  In (SseComplete e) (written (snd (POST request st))) ->
  (exists body,
      request = Ok body /\ field "prompt" body = Some (JStr (Braintrust.prompt e)))
  /\ Forall2 from_case (syntheticDataset e) (results e)
  /\ length (results e) = length (syntheticDataset e)
  /\ length (improvedPrompts e) <= 3.
Proof.
  intros Hst Hin.
  destruct (POST_complete request st e Hst Hin) as (body & Hb & HP).
  rewrite HP in Hin.
  destruct (final_record_inv _ st e Hst Hin)
    as (p & st1 & st2 & Hp & _ & Hall & Hprompt & _ & _ & improved & Himp).
  destruct (evaluate_all_from_cases _ _ _ _ _ _ _ _ Hall) as (rs & Hrs & Hf).
  cbn [app] in Hrs. subst rs.
  split; [exists body; split; [assumption | congruence]|]. split; [assumption|].
  split; [symmetry; eapply Forall2_length; eassumption|].
  rewrite Himp. apply firstn_le_length.
Qed.

(** X27: a test passes only with a perfect score.  In every result
    of every final record each of the four dimension scores is 0 or
    1, and the overall score reaches the threshold 0.8 exactly when
    all four are 1: one dimension at 0 (an overall score of 0.75 at
    most) puts the result among the failing ones handed to the
    optimizer. *)
Theorem passing_needs_every_dimension
    (request : Result json) (st : Run LogEntry Evaluation) (e : Evaluation)
    (r : TestResult) :
  (forall x, In x (written st) -> is_complete x = false) ->
  In (SseComplete e) (written (snd (POST request st))) ->
  In r (results e) ->
  (binary (factuality (scores r)) /\ binary (battle (scores r))
   /\ binary (jsonValidity (scores r)) /\ binary (tone (scores r)))
  /\ (Qgeb (overall (scores r)) lit_0_8 = true
      <-> factuality (scores r) = 1%Q /\ battle (scores r) = 1%Q
          /\ jsonValidity (scores r) = 1%Q /\ tone (scores r) = 1%Q)
  /\ (In r (failing (results e))
      <-> factuality (scores r) = 0%Q \/ battle (scores r) = 0%Q
          \/ jsonValidity (scores r) = 0%Q \/ tone (scores r) = 0%Q).
Proof.
  intros Hst Hin Hr.
  destruct (POST_complete request st e Hst Hin) as (body & _ & HP).
  rewrite HP in Hin.
  destruct (final_record_scored _ st e r Hst Hin Hr) as (Hf & Hb & Hj & Ht).
  assert (binary (jsonValidity (scores r))) as Hjb.
  { rewrite Hj. destruct (truthy _); [destruct (parse _)|]; unfold binary; auto. }
  clear Hj.
  assert (binary (tone (scores r))
          /\ (overall (scores r) = mean (scores r)
              \/ tone (scores r) = 0%Q /\ overall (scores r) = 0%Q)) as [Htb Ho].
  { destruct (truthy _); [destruct (to_text _)|]; destruct Ht as [Ht Ho];
      unfold binary; auto. }
  clear Ht.
  split; [repeat split; assumption|].
  assert (In r (failing (results e)) <-> Qgeb (overall (scores r)) lit_0_8 = false) as ->.
  { unfold failing, Qltb, Qgeb. rewrite filter_In, negb_true_iff. tauto. }
  destruct Ho as [Ho|[Et0 Ho]]; rewrite Ho; unfold mean.
  - destruct Hf as [Ef|Ef], Hb as [Eb|Eb], Hjb as [Ej|Ej], Htb as [Et|Et];
      rewrite Ef, Eb, Ej, Et;
      (split; split; intros H;
       try reflexivity; try discriminate H; try tauto;
       try (repeat split; reflexivity);
       try (destruct H as (H1 & H2 & H3 & H4); discriminate);
       try (destruct H as [H|[H|[H|H]]]; discriminate)).
  - rewrite Et0. split; split; intros H; try reflexivity; try discriminate H;
      try tauto.
    destruct H as (_ & _ & _ & H). discriminate.
Qed.

(** ** How a turn of the evaluation loop can fail *)

(** [testCase.input], on which [substring] is called. *)
Definition input_of (testCase : json) : Result string :=
  match get (Some testCase) "input" with
  | Ok v => as_string v
  | Throw e => Throw e
  end.

Lemma evaluateTestCase_returns testCase output s :
  exists sc s', evaluateTestCase testCase output s = (Ok sc, s').
Proof.
  unfold evaluateTestCase, bind at 1, enter, modify.
  destruct (evaluate_block testCase output _) as [r st]. eauto.
Qed.

(** X7: a turn of the evaluation loop fails in two ways only.  A test
    case whose [input] is not a string makes it throw before anything
    is logged or called.  Otherwise the input is logged and the prompt
    run: a rejection by the provider is thrown on (this route has no
    fallback for the completion), with nothing but [runPrompt] entered;
    and when the provider answers, the turn returns a result, whatever
    happens to the judge calls. *)
Theorem turn_outcomes (prompt : string) (total index : nat) (testCase : json)
    (st : Run LogEntry Evaluation) :
  match input_of testCase with
  | Throw e => evaluate_one prompt total index testCase st = (Throw e, st)
  | Ok input =>
      match anthropic_create 2048 (Render.render prompt input) (world (sys st)) with
      | (Throw e, w) =>
          exists log,
            evaluate_one prompt total index testCase st
            = (Throw e,
               {| sys := {| world := w; entered := entered (sys st) ++ ["runPrompt"] |};
                  run_logs := run_logs st ++ [log];
                  written := written st ++ [SseLog log] |})
      | (Ok textContent, w) =>
          exists scores st',
            evaluate_one prompt total index testCase st
            = (Ok {| input := input;
                     output := match textContent with Some t => t | None => EmptyString end;
                     expected := field "expected" testCase;
                     scores := scores;
                     metadata := field "metadata" testCase |}, st')
      end
  end.
Proof.
  unfold evaluate_one, input_of.
  destruct (match get (Some testCase) "input" with
            | Ok v => as_string v
            | Throw e => Throw e
            end) as [input|e]; [|reflexivity].
  cbv beta iota zeta delta [bind of_result sendLog push_log await ret runPrompt enter
                              modify call].
  cbn [sys run_logs written world entered].
  destruct (anthropic_create 2048 _ _) as [[textContent|e] w].
  - cbn [sys run_logs written world entered].
    destruct (evaluateTestCase_returns testCase
                (match textContent with Some t => t | None => EmptyString end)
                {| world := w; entered := entered (sys st) ++ ["runPrompt"] |})
      as (sc & s' & ->).
    cbn [sys run_logs written]. eexists _, _. reflexivity.
  - eexists. reflexivity.
Qed.

Lemma evaluate_all_app prompt total (first rest : list json) :
  forall index results st,
    evaluate_all prompt total index (first ++ rest) results st =
    match evaluate_all prompt total index first results st with
    | (Ok results', st') =>
        evaluate_all prompt total (index + length first) rest results' st'
    | (Throw e, st') => (Throw e, st')
    end.
Proof.
  induction first as [|testCase first IH]; intros index results st.
  - cbn. now rewrite Nat.add_0_r.
  - cbn [app evaluate_all length]. unfold bind at 1 2.
    destruct (evaluate_one prompt total index testCase st) as [[r|e] st1]; [|reflexivity].
    rewrite IH. now rewrite Nat.add_succ_r.
Qed.

(** X8: a failing turn ends the run.  When the turn of a test case
    throws, the results of the test cases before it are dropped and
    the test cases after it are not run: the run logs the error and
    closes the stream with an error record that carries its message
    and the logs; no final record is written, and nothing is called
    after the failure. *)
Theorem failing_turn_ends_run
    (body : json) (p : string) (st st1 st2 st3 : Run LogEntry Evaluation)
    (first rest : list json) (testCase : json) (results : list TestResult) (e : exn) :
  field "prompt" body = Some (JStr p) ->
  p <> EmptyString -> env_GEMINI_API_KEY = true ->
  (forall r, In r (written st) -> is_complete r = false) ->
  prepare p st = (Ok (first ++ testCase :: rest)%list, st1) ->
  evaluate_all p (length (first ++ testCase :: rest)%list) 0 first [] st1
    = (Ok results, st2) ->
  evaluate_one p (length (first ++ testCase :: rest)%list) (length first) testCase st2
    = (Throw e, st3) ->
  exists st' log,
    POST (Ok body) st = (Ok tt, st')
    /\ written st'
       = (written st3
          ++ [SseLog log;
              SseError "Failed to run Braintrust evaluation" (Some (message_of e))
                       (Some (run_logs st'))])%list
    /\ details log = Some (message_of e)
    /\ sys st' = sys st3
    /\ (forall r, In r (written st') -> is_complete r = false).
Proof.
  intros Hbody Hp Hk Hst Hprep Hall Hone.
  rewrite (POST_body body p Hbody).
  assert (pipeline p st = (Throw e, st3)) as Hpipe.
  { unfold pipeline, bind at 1. rewrite Hprep. unfold bind at 1.
    rewrite evaluate_all_app, Hall. cbn [evaluate_all Nat.add]. unfold bind at 1.
    rewrite Hone. reflexivity. }
  unfold background. rewrite (task_accepted p Hp Hk). unfold try_catch. rewrite Hpipe.
  unfold on_error.
  cbv beta iota zeta delta [bind sendLog push_log gets write modify].
  cbn [sys run_logs written].
  eexists _, _. split; [reflexivity|]. cbn [sys run_logs written details].
  split; [rewrite <- app_assoc; reflexivity|].
  split; [reflexivity|]. split; [reflexivity|].
  pose proof (writes_prepare not_complete not_complete_log p st) as Hw1.
  rewrite Hprep in Hw1. cbn [snd] in Hw1.
  pose proof (writes_evaluate_all not_complete not_complete_log p
                (length (first ++ testCase :: rest)%list) first 0 [] st1) as Hw2.
  rewrite Hall in Hw2. cbn [snd] in Hw2.
  pose proof (writes_evaluate_one not_complete not_complete_log p
                (length (first ++ testCase :: rest)%list) (length first) testCase st2)
    as Hw3.
  rewrite Hone in Hw3. cbn [snd] in Hw3.
  intros r Hr. rewrite !in_app_iff in Hr. cbn [In] in Hr.
  destruct Hr as [[Hr|[<-|[]]]|[<-|[]]]; try reflexivity.
  destruct (Hw3 r Hr) as [H|H]; [|exact H].
  destruct (Hw2 r H) as [H'|H']; [|exact H'].
  destruct (Hw1 r H') as [H''|H'']; [now apply Hst | exact H''].
Qed.

(** ** The judge is down *)

(** Every call to the judge's provider from a world in [down] is
    rejected, and leaves the world in [down]. *)
Definition outage (down : World -> Prop) : Prop :=
  forall max_tokens question w,
    down w ->
    exists e w', anthropic_create max_tokens question w = (Throw e, w') /\ down w'.

Lemma ask_binary_outage down question s :
  outage down -> down (world s) ->
  exists s', ask_binary question s = (Ok 0%Q, s') /\ down (world s').
Proof.
  intros Hout Hd. unfold ask_binary, try_catch, bind, call, ret.
  destruct (Hout 50 question (world s) Hd) as (e & w' & -> & Hd').
  eexists. split; [reflexivity | exact Hd'].
Qed.

Lemma scoreFactuality_outage down output expected metadata s x :
  outage down -> down (world s) -> to_text expected = Ok x ->
  exists s',
    scoreFactuality output expected metadata s = (Ok 0%Q, s') /\ down (world s').
Proof.
  intros Hout Hd Hx.
  unfold scoreFactuality, bind at 1, enter, modify.
  unfold bind at 1, of_result. rewrite Hx.
  apply ask_binary_outage; assumption.
Qed.

Lemma scoreBattle_outage down input output expected metadata s i x :
  outage down -> down (world s) -> to_text input = Ok i -> to_text expected = Ok x ->
  exists s',
    scoreBattle input output expected metadata s = (Ok 0%Q, s') /\ down (world s').
Proof.
  intros Hout Hd Hi Hx.
  unfold scoreBattle, bind at 1, enter, modify.
  unfold bind at 1, of_result. rewrite Hi.
  destruct (is_string "recommendation" (promptType_of metadata)).
  - apply ask_binary_outage; assumption.
  - unfold bind at 1. rewrite Hx. apply ask_binary_outage; assumption.
Qed.

Lemma scoreBattle_throws input output expected metadata s e :
  to_text input = Throw e ->
  scoreBattle input output expected metadata s
  = (Throw e, {| world := world s; entered := entered s ++ ["scoreBattle"] |}).
Proof.
  intros Hi. unfold scoreBattle, bind at 1, enter, modify.
  unfold bind at 1, of_result. now rewrite Hi.
Qed.

Lemma scoreTone_outage down output expectedTone s t :
  outage down -> down (world s) ->
  truthy expectedTone = true -> to_text expectedTone = Ok t ->
  exists s', scoreTone output expectedTone s = (Ok 0%Q, s').
Proof.
  intros Hout Hd Ht Htext.
  unfold scoreTone, bind at 1, enter, modify; simpl. rewrite Ht; simpl.
  unfold bind at 1, of_result. rewrite Htext.
  unfold try_catch, bind, call, ret; simpl.
  destruct (Hout 10 (tonePrompt output t) (world s) Hd) as (e & w' & -> & _).
  eexists. reflexivity.
Qed.

(** X9: while the judge's provider rejects every call, a test case is
    still scored, and it fails.  When [expected] or [input] has no
    text, a scorer throws while it builds its question and every score
    stays 0.  Otherwise factuality and quality are 0, the JSON score
    does not depend on the judge, the tone score is 0 if a tone is
    expected and 1 if none is, and [overall] is the mean of the four
    (0 instead when the expected tone has no text).  In each case
    [overall] is below the threshold 0.8. *)
Theorem scores_during_outage (down : World -> Prop) (testCase : json) (output : string)
    (s : Sys) :
  outage down -> down (world s) -> testCase <> JNull ->
  exists sc s',
    evaluateTestCase testCase output s = (Ok sc, s')
    /\ match to_text (field "expected" testCase), to_text (field "input" testCase) with
       | Ok _, Ok _ =>
           let expectedTone := get_opt (field "metadata" testCase) "expectedTone" in
           factuality sc = 0%Q /\ battle sc = 0%Q
           /\ jsonValidity sc = jsonValidity_of testCase output
           /\ tone sc = (if truthy expectedTone then 0%Q else 1%Q)
           /\ overall sc
              = (if truthy expectedTone then
                   match to_text expectedTone with
                   | Ok _ => mean sc
                   | Throw _ => 0%Q
                   end
                 else mean sc)
       | _, _ => sc = initial_scores
       end
    /\ Qltb (overall sc) lit_0_8 = true.
Proof.
  intros Hout Hd Hnn.
  unfold evaluateTestCase, bind at 1, enter, modify; cbn beta iota.
  set (s0 := {| world := world s; entered := entered s ++ ["evaluateTestCase"] |}).
  assert (down (world s0)) as Hd0 by exact Hd.
  unfold evaluate_block.
  assert (forall k, get (Some testCase) k = Ok (field k testCase)) as Hget
    by (intros k; destruct testCase; try reflexivity; congruence).
  unfold bind, of_result, scoring, assign, modify; rewrite !Hget; cbn [fst snd].
  destruct (to_text (field "expected" testCase)) as [x|e] eqn:Ex.
  2:{ pose proof (scoreFactuality_cases output (field "expected" testCase)
                    (field "metadata" testCase) s0) as Hf.
      rewrite Ex in Hf. rewrite Hf. cbn [fst snd].
      eexists _, _. repeat split. }
  destruct (scoreFactuality_outage down output _ (field "metadata" testCase) s0 x
              Hout Hd0 Ex) as (s1 & -> & Hd1).
  cbn [fst snd].
  destruct (to_text (field "input" testCase)) as [i|e] eqn:Ei.
  2:{ rewrite (scoreBattle_throws _ output (field "expected" testCase)
                 (field "metadata" testCase) s1 e Ei).
      cbn [fst snd]. eexists _, _. repeat split. }
  destruct (scoreBattle_outage down _ output _ (field "metadata" testCase) s1 i x
              Hout Hd1 Ei Ex) as (s2 & -> & Hd2).
  cbn [fst snd].
  unfold jsonValidity_of.
  pose proof (scoreTone_cases output
                (get_opt (field "metadata" testCase) "expectedTone") s2) as Hc.
  cbv zeta in Hc.
  destruct (truthy (get_opt (field "metadata" testCase) "expectsJSON"));
    [destruct (parse output)|];
    (destruct (truthy (get_opt (field "metadata" testCase) "expectedTone")) eqn:Et;
     cbn [fst snd];
     [ destruct (to_text (get_opt (field "metadata" testCase) "expectedTone"))
         as [toneText|toneError] eqn:Etext;
       [ destruct (scoreTone_outage down output _ s2 toneText Hout Hd2 Et Etext)
           as (s3 & ->)
       | rewrite Hc ];
       cbn [fst snd]
     | ];
     eexists _, _; (split; [reflexivity|]); cbn;
     repeat split; reflexivity).
Qed.

(** ** After the evaluation loop *)

(** The failure analysis can be built exactly when the reference
    answer of every failed test has a text. *)
Lemma failureAnalysis_built (failedTests : list TestResult) :
  Forall (fun r => has_text (expected r)) failedTests
  <-> exists analysis, failureAnalysis failedTests = Ok analysis.
Proof.
  split; [apply failureAnalysis_ok|].
  intros [analysis Ha].
  apply Forall_forall. intros r Hr.
  destruct (has_text_dec (expected r)) as [H|H]; [assumption | exfalso].
  rewrite failureAnalysis_throw in Ha; [discriminate|].
  apply Exists_exists. exists r. split; [assumption|].
  intros [t Ht]. congruence.
Qed.

(** X25: once the evaluation loop has returned, the run completes if
    the failure analysis for the optimizer can be built, that is, if
    the reference answer of every failed test has a text.  Then
    nothing that happens to the optimizer (a rejected call, an answer
    without an array, one that does not parse) can turn the run into
    an error: the stream ends with a final record that carries the
    results of the loop, the dataset, the summary computed from the
    results, and the whole log; it has no improved prompt when no
    test failed.  When the analysis cannot be built, the optimizer
    throws in front of its [try] block and the stream ends with an
    error record instead, although every test was run. *)
Theorem run_after_the_loop
    (body : json) (p : string) (st st1 st2 : Run LogEntry Evaluation)
    (testCases : list json) (results : list TestResult) :
  field "prompt" body = Some (JStr p) ->
  p <> EmptyString -> env_GEMINI_API_KEY = true ->
  prepare p st = (Ok testCases, st1) ->
  evaluate_all p (length testCases) 0 testCases [] st1 = (Ok results, st2) ->
  (Forall (fun r => has_text (expected r)) (failing results)
   <-> exists analysis, failureAnalysis (failing results) = Ok analysis)
  /\ match failureAnalysis (failing results) with
     | Ok _ =>
         exists e st' ls,
           POST (Ok body) st = (Ok tt, st')
           /\ written st' = (written st2 ++ map SseLog ls ++ [SseComplete e])%list
           /\ Braintrust.results e = results
           /\ syntheticDataset e = testCases
           /\ summary e = summarize results (failing results)
           /\ logs e = run_logs st'
           /\ (failing results = [] -> improvedPrompts e = [])
     | Throw err =>
         exists st' ls,
           POST (Ok body) st = (Ok tt, st')
           /\ written st'
              = (written st2 ++ map SseLog ls
                 ++ [SseError "Failed to run Braintrust evaluation"
                       (Some (message_of err)) (Some (run_logs st'))])%list
     end.
Proof.
  intros Hbody Hp Hk Hprep Hall.
  split; [apply failureAnalysis_built|].
  assert (POST (Ok body) st
          = (let (r, s') := conclude p testCases results st2 in
             match r with
             | Ok a => (Ok a, s')
             | Throw e => on_error e s'
             end)) as ->.
  { rewrite (POST_body body p Hbody).
    unfold background. rewrite (task_accepted p Hp Hk).
    unfold try_catch, pipeline, bind at 1. rewrite Hprep.
    unfold bind at 1. now rewrite Hall. }
  unfold conclude, improve.
  destruct (failing results) as [|f fs] eqn:Ef.
  - unfold failureAnalysis. cbn [failure_texts].
    cbv beta iota zeta delta [bind sendLog push_log ret report gets write modify].
    cbn [sys run_logs written].
    eexists _, _, [_; _; _]. split; [reflexivity|].
    cbn [written map Braintrust.results syntheticDataset summary logs improvedPrompts
         run_logs].
    split; [rewrite <- !app_assoc; reflexivity|].
    repeat split; try reflexivity. cbn [logs]. now rewrite <- !app_assoc.
  - cbv beta iota zeta delta [bind sendLog push_log await].
    cbn [sys run_logs written].
    destruct (failureAnalysis (f :: fs)) as [analysis|err] eqn:Ea.
    + destruct (getImprovedPrompts_total p (f :: fs) (sys st2) analysis Ea)
        as (improved & s3 & ->).
      cbv beta iota zeta delta [bind sendLog push_log ret report gets write modify].
      cbn [sys run_logs written].
      eexists _, _, [_; _; _; _]. split; [reflexivity|].
      cbn [written map Braintrust.results syntheticDataset summary logs improvedPrompts
           run_logs].
      split; [rewrite <- !app_assoc; reflexivity|].
      repeat split; try reflexivity; [|discriminate].
      cbn [logs]. now rewrite <- !app_assoc.
    + rewrite (getImprovedPrompts_throws p (f :: fs) (sys st2) err Ea).
      unfold on_error.
      cbv beta iota zeta delta [bind sendLog push_log gets write modify].
      cbn [sys run_logs written].
      eexists _, [_; _; _]. split; [reflexivity|].
      cbn [written map run_logs].
      rewrite <- !app_assoc. reflexivity.
Qed.

End Facts.
End EvaluationRuns.

(* ================================================================== *)
(** * Runs of the optimization route, in general *)
(* ================================================================== *)

Module OptimizationRuns.
Import Langsmith LangsmithFacts.

Section Facts.
Context `{RT : Runtime} `{PR : Prompts}.

(** ** The stream *)

Lemma logs_only_phase_log phase status details :
  keeps logs_only (sendLog phase status details).
Proof. apply logs_only_push_log. Qed.

Lemma logs_only_test_all req total testCases :
  forall index results, keeps logs_only (test_all req total index testCases results).
Proof.
  induction testCases as [|testCase rest IH]; intros index results; cbn [test_all].
  - logs_tac.
  - apply keeps_bind; [eauto with keeps .. | | intros; apply IH].
    unfold test_one, sendLog. logs_tac.
Qed.

Lemma logs_only_retest_all req optimizedPrompt testCases :
  forall results, keeps logs_only (retest_all req optimizedPrompt testCases results).
Proof.
  induction testCases as [|testCase rest IH]; intros results; cbn [retest_all].
  - logs_tac.
  - repeat first [ keeps_step | apply logs_only_await | apply IH
                 | solve [eauto with keeps] ].
Qed.

Lemma logs_only_phases_1_2 req : keeps logs_only (prepare req).
Proof. unfold prepare, sendLog. logs_tac. Qed.

Lemma logs_only_optimize req promptVersion testCases failedResults :
  keeps logs_only (optimize req promptVersion testCases failedResults).
Proof.
  unfold optimize, sendLog.
  repeat first [ keeps_step | apply logs_only_push_log | apply logs_only_await
               | apply logs_only_retest_all | solve [eauto with keeps] ].
Qed.

Lemma ends_configuration_error reason err details :
  ends logs (reject reason err details).
Proof.
  unfold reject. apply ends_bind; [apply logs_only_phase_log | intros _].
  apply ends_write. intros l. exact I.
Qed.

Lemma ends_phases req : ends logs (pipeline req).
Proof.
  unfold pipeline.
  apply ends_bind; [apply logs_only_phases_1_2 | intros [[promptVersion fullPromptName] testCases]].
  apply ends_bind; [apply logs_only_test_all | intros results].
  unfold conclude.
  apply ends_bind; [apply logs_only_phase_log | intros _].
  apply ends_bind; [apply logs_only_optimize | intros o].
  unfold report.
  apply (ends_final logs (fun l => SseComplete _)). intros l. reflexivity.
Qed.

Lemma ends_background_task req : ends logs (task req).
Proof.
  unfold task.
  destruct (_ || _ || _); [apply ends_configuration_error|].
  destruct (negb env_GEMINI_API_KEY); [apply ends_configuration_error|].
  destruct (negb env_LANGSMITH_API_KEY);
    [apply ends_configuration_error | apply ends_phases].
Qed.

Lemma ends_catch_block e : ends logs (on_error e).
Proof.
  unfold on_error. apply ends_bind; [apply logs_only_phase_log | intros _].
  apply (ends_final logs (fun l => SseError _ _ (Some l))). intros l. reflexivity.
Qed.

(** Whatever the providers do, the background task returns normally,
    and what it adds to the stream is a sequence of log records
    followed by exactly one record of type [complete] or [error]. *)
Lemma pipeline_stream_shape (req : Request) (st : Run LogEntry Evaluation) :
  exists st' ls final,
    background req st = (Ok tt, st')
    /\ run_logs st' = (run_logs st ++ ls)%list
    /\ written st' = (written st ++ map SseLog ls ++ [final])%list
    /\ match final with
       | SseLog _ => False
       | SseComplete e => logs e = run_logs st'
       | SseError _ _ (Some l) => l = run_logs st'
       | SseError _ _ None => True
       end.
Proof.
  destruct (ends_try_catch logs (task req) on_error (ends_background_task req)
              ends_catch_block (fun e st0 => eq_refl) st)
    as (st' & HP & ls & final & Hl & Hw & Ht).
  exists st', ls, final. repeat split; assumption.
Qed.

(** X10: what [POST] does with a request.  A body that is no JSON
    text makes [request.json()] reject, and the body [null] cannot be
    taken apart: both happen in front of the [try] block, so [POST]
    throws, with no response and nothing written.  For every other
    body, whatever its members are and whatever the providers do,
    [POST] returns normally, and what it adds to the stream is a
    sequence of log records followed by exactly one record of type
    [complete] or [error], the last one.  The log records are the
    entries pushed to the [logs] array, in the same order, and the
    [logs] field of the closing record (the error records of the
    three configuration checks have none) is the whole array. *)
Theorem optimization_stream_shape (request : Result json)
    (st : Run LogEntry Evaluation) :
  match request with
  | Throw e => POST request st = (Throw e, st)
  | Ok JNull => POST request st = (Throw TypeError, st)
  | Ok _ =>
      exists st' ls final,
        POST request st = (Ok tt, st')
        /\ run_logs st' = (run_logs st ++ ls)%list
        /\ written st' = (written st ++ map SseLog ls ++ [final])%list
        /\ match final with
           | SseLog _ => False
           | SseComplete e => logs e = run_logs st'
           | SseError _ _ (Some l) => l = run_logs st'
           | SseError _ _ None => True
           end
  end.
Proof.
  pose proof (pipeline_POST_cases request st) as H.
  destruct request as [[| | | | |]|]; try exact H;
    destruct H as (req & _ & ->); apply pipeline_stream_shape.
Qed.

(** ** The order of the phases *)

(** The functions a test case passes through in phase 3, and in the
    A/B test of phase 5. *)
Definition test_functions : list string :=
  ["executePromptWithGemini"; "judgeWithClaude"; "logToLangSmith"].

Definition retest_functions : list string :=
  ["executePromptWithGemini"; "judgeWithClaude"].

Lemma enters_executePromptWithGemini names prompt input :
  In "executePromptWithGemini" names ->
  keeps (enters names) (executePromptWithGemini prompt input).
Proof. intros H. unfold executePromptWithGemini. enters_tac. Qed.

Lemma enters_judgeWithClaude names input output rubric goal :
  In "judgeWithClaude" names ->
  keeps (enters names) (judgeWithClaude input output rubric goal).
Proof. intros H. unfold judgeWithClaude. enters_tac. Qed.

Lemma enters_logToLangSmith promptName input output judgeResult :
  keeps (enters test_functions) (logToLangSmith promptName input output judgeResult).
Proof. unfold logToLangSmith, test_functions. enters_tac. Qed.

Lemma run_enters_test_all req total testCases :
  forall index results,
    keeps (run_enters test_functions) (test_all req total index testCases results).
Proof.
  induction testCases as [|testCase rest IH]; intros index results; cbn [test_all].
  - enters_tac.
  - apply keeps_bind; [eauto with keeps .. | | intros; apply IH].
    unfold test_one, sendLog.
    repeat first
      [ keeps_step
      | apply run_enters_push_log
      | apply run_enters_await;
        first [ apply enters_executePromptWithGemini; cbn; tauto
              | apply enters_judgeWithClaude; cbn; tauto
              | apply enters_logToLangSmith ]
      | solve [eauto with keeps] ].
Qed.

Lemma run_enters_retest_all req optimizedPrompt testCases :
  forall results,
    keeps (run_enters retest_functions) (retest_all req optimizedPrompt testCases results).
Proof.
  induction testCases as [|testCase rest IH]; intros results; cbn [retest_all].
  - enters_tac.
  - repeat first
      [ keeps_step
      | apply run_enters_await;
        first [ apply enters_executePromptWithGemini; cbn; tauto
              | apply enters_judgeWithClaude; cbn; tauto ]
      | apply IH
      | solve [eauto with keeps] ].
Qed.

(** The generator is entered once, whatever the rubric is and the
    providers answer. *)
Lemma dataset_trace prompt goal rubric s :
  trace s (snd (generateSyntheticDataset prompt goal rubric s))
        ["generateSyntheticDataset"].
Proof.
  unfold generateSyntheticDataset, bind at 1, enter, modify.
  unfold bind at 1, of_result at 1.
  destruct (to_text prompt) as [promptText|e]; [|reflexivity].
  unfold bind at 1, of_result at 1.
  destruct (to_text goal) as [goalText|e]; [|reflexivity].
  unfold bind at 1, of_result at 1.
  destruct (as_array rubric) as [criteria|e]; [|reflexivity].
  unfold bind at 1, of_result at 1.
  destruct (texts_of criteria) as [criteriaTexts|e]; [|reflexivity].
  unfold try_catch, bind, call. cbn [world entered].
  destruct (gemini_generateContent _ _) as [[response|e] w1]; cbn.
  - destruct (match_array response) as [m|]; cbn.
    + unfold of_result. destruct (parse_array m); cbn; [reflexivity|].
      destruct (groq_create _ _) as [[c|e'] w2]; cbn; [|reflexivity].
      destruct (match_array _); reflexivity.
    + destruct (groq_create _ _) as [[c|e'] w2]; cbn; [|reflexivity].
      destruct (match_array _); reflexivity.
  - destruct (groq_create _ _) as [[c|e'] w2]; cbn; [|reflexivity].
    destruct (match_array _); reflexivity.
Qed.

Lemma phases_1_2_trace req (st : Run LogEntry Evaluation) (name : string) :
  to_text (req_promptName req) = Ok name ->
  trace (sys st) (sys (snd (prepare req st))) ["generateSyntheticDataset"].
Proof.
  intros Hname.
  pose proof (dataset_trace (req_prompt req) (req_goal req) (req_rubric req) (sys st))
    as H.
  unfold prepare. rewrite Hname.
  cbv beta iota zeta delta [bind of_result sendLog push_log await ret gets].
  cbn [sys run_logs written].
  destruct (generateSyntheticDataset _ _ _ (sys st)) as [[testCases|e] s1];
    cbn [snd sys] in *; exact H.
Qed.

(** Without a text for the name of the prompt, the run fails in front
    of its first log entry. *)
Lemma prepare_nameless req (st : Run LogEntry Evaluation) (e : exn) :
  to_text (req_promptName req) = Throw e -> prepare req st = (Throw e, st).
Proof. intros H. unfold prepare, bind at 1, of_result. now rewrite H. Qed.

Lemma createExamples_entered datasetId failures :
  forall s, entered (snd (createExamples datasetId failures s)) = entered s.
Proof.
  induction failures as [|f rest IH]; intros s; cbn [createExamples]; [reflexivity|].
  unfold bind, call. destruct (langsmith_createExample _ _ _ _ _) as [[[]|e] w];
    [now rewrite IH | reflexivity].
Qed.

Lemma failure_dataset_trace datasetName failures s :
  trace s (snd (createFailureDataset datasetName failures s)) ["createFailureDataset"].
Proof.
  unfold createFailureDataset, bind at 1, enter, modify, try_catch.
  unfold bind, call. cbn [world entered].
  destruct (langsmith_createDataset _ _) as [[datasetId|e] w]; [|reflexivity].
  pose proof (createExamples_entered datasetId failures
                {| world := w; entered := entered s ++ ["createFailureDataset"] |}) as H.
  destruct (createExamples _ _ _) as [[[]|e] s1]; exact H.
Qed.

Lemma optimized_prompt_trace originalPrompt failures goal rubric s :
  trace s (snd (generateOptimizedPrompt originalPrompt failures goal rubric s))
        ["generateOptimizedPrompt"].
Proof.
  unfold generateOptimizedPrompt, bind at 1, enter, modify.
  unfold bind, of_result, call. cbn [world entered].
  destruct (analyse failures); [|reflexivity].
  destruct (to_text originalPrompt); [|reflexivity].
  destruct (to_text goal); [|reflexivity].
  destruct (as_array rubric) as [criteria|]; [|reflexivity].
  destruct (texts_of criteria); [|reflexivity].
  destruct (anthropic_create _ _ _) as [[t|e] w1]; [|reflexivity].
  destruct (match_object _) as [m|]; [|reflexivity].
  destruct (parse_object m); reflexivity.
Qed.

(** What phases 4 and 5 enter: nothing when no test has failed;
    otherwise [createFailureDataset] and [generateOptimizedPrompt],
    followed by the functions of the A/B test. *)
Definition optimizing (failedResults : list TestResult) (o : list string) : Prop :=
  match failedResults with
  | [] => o = []
  | _ :: _ =>
      exists t,
        o = ("createFailureDataset" :: "generateOptimizedPrompt" :: t)%list
        /\ Forall (fun g => In g retest_functions) t
  end.

Lemma optimize_trace req promptVersion testCases failedResults
    (st : Run LogEntry Evaluation) (name : string) :
  to_text (req_promptName req) = Ok name ->
  exists o,
    trace (sys st) (sys (snd (optimize req promptVersion testCases failedResults st))) o
    /\ optimizing failedResults o.
Proof.
  intros Hname. unfold optimize, optimizing.
  destruct failedResults as [|f fs].
  - exists []. split; [unfold trace; now rewrite app_nil_r | reflexivity].
  - rewrite Hname.
    cbv beta iota zeta delta [bind of_result sendLog push_log await].
    cbn [sys run_logs written].
    rewrite createFailureDataset_ok. cbn [sys run_logs written].
    pose proof (failure_dataset_trace (name ++ "-Failures-" ++ promptVersion)
                  (f :: fs) (sys st)) as H1.
    set (s1 := snd (createFailureDataset _ _ _)) in *.
    pose proof (optimized_prompt_trace (req_prompt req) (f :: fs) (req_goal req)
                  (req_rubric req) s1) as H2.
    destruct (generateOptimizedPrompt _ _ _ _ s1) as [[optimization|e] s2];
      cbn [snd] in H2.
    2:{ exists ["createFailureDataset"; "generateOptimizedPrompt"].
        cbn [snd sys]. unfold trace in *. rewrite H2, H1, <- app_assoc.
        split; [reflexivity | exists []; split; [reflexivity | constructor]]. }
    cbn [sys run_logs written].
    destruct (length_text _) as [count|e].
    2:{ exists ["createFailureDataset"; "generateOptimizedPrompt"].
        cbn [snd sys]. unfold trace in *. rewrite H2, H1, <- app_assoc.
        split; [reflexivity | exists []; split; [reflexivity | constructor]]. }
    cbn [sys run_logs written].
    match goal with
    | |- context [retest_all req ?o testCases [] ?st2] =>
        destruct (run_enters_retest_all req o testCases [] st2) as (t & H3 & Ht);
        destruct (retest_all req o testCases [] st2) as [[optimizedResults|e] st3]
    end;
      cbn [snd sys] in H3;
      exists ("createFailureDataset" :: "generateOptimizedPrompt" :: t)%list;
      cbv beta iota zeta delta [ret]; cbn [snd sys];
      unfold trace in *; rewrite H3, H2, H1, <- !app_assoc;
      (split; [reflexivity | exists t; split; [reflexivity | assumption]]).
Qed.

(** The request that passes the three configuration checks: it has a
    prompt, a goal and a name, and both keys are configured. *)
Definition passes (req : Request) : bool :=
  truthy (req_prompt req) && truthy (req_goal req) && truthy (req_promptName req)
  && env_GEMINI_API_KEY && env_LANGSMITH_API_KEY.

Definition accepted (request : Result json) : option Request :=
  match request with
  | Ok body =>
      match destructure body with
      | Ok req => if passes req then Some req else None
      | Throw _ => None
      end
  | Throw _ => None
  end.

(** The functions a run enters, by how far it gets. *)
Definition phases (req : Request) (st : Run LogEntry Evaluation) (l : list string) : Prop :=
  match to_text (req_promptName req) with
  | Throw _ => l = []
  | Ok _ =>
      match prepare req st with
      | (Throw _, _) => l = ["generateSyntheticDataset"]
      | (Ok (_, _, testCases), st1) =>
          exists t,
            Forall (fun g => In g test_functions) t
            /\ match test_all req (length testCases) 0 testCases [] st1 with
               | (Throw _, _) => l = "generateSyntheticDataset" :: t
               | (Ok results, _) =>
                   exists o,
                     l = ("generateSyntheticDataset" :: t ++ o)%list
                     /\ optimizing (failed results) o
               end
      end
  end.

Lemma task_cases (req : Request) :
  task req = (if passes req then pipeline req else task req)
  /\ (passes req = false ->
      exists reason err details, task req = reject reason err details).
Proof.
  unfold task, passes.
  destruct (truthy (req_prompt req)), (truthy (req_goal req)),
    (truthy (req_promptName req)), env_GEMINI_API_KEY, env_LANGSMITH_API_KEY;
    cbn; split; try reflexivity; try discriminate; intros _; eauto.
Qed.

Lemma pipeline_phases (req : Request) (st : Run LogEntry Evaluation) :
  exists l,
    entered (sys (snd (background req st))) = (entered (sys st) ++ l)%list
    /\ if passes req then phases req st l else l = [].
Proof.
  unfold background.
  destruct (task_cases req) as [Htask Hrej].
  destruct (passes req).
  2:{ destruct (Hrej eq_refl) as (reason & err & details & ->).
      exists []. split; [now rewrite app_nil_r | reflexivity]. }
  rewrite Htask. clear Htask Hrej.
  assert (forall e st1, sys (snd (on_error e st1)) = sys st1) as Herr by reflexivity.
  unfold try_catch, pipeline, bind at 1, phases.
  destruct (to_text (req_promptName req)) as [name|e0] eqn:Ename.
  2:{ rewrite (prepare_nameless req st e0 Ename). rewrite Herr.
      exists []. split; [now rewrite app_nil_r | reflexivity]. }
  pose proof (phases_1_2_trace req st name Ename) as H1.
  destruct (prepare req st) as [[[[promptVersion fullPromptName] testCases]|e1] st1];
    cbn [snd] in H1.
  2:{ exists ["generateSyntheticDataset"]. rewrite Herr. split; [exact H1 | reflexivity]. }
  unfold bind at 1.
  destruct (run_enters_test_all req (length testCases) testCases 0 [] st1)
    as (t & H2 & Ht).
  destruct (test_all req (length testCases) 0 testCases [] st1) as [[results|e2] st2];
    cbn [snd] in H2.
  2:{ exists ("generateSyntheticDataset" :: t)%list. rewrite Herr.
      unfold trace in *. rewrite H2, H1, <- app_assoc.
      split; [reflexivity | exists t; split; [assumption | reflexivity]]. }
  assert (exists o,
             trace (sys st2)
               (sys (snd (conclude req promptVersion fullPromptName testCases results st2))) o
             /\ optimizing (failed results) o) as (o & H3 & Ho).
  { unfold conclude.
    cbv beta iota zeta delta [bind sendLog push_log report gets write modify].
    cbn [sys run_logs written].
    match goal with
    | |- context [optimize req promptVersion testCases ?f ?st3] =>
        destruct (optimize_trace req promptVersion testCases f st3 name Ename)
          as (o & H3 & Ho);
        exists o; split; [|exact Ho];
        destruct (optimize req promptVersion testCases f st3) as [[x|e] st4]
    end; exact H3. }
  exists ("generateSyntheticDataset" :: t ++ o)%list.
  split; [|exists t; split; [assumption | exists o; split; [reflexivity | assumption]]].
  assert (sys (snd (let (r, st3) :=
                      conclude req promptVersion fullPromptName testCases results st2 in
                    match r with
                    | Ok a => (Ok a, st3)
                    | Throw e => on_error e st3
                    end))
          = sys (snd (conclude req promptVersion fullPromptName testCases results st2)))
    as ->.
  { destruct (conclude req promptVersion fullPromptName testCases results st2)
      as [[[]|e3] st3]; [reflexivity|].
    apply Herr. }
  unfold trace in *. rewrite H3, H2, H1, <- !app_assoc. reflexivity.
Qed.

(** X11: the route functions a run enters, in order.  A request that
    is rejected or turned down by a configuration check (its body is
    no JSON text or is [null], a prompt, a goal or a name is missing,
    a key is not configured) enters none, and neither does a run
    whose prompt name has no text, which fails in front of its first
    log entry.  Every other run enters the dataset generator first
    and once, and nothing else if the dataset cannot be had; then, in
    the test loop, only [executePromptWithGemini], [judgeWithClaude]
    and [logToLangSmith]; then, if the loop returned with a failed
    test, [createFailureDataset] and [generateOptimizedPrompt], once
    each and in this order, and after these only
    [executePromptWithGemini] and [judgeWithClaude]; if no test
    failed, nothing more.  In particular the A/B test reuses the
    dataset of the first pass, and its results are not logged to
    LangSmith. *)
Theorem optimization_phases (request : Result json) (st : Run LogEntry Evaluation) :
  exists l,
    entered (sys (snd (POST request st))) = (entered (sys st) ++ l)%list
    /\ match accepted request with
       | None => l = []
       | Some req => phases req st l
       end.
Proof.
  pose proof (pipeline_POST_cases request st) as H. unfold accepted.
  destruct request as [body|e];
    [|exists []; rewrite H; split; [cbn [snd]; now rewrite app_nil_r | reflexivity]].
  destruct (destructure body) as [req|e] eqn:Ed.
  - rewrite (pipeline_POST_body body req Ed).
    destruct (pipeline_phases req st) as (l & Hl & Hp).
    exists l. split; [assumption|]. destruct (passes req); assumption.
  - destruct body; try discriminate Ed.
    exists []. rewrite H. split; [cbn [snd]; now rewrite app_nil_r | reflexivity].
Qed.

(** ** The final record *)

(** What a final record of a run for [req] says about the request and
    about its own results. *)
Definition accounted (req : Request) (r : Sse LogEntry Evaluation) : Prop :=
  match r with
  | SseComplete e =>
      originalPrompt e = req_prompt req
      /\ goal e = req_goal req
      /\ rubric e = req_rubric req
      /\ totalTests (metrics e) = length (originalResults e)
      /\ failures (metrics e) = length (failed (originalResults e))
      /\ originalPassRate (metrics e)
         = toFixed 1 (pass_rate (originalResults e) (failed (originalResults e)))
  | _ => True
  end.

Lemma background_accounted (req : Request) : writes (accounted req) (background req).
Proof.
  assert (forall l, accounted req (SseLog l)) as Hlog by (intros; exact I).
  assert (forall reason err details, writes (accounted req) (reject reason err details))
    as Hrej by (intros; apply writes_pipeline_reject; [assumption | exact I]).
  unfold background, writes. apply keeps_try_catch; [eauto with keeps .. | |].
  - unfold task.
    destruct (_ || _ || _); [apply Hrej|].
    destruct (negb env_GEMINI_API_KEY); [apply Hrej|].
    destruct (negb env_LANGSMITH_API_KEY); [apply Hrej|].
    unfold pipeline.
    apply keeps_bind;
      [eauto with keeps .. | now apply writes_pipeline_prepare
      | intros [[promptVersion fullPromptName] testCases]].
    apply keeps_bind; [eauto with keeps .. | now apply writes_test_all | intros results].
    unfold conclude.
    apply keeps_bind; [eauto with keeps .. | now apply writes_pipeline_sendLog | intros _].
    apply keeps_bind; [eauto with keeps .. | now apply writes_optimize | intros o].
    unfold report.
    apply keeps_bind; [eauto with keeps .. | apply keeps_gets; eauto with keeps | intros l].
    apply writes_write. cbn. repeat split.
  - intros e. unfold on_error.
    apply keeps_bind; [eauto with keeps .. | now apply writes_pipeline_sendLog | intros _].
    apply keeps_bind; [eauto with keeps .. | apply keeps_gets; eauto with keeps | intros l].
    apply writes_write. exact I.
Qed.

(** A final record in the stream of [POST] was written by the
    background task, for the members of a parsed body. *)
Lemma pipeline_POST_complete (request : Result json) (st : Run LogEntry Evaluation)
    (e : Evaluation) :
  (forall r, In r (written st) -> is_complete r = false) ->
  In (SseComplete e) (written (snd (POST request st))) ->
  exists body req,
    request = Ok body
    /\ destructure body = Ok req
    /\ POST request st = background req st.
Proof.
  intros Hst Hin. pose proof (pipeline_POST_cases request st) as H.
  destruct request as [body|e1].
  - destruct body;
      try (destruct H as (req & Hd & HP); eexists; exists req;
           split; [reflexivity | split; assumption]).
    rewrite H in Hin. apply Hst in Hin. discriminate.
  - rewrite H in Hin. apply Hst in Hin. discriminate.
Qed.

Lemma destructure_members (body : json) (req : Request) :
  destructure body = Ok req ->
  req_prompt req = field "prompt" body
  /\ req_goal req = field "goal" body
  /\ req_promptName req = field "promptName" body
  /\ req_rubric req = field "rubric" body.
Proof.
  unfold destructure. destruct body; intros H; inversion H; repeat split.
Qed.

(** X12: in every final record a run writes, the prompt, the goal and
    the rubric are those of the request body, and the metrics count
    the results of the first pass: [totalTests] is their number,
    [failures] the number of those whose score is the number 0 (so at
    most [totalTests]), and [originalPassRate] the share of the others
    in percent, computed in double precision (the quotient is rounded,
    and so is its product with 100) and printed to one decimal. *)
Theorem optimization_metrics (request : Result json) (st : Run LogEntry Evaluation)
    (e : Evaluation) :
  (forall r, In r (written st) -> is_complete r = false) ->
  In (SseComplete e) (written (snd (POST request st))) ->
  (exists body,
      request = Ok body
      /\ originalPrompt e = field "prompt" body
      /\ goal e = field "goal" body
      /\ rubric e = field "rubric" body)
  /\ totalTests (metrics e) = length (originalResults e)
  /\ failures (metrics e)
     = length (filter (fun r => is_zero (score r)) (originalResults e))
  /\ failures (metrics e) <= totalTests (metrics e)
  /\ originalPassRate (metrics e)
     = toFixed 1 (scale (div (inject_Z (Z.of_nat (totalTests (metrics e))
                                        - Z.of_nat (failures (metrics e))))
                             (inject_Z (Z.of_nat (totalTests (metrics e)))))
                        100).
Proof.
  intros Hst Hin.
  destruct (pipeline_POST_complete request st e Hst Hin) as (body & req & Hb & Hd & HP).
  rewrite HP in Hin.
  destruct (destructure_members body req Hd) as (M1 & M2 & _ & M4).
  destruct (background_accounted req st _ Hin) as [Hold|Hc].
  { apply Hst in Hold. discriminate. }
  destruct Hc as (H1 & H2 & H3 & H4 & H5 & H6).
  split; [exists body; repeat split; congruence|].
  repeat split; try assumption.
  - rewrite H4, H5. apply filter_length_le.
  - rewrite H6, H4, H5. reflexivity.
Qed.

(** ** The rubric of the request *)

(** X13: the rubric is not among the fields the route checks.  For a
    request with a prompt, a goal and a name, each with a text, whose
    [rubric] is not an array (missing, say), the run starts, logs four
    entries, and fails in the dataset generator, on [rubric.map],
    before any provider is called: the stream ends with an error
    record that carries the engine's message for the [TypeError]. *)
Theorem rubric_is_not_checked (body : json) (req : Request)
    (st : Run LogEntry Evaluation) (name promptText goalText : string) :
  destructure body = Ok req ->
  complete_request req -> configured ->
  to_text (req_promptName req) = Ok name ->
  to_text (req_prompt req) = Ok promptText ->
  to_text (req_goal req) = Ok goalText ->
  (forall items, req_rubric req <> Some (JArr items)) ->
  exists st' l1 l2 l3 l4,
    POST (Ok body) st = (Ok tt, st')
    /\ world (sys st') = world (sys st)
    /\ entered (sys st') = (entered (sys st) ++ ["generateSyntheticDataset"])%list
    /\ run_logs st' = (run_logs st ++ [l1; l2; l3; l4])%list
    /\ written st'
       = (written st
          ++ [SseLog l1; SseLog l2; SseLog l3; SseLog l4;
              SseError "Failed to optimize prompt" (Some (message_of TypeError))
                       (Some (run_logs st'))])%list
    /\ phase l3 = "Generating test dataset"
    /\ phase l4 = "Error occurred" /\ status l4 = error.
Proof.
  intros Hbody Hreq Hcfg Hname Hprompt Hgoal Hrub.
  assert (as_array (req_rubric req) = Throw TypeError) as Ha.
  { destruct (req_rubric req) as [[| | | |items|]|]; try reflexivity.
    exfalso. now apply (Hrub items). }
  rewrite (pipeline_POST_body body req Hbody).
  unfold background. rewrite (pipeline_task_accepted req Hreq Hcfg).
  unfold try_catch, pipeline, prepare. rewrite Hname.
  cbv beta iota zeta delta [bind sendLog push_log await ret gets generateSyntheticDataset
                              enter modify of_result].
  cbn [sys run_logs written world entered]. rewrite Hprompt, Hgoal, Ha.
  cbv beta iota zeta delta [on_error bind sendLog push_log gets write modify].
  cbn [sys run_logs written world entered].
  eexists _, _, _, _, _.
  split; [reflexivity|]. cbn [sys run_logs written world entered].
  split; [reflexivity|].
  split; [reflexivity|].
  split; [rewrite <- !app_assoc; reflexivity|].
  split; [rewrite <- !app_assoc; reflexivity|].
  repeat split.
Qed.

(** ** The judge is not answered *)

(** X26: in this route a rejected judge call ends the run.  The
    judge's call has neither a fallback nor a handler of its own, so
    when the provider rejects it for a test case whose completion
    succeeded, the turn throws: no result is recorded for the test
    case, those of the test cases before it are dropped, the test
    cases after it are not run, nothing is logged to LangSmith for it,
    and the stream ends with an error record that carries the
    provider's message, without a final record. *)
Theorem judge_rejection_ends_run
    (body : json) (req : Request) (st st1 st2 : Run LogEntry Evaluation)
    (promptVersion fullPromptName : string) (first rest : list json) (testCase : json)
    (results : list TestResult) (input output : string) (criteria : list json)
    (goalText : string) (criteriaTexts : list string)
    (s3 : Sys) (e : exn) (w : World) :
  destructure body = Ok req ->
  complete_request req -> configured ->
  (forall r, In r (written st) -> is_complete r = false) ->
  prepare req st
    = (Ok (promptVersion, fullPromptName, (first ++ testCase :: rest)%list), st1) ->
  test_all req (length (first ++ testCase :: rest)%list) 0 first [] st1
    = (Ok results, st2) ->
  input_of testCase = Ok input ->
  executePromptWithGemini (req_prompt req) input (sys st2) = (Ok output, s3) ->
  field "rubric" testCase = Some (JArr criteria) ->
  to_text (req_goal req) = Ok goalText ->
  texts_of criteria = Ok criteriaTexts ->
  anthropic_create 500 (judgePrompt goalText input output criteriaTexts) (world s3)
    = (Throw e, w) ->
  exists st' log1 log2,
    POST (Ok body) st = (Ok tt, st')
    /\ written st'
       = (written st2
          ++ [SseLog log1; SseLog log2;
              SseError "Failed to optimize prompt" (Some (message_of e))
                       (Some (run_logs st'))])%list
    /\ (forall r, In r (written st') -> is_complete r = false)
    /\ sys st' = {| world := w; entered := entered s3 ++ ["judgeWithClaude"] |}.
Proof.
  intros Hbody Hreq Hcfg Hst Hprep Htest Hi Hexec Hrub Hgoal Hcrit Hjudge.
  rewrite (pipeline_POST_body body req Hbody).
  assert (exists log1,
             test_one req (length (first ++ testCase :: rest)%list) (length first)
               testCase st2
             = (Throw e,
                {| sys := {| world := w; entered := entered s3 ++ ["judgeWithClaude"] |};
                   run_logs := run_logs st2 ++ [log1];
                   written := written st2 ++ [SseLog log1] |})) as [log1 Hone].
  { unfold test_one. rewrite Hi.
    cbv beta iota zeta delta [bind of_result sendLog push_log await].
    cbn [sys run_logs written]. rewrite Hexec. cbn [sys run_logs written].
    rewrite Hrub, (judgeWithClaude_eq _ _ _ _ _ goalText criteriaTexts Hgoal Hcrit).
    cbv zeta. rewrite Hjudge.
    eexists. reflexivity. }
  assert (pipeline req st
          = (Throw e,
             {| sys := {| world := w; entered := entered s3 ++ ["judgeWithClaude"] |};
                run_logs := run_logs st2 ++ [log1];
                written := written st2 ++ [SseLog log1] |})) as Hpipe.
  { unfold pipeline, bind at 1. rewrite Hprep. unfold bind at 1.
    rewrite test_all_app, Htest. cbn [test_all]. unfold bind at 1.
    cbn [Nat.add]. rewrite Hone. reflexivity. }
  destruct (failed_run req st _ e Hreq Hcfg Hst Hpipe)
    as (st' & log2 & HP & Hw & _ & Hsys & Hnc).
  exists st', log1, log2.
  split; [assumption|].
  split; [rewrite Hw; cbn [written]; rewrite <- app_assoc; reflexivity|].
  split; [assumption|].
  rewrite Hsys. reflexivity.
Qed.

End Facts.
End OptimizationRuns.

(* ================================================================== *)
(** * The prompt-test route, in general *)
(* ================================================================== *)

Module PromptTestFacts.
Import PromptTest.

Section Facts.
Context `{RT : Runtime} `{HO : @Host RT}.

(** ** The evaluator *)

(** The verdict of the evaluator for what the provider answers. *)
Definition verdict_of (answer : Result (option string)) : json :=
  match answer with
  | Throw _ => made_up "Evaluation error occurred"
  | Ok None => made_up "Evaluation failed"
  | Ok (Some text) =>
      match match_object text with
      | None => made_up "Could not parse evaluation"
      | Some jsonMatch =>
          match parse_object jsonMatch with
          | Ok verdict => verdict
          | Throw _ => made_up "Evaluation error occurred"
          end
      end
  end.

Lemma evaluator_eq (output expectedQuality : string) (s : Sys) :
  evaluateWithLangSmith output expectedQuality s
  = (let (answer, w) :=
       anthropic_create 512 (evaluationPrompt output expectedQuality) (world s) in
     (Ok (verdict_of answer),
      {| world := w; entered := entered s ++ ["evaluateWithLangSmith"] |})).
Proof.
  unfold evaluateWithLangSmith, bind at 1, enter, modify, try_catch, bind, call, ret.
  cbn [world entered].
  destruct (anthropic_create 512 _ (world s)) as [[[text|]|e] w] eqn:Ec; cbn;
    try reflexivity.
  destruct (match_object text) as [m|] eqn:Em; cbn; [|reflexivity].
  unfold of_result. destruct (parse_object m) as [j|e] eqn:Ep; reflexivity.
Qed.

(** X17: the evaluator never throws, and asks the provider once.  Its
    verdict is the object parsed from the part between the first and
    the last brace of the model's answer, as it is, when there is one
    and it parses.  In every other case it is a verdict made up on the
    spot, with score 0 and [passed] false, whose feedback tells the
    case: [Evaluation failed] for an answer without text, [Could not
    parse evaluation] for a text without braces, and [Evaluation error
    occurred] for a rejected call and for braces that do not parse. *)
Theorem evaluator_verdicts (output expectedQuality : string) (s : Sys) :
  let names := (entered s ++ ["evaluateWithLangSmith"])%list in
  let made_up feedback :=
    JObj [("score", JNum 0); ("passed", JBool false); ("feedback", JStr feedback)] in
  match anthropic_create 512 (evaluationPrompt output expectedQuality) (world s) with
  | (Throw _, w) =>
      evaluateWithLangSmith output expectedQuality s
      = (Ok (made_up "Evaluation error occurred"), {| world := w; entered := names |})
  | (Ok None, w) =>
      evaluateWithLangSmith output expectedQuality s
      = (Ok (made_up "Evaluation failed"), {| world := w; entered := names |})
  | (Ok (Some text), w) =>
      match match_object text with
      | None =>
          evaluateWithLangSmith output expectedQuality s
          = (Ok (made_up "Could not parse evaluation"),
             {| world := w; entered := names |})
      | Some jsonMatch =>
          match parse_object jsonMatch with
          | Ok verdict =>
              evaluateWithLangSmith output expectedQuality s
              = (Ok verdict, {| world := w; entered := names |})
          | Throw _ =>
              evaluateWithLangSmith output expectedQuality s
              = (Ok (made_up "Evaluation error occurred"),
                 {| world := w; entered := names |})
          end
      end
  end.
Proof.
  cbv zeta. rewrite evaluator_eq. unfold verdict_of, made_up.
  destruct (anthropic_create 512 _ (world s)) as [[[text|]|e] w]; try reflexivity.
  destruct (match_object text) as [m|]; [|reflexivity].
  destruct (parse_object m); reflexivity.
Qed.

Lemma evaluator_returns (output expectedQuality : string) (s : Sys) :
  exists verdict s', evaluateWithLangSmith output expectedQuality s = (Ok verdict, s').
Proof.
  rewrite evaluator_eq. destruct (anthropic_create 512 _ (world s)). eauto.
Qed.

(** ** One turn of the loop *)

(** [totalScore += v] on the loop's variables: the sum is stored, or
    the conversion of [v] throws and nothing is changed. *)
Lemma add_cases (v : value) (s : Sys) (t : Tally) :
  match to_text v with
  | Ok _ => exists total, add v (s, t) = (Ok tt, (s, set_total total t))
  | Throw e => add v (s, t) = (Throw e, (s, t))
  end.
Proof.
  unfold add, bind, gets, of_result, update, modify. cbn [fst snd].
  destruct (to_text v) as [text|e] eqn:Ev.
  - destruct (total_add_returns (totalScore t) v text Ev) as [total ->].
    now exists total.
  - now rewrite (total_add_throws (totalScore t) v e Ev).
Qed.

(** What a turn does to the loop's variables when it pushes [r]:
    either it went through, and [r] carries the verdict; or it threw,
    at the completion or, the verdict counted already, at the sum of
    the scores, and [r] is the error result, counted as one more
    failed assertion. *)
Definition recorded (testCase : TestCase) (r : TestResult) (t t' : Tally) : Prop :=
  result_input r = input testCase
  /\ ((r = broken testCase
       /\ (t' = fail (push r t) \/ t' = fail (push r (pass t))
           \/ t' = fail (push r (fail t))))
      \/ exists total,
           t' = push r (set_total total (if truthy (passed r) then pass t else fail t))).

Lemma test_one_recorded (prompt experimentName : string) (tracingEnabled : bool)
    (index : nat) (testCase : TestCase) (s : Sys) (t : Tally) :
  exists s' t' r,
    test_one prompt experimentName tracingEnabled index testCase (s, t) = (Ok tt, (s', t'))
    /\ recorded testCase r t t'.
Proof.
  unfold test_one, try_catch.
  unfold bind at 1, lift at 1, call at 1. cbn [fst snd].
  destruct (uuidv4 (world s)) as [runId w0]. cbn [fst snd].
  unfold bind at 1, lift at 1. cbn [fst snd].
  destruct (runClaudePrompt prompt (input testCase) _) as [[output|e] s1]; cbn [fst snd].
  2:{ cbv [bind update modify]. cbn [fst snd].
      eexists _, _, (broken testCase). split; [reflexivity|].
      split; [reflexivity | left; split; [reflexivity | left; reflexivity]]. }
  unfold bind at 1, lift at 1. cbn [fst snd].
  destruct (evaluator_returns output (expected_quality testCase) s1) as (j & s2 & ->).
  cbn [fst snd].
  set (r := {| result_input := input testCase; output := output;
               passed := field "passed" j; score := field "score" j;
               feedback := field "feedback" j |}).
  assert (forall s3 : Sys,
             exists s' t' r',
               (let (r0, st) :=
                  ((if truthy (field "passed" j) then update pass else update fail) ;;;
                   add (field "score" j) ;;;
                   update (push r)) (s3, t) in
                match r0 with
                | Ok a => (Ok a, st)
                | Throw err => (update (push (broken testCase)) ;;; update fail) st
                end) = (Ok tt, (s', t'))
               /\ recorded testCase r' t t') as Hrest.
  { intros s3. unfold bind at 1 2.
    pose proof (fun t0 => add_cases (field "score" j) s3 t0) as Hadd.
    destruct (truthy (field "passed" j)) eqn:Et; cbv [update modify]; cbn [fst snd];
      [specialize (Hadd (pass t)) | specialize (Hadd (fail t))];
      (destruct (to_text (field "score" j)) as [text|e];
       [ destruct Hadd as [total ->]; cbv [bind update modify]; cbn [fst snd];
         eexists _, _, r; split; [reflexivity|]; split; [reflexivity | right];
         exists total; cbn [passed r]; now rewrite Et
       | rewrite Hadd; cbv [bind update modify]; cbn [fst snd];
         eexists _, _, (broken testCase); split; [reflexivity|];
         split; [reflexivity | left; split; [reflexivity | tauto]] ]). }
  unfold bind at 1.
  destruct tracingEnabled.
  - unfold lift, call. cbn [fst snd].
    destruct (langsmith_createRun _ _ _ _ _) as [[[]|e] w3]; cbn [fst snd].
    + apply Hrest.
    + unfold ret at 1. apply Hrest.
  - unfold ret at 1. apply Hrest.
Qed.

(** The number of results that passed, of the others, and of the
    error results among these. *)
Definition passes (rs : list TestResult) : nat :=
  length (filter (fun r => truthy (passed r)) rs).

Definition failures (rs : list TestResult) : nat :=
  length (filter (fun r => negb (truthy (passed r))) rs).

Definition is_error (r : TestResult) : bool :=
  String.eqb (output r) "Error running test" && negb (truthy (passed r)).

Definition errors (rs : list TestResult) : nat := length (filter is_error rs).

(** The counters and the results pushed: they agree up to the turns
    that threw after their verdict was counted, each of which has
    pushed an error result. *)
Definition counted (t : Tally) : Prop :=
  passedAssertions t = passedTests t
  /\ passes (testResults t) <= passedTests t
     <= passes (testResults t) + errors (testResults t)
  /\ failures (testResults t) <= failedAssertions t
     <= failures (testResults t) + errors (testResults t)
  /\ length (testResults t) <= passedAssertions t + failedAssertions t
     <= length (testResults t) + errors (testResults t).

Lemma passes_failures (rs : list TestResult) : passes rs + failures rs = length rs.
Proof.
  unfold passes, failures. induction rs as [|r rs IH]; cbn; [reflexivity|].
  destruct (truthy (passed r)); cbn; lia.
Qed.

Lemma recorded_counted testCase r t t' :
  recorded testCase r t t' -> counted t ->
  counted t' /\ testResults t' = (testResults t ++ [r])%list.
Proof.
  unfold counted, passes, failures, errors.
  intros [Hi [[-> [-> | [-> | ->]]] | [total ->]]] (H1 & H2 & H3 & H4);
    try (cbn [fail pass push set_total testResults passedTests passedAssertions
              failedAssertions];
         rewrite !filter_app, !length_app; cbn; split; [lia | reflexivity]).
  destruct (truthy (passed r)) eqn:Et; destruct (is_error r) eqn:Ee;
    try (unfold is_error in Ee; rewrite Et, andb_false_r in Ee; discriminate);
    cbn [fail pass push set_total testResults passedTests passedAssertions
         failedAssertions];
    rewrite !filter_app, !length_app; cbn [filter]; rewrite Et, ?Ee;
    cbn [negb length]; (split; [lia | reflexivity]).
Qed.

Lemma test_all_counted (prompt experimentName : string) (tracingEnabled : bool)
    (testData : list TestCase) :
  forall index s t,
    counted t ->
    exists s' t' rs,
      test_all prompt experimentName tracingEnabled index testData (s, t)
      = (Ok tt, (s', t'))
      /\ counted t'
      /\ testResults t' = (testResults t ++ rs)%list
      /\ map result_input rs = map input testData.
Proof.
  induction testData as [|testCase rest IH]; intros index s t Hc; cbn [test_all].
  - exists s, t, []. rewrite app_nil_r. repeat split; apply Hc.
  - unfold bind.
    destruct (test_one_recorded prompt experimentName tracingEnabled index testCase s t)
      as (s1 & t1 & r & -> & Hr).
    destruct (recorded_counted _ _ _ _ Hr Hc) as [Hc1 Hrs1].
    destruct (IH (S index) s1 t1 Hc1) as (s' & t' & rs & -> & Hc' & Hrs & Hin).
    exists s', t', (r :: rs). split; [reflexivity|]. split; [assumption|].
    split; [rewrite Hrs, Hrs1, <- app_assoc; reflexivity|].
    cbn [map]. destruct Hr as [-> _]. now rewrite Hin.
Qed.

(** The property key a request selects its dataset with. *)
Definition key_of (dataset : value) : Result string :=
  to_string (match dataset with None => Some (JStr "general") | some => some end).

Lemma select_some (key : string) (testData : list TestCase) :
  select key = Ok testData ->
  testData = general \/ testData = creative \/ testData = analytical.
Proof.
  unfold select.
  destruct (String.eqb key "general"); [intros H; inversion H; auto|].
  destruct (String.eqb key "creative"); [intros H; inversion H; auto|].
  destruct (String.eqb key "analytical"); [intros H; inversion H; auto|].
  destruct (existsb _ _); [discriminate | intros H; inversion H; auto].
Qed.

(** The response to a body with a prompt that is a non-empty
    string. *)
Lemma POST_run (body : json) (p : string) (s : Sys) :
  field "prompt" body = Some (JStr p) -> p <> EmptyString ->
  POST (Ok body) s
  = try_catch (run p (field "dataset" body))
      (fun e => ret (ServerError "Failed to evaluate prompt" (message_of e))) s.
Proof.
  intros Hb Hp. apply String.eqb_neq in Hp.
  destruct body; try discriminate.
  unfold POST, try_catch, bind at 1, of_result at 1.
  unfold bind at 1, of_result at 1. cbn [get]. rewrite Hb.
  unfold bind at 1, of_result at 1. cbn [get].
  unfold respond. now rewrite Hp.
Qed.

(** X14: no test can break a run.  For a prompt that is a non-empty
    string and a dataset name that selects a dataset (its own, or
    [general] for a name the table does not have), the route answers
    200 whatever the providers and LangSmith do.  The response has
    one result for each test case of the dataset, in order; the
    dataset is one of the three built-in ones, so [total_tests] is 3
    or 4 and the guards against an empty dataset never apply.  The
    counters follow the results up to the turns that threw after
    their verdict was counted (the sum of the scores throws for a
    score without text): [passed_tests], which [passed_assertions]
    equals, is at least the number of results whose [passed] is
    truthy, [failed_assertions] at least the number of the others,
    and [total_assertions] at least [total_tests], each exceeding it
    by no more than the number of error results; so when the response
    has no error result, the three are exact. *)
Theorem prompt_test_isolation (body : json) (p key : string)
    (testData : list TestCase) (s : Sys) :
  field "prompt" body = Some (JStr p) ->
  p <> EmptyString ->
  key_of (field "dataset" body) = Ok key ->
  select key = Ok testData ->
  exists e s',
    POST (Ok body) s = (Ok (Success e), s')
    /\ map result_input (results e) = map input testData
    /\ total_tests (summary e) = length testData
    /\ 3 <= total_tests (summary e) <= 4
    /\ passed_assertions (stats e) = passed_tests (summary e)
    /\ passes (results e) <= passed_tests (summary e)
       <= passes (results e) + errors (results e)
    /\ failures (results e) <= failed_assertions (stats e)
       <= failures (results e) + errors (results e)
    /\ total_tests (summary e) <= total_assertions (stats e)
       <= total_tests (summary e) + errors (results e)
    /\ (errors (results e) = 0 ->
        passed_tests (summary e) = passes (results e)
        /\ failed_assertions (stats e) = failures (results e)
        /\ total_assertions (stats e) = total_tests (summary e)).
Proof.
  intros Hb Hp Hkey Hsel. unfold key_of in Hkey.
  rewrite (POST_run body p s Hb Hp).
  unfold try_catch, run, bind at 1, of_result at 1. rewrite Hkey.
  unfold bind at 1, call.
  destruct (uuidv4 (world s)) as [id w0].
  unfold bind at 1, of_result. rewrite Hsel.
  unfold bind at 1, tally.
  match goal with
  | |- context [test_all p ?en ?tr 0 testData (?s0, start)] =>
      destruct (test_all_counted p en tr testData 0 s0 start)
        as (s' & t' & rs & -> & (H1 & H2 & H3 & H4) & Hrs & Hin);
      [unfold counted, passes, failures, errors; cbn; lia|]
  end.
  cbn [fst snd]. unfold ret. eexists _, _. split; [reflexivity|].
  cbn [results summary stats evaluation_of total_tests passed_tests passed_assertions
       failed_assertions total_assertions].
  cbn [start testResults app] in Hrs. rewrite Hrs in *.
  assert (length rs = length testData) as Hlen
    by (rewrite <- (length_map result_input rs), Hin, length_map; reflexivity).
  split; [assumption|]. split; [reflexivity|].
  split; [destruct (select_some _ _ Hsel) as [->|[->| ->]]; cbn; lia|].
  split; [assumption|]. split; [assumption|]. split; [assumption|].
  split; [lia|].
  intros H0. pose proof (passes_failures rs). lia.
Qed.

(** X15: a dataset name that is a member of [Object.prototype],
    [constructor] or [toString], say, selects that member in place of
    a dataset: the route fails at the head of the loop and answers
    500, having called no provider. *)
Theorem inherited_dataset_name (body : json) (p key : string) (s : Sys) :
  field "prompt" body = Some (JStr p) ->
  p <> EmptyString ->
  key_of (field "dataset" body) = Ok key ->
  In key inherited ->
  exists s',
    POST (Ok body) s
    = (Ok (ServerError "Failed to evaluate prompt" (message_of TypeError)), s')
    /\ entered s' = entered s
    /\ world s' = snd (uuidv4 (world s)).
Proof.
  intros Hb Hp Hkey Hin.
  assert (select key = Throw TypeError) as Hsel.
  { unfold select.
    assert (existsb (String.eqb key) inherited = true) as He.
    { apply existsb_exists. exists key. split; [assumption|].
      apply String.eqb_refl. }
    rewrite He.
    destruct (String.eqb key "general") eqn:E1;
      [apply String.eqb_eq in E1; rewrite E1 in Hin; cbn in Hin;
       repeat (destruct Hin as [Hin|Hin]; [discriminate|]); contradiction|].
    destruct (String.eqb key "creative") eqn:E2;
      [apply String.eqb_eq in E2; rewrite E2 in Hin; cbn in Hin;
       repeat (destruct Hin as [Hin|Hin]; [discriminate|]); contradiction|].
    destruct (String.eqb key "analytical") eqn:E3;
      [apply String.eqb_eq in E3; rewrite E3 in Hin; cbn in Hin;
       repeat (destruct Hin as [Hin|Hin]; [discriminate|]); contradiction|].
    reflexivity. }
  unfold key_of in Hkey.
  rewrite (POST_run body p s Hb Hp).
  unfold try_catch, run, bind at 1, of_result at 1. rewrite Hkey.
  unfold bind at 1, call.
  destruct (uuidv4 (world s)) as [id w0].
  unfold bind at 1, of_result. rewrite Hsel. unfold ret.
  eexists. split; [reflexivity|]. split; reflexivity.
Qed.

(** X16: a test whose completion is rejected.  The turn neither
    throws nor asks the evaluator: it pushes a result with the test
    case's input, the output [Error running test], [passed] false,
    score 0 and the feedback [Test execution failed], and counts one
    failed assertion; [totalScore] is left as it was. *)
Theorem rejected_completion_is_recorded
    (prompt experimentName : string) (tracingEnabled : bool) (index : nat)
    (testCase : TestCase) (s : Sys) (t : Tally) (e : exn) (w : World) :
  anthropic_create 1024 (Render.render prompt (input testCase))
    (snd (uuidv4 (world s))) = (Throw e, w) ->
  test_one prompt experimentName tracingEnabled index testCase (s, t)
  = (Ok tt,
     ({| world := w; entered := entered s ++ ["runClaudePrompt"] |},
      {| testResults :=
           testResults t
           ++ [{| result_input := input testCase;
                  output := "Error running test";
                  passed := Some (JBool false);
                  score := Some (JNum 0);
                  feedback := Some (JStr "Test execution failed") |}];
         passedTests := passedTests t;
         totalScore := totalScore t;
         passedAssertions := passedAssertions t;
         failedAssertions := S (failedAssertions t) |})).
Proof.
  intros Hc.
  unfold test_one, try_catch.
  unfold bind at 1, lift at 1, call at 1. cbn [fst snd].
  destruct (uuidv4 (world s)) as [runId w0]. cbn [fst snd] in *.
  unfold bind at 1, lift at 1. cbn [fst snd].
  unfold runClaudePrompt, bind at 1, enter, modify, bind, call. cbn [world entered].
  rewrite Hc. reflexivity.
Qed.

End Facts.
End PromptTestFacts.

(* ================================================================== *)
(** * The judge route and the list of prompts *)
(* ================================================================== *)

Module LlmJudgeFacts.
Import LlmJudge.

(** The judge prompt has its placeholder once, where the two parts
    meet: the replacement is made there. *)
Lemma judgePrompt_of_eq (aiOutput : string) :
  judgePrompt_of aiOutput
  = judge_head
    ++ Render.getSubstitution "{output_text}" judge_head judge_tail aiOutput
    ++ judge_tail.
Proof. vm_compute. reflexivity. Qed.

(** X19: the prompt the judge is given.  The text of the first answer
    is handed to [replace] as the replacement string, so it is put
    between the two parts of [JUDGE_PROMPT] with its [$] patterns
    expanded against them ([$&] is the placeholder, [$`] the part
    before it, [$'] the part behind it, [$$] one [$]); an answer
    without [$] stands there as it is, once, and the instructions
    around it are those of [JUDGE_PROMPT]. *)
Theorem judge_prompt_embeds_answer (aiOutput : string) :
  judgePrompt_of aiOutput
  = judge_head
    ++ Render.getSubstitution "{output_text}" judge_head judge_tail aiOutput
    ++ judge_tail
  /\ (Str.occurs "$" aiOutput = false ->
      judgePrompt_of aiOutput = judge_head ++ aiOutput ++ judge_tail).
Proof.
  split; [apply judgePrompt_of_eq|].
  intros H. rewrite judgePrompt_of_eq.
  now rewrite (RenderFacts.getSubstitution_plain _ _ _ _ H).
Qed.

Section Route.
Context `{RT : Runtime}.

(** What the two calls and the parser make of a prompt that passed
    the check. *)
Lemma judge_cases (p : string) (s : Sys) (r : Result Response) (s1 : Sys) :
  judge p s = (r, s1) ->
  entered s1 = entered s
  /\ match r with
     | Ok (Success p' aiOutput evaluation) =>
         p' = p
         /\ exists w1 text m,
              anthropic_create 2048 p (world s) = (Ok (Some aiOutput), w1)
              /\ anthropic_create 1024 (judgePrompt_of aiOutput) w1
                 = (Ok (Some text), world s1)
              /\ match_object text = Some m
              /\ parse m = Ok evaluation
     | Ok _ => False
     | Throw _ => True
     end.
Proof.
  unfold judge, bind, call, throw, of_result, ret.
  destruct (anthropic_create 2048 p (world s)) as [[[aiOutput|]|e] w1] eqn:E1;
    cbn [world entered]; try (intros H; inversion H; subst; split; [reflexivity | exact I]).
  destruct (anthropic_create 1024 (judgePrompt_of aiOutput) w1) as [[[text|]|e] w2]
    eqn:E2; try (intros H; inversion H; subst; split; [reflexivity | exact I]).
  destruct (match_object text) as [m|] eqn:Em;
    try (intros H; inversion H; subst; split; [reflexivity | exact I]).
  destruct (parse m) as [evaluation|e] eqn:Ep;
    intros H; inversion H; subst; (split; [reflexivity|]); [|exact I].
  split; [reflexivity|]. exists w1, text, m. cbn [world]. repeat split; assumption.
Qed.

Lemma judge_success (p aiOutput text m : string) (evaluation : json) (s : Sys)
    (w1 w2 : World) :
  anthropic_create 2048 p (world s) = (Ok (Some aiOutput), w1) ->
  anthropic_create 1024 (judgePrompt_of aiOutput) w1 = (Ok (Some text), w2) ->
  match_object text = Some m ->
  parse m = Ok evaluation ->
  judge p s = (Ok (Success p aiOutput evaluation), {| world := w2; entered := entered s |}).
Proof.
  intros H1 H2 Hm Hp. unfold judge, bind, call, throw, of_result, ret.
  rewrite H1. cbn [world entered]. rewrite H2, Hm, Hp. reflexivity.
Qed.

(** The response to a request, by its body. *)
Lemma judge_POST_cases (request : Result json) (s : Sys) :
  let failed e := (Ok (ServerError "Failed to evaluate with LLM judge" (message_of e)), s) in
  match request with
  | Throw e => POST request s = failed e
  | Ok JNull => POST request s = failed TypeError
  | Ok body =>
      POST request s
      = try_catch (respond (field "prompt" body))
          (fun e => ret (ServerError "Failed to evaluate with LLM judge" (message_of e))) s
  end.
Proof. destruct request as [[| | | | |]|]; reflexivity. Qed.

(** X20: the judge route always answers, and each answer tells what
    happened.  A 400 means that the body was read and its prompt was
    missing, empty or not a string, and nothing was called.  A 200
    carries the prompt, the text the model answered to it, and the
    value parsed from the part between the first and the last brace
    of what the judge answered to the judge prompt made from that
    text; and a request whose two calls are answered so gets that
    200.  Everything else is a 500 with the route's error text: a
    body that is no JSON text or is [null] (the body is read inside
    the [try] block), a rejected call, an answer without text, a judge
    answer without braces or one that does not parse. *)
Theorem judge_route_answers (request : Result json) (s : Sys) :
  (exists response s',
      POST request s = (Ok response, s')
      /\ entered s' = entered s
      /\ match response with
         | BadRequest err =>
             err = "Prompt string is required" /\ s' = s
             /\ exists body,
                  request = Ok body /\ body <> JNull
                  /\ forall p, field "prompt" body = Some (JStr p) -> p = EmptyString
         | Success p aiOutput evaluation =>
             (exists body, request = Ok body /\ field "prompt" body = Some (JStr p))
             /\ p <> EmptyString
             /\ exists w1 text m,
                  anthropic_create 2048 p (world s) = (Ok (Some aiOutput), w1)
                  /\ anthropic_create 1024 (judgePrompt_of aiOutput) w1
                     = (Ok (Some text), world s')
                  /\ match_object text = Some m
                  /\ parse m = Ok evaluation
         | ServerError err details =>
             err = "Failed to evaluate with LLM judge"
             /\ match request with
                | Throw e => details = message_of e /\ s' = s
                | Ok JNull => details = message_of TypeError /\ s' = s
                | Ok body =>
                    exists p, field "prompt" body = Some (JStr p) /\ p <> EmptyString
                end
         end)
  /\ (forall body p aiOutput text m evaluation w1 w2,
         request = Ok body ->
         field "prompt" body = Some (JStr p) -> p <> EmptyString ->
         anthropic_create 2048 p (world s) = (Ok (Some aiOutput), w1) ->
         anthropic_create 1024 (judgePrompt_of aiOutput) w1 = (Ok (Some text), w2) ->
         match_object text = Some m ->
         parse m = Ok evaluation ->
         POST request s
         = (Ok (Success p aiOutput evaluation), {| world := w2; entered := entered s |})).
Proof.
  pose proof (judge_POST_cases request s) as HP. cbv zeta in HP.
  split.
  - destruct request as [body|e];
      [|rewrite HP; eexists _, _; split; [reflexivity|]; cbn; repeat split].
    assert (body = JNull
            \/ (body <> JNull
                /\ POST (Ok body) s
                   = try_catch (respond (field "prompt" body))
                       (fun e => ret (ServerError "Failed to evaluate with LLM judge"
                                        (message_of e))) s)) as [->|[Hnn ->]]
      by (destruct body; [left; reflexivity | right; split; [discriminate | exact HP] ..]).
    { rewrite HP. eexists _, _. split; [reflexivity|]. cbn. repeat split. }
    unfold try_catch, respond.
    destruct (field "prompt" body) as [[| | |p| |]|] eqn:Ef;
      try (eexists _, _; split; [reflexivity|]; cbn; repeat split;
           exists body; repeat split; try assumption; intros; congruence).
    destruct (String.eqb p EmptyString) eqn:Ee.
    + apply String.eqb_eq in Ee. subst p.
      eexists _, _. split; [reflexivity|]. cbn. repeat split.
      exists body. repeat split; try assumption. intros p H; congruence.
    + apply String.eqb_neq in Ee.
      destruct (judge p s) as [[response|e] s1] eqn:E;
        destruct (judge_cases p s _ s1 E) as [Hent Hj].
      * exists response, s1. split; [reflexivity|]. split; [assumption|].
        destruct response; try contradiction.
        destruct Hj as [-> Hj].
        split; [exists body; split; [reflexivity | assumption]|].
        split; assumption.
      * eexists _, _. split; [reflexivity|]. split; [assumption|].
        split; [reflexivity|].
        destruct body; try contradiction; (exists p; split; [reflexivity | assumption]).
  - intros body p aiOutput text m evaluation w1 w2 -> Hf Hp H1 H2 Hm Hparse.
    destruct body; try discriminate. rewrite HP.
    unfold try_catch, respond. rewrite Hf.
    apply String.eqb_neq in Hp. rewrite Hp.
    now rewrite (judge_success p aiOutput text m evaluation s w1 w2 H1 H2 Hm Hparse).
Qed.

End Route.
End LlmJudgeFacts.

Module PromptListFacts.
Import PromptList.

Section Loop.
Context `{RT : Runtime} `{HU : @Hub RT}.

(** The most items the loop keeps, if [maxItems] bounds them: the
    least count that is not below [maxItems]. *)
Definition bound (maxItems : number) : option nat :=
  match maxItems with
  | Fin q => Some (Z.to_nat (Qceiling q))
  | Infinity true => Some 0
  | Infinity false | NaN => None
  end.

Lemma below_bound (maxItems : number) (b count : nat) :
  bound maxItems = Some b -> reached count maxItems = false -> count < b.
Proof.
  destruct maxItems as [q| |[|]]; cbn; try discriminate.
  intros H Hr. inversion H; subst b; clear H.
  assert (~ (q <= inject_Z (Z.of_nat count))%Q) as Hn
    by (intros Hle; apply Qle_bool_iff in Hle; congruence).
  apply Qnot_le_lt in Hn.
  pose proof (Qle_ceiling q) as Hc.
  assert (inject_Z (Z.of_nat count) < inject_Z (Qceiling q))%Q as Hlt
    by (eapply Qlt_le_trans; eassumption).
  rewrite <- Zlt_Qlt in Hlt. lia.
Qed.

(** What the loop has done when it ends: it has kept the items of the
    first pulls, in order, none of them at a count that had reached
    [maxItems]; and it stopped because the iterator was done, or at
    an item pulled when the count had reached [maxItems] (the loop
    pulls one item more than it keeps), or because a pull failed. *)
Definition outcome (next : nat -> Step) (maxItems : number) (result : Result (list json))
  : Prop :=
  match result with
  | Ok prompts =>
      (forall i, i < length prompts ->
                 next i = Item (nth i prompts JNull) /\ reached i maxItems = false)
      /\ match next (length prompts) with
         | Item _ => reached (length prompts) maxItems = true
         | Done => True
         | Fail _ => False
         end
  | Throw e =>
      exists n,
        next n = Fail e
        /\ forall i, i < n -> (exists prompt, next i = Item prompt)
                              /\ reached i maxItems = false
  end.

(** The loop, from any turn on.  [kept] items have been pushed and
    [count] is their number. *)
Lemma collect_sound (next : nat -> Step) (maxItems : number) :
  forall pulls count kept result,
    length kept = count ->
    (forall i, i < count -> next i = Item (nth i kept JNull) /\ reached i maxItems = false) ->
    collect next maxItems pulls count kept = Some result ->
    outcome next maxItems result.
Proof.
  induction pulls as [|pulls IH]; intros count kept result Hk Hkept; [discriminate|].
  cbn [collect].
  destruct (next count) as [prompt| |e] eqn:En.
  - destruct (reached count maxItems) eqn:Er.
    + intros H. inversion H; subst result; clear H. cbn [outcome].
      rewrite Hk, En. split; assumption.
    + apply IH.
      * rewrite length_app. cbn. lia.
      * intros i Hi. destruct (Nat.eq_dec i count) as [->|Hne].
        -- rewrite app_nth2, Hk, Nat.sub_diag by lia. cbn. split; assumption.
        -- rewrite app_nth1 by lia. apply Hkept. lia.
  - intros H. inversion H; subst result; clear H. cbn [outcome].
    rewrite Hk, En. split; [assumption | exact I].
  - intros H. inversion H; subst result; clear H. cbn [outcome].
    exists count. split; [assumption|].
    intros i Hi. destruct (Hkept i Hi) as [Hitem Hr]. split; [eauto | assumption].
Qed.

(** With a bound on the items the loop ends, within one pull more
    than the bound allows items; further pulls change nothing. *)
Lemma collect_ends (next : nat -> Step) (maxItems : number) (b : nat) :
  bound maxItems = Some b ->
  forall pulls count kept,
    length kept = count -> b + 1 <= count + pulls -> 0 < pulls ->
    exists result,
      (forall extra, collect next maxItems (pulls + extra) count kept = Some result)
      /\ match result with
         | Ok prompts => length prompts <= Nat.max b count
         | Throw _ => True
         end.
Proof.
  intros Hb.
  induction pulls as [|pulls IH]; intros count kept Hk Hfuel Hpos; [lia|].
  cbn [Nat.add collect].
  destruct (next count) as [prompt| |e] eqn:En.
  - destruct (reached count maxItems) eqn:Er.
    + exists (Ok kept). split; [reflexivity | lia].
    + pose proof (below_bound maxItems b count Hb Er) as Hlt.
      destruct (IH (S count) (kept ++ [prompt])%list) as (result & Hres & Hlen);
        [rewrite length_app; cbn; lia | lia | lia |].
      exists result. split; [exact Hres|].
      destruct result; [lia | exact I].
  - exists (Ok kept). split; [reflexivity | lia].
  - exists (Throw e). split; [reflexivity | exact I].
Qed.

(** Without a bound the loop goes on as long as the iterator yields
    items. *)
Lemma collect_goes_on (next : nat -> Step) (maxItems : number) :
  bound maxItems = None ->
  forall pulls count kept,
    (forall i, i < pulls -> exists prompt, next (count + i) = Item prompt) ->
    collect next maxItems pulls count kept = None.
Proof.
  intros Hb.
  assert (forall count, reached count maxItems = false) as Hr
    by (intros count; destruct maxItems as [q| |[|]]; try discriminate; reflexivity).
  induction pulls as [|pulls IH]; intros count kept Hnext; [reflexivity|].
  cbn [collect].
  destruct (Hnext 0 ltac:(lia)) as [prompt Hp]. rewrite Nat.add_0_r in Hp.
  rewrite Hp, Hr. apply IH.
  intros i Hi. rewrite Nat.add_succ_l, <- Nat.add_succ_r. apply Hnext. lia.
Qed.

(** X18: the loop over an iterable response.  [maxItems] is [limit]
    unless that is 0 or [NaN], and then 100.  Whenever the loop ends,
    the prompts it has kept are the items of the first pulls, in
    order, and it stopped because the iterator was done or at an item
    pulled when the count had reached [maxItems] (the loop pulls one
    item more than it keeps); when it throws, a pull failed, after
    items only.  For a finite [maxItems] and for minus infinity the
    loop does end, within one pull more than the least count that
    reaches [maxItems], with no more prompts than that count (none
    for a negative limit), and pulls allowed beyond these change
    nothing.  For a [limit] that is plus infinity, as [parseInt] gives
    for a text of more digits than a double holds, nothing bounds the
    loop: over an iterator that yields items for ever it never
    ends. *)
Theorem iterable_listing (limit : number) (next : nat -> Step) :
  let maxItems := maxItems_of limit in
  (forall pulls result,
      collect next maxItems pulls 0 [] = Some result -> outcome next maxItems result)
  /\ match maxItems with
     | Fin q =>
         ~ (q == 0)%Q
         /\ exists result,
              (forall extra,
                  collect next maxItems (Z.to_nat (Qceiling q) + 1 + extra) 0 []
                  = Some result)
              /\ match result with
                 | Ok prompts => length prompts <= Z.to_nat (Qceiling q)
                 | Throw _ => True
                 end
     | Infinity true =>
         exists result,
           (forall extra, collect next maxItems (1 + extra) 0 [] = Some result)
           /\ match result with
              | Ok prompts => prompts = []
              | Throw _ => True
              end
     | Infinity false =>
         limit = Infinity false
         /\ ((forall i, exists prompt, next i = Item prompt) ->
             forall pulls, collect next maxItems pulls 0 [] = None)
     | NaN => False
     end.
Proof.
  intros maxItems. split.
  { intros pulls result H.
    apply (collect_sound next maxItems pulls 0 [] result eq_refl); [|exact H].
    intros i Hi. lia. }
  destruct maxItems as [q| |[|]] eqn:Em.
  - split.
    { unfold maxItems, maxItems_of in Em.
      destruct limit as [q0| |[|]]; try discriminate.
      - destruct (Qeq_bool q0 0) eqn:E.
        + inversion Em; subst q. intros H. discriminate H.
        + inversion Em; subst q. intros H. apply Qeq_bool_iff in H. congruence.
      - inversion Em; subst q. intros H. discriminate H. }
    destruct (collect_ends next (Fin q) (Z.to_nat (Qceiling q)) eq_refl
                (Z.to_nat (Qceiling q) + 1) 0 [] eq_refl ltac:(lia) ltac:(lia))
      as (result & Hres & Hlen).
    exists result. split; [exact Hres|].
    destruct result; [lia | exact I].
  - unfold maxItems, maxItems_of in Em.
    destruct limit as [q0| |[|]]; try discriminate.
    destruct (Qeq_bool q0 0); discriminate.
  - destruct (collect_ends next (Infinity true) 0 eq_refl 1 0 [] eq_refl
                ltac:(lia) ltac:(lia)) as (result & Hres & Hlen).
    exists result. split; [exact Hres|].
    destruct result as [prompts|e]; [|exact I].
    destruct prompts; [reflexivity | cbn in Hlen; lia].
  - split.
    { unfold maxItems, maxItems_of in Em.
      destruct limit as [q0| |[|]]; try discriminate; [|reflexivity].
      destruct (Qeq_bool q0 0); discriminate. }
    intros Hnext pulls. apply collect_goes_on; [reflexivity|].
    intros i _. apply Hnext.
Qed.

End Loop.

End PromptListFacts.

(* ================================================================== *)
(** * The readers of the event streams *)
(* ================================================================== *)

Module ClientFacts.
Import Client.

(** The text of a response that arrives in the chunks [chunks]. *)
Definition joined (chunks : list string) : string :=
  fold_right append EmptyString chunks.

(** The lines of the records with the JSON texts [texts], as the
    server frames them: each is followed by an empty line. *)
Definition framed_lines (texts : list string) : list string :=
  flat_map (fun t => ["data: " ++ t; EmptyString]) texts.

Lemma split_lines_app (x y : string) :
  split_lines (x ++ y) =
  let (l1, r1) := split_lines x in
  let (l2, r2) := split_lines (r1 ++ y) in
  ((l1 ++ l2)%list, r2).
Proof.
  induction x as [|c x IH]; cbn [append split_lines].
  - destruct (split_lines y); reflexivity.
  - rewrite IH. destruct (split_lines x) as [l1 r1].
    destruct (Ascii.eqb c newline) eqn:E.
    + destruct (split_lines (r1 ++ y)) as [l2 r2]. reflexivity.
    + destruct l1 as [|line others]; cbn [append split_lines app].
      * rewrite E. destruct (split_lines (r1 ++ y)) as [l2 r2].
        destruct l2; reflexivity.
      * destruct (split_lines (r1 ++ y)) as [l2 r2]. reflexivity.
Qed.

Lemma split_lines_plain (s : string) :
  Str.occurs newline s = false -> split_lines s = ([], s).
Proof.
  induction s as [|c s IH]; cbn [Str.occurs split_lines]; [reflexivity|].
  intros H. apply orb_false_iff in H. destruct H as [Hc Hs].
  rewrite (IH Hs), Hc. reflexivity.
Qed.

(** What is kept in [buffer] has no line break. *)
Lemma split_lines_rest (s : string) : Str.occurs newline (snd (split_lines s)) = false.
Proof.
  induction s as [|c s IH]; cbn [split_lines]; [reflexivity|].
  destruct (split_lines s) as [lines last]. cbn [snd] in IH.
  destruct (Ascii.eqb c newline) eqn:E; [exact IH|].
  destruct lines; cbn [snd Str.occurs]; [now rewrite E, IH | exact IH].
Qed.

Lemma split_lines_line (s rest : string) :
  Str.occurs newline s = false ->
  split_lines (s ++ String newline rest) =
  let (lines, last) := split_lines rest in (s :: lines, last).
Proof.
  intros H. rewrite split_lines_app, (split_lines_plain s H).
  induction s as [|c s IH]; cbn [append split_lines].
  - rewrite Ascii.eqb_refl. destruct (split_lines rest); reflexivity.
  - cbn [Str.occurs] in H. apply orb_false_iff in H. destruct H as [Hc Hs].
    specialize (IH Hs). destruct (split_lines (s ++ String newline rest)) as [l r].
    rewrite Hc. destruct (split_lines rest) as [lines last].
    cbn [app] in *. inversion IH; subst. reflexivity.
Qed.

Lemma split_lines_frames (texts : list string) :
  Forall (fun t => Str.occurs newline t = false) texts ->
  split_lines (joined (map frame texts)) = (framed_lines texts, EmptyString).
Proof.
  induction 1 as [|t texts Ht _ IH]; [reflexivity|].
  cbn [map joined fold_right framed_lines flat_map]. unfold frame at 1.
  fold (joined (map frame texts)). fold (framed_lines texts).
  rewrite !TextFacts.append_assoc. cbn [append].
  assert (Str.occurs newline ("data: " ++ t) = false) as Hd
    by (rewrite TextFacts.occurs_append, Ht; reflexivity).
  change (String "d" (String "a" (String "t" (String "a" (String ":" (String " "
            (t ++ String newline (String newline (joined (map frame texts))))))))))
    with (("data: " ++ t)
          ++ String newline (String newline (joined (map frame texts)))).
  rewrite (split_lines_line _ _ Hd). cbn [split_lines].
  rewrite IH, Ascii.eqb_refl. reflexivity.
Qed.

Section Readers.
Context `{RT : Runtime}.

Lemma handle_app (on_line : string -> M Ui unit) (l1 l2 : list string) (ui : Ui) :
  handle on_line (l1 ++ l2) ui = (handle on_line l1 ;;; handle on_line l2) ui.
Proof.
  revert ui; induction l1 as [|line l1 IH]; intros ui; cbn [app handle].
  - reflexivity.
  - unfold bind. destruct (on_line line ui) as [[[]|e] ui1]; [|reflexivity].
    rewrite IH. reflexivity.
Qed.

Lemma reading_lines (on_line : string -> M Ui unit) (chunks : list string) :
  forall buffer ui,
    Str.occurs newline buffer = false ->
    reading on_line buffer chunks ui
    = handle on_line (fst (split_lines (buffer ++ joined chunks))) ui.
Proof.
  induction chunks as [|chunk rest IH]; intros buffer ui Hb;
    cbn [reading joined fold_right].
  - rewrite TextFacts.append_empty, (split_lines_plain _ Hb). reflexivity.
  - fold (joined rest). unfold feed.
    rewrite <- TextFacts.append_assoc, (split_lines_app (buffer ++ chunk) (joined rest)).
    pose proof (split_lines_rest (buffer ++ chunk)) as Hr.
    destruct (split_lines (buffer ++ chunk)) as [lines buffer']. cbn [snd] in Hr.
    destruct (split_lines (buffer' ++ joined rest)) as [l2 r2] eqn:E2. cbn [fst].
    rewrite handle_app. unfold bind.
    destruct (handle on_line lines ui) as [[[]|e] ui1]; [|reflexivity].
    rewrite (IH buffer' ui1 Hr), E2. reflexivity.
Qed.

(** X21: the reading loop does not depend on how the response is cut
    into chunks.  The lines it hands to the handler are the lines of
    the whole text, each ended by a line break, in order; text behind
    the last line break is never handled. *)
Theorem chunking_invariance (on_line : string -> M Ui unit) (chunks : list string)
    (ui : Ui) :
  reading on_line EmptyString chunks ui
  = handle on_line (fst (split_lines (joined chunks))) ui
  /\ forall chunks', joined chunks' = joined chunks ->
       reading on_line EmptyString chunks' ui = reading on_line EmptyString chunks ui.
Proof.
  assert (forall c, reading on_line EmptyString c ui
                    = handle on_line (fst (split_lines (joined c))) ui) as H
    by (intros c; now rewrite (reading_lines on_line c EmptyString ui eq_refl)).
  split; [apply H|]. intros chunks' E. now rewrite !H, E.
Qed.

Lemma payloads_framed (texts : list string) : payloads (framed_lines texts) = texts.
Proof.
  induction texts as [|t texts IH]; [reflexivity|].
  cbn [framed_lines flat_map app]. fold (framed_lines texts).
  cbn [payloads]. unfold payload_of at 1.
  change (prefix "data: " ("data: " ++ t)) with (prefix EmptyString t).
  assert (prefix EmptyString t = true) as -> by (destruct t; reflexivity).
  change (Str.drop 6 ("data: " ++ t)) with t.
  change (payload_of EmptyString) with (@None string). now rewrite IH.
Qed.

(** X22: what the server frames, the reader unframes.  For records
    whose JSON texts have no line break, written as
    [data: text] followed by two line breaks, the handler is given,
    however the stream is cut into chunks, one [data:] line per record
    with that text as its payload, in the order written, and an empty
    line after each; nothing is left in the buffer. *)
Theorem frames_round_trip (on_line : string -> M Ui unit) (texts chunks : list string)
    (ui : Ui) :
  Forall (fun t => Str.occurs newline t = false) texts ->
  joined chunks = joined (map frame texts) ->
  reading on_line EmptyString chunks ui = handle on_line (framed_lines texts) ui
  /\ payloads (framed_lines texts) = texts
  /\ snd (split_lines (joined chunks)) = EmptyString.
Proof.
  intros Ht Hj.
  rewrite (reading_lines on_line chunks EmptyString ui eq_refl). cbn [append].
  rewrite Hj, (split_lines_frames texts Ht). cbn [fst snd].
  split; [reflexivity|]. split; [apply payloads_framed | reflexivity].
Qed.

(** ** The two handlers *)

Lemma payload_of_data (payload : string) :
  payload_of ("data: " ++ payload) = Some payload.
Proof.
  unfold payload_of.
  change (prefix "data: " ("data: " ++ payload)) with (prefix EmptyString payload).
  now destruct payload.
Qed.

(** X23: an [error] record on the stream.  The reader of the
    evaluation stream throws inside the [try] block whose [catch] only
    logs to the console: the page is left as it was, no alert is shown
    and reading goes on.  The reader of the optimization stream shows
    one alert, with the record's [details] if it has any, else its
    [error], else [Optimization failed]; reading goes on unless that
    text is [Optimization failed], in which case the error is thrown
    on.  (A record whose [details] or [error] has no text, which the
    routes never send, makes the conversion throw in front of the
    alert: no alert is shown, and the reader goes on unless the
    engine's message happens to be that text.) *)
Theorem error_event_handling (payload : string) (data : json) (ui : Ui) :
  parse payload = Ok data ->
  is_string "error" (field "type" data) = true ->
  evaluation_line ("data: " ++ payload) ui = (Ok tt, ui)
  /\ match to_string (or_else (or_else (field "details" data) (field "error" data))
                             (Some (JStr "Optimization failed"))) with
     | Ok errorMsg =>
         optimization_line ("data: " ++ payload) ui
         = (if String.eqb errorMsg "Optimization failed"
            then Throw (Error errorMsg) else Ok tt,
            alert ("Error: " ++ errorMsg) ui)
     | Throw e =>
         optimization_line ("data: " ++ payload) ui
         = (if String.eqb (message_of e) "Optimization failed" then Throw e else Ok tt,
            ui)
     end.
Proof.
  intros Hp Ht.
  assert (get (Some data) "type" = Ok (field "type" data)) as Hg
    by (destruct data; try reflexivity; discriminate).
  assert (is_string "log" (field "type" data) = false
          /\ is_string "complete" (field "type" data) = false) as [Hl Hc].
  { unfold is_string in *. destruct (field "type" data) as [[| | |t| |]|];
      try discriminate.
    apply String.eqb_eq in Ht. subst t. split; reflexivity. }
  unfold evaluation_line, optimization_line. rewrite payload_of_data.
  unfold evaluation_event, optimization_event, try_catch, bind, of_result, throw, ret,
    modify.
  rewrite Hp, Hg, Hl, Hc, Ht.
  split.
  - destruct (to_string _); reflexivity.
  - destruct (to_string _) as [errorMsg|e]; cbn [message_of].
    + destruct (String.eqb errorMsg "Optimization failed"); reflexivity.
    + destruct (String.eqb (message_of e) "Optimization failed"); reflexivity.
Qed.

Lemma evaluation_line_quiet (line : string) (ui : Ui) :
  exists ui', evaluation_line line ui = (Ok tt, ui') /\ alerts ui' = alerts ui.
Proof.
  unfold evaluation_line. destruct (payload_of line) as [payload|];
    [|exists ui; split; reflexivity].
  unfold evaluation_event, try_catch, bind, of_result, throw, ret, modify.
  destruct (parse payload) as [data|e]; [|exists ui; split; reflexivity].
  destruct (get (Some data) "type") as [type|e]; [|exists ui; split; reflexivity].
  destruct (is_string "log" type); [eexists; split; reflexivity|].
  destruct (is_string "complete" type); [eexists; split; reflexivity|].
  destruct (is_string "error" type); [|exists ui; split; reflexivity].
  destruct (to_string _); exists ui; split; reflexivity.
Qed.

Lemma handle_evaluation_quiet (lines : list string) :
  forall ui, exists ui',
    handle evaluation_line lines ui = (Ok tt, ui') /\ alerts ui' = alerts ui.
Proof.
  induction lines as [|line lines IH]; intros ui; cbn [handle].
  - exists ui. split; reflexivity.
  - unfold bind. destruct (evaluation_line_quiet line ui) as (ui1 & -> & H1).
    destruct (IH ui1) as (ui2 & -> & H2). exists ui2. split; [reflexivity | congruence].
Qed.

(** X24: nothing on the stream makes the reader of the evaluation
    stream show an alert or stop: whatever the chunks are, it handles
    them all and returns, with the alerts it started with.  (Its alert
    is for a response that cannot be read at all.) *)
Theorem evaluation_reader_never_alerts (chunks : list string) (ui : Ui) :
  exists ui',
    runBraintrustEval chunks ui = (Ok tt, ui') /\ alerts ui' = alerts ui.
Proof.
  unfold runBraintrustEval, try_catch.
  rewrite (reading_lines evaluation_line chunks EmptyString ui eq_refl).
  destruct (handle_evaluation_quiet (fst (split_lines (EmptyString ++ joined chunks))) ui)
    as (ui' & -> & H).
  exists ui'. split; [reflexivity | exact H].
Qed.

(** ** The reader of [generateRubric] *)

(** The text a record with the payload [payload] adds to
    [fullText]. *)
Definition text_of_record (payload : string) : string :=
  match parse payload with
  | Ok parsed =>
      match get (Some parsed) "text" with
      | Ok text =>
          if truthy text then
            match to_string text with
            | Ok t => t
            | Throw _ => EmptyString
            end
          else EmptyString
      | Throw _ => EmptyString
      end
  | Throw _ => EmptyString
  end.

Lemma rubric_line_data (payload fullText : string) :
  payload <> "[DONE]" ->
  rubric_line ("data: " ++ payload) fullText
  = Some (fullText ++ text_of_record payload).
Proof.
  intros Hd. unfold rubric_line, text_of_record. rewrite payload_of_data.
  apply String.eqb_neq in Hd. rewrite Hd.
  destruct (parse payload) as [parsed|e]; [|now rewrite TextFacts.append_empty].
  destruct (get (Some parsed) "text") as [text|e]; [|now rewrite TextFacts.append_empty].
  destruct (truthy text); [|now rewrite TextFacts.append_empty].
  destruct (to_string text); [reflexivity | now rewrite TextFacts.append_empty].
Qed.

Lemma rubric_lines_framed (texts : list string) :
  Forall (fun t => t <> "[DONE]") texts ->
  forall rest fullText,
    rubric_lines (framed_lines texts ++ rest) fullText
    = rubric_lines rest (fold_left (fun acc t => acc ++ text_of_record t) texts fullText).
Proof.
  induction 1 as [|t texts Ht _ IH]; intros rest fullText; [reflexivity|].
  change (framed_lines (t :: texts) ++ rest)%list
    with ((String.append "data: " t) :: EmptyString :: (framed_lines texts ++ rest))%list.
  change (rubric_lines ((String.append "data: " t) :: EmptyString :: (framed_lines texts ++ rest))%list fullText)
    with (match rubric_line ("data: " ++ t) fullText with
          | Some fullText' =>
              rubric_lines (EmptyString :: (framed_lines texts ++ rest))%list fullText'
          | None => fullText
          end).
  rewrite (rubric_line_data t fullText Ht).
  change (rubric_lines (EmptyString :: (framed_lines texts ++ rest))%list
            (fullText ++ text_of_record t))
    with (rubric_lines (framed_lines texts ++ rest)%list (fullText ++ text_of_record t)).
  rewrite IH. reflexivity.
Qed.

(** X28: the reader of [generateRubric] is right when no record is
    cut.  If every chunk is made of whole records ([data: text] and
    two line breaks, the texts without a line break and none of them
    [[DONE]]), the text it collects is the concatenation of the [text]
    fields of all records, in order: what a reader with a buffer would
    collect from the same stream. *)
Theorem rubric_reader_on_whole_records (groups : list (list string)) (fullText : string) :
  Forall (Forall (fun t => Str.occurs newline t = false /\ t <> "[DONE]")) groups ->
  rubric_read (map (fun texts => joined (map frame texts)) groups) fullText
  = fold_left (fun acc t => acc ++ text_of_record t) (concat groups) fullText.
Proof.
  intros H. revert fullText.
  induction H as [|texts groups Ht _ IH]; intros fullText; [reflexivity|].
  cbn [map rubric_read concat]. rewrite fold_left_app, <- IH. f_equal.
  unfold pieces.
  assert (Forall (fun t => Str.occurs newline t = false) texts) as Hn
    by (eapply Forall_impl; [|exact Ht]; cbn; tauto).
  assert (Forall (fun t => t <> "[DONE]") texts) as Hd
    by (eapply Forall_impl; [|exact Ht]; cbn; tauto).
  rewrite (split_lines_frames texts Hn), (rubric_lines_framed texts Hd).
  reflexivity.
Qed.

(** X29: a record cut by a chunk boundary is lost.  When the first
    chunk ends inside the payload of a record, at a point where the
    payload read so far does not parse, and the rest of the line does
    not itself start with [data: ], neither piece adds anything to the
    text, whereas the same record in one chunk adds its [text]: this
    reader, unlike the two readers of the event streams, depends on
    how the response is cut. *)
Theorem cut_record_is_dropped (head tail fullText : string) (e : exn) :
  parse head = Throw e ->
  payload_of tail = None ->
  Str.occurs newline head = false ->
  Str.occurs newline tail = false ->
  head <> "[DONE]" ->
  head ++ tail <> "[DONE]" ->
  rubric_read ["data: " ++ head; tail ++ String newline (String newline EmptyString)]
    fullText = fullText
  /\ rubric_read [frame (head ++ tail)] fullText
     = fullText ++ text_of_record (head ++ tail)
  /\ joined ["data: " ++ head; tail ++ String newline (String newline EmptyString)]
     = joined [frame (head ++ tail)].
Proof.
  intros Hp Ht Hnh Hnt Hdh Hd.
  split; [|split].
  - cbn [rubric_read]. unfold pieces.
    assert (Str.occurs newline ("data: " ++ head) = false) as Hn
      by (rewrite TextFacts.occurs_append, Hnh; reflexivity).
    rewrite (split_lines_plain _ Hn). cbn [app rubric_lines].
    unfold rubric_line at 1. rewrite payload_of_data.
    apply String.eqb_neq in Hdh. rewrite Hdh, Hp.
    rewrite (split_lines_line tail _ Hnt). cbn [split_lines].
    rewrite Ascii.eqb_refl. cbn [app rubric_lines].
    unfold rubric_line. rewrite Ht.
    change (payload_of EmptyString) with (@None string). reflexivity.
  - assert (Forall (Forall (fun t => Str.occurs newline t = false /\ t <> "[DONE]"))
              [[head ++ tail]]) as H.
    { repeat constructor; [|assumption].
      rewrite TextFacts.occurs_append, Hnh, Hnt. reflexivity. }
    pose proof (rubric_lines_framed [head ++ tail]) as Hf.
    cbn [rubric_read]. unfold pieces.
    assert (Forall (fun t => Str.occurs newline t = false) [head ++ tail]) as Hn
      by (repeat constructor; rewrite TextFacts.occurs_append, Hnh, Hnt; reflexivity).
    pose proof (split_lines_frames [head ++ tail] Hn) as Hs.
    cbn [map joined fold_right] in Hs. rewrite TextFacts.append_empty in Hs.
    rewrite Hs, Hf; [reflexivity|]. repeat constructor. assumption.
  - cbn [joined fold_right]. unfold frame.
    rewrite !TextFacts.append_empty, !TextFacts.append_assoc. reflexivity.
Qed.

(** X30: what [generateRubric] leaves behind, by the text it has
    read.  When the text, code fences removed, has a part between a
    first [\[] and a last [\]] that parses to an array that is not
    empty, that array becomes the suggested rubric and no alert is
    shown.  In every other case (no such part, one that does not
    parse, or the empty array) the suggested rubric is set to the
    empty one and one alert is shown.  The function returns either
    way. *)
Theorem rubric_outcomes (chunks : list string) (r : Rubric) :
  let failed :=
    {| suggestedRubric := [];
       rubric_alerts :=
         (rubric_alerts r ++ ["Failed to generate rubric. Please try again."])%list |} in
  match match_array (without_fences (rubric_read chunks EmptyString)) with
  | Some jsonMatch =>
      match parse_array jsonMatch with
      | Ok (criterion :: criteria) =>
          generateRubric chunks r
          = (Ok tt, {| suggestedRubric := criterion :: criteria;
                       rubric_alerts := rubric_alerts r |})
      | Ok [] | Throw _ => generateRubric chunks r = (Ok tt, failed)
      end
  | None => generateRubric chunks r = (Ok tt, failed)
  end.
Proof.
  unfold generateRubric, suggest, try_catch, bind, of_result, throw, modify.
  destruct (match_array _) as [jsonMatch|]; [|reflexivity].
  destruct (parse_array jsonMatch) as [[|c criteria]|e]; reflexivity.
Qed.

End Readers.
End ClientFacts.

(* ================================================================== *)
(** * Concrete runs *)
(* ================================================================== *)

Module Examples.
Import Stub Scenarios.

#[local] Existing Instance Stub.runtime.
#[local] Existing Instance Stub.braintrust_prompts.
#[local] Existing Instance Stub.langsmith_prompts.

(** ** The optimization pipeline *)

Lemma request_complete : LangsmithFacts.complete_request request.
Proof. repeat split. Qed.

Lemma stub_configured : LangsmithFacts.configured.
Proof. split; reflexivity. Qed.

Lemma start_clean {L E} (w : Script) :
  forall r : Sse L E, In r (written (start w)) -> is_complete r = false.
Proof. intros r []. Qed.

(** Scenario 1: the run completes with the judged result. *)
Example scenario_1 :
  map Langsmith.originalResults (finals (written (run world_pass)))
  = [[ {| Langsmith.input := "2+2?";
          Langsmith.output := "4";
          Langsmith.score := Some (JNum 1);
          Langsmith.failureReason := None;
          Langsmith.rubricResults :=
            Some (JArr [JObj [("criterion", JStr "must state 4");
                              ("passed", JBool true)]]) |} ]].
Proof. vm_compute. reflexivity. Qed.

(** Scenario 2: the output recorded is the fallback provider's text,
    and the run completes. *)
Example scenario_2 :
  map (fun e => map Langsmith.output (Langsmith.originalResults e))
      (finals (written (run world_fallback)))
  = [["fallback text"]].
Proof. vm_compute. reflexivity. Qed.

Lemma request_read : Langsmith.destructure body = Ok request.
Proof. reflexivity. Qed.

(** C1, at two runs.  In the first the fallback provider answers the
    completion the first provider rejected: the turn returns a result
    with the fallback's text, and the run completes with it.  In the
    second both providers reject the completion of the first of two
    test cases: the run ends with an error record, and the completion
    of the second test case is never asked for. *)
Lemma C1_completion_failure_witness :
  (exists r st3,
      Langsmith.test_one request 1 0 case_json (prepared world_fallback) = (Ok r, st3)
      /\ Langsmith.output r = "fallback text"
      /\ groq_script (world (sys st3)) = []
      /\ Langsmith.test_all request 1 0 [case_json] [] (prepared world_fallback)
         = (Ok [r], st3))
  /\ (exists st',
         Langsmith.POST (Ok body) (start world_both_fail) = (Ok tt, st')
         /\ (forall r, In r (written st') -> is_complete r = false)
         /\ gemini_script (world (sys st')) = [Ok "4"]).
Proof.
  split.
  - destruct (LangsmithFacts.C1_completion_failure
                body request (start world_fallback) (prepared world_fallback)
                (prepared world_fallback)
                "v1735689600000" "arithmetic-v1735689600000"
                [] [] case_json [] "Answer: {{input}}" "2+2?"
                (Error "503 Service Unavailable")
                {| gemini_script := []; groq_script := [Ok (Some "fallback text")];
                   anthropic_script := [Ok (Some (verdict_text "1" "true"))] |}
                request_read request_complete stub_configured
                (start_clean world_fallback)
                eq_refl eq_refl eq_refl eq_refl eq_refl)
      as (Hone & Hout & Hall).
    eexists _, _. split; [exact Hone|]. split; [exact Hout|].
    split; [reflexivity|]. exact Hall.
  - destruct (LangsmithFacts.C1_completion_failure
                body request (start world_both_fail) (prepared world_both_fail)
                (prepared world_both_fail)
                "v1735689600000" "arithmetic-v1735689600000"
                [] [case_json] case_json [] "Answer: {{input}}" "2+2?"
                (Error "503 Service Unavailable")
                {| gemini_script := [Ok "4"]; groq_script := [rejected];
                   anthropic_script := [Ok (Some (verdict_text "1" "true"))] |}
                request_read request_complete stub_configured
                (start_clean world_both_fail)
                eq_refl eq_refl eq_refl eq_refl eq_refl)
      as (st' & log & HP & Hw & Hnc & Hsys).
    exists st'. split; [exact HP|]. split; [exact Hnc|].
    rewrite Hsys. reflexivity.
Defined.

(** C1 fails as stated: both providers reject the completion of the
    first of two test cases, and the run neither records a result for
    it nor goes on to the second test case, whose completion the first
    provider would have answered: the stream ends with an error record
    and holds no final record. *)
Lemma C1_counterexample :
  let final := run world_both_fail in
  existsb is_complete (written final) = false
  /\ last (map is_error (written final)) false = true
  /\ (finals (written final) = [])
  /\ gemini_script (world (sys final)) = [Ok "4"]
  /\ anthropic_script (world (sys final)) = anthropic_script world_both_fail.
Proof. vm_compute. repeat split; reflexivity. Qed.

(** ** The rubric judge *)

(** C9, at an answer of the judge that scores 1 and fails the one
    criterion: that answer is the verdict. *)
Lemma C9_judge_relays_verdict_witness :
  judged [JStr "must state 4"] (verdict_text "1" "false")
  = Ok (JObj [("score", JNum 1);
              ("rubricResults",
               JArr [JObj [("criterion", JStr "must state 4");
                           ("passed", JBool false)]])]).
Proof.
  unfold judged.
  rewrite (LangsmithFacts.C9_judge_relays_verdict
             "2+2?" "5" [JStr "must state 4"] (Some (JStr "Answer arithmetic questions"))
             (judge_world (verdict_text "1" "false"))
             "Answer arithmetic questions" ["must state 4"]
             (Some (verdict_text "1" "false"))
             {| gemini_script := []; groq_script := []; anthropic_script := [] |}
             eq_refl eq_refl eq_refl).
  reflexivity.
Defined.

(** C9 fails as stated, in both directions: a verdict with score 1
    whose one criterion is marked as not passed is returned as it is,
    and for an empty rubric an answer without braces yields score 0
    although no listed criterion fails. *)
Lemma C9_counterexample :
  (exists verdict,
      judged [JStr "must state 4"] (verdict_text "1" "false") = Ok verdict
      /\ LangsmithFacts.is_one (field "score" verdict) = true
      /\ LangsmithFacts.every_passed (field "rubricResults" verdict) = false)
  /\ (exists verdict,
         judged [] "The output is fine." = Ok verdict
         /\ LangsmithFacts.is_one (field "score" verdict) = false
         /\ LangsmithFacts.every_passed (field "rubricResults" verdict) = true).
Proof.
  split; eexists; (split; [vm_compute; reflexivity|]); split; reflexivity.
Qed.

(** ** The evaluation route *)

(** Finds a record in a list of records that have been computed. *)
Ltac found := vm_compute; repeat first [left; reflexivity | right].

Lemma template_not_empty : template <> EmptyString.
Proof. discriminate. Qed.

Lemma template_read : field "prompt" template_body = Some (JStr template).
Proof. reflexivity. Qed.


(** What the route does with an expected tone that has no text: the
    tone scorer throws while it builds its question, and the scores
    are returned as they stand, with the three dimensions scored
    before and an overall score of 0. *)
Example textless_tone_run :
  fst (Braintrust.scoreTone "4" (Some (JObj [("toString", JNum 1)]))
         (fresh judge_answers))
  = Throw TypeError
  /\ fst (Braintrust.evaluateTestCase textless_tone_case "4" (fresh judge_answers))
     = Ok {| Braintrust.factuality := 1; Braintrust.battle := 1;
             Braintrust.jsonValidity := 1; Braintrust.tone := 0;
             Braintrust.overall := 0 |}
  /\ existsb is_complete (written (evaluate world_textless_tone)) = true
  /\ Braintrust.failed_tests (Braintrust.summary final_textless_tone) = 1.
Proof. repeat split; vm_compute; reflexivity. Qed.

(** The run with the informal output: three dimensions of four pass,
    the result is in the failing set, and the summary counts it. *)
Example informal_run :
  map (fun r => Qeq_bool (Braintrust.overall (Braintrust.scores r)) (3 # 4))
      (Braintrust.results final_informal) = [true]
  /\ length (Braintrust.failing (Braintrust.results final_informal)) = 1
  /\ Braintrust.failed_tests (Braintrust.summary final_informal) = 1
  /\ Braintrust.passed_tests (Braintrust.summary final_informal) = 0
  /\ Braintrust.success_rate (Braintrust.summary final_informal) = "0.0"
  /\ Braintrust.average_score (Braintrust.summary final_informal) = "75.0".
Proof. vm_compute. repeat split; reflexivity. Qed.

(** C4, at the run with the informal output: the summary counts the
    one result, which has failed, and the optimizer was called with
    it. *)
Lemma C4_summary_partitions_results_witness :
  Braintrust.total_tests (Braintrust.summary final_informal)
  = length (Braintrust.results final_informal)
  /\ Braintrust.passed_tests (Braintrust.summary final_informal)
     + Braintrust.failed_tests (Braintrust.summary final_informal)
     = Braintrust.total_tests (Braintrust.summary final_informal)
  /\ Braintrust.failed_tests (Braintrust.summary final_informal)
     = length (Braintrust.failing (Braintrust.results final_informal))
  /\ exists s improved,
       Braintrust.getImprovedPrompts template
         (Braintrust.failing (Braintrust.results final_informal)) s
       = (Ok improved, sys (evaluate world_informal))
       /\ Braintrust.improvedPrompts final_informal = firstn 3 improved.
Proof.
  destruct (BraintrustFacts.C4_summary_partitions_results
              (Ok template_body) (start world_informal) final_informal)
    as (H1 & H2 & H3 & _ & _ & H6).
  { apply start_clean. }
  { found. }
  split; [assumption|]. split; [assumption|]. split; [assumption|].
  apply H6. discriminate.
Defined.

(** C5, at a run in which neither answer of the generator has an
    array. *)
Lemma C5_generator_failure_witness :
  exists st',
    Braintrust.POST (Ok template_body) (start world_no_array) = (Ok tt, st')
    /\ last (written st') (SseError EmptyString None None)
       = SseError "Failed to run Braintrust evaluation"
           (Some "Failed to generate synthetic dataset with both Gemini and Groq")
           (Some (run_logs st'))
    /\ (forall r, In r (written st') -> is_complete r = false).
Proof.
  destruct (BraintrustFacts.C5_generator_failure template_body template
              (start world_no_array)
              (Ok "Here are your test cases.")
              {| gemini_script := []; groq_script := [Ok (Some "I have none.")];
                 anthropic_script := [] |}
              (Ok (Some "I have none.")) world_drained
              template_read template_not_empty eq_refl (start_clean world_no_array)
              eq_refl eq_refl)
    as (_ & st' & l1 & l2 & l3 & HP & Hw & _ & _ & Hnc).
  exists st'. split; [exact HP|]. split; [|exact Hnc].
  rewrite Hw. reflexivity.
Defined.

(** C5 fails as stated.  An array whose element has no [input] is
    returned by the generator as the dataset; and a first answer
    without a bracketed part does not make the generator fail when the
    fallback provider's answer has one: the run completes. *)
Lemma C5_counterexample :
  (fst (Braintrust.generateSyntheticDataset template (fresh world_shapeless))
   = Ok [JObj []]
   /\ field "input" (JObj []) = None)
  /\ (match_array "Here are your test cases." = None
      /\ existsb is_complete (written (evaluate world_second_attempt)) = true
      /\ existsb is_error (written (evaluate world_second_attempt)) = false).
Proof. vm_compute. repeat split; reflexivity. Qed.

(** ** Both routes *)

(** C6, at generators whose first answer has no array and whose second
    answer is the empty array. *)
Lemma C6_unparsed_answer_falls_back_witness :
  fst (Braintrust.generateSyntheticDataset template (fresh world_second_attempt)) = Ok []
  /\ fst (Langsmith.generateSyntheticDataset (Langsmith.req_prompt request)
            (Langsmith.req_goal request) (Langsmith.req_rubric request)
            (fresh world_second_attempt)) = Ok [].
Proof.
  destruct (Both.C6_unparsed_answer_falls_back
              template (fresh world_second_attempt) "Here are your test cases."
              {| gemini_script := []; groq_script := [Ok (Some "[]")];
                 anthropic_script := [] |}
              (Langsmith.req_prompt request) (Langsmith.req_goal request)
              [JStr "must state 4"] (fresh world_second_attempt)
              "Here are your test cases."
              {| gemini_script := []; groq_script := [Ok (Some "[]")];
                 anthropic_script := [] |}
              "Answer: {{input}}" "Answer arithmetic questions" ["must state 4"]
              eq_refl eq_refl eq_refl eq_refl eq_refl eq_refl eq_refl) as [HB HL].
  split.
  - rewrite HB. reflexivity.
  - change (Langsmith.req_rubric request) with (Some (JArr [JStr "must state 4"])).
    rewrite HL. reflexivity.
Defined.

(** C6 fails as stated: the first provider's answer arrives and has no
    bracketed array, and the generator asks the fallback provider,
    whose array it returns. *)
Lemma C6_counterexample :
  gemini_generateContent (Braintrust.generationPrompt template) world_second_attempt
  = (Ok "Here are your test cases.",
     {| gemini_script := []; groq_script := [Ok (Some "[]")]; anthropic_script := [] |})
  /\ match_array "Here are your test cases." = None
  /\ Braintrust.generateSyntheticDataset template (fresh world_second_attempt)
     = (Ok [], generated)
  /\ Langsmith.generateSyntheticDataset (Langsmith.req_prompt request)
       (Langsmith.req_goal request) (Langsmith.req_rubric request)
       (fresh world_second_attempt)
     = (Ok [], generated).
Proof. repeat split; vm_compute; reflexivity. Qed.





End Examples.

(* ================================================================== *)
(** * More concrete runs *)
(* ================================================================== *)

(** Runs of the other routes and of the readers under the scripted
    runtime, and the general theorems at concrete inputs. *)
Module MoreExamples.
Import Stub Scenarios Examples.

#[local] Existing Instance Stub.runtime.
#[local] Existing Instance Stub.braintrust_prompts.
#[local] Existing Instance Stub.langsmith_prompts.

(** The sum of the scores in the examples: numbers are added, any
    other score with a text leaves the sum as it is, and a score
    without text throws as its conversion does. *)
Definition sum_with (t : Q) (v : value) : Result Q :=
  match to_text v with
  | Throw e => Throw e
  | Ok _ => Ok (match v with Some (JNum q) => (t + q)%Q | _ => t end)
  end.

Lemma sum_with_throws (t : Q) (v : value) (e : exn) :
  to_text v = Throw e -> sum_with t v = Throw e.
Proof. intros H. unfold sum_with. now rewrite H. Qed.

Lemma sum_with_returns (t : Q) (v : value) (text : string) :
  to_text v = Ok text -> exists t', sum_with t v = Ok t'.
Proof. intros H. unfold sum_with. rewrite H. eauto. Qed.

(** A host for the prompt-test route: one identifier, a run log that
    accepts everything, and scores that are numbers. *)
#[local] Instance host : PromptTest.Host := {|
  PromptTest.uuidv4 := fun w => ("123e4567-e89b-42d3-a456-426614174000", w);
  PromptTest.langsmith_createRun := fun _ _ _ _ w => (Ok tt, w);
  PromptTest.Total := Q;
  PromptTest.total_zero := 0%Q;
  PromptTest.total_add := sum_with;
  PromptTest.total_add_throws := sum_with_throws;
  PromptTest.total_add_returns := sum_with_returns;
  PromptTest.average_text := fun t n =>
    fixed 1 (t / inject_Z (Z.of_nat n) * 10)%Q;
  PromptTest.evaluationPrompt := fun output expectedQuality =>
    "Evaluate the following response for " ++ expectedQuality ++ " quality. " ++ output
|}.

(** The numbers from 0 on, without end. *)
Definition endless (i : nat) : PromptList.Step :=
  PromptList.Item (JNum (inject_Z (Z.of_nat i))).

(** A hub whose [listPrompts] yields the numbers from 0 on, without
    end, and whose [parseInt] reads decimal digits into a double. *)
#[local] Instance hub : PromptList.Hub := {|
  PromptList.parseInt := fun s =>
    match s with
    | EmptyString => NaN
    | String c _ =>
        match digit_of c with
        | Some _ => to_double (inject_Z (fst (read_digits 0 s)))
        | None => NaN
        end
    end;
  PromptList.listPrompts := fun _ _ w => (Ok (PromptList.AnIterable endless), w)
|}.

(** ** The list of prompts *)

(** An endless iterator: the limit of the query, and 100 for the
    limit 0. *)
Example listing_endless :
  fst (PromptList.GET 200 (Some "2") None (fresh world_drained))
  = Ok (Some (PromptList.Listed [JNum 0; JNum 1] 2))
  /\ match fst (PromptList.GET 200 (Some "0") None (fresh world_drained)) with
     | Ok (Some (PromptList.Listed _ count)) => count = 100
     | _ => False
     end.
Proof. split; vm_compute; reflexivity. Qed.

(** A limit of 310 digits: more than a double holds. *)
Definition huge_limit : string := String "1" (zeros 309).

(** [parseInt] makes it plus infinity, which no count reaches: the
    loop over the endless iterator has not ended after 500 pulls, and
    never ends. *)
Example listing_without_bound :
  PromptList.parseInt huge_limit = Infinity false
  /\ PromptList.maxItems_of (PromptList.parseInt huge_limit) = Infinity false
  /\ PromptList.collect endless (Infinity false) 500 0 [] = None
  /\ (forall pulls, PromptList.collect endless (Infinity false) pulls 0 [] = None).
Proof.
  split; [vm_compute; reflexivity|].
  split; [vm_compute; reflexivity|].
  split; [vm_compute; reflexivity|].
  intros pulls. apply PromptListFacts.collect_goes_on; [reflexivity|].
  intros i _. eexists. reflexivity.
Qed.

(** ** The judge route *)

Definition judge_verdict : string :=
  object [("clarity", "5"); ("accuracy", "4"); ("overall_score", "4")].

(** The model answers [4]; the judge answers with a verdict in
    prose. *)
Definition world_judged : Script :=
  {| gemini_script := []; groq_script := [];
     anthropic_script := [Ok (Some "4"); Ok (Some ("My verdict: " ++ judge_verdict))] |}.

Example judge_run :
  fst (LlmJudge.POST (Ok (JObj [("prompt", JStr "2+2?")])) (fresh world_judged))
  = Ok (LlmJudge.Success "2+2?" "4"
          (JObj [("clarity", JNum 5); ("accuracy", JNum 4); ("overall_score", JNum 4)])).
Proof. vm_compute. reflexivity. Qed.

(** A body that is no JSON text and the body [null] are answered with
    a 500, a body without prompt with a 400; no provider is asked. *)
Example judge_run_without_body :
  fst (LlmJudge.POST (Throw SyntaxError) (fresh world_judged))
  = Ok (LlmJudge.ServerError "Failed to evaluate with LLM judge" "SyntaxError")
  /\ fst (LlmJudge.POST (Ok JNull) (fresh world_judged))
     = Ok (LlmJudge.ServerError "Failed to evaluate with LLM judge" "TypeError")
  /\ fst (LlmJudge.POST (Ok (JObj [])) (fresh world_judged))
     = Ok (LlmJudge.BadRequest "Prompt string is required")
  /\ anthropic_script (world (snd (LlmJudge.POST (Ok JNull) (fresh world_judged))))
     = anthropic_script world_judged.
Proof. repeat split; vm_compute; reflexivity. Qed.

(** An answer that quotes a price in dollars reaches the judge with
    one dollar sign of two. *)
Example judge_prompt_dollars :
  LlmJudge.judgePrompt_of "It costs $$5."
  = LlmJudge.judge_head ++ "It costs $5." ++ LlmJudge.judge_tail.
Proof. vm_compute. reflexivity. Qed.

(** ** The renderer *)

Lemma render_without_placeholder_witness :
  Render.includes "Summarise the text." Render.placeholder = false
  /\ Render.render "Summarise the text." "$&" = "Summarise the text.".
Proof.
  split; [reflexivity|].
  apply (TextFacts.render_without_placeholder "Summarise the text." "$&").
  reflexivity.
Defined.

Lemma render_first_placeholder_witness :
  Render.render ("Q: " ++ Render.placeholder ++ " A: {{input}}") "2+2?"
  = "Q: " ++ "2+2?" ++ Render.render " A: {{input}}" "2+2?".
Proof.
  apply (TextFacts.render_first_placeholder "Q: " " A: {{input}}" "2+2?");
    reflexivity.
Defined.

(** ** Requests *)

(** A body that is no JSON text and the body [null] make both
    streaming routes throw in front of their background task, with
    nothing written; a body without a prompt gets an error record. *)
Example rejected_requests :
  Braintrust.POST (Throw SyntaxError) (start world_good)
  = (Throw SyntaxError, start world_good)
  /\ Braintrust.POST (Ok JNull) (start world_good) = (Throw TypeError, start world_good)
  /\ Langsmith.POST (Throw SyntaxError) (start world_pass)
     = (Throw SyntaxError, start world_pass)
  /\ Langsmith.POST (Ok JNull) (start world_pass) = (Throw TypeError, start world_pass)
  /\ map is_error (written (snd (Braintrust.POST (Ok (JObj [])) (start world_good))))
     = [false; true].
Proof. repeat split; reflexivity. Qed.

(** The route functions three runs enter: an evaluation with one
    failing test, an evaluation without prompt, and an optimization
    whose one test fails and whose optimizer answers without JSON. *)
Example phases_of_runs :
  entered (sys (evaluate world_informal))
  = ["generateSyntheticDataset"; "runPrompt"; "evaluateTestCase"; "scoreFactuality";
     "scoreBattle"; "scoreTone"; "getImprovedPrompts"]
  /\ entered (sys (snd (Braintrust.POST (Ok (JObj [])) (start world_informal)))) = []
  /\ entered (sys (run world_optimizer_text))
     = ["generateSyntheticDataset"; "executePromptWithGemini"; "judgeWithClaude";
        "logToLangSmith"; "createFailureDataset"; "generateOptimizedPrompt"].
Proof. repeat split; vm_compute; reflexivity. Qed.

(** ** The evaluation route *)

(** The run with the good output: one test case, one result. *)
Lemma final_record_follows_dataset_witness :
  Forall2 EvaluationRuns.from_case
    (Braintrust.syntheticDataset final_good) (Braintrust.results final_good)
  /\ length (Braintrust.results final_good) = 1
  /\ Braintrust.prompt final_good = template.
Proof.
  destruct (EvaluationRuns.final_record_follows_dataset
              (Ok template_body) (start world_good) final_good)
    as (H1 & H2 & H3 & _).
  { apply start_clean. }
  { found. }
  split; [exact H2|]. split; reflexivity.
Defined.

(** The one result of the run with the informal output. *)
Definition informal_result : Braintrust.TestResult :=
  Eval vm_compute in
    hd {| Braintrust.input := EmptyString; Braintrust.output := EmptyString;
          Braintrust.expected := None; Braintrust.scores := Braintrust.initial_scores;
          Braintrust.metadata := None |}
       (Braintrust.results final_informal).

(** It fails on the tone alone. *)
Lemma passing_needs_every_dimension_witness :
  In informal_result (Braintrust.failing (Braintrust.results final_informal))
  /\ Braintrust.tone (Braintrust.scores informal_result) = 0%Q
  /\ Braintrust.factuality (Braintrust.scores informal_result) = 1%Q.
Proof.
  destruct (EvaluationRuns.passing_needs_every_dimension
              (Ok template_body) (start world_informal) final_informal
              informal_result (start_clean world_informal))
    as [_ [_ [_ Hfail]]].
  { found. }
  { left. reflexivity. }
  split; [|split; reflexivity].
  apply Hfail. right. right. right. reflexivity.
Defined.

(** The state in which the evaluation loop starts when the generator
    answers with an array whose element has no [input]. *)
Definition shapeless_prepared : Run Braintrust.LogEntry Braintrust.Evaluation :=
  snd (Braintrust.prepare template (start world_shapeless)).

(** The test case without [input] makes its turn throw, and the run
    ends with the engine's error. *)
Lemma failing_turn_ends_run_witness :
  exists st',
    Braintrust.POST (Ok template_body) (start world_shapeless) = (Ok tt, st')
    /\ last (written st') (SseError EmptyString None None)
       = SseError "Failed to run Braintrust evaluation" (Some "TypeError")
           (Some (run_logs st'))
    /\ (forall r, In r (written st') -> is_complete r = false).
Proof.
  destruct (EvaluationRuns.failing_turn_ends_run template_body template
              (start world_shapeless)
              shapeless_prepared shapeless_prepared shapeless_prepared
              [] [] (JObj []) [] TypeError
              template_read template_not_empty eq_refl (start_clean world_shapeless)
              eq_refl eq_refl eq_refl)
    as (st' & log & HP & Hw & _ & _ & Hnc).
  exists st'. split; [exact HP|]. split; [|exact Hnc].
  rewrite Hw. reflexivity.
Defined.

(** The scripted judge with its script used up rejects every call. *)
Definition drained : @World Stub.runtime -> Prop := fun w => anthropic_script w = [].

Lemma drained_outage : EvaluationRuns.outage drained.
Proof.
  intros max_tokens question w Hw. exists (Error "service unavailable"), w.
  split; [|exact Hw].
  unfold drained in Hw. cbn. unfold next_anthropic. rewrite Hw. reflexivity.
Qed.

(** A test case whose reference answer has no text. *)
Definition textless_expected_case : json :=
  JObj [("input", JStr "2+2?"); ("expected", JObj [("toString", JNum 1)])].

(** Two test cases while the judge is down.  For the formal one only
    the JSON dimension, which does not apply, counts.  For the one
    whose reference answer has no text every score stays 0. *)
Lemma scores_during_outage_witness :
  (exists sc s',
      Braintrust.evaluateTestCase formal_case "4" (fresh world_drained) = (Ok sc, s')
      /\ Braintrust.jsonValidity sc = 1%Q
      /\ Braintrust.tone sc = 0%Q
      /\ Qeq_bool (Braintrust.overall sc) (1 # 4) = true)
  /\ (exists sc s',
         Braintrust.evaluateTestCase textless_expected_case "4" (fresh world_drained)
         = (Ok sc, s')
         /\ sc = Braintrust.initial_scores).
Proof.
  split.
  - destruct (EvaluationRuns.scores_during_outage drained formal_case "4"
                (fresh world_drained) drained_outage eq_refl)
      as (sc & s' & He & (Hf & Hb & Hj & Ht & Ho) & _).
    { discriminate. }
    exists sc, s'. split; [exact He|].
    split; [rewrite Hj; reflexivity|]. split; [exact Ht|].
    rewrite Ho. unfold BraintrustFacts.mean. rewrite Hf, Hb, Hj, Ht. reflexivity.
  - destruct (EvaluationRuns.scores_during_outage drained textless_expected_case "4"
                (fresh world_drained) drained_outage eq_refl)
      as (sc & s' & He & Hsc & _).
    { discriminate. }
    exists sc, s'. split; [exact He | exact Hsc].
Defined.

(** The run with the good output completes with its one result. *)
Definition good_prepared : Run Braintrust.LogEntry Braintrust.Evaluation :=
  snd (Braintrust.prepare template (start world_good)).

Definition good_evaluated : Run Braintrust.LogEntry Braintrust.Evaluation :=
  snd (Braintrust.evaluate_all template 1 0 (Braintrust.syntheticDataset final_good) []
         good_prepared).

(** The generator's one test case has a reference answer without
    text; the completion is answered. *)
Definition world_textless_expected : Script :=
  {| gemini_script :=
       [Ok ("[" ++ object [("input", quoted "2+2?");
                           ("expected", object [("toString", "1")])] ++ "]")];
     groq_script := [];
     anthropic_script := [Ok (Some "4")] |}.

Definition textless_prepared : Run Braintrust.LogEntry Braintrust.Evaluation :=
  snd (Braintrust.prepare template (start world_textless_expected)).

Definition textless_evaluated : Run Braintrust.LogEntry Braintrust.Evaluation :=
  snd (Braintrust.evaluate_all template 1 0 [textless_expected_case] []
         textless_prepared).

(** The one result of that run: every score is 0. *)
Definition textless_results : list Braintrust.TestResult :=
  [ {| Braintrust.input := "2+2?"; Braintrust.output := "4";
       Braintrust.expected := Some (JObj [("toString", JNum 1)]);
       Braintrust.scores := Braintrust.initial_scores;
       Braintrust.metadata := None |} ].

(** Two runs whose evaluation loop returns.  The run with the good
    output completes with its one result.  In the run whose test case
    has a reference answer without text the one result fails, the
    failure analysis cannot be built, and the stream ends with an
    error record. *)
Lemma run_after_the_loop_witness :
  (exists e st',
      Braintrust.POST (Ok template_body) (start world_good) = (Ok tt, st')
      /\ last (written st') (SseError EmptyString None None) = SseComplete e
      /\ Braintrust.results e = Braintrust.results final_good
      /\ Braintrust.improvedPrompts e = [])
  /\ (exists st',
         Braintrust.POST (Ok template_body) (start world_textless_expected)
         = (Ok tt, st')
         /\ last (written st') (SseError EmptyString None None)
            = SseError "Failed to run Braintrust evaluation" (Some "TypeError")
                (Some (run_logs st'))).
Proof.
  split.
  - destruct (EvaluationRuns.run_after_the_loop template_body template
                (start world_good) good_prepared good_evaluated
                (Braintrust.syntheticDataset final_good) (Braintrust.results final_good)
                template_read template_not_empty eq_refl eq_refl eq_refl)
      as (_ & e & st' & ls & HP & Hw & Hr & _ & _ & _ & Hi).
    exists e, st'. split; [exact HP|].
    split; [rewrite Hw, app_assoc; apply last_last|].
    split; [exact Hr|]. apply Hi. reflexivity.
  - destruct (EvaluationRuns.run_after_the_loop template_body template
                (start world_textless_expected) textless_prepared textless_evaluated
                [textless_expected_case] textless_results
                template_read template_not_empty eq_refl eq_refl eq_refl)
      as (_ & st' & ls & HP & Hw).
    exists st'. split; [exact HP|].
    rewrite Hw, app_assoc. apply last_last.
Defined.

(** The summary is computed in doubles.  Of 80 results 41 pass: the
    quotient 41/80 is rounded to a double and so is its product with
    100, which falls just below 51.25 and is printed as 51.2, where
    the exact rate would be printed as 51.3. *)
Definition graded (overall : Q) : Braintrust.TestResult :=
  {| Braintrust.input := EmptyString; Braintrust.output := EmptyString;
     Braintrust.expected := None;
     Braintrust.scores :=
       {| Braintrust.factuality := overall; Braintrust.battle := overall;
          Braintrust.jsonValidity := overall; Braintrust.tone := overall;
          Braintrust.overall := overall |};
     Braintrust.metadata := None |}.

Definition eighty_results : list Braintrust.TestResult :=
  (repeat (graded 1) 41 ++ repeat (graded 0) 39)%list.

Example summary_in_doubles :
  Braintrust.success_rate
    (Braintrust.summarize eighty_results (Braintrust.failing eighty_results))
  = "51.2"
  /\ Braintrust.average_score
       (Braintrust.summarize eighty_results (Braintrust.failing eighty_results))
     = "51.2"
  /\ fixed 1 ((41 # 80) * 100)%Q = "51.3".
Proof. repeat split; vm_compute; reflexivity. Qed.

(** ** The optimization route *)

(** The completion of the one test case is answered, the judge's call
    is not. *)
Definition world_judge_down : Script :=
  {| gemini_script := [Ok one_case; Ok "4"]; groq_script := []; anthropic_script := [] |}.

Definition judge_down_prepared : Run Langsmith.LogEntry Langsmith.Evaluation :=
  snd (Langsmith.prepare request (start world_judge_down)).

Definition judge_down_completed : Sys :=
  snd (Langsmith.executePromptWithGemini (Langsmith.req_prompt request) "2+2?"
         (sys judge_down_prepared)).

Lemma judge_rejection_ends_run_witness :
  exists st',
    Langsmith.POST (Ok body) (start world_judge_down) = (Ok tt, st')
    /\ last (written st') (SseError EmptyString None None)
       = SseError "Failed to optimize prompt" (Some "service unavailable")
           (Some (run_logs st'))
    /\ (forall r, In r (written st') -> is_complete r = false).
Proof.
  destruct (OptimizationRuns.judge_rejection_ends_run body request
              (start world_judge_down)
              judge_down_prepared judge_down_prepared
              "v1735689600000" "arithmetic-v1735689600000" [] [] case_json []
              "2+2?" "4" [JStr "must state 4"]
              "Answer arithmetic questions" ["must state 4"] judge_down_completed
              (Error "service unavailable") (world judge_down_completed)
              request_read request_complete stub_configured
              (start_clean world_judge_down))
    as (st' & log1 & log2 & HP & Hw & Hnc & _);
    try reflexivity.
  exists st'. split; [exact HP|]. split; [|exact Hnc].
  rewrite Hw. reflexivity.
Defined.


Lemma optimization_metrics_witness :
  Langsmith.totalTests (Langsmith.metrics final_pass) = 1
  /\ Langsmith.failures (Langsmith.metrics final_pass) = 0
  /\ Langsmith.originalPassRate (Langsmith.metrics final_pass) = "100.0"
  /\ Langsmith.originalPrompt final_pass = Some (JStr "Answer: {{input}}").
Proof.
  destruct (OptimizationRuns.optimization_metrics (Ok body) (start world_pass) final_pass)
    as ((b & Hb & H1 & _) & H4 & H5 & _ & H7).
  { apply start_clean. }
  { unfold run. found. }
  split; [rewrite H4; reflexivity|]. split; [rewrite H5; reflexivity|].
  split; [rewrite H7; reflexivity|].
  inversion Hb; subst b. rewrite H1. reflexivity.
Defined.

(** The pass rate is computed in doubles.  With 57 failures in 80
    tests the quotient 23/80 is rounded to a double and so is its
    product with 100, which falls just below 28.75 and is printed as
    28.7, where the exact rate would be printed as 28.8. *)
Definition judged_result (score : Q) : Langsmith.TestResult :=
  {| Langsmith.input := EmptyString; Langsmith.output := EmptyString;
     Langsmith.score := Some (JNum score); Langsmith.failureReason := None;
     Langsmith.rubricResults := None |}.

Definition eighty_tests : list Langsmith.TestResult :=
  (repeat (judged_result 1) 23 ++ repeat (judged_result 0) 57)%list.

Example pass_rate_in_doubles :
  length (Langsmith.failed eighty_tests) = 57
  /\ toFixed 1 (Langsmith.pass_rate eighty_tests (Langsmith.failed eighty_tests))
     = "28.7"
  /\ fixed 1 ((23 # 80) * 100)%Q = "28.8".
Proof. repeat split; vm_compute; reflexivity. Qed.

(** The request of scenario 1 without its rubric. *)
Definition body_without_rubric : json :=
  JObj [("prompt", JStr "Answer: {{input}}");
        ("goal", JStr "Answer arithmetic questions");
        ("promptName", JStr "arithmetic")].

Definition request_without_rubric : Langsmith.Request :=
  {| Langsmith.req_prompt := Some (JStr "Answer: {{input}}");
     Langsmith.req_goal := Some (JStr "Answer arithmetic questions");
     Langsmith.req_promptName := Some (JStr "arithmetic");
     Langsmith.req_rubric := None |}.

Lemma rubric_is_not_checked_witness :
  exists st',
    Langsmith.POST (Ok body_without_rubric) (start world_pass) = (Ok tt, st')
    /\ world (sys st') = world_pass
    /\ last (written st') (SseError EmptyString None None)
       = SseError "Failed to optimize prompt" (Some "TypeError") (Some (run_logs st')).
Proof.
  destruct (OptimizationRuns.rubric_is_not_checked body_without_rubric
              request_without_rubric (start world_pass)
              "arithmetic" "Answer: {{input}}" "Answer arithmetic questions")
    as (st' & l1 & l2 & l3 & l4 & HP & Hw & _ & _ & Hwr & _).
  { reflexivity. }
  { repeat split. }
  { exact stub_configured. }
  { reflexivity. }
  { reflexivity. }
  { reflexivity. }
  { intros items H. discriminate. }
  exists st'. split; [exact HP|]. split; [exact Hw|].
  rewrite Hwr. reflexivity.
Defined.

(** A prompt name without text: the run fails while it builds its
    first log entry, so the stream holds the log of the error and the
    error record only, and the generator is not entered. *)
Definition body_without_name_text : json :=
  JObj [("prompt", JStr "Answer: {{input}}");
        ("goal", JStr "Answer arithmetic questions");
        ("promptName", JObj [("toString", JNum 1)]);
        ("rubric", JArr [JStr "must state 4"])].

Example run_without_name_text :
  let final := snd (Langsmith.POST (Ok body_without_name_text) (start world_pass)) in
  map is_error (written final) = [false; true]
  /\ map Langsmith.phase (run_logs final) = ["Error occurred"]
  /\ entered (sys final) = []
  /\ gemini_script (world (sys final)) = gemini_script world_pass.
Proof. vm_compute. repeat split; reflexivity. Qed.

(** ** The prompt-test route *)

(** Three completions and three verdicts, the second completion
    rejected. *)
Definition world_tested : Script :=
  {| gemini_script := []; groq_script := [];
     anthropic_script :=
       [Ok (Some "A story."); Ok (Some (object [("score", "1"); ("passed", "true")]));
        rejected;
        Ok (Some "A slogan."); Ok (Some "No verdict.")] |}.

Definition creative_body : json :=
  JObj [("prompt", JStr template); ("dataset", JStr "creative")].

Example prompt_test_run :
  match fst (PromptTest.POST (Ok creative_body) (fresh world_tested)) with
  | Ok (PromptTest.Success e) =>
      map PromptTest.output (PromptTest.results e)
      = ["A story."; "Error running test"; "A slogan."]
      /\ map PromptTest.passed (PromptTest.results e)
         = [Some (JBool true); Some (JBool false); Some (JBool false)]
      /\ PromptTest.passed_tests (PromptTest.summary e) = 1
      /\ PromptTest.success_rate (PromptTest.summary e) = "33.3"
      /\ PromptTest.failed_assertions (PromptTest.stats e) = 2
  | _ => False
  end.
Proof. vm_compute. repeat split; reflexivity. Qed.

(** The first verdict passes the output with a score that has no
    text; the others are ordinary. *)
Definition world_textless_score : Script :=
  {| gemini_script := []; groq_script := [];
     anthropic_script :=
       [Ok (Some "A story.");
        Ok (Some (object [("score", object [("toString", "1")]); ("passed", "true")]));
        Ok (Some "A haiku."); Ok (Some (object [("score", "1"); ("passed", "true")]));
        Ok (Some "A slogan."); Ok (Some (object [("score", "0"); ("passed", "false")]))] |}.

(** The sum of the scores throws after the verdict was counted: the
    result pushed is the error result, and the counters stay raised,
    so two tests are counted as passed where one result has passed,
    and four assertions are counted for three tests. *)
Example score_without_text_run :
  match fst (PromptTest.POST (Ok creative_body) (fresh world_textless_score)) with
  | Ok (PromptTest.Success e) =>
      map PromptTest.output (PromptTest.results e)
      = ["Error running test"; "A haiku."; "A slogan."]
      /\ map PromptTest.passed (PromptTest.results e)
         = [Some (JBool false); Some (JBool true); Some (JBool false)]
      /\ PromptTest.passed_tests (PromptTest.summary e) = 2
      /\ PromptTest.total_tests (PromptTest.summary e) = 3
      /\ PromptTest.passed_assertions (PromptTest.stats e) = 2
      /\ PromptTest.failed_assertions (PromptTest.stats e) = 2
      /\ PromptTest.total_assertions (PromptTest.stats e) = 4
  | _ => False
  end.
Proof. vm_compute. repeat split; reflexivity. Qed.

Lemma prompt_test_isolation_witness :
  exists e s',
    PromptTest.POST (Ok creative_body) (fresh world_tested)
    = (Ok (PromptTest.Success e), s')
    /\ map PromptTest.result_input (PromptTest.results e)
       = ["Write a story about a robot"; "Compose a haiku about nature";
          "Create a product slogan"]
    /\ PromptTest.total_tests (PromptTest.summary e) = 3
    /\ PromptTest.passed_assertions (PromptTest.stats e)
       = PromptTest.passed_tests (PromptTest.summary e).
Proof.
  destruct (PromptTestFacts.prompt_test_isolation creative_body template "creative"
              PromptTest.creative (fresh world_tested)
              eq_refl template_not_empty eq_refl eq_refl)
    as (e & s' & HP & Hin & Ht & _ & Hpa & _).
  exists e, s'. split; [exact HP|]. split; [exact Hin|].
  split; [exact Ht | exact Hpa].
Defined.

Lemma inherited_dataset_name_witness :
  fst (PromptTest.POST
         (Ok (JObj [("prompt", JStr template); ("dataset", JStr "constructor")]))
         (fresh world_tested))
  = Ok (PromptTest.ServerError "Failed to evaluate prompt" "TypeError").
Proof.
  destruct (PromptTestFacts.inherited_dataset_name
              (JObj [("prompt", JStr template); ("dataset", JStr "constructor")])
              template "constructor" (fresh world_tested)
              eq_refl template_not_empty eq_refl)
    as (s' & HP & _).
  { left. reflexivity. }
  rewrite HP. reflexivity.
Defined.

(** The system once the completion has been rejected. *)
Definition after_rejection : Sys :=
  {| world := world_drained; entered := ["runClaudePrompt"] |}.

Lemma rejected_completion_is_recorded_witness :
  exists s',
    PromptTest.test_one template "prompt-test-general-123e4567" true 0
      {| PromptTest.input := "Explain quantum computing";
         PromptTest.expected_quality := "comprehensive" |}
      (fresh world_drained, PromptTest.start)
    = (Ok tt,
       (s',
        {| PromptTest.testResults :=
             [{| PromptTest.result_input := "Explain quantum computing";
                 PromptTest.output := "Error running test";
                 PromptTest.passed := Some (JBool false);
                 PromptTest.score := Some (JNum 0);
                 PromptTest.feedback := Some (JStr "Test execution failed") |}];
           PromptTest.passedTests := 0;
           PromptTest.totalScore := 0%Q;
           PromptTest.passedAssertions := 0;
           PromptTest.failedAssertions := 1 |})).
Proof.
  exists after_rejection.
  rewrite (PromptTestFacts.rejected_completion_is_recorded template
             "prompt-test-general-123e4567" true 0
             {| PromptTest.input := "Explain quantum computing";
                PromptTest.expected_quality := "comprehensive" |}
             (fresh world_drained) PromptTest.start
             (Error "service unavailable") (world after_rejection));
    reflexivity.
Defined.

(** ** The readers *)

Definition br : string := String Client.newline EmptyString.

Definition blank : Client.Ui :=
  {| Client.processingLogs := []; Client.evaluation := Some JNull;
     Client.alerts := [] |}.

Definition log_text : string :=
  object [("type", quoted "log"); ("log", object [("step", quoted "Analyzing prompt")])].

Definition error_text : string :=
  object [("type", quoted "error"); ("error", quoted "Failed to optimize prompt");
          ("details", quoted "503 Service Unavailable")].

(** A log record and an error record, cut in the middle of a record
    and between the two line breaks. *)
Definition chunks : list string :=
  [ "data: " ++ Str.take 10 log_text;
    Str.drop 10 log_text ++ br;
    br ++ "da";
    "ta: " ++ error_text ++ br ++ br ].

Lemma frames_round_trip_witness :
  Client.reading Client.evaluation_line EmptyString chunks blank
  = Client.handle Client.evaluation_line
      ["data: " ++ log_text; EmptyString; "data: " ++ error_text; EmptyString] blank
  /\ Client.payloads (fst (Client.split_lines (ClientFacts.joined chunks)))
     = [log_text; error_text].
Proof.
  destruct (ClientFacts.frames_round_trip Client.evaluation_line [log_text; error_text]
              chunks blank)
    as (H1 & _ & _).
  { repeat constructor. }
  { reflexivity. }
  split; [exact H1 | reflexivity].
Defined.

(** The error record of a run: the reader of the evaluation stream
    leaves the page as it is, the reader of the optimization stream
    shows the details. *)
Lemma error_event_handling_witness :
  Client.evaluation_line ("data: " ++ error_text) blank = (Ok tt, blank)
  /\ Client.optimization_line ("data: " ++ error_text) blank
     = (Ok tt, Client.alert "Error: 503 Service Unavailable" blank).
Proof.
  destruct (ClientFacts.error_event_handling error_text
              (JObj [("type", JStr "error"); ("error", JStr "Failed to optimize prompt");
                     ("details", JStr "503 Service Unavailable")])
              blank) as [H1 H2].
  { reflexivity. }
  { reflexivity. }
  split; [exact H1 | exact H2].
Defined.

(** The two readers on the same stream, a log record and the error
    record of a run. *)
Example readers_on_error :
  snd (Client.runBraintrustEval chunks blank)
  = {| Client.processingLogs := [Some (JObj [("step", JStr "Analyzing prompt")])];
       Client.evaluation := Some JNull;
       Client.alerts := [] |}
  /\ Client.alerts (snd (Client.runLangSmithOptimization chunks blank))
     = ["Error: 503 Service Unavailable"].
Proof. vm_compute. split; reflexivity. Qed.

(** ** The reader of the rubric *)

Definition opening : string := object [("text", quoted "```json [1,")].
Definition closing : string := object [("text", quoted "true] ``` done")].
Definition no_rubric : Client.Rubric :=
  {| Client.suggestedRubric := []; Client.rubric_alerts := [] |}.

Lemma rubric_reader_on_whole_records_witness :
  Client.rubric_read
    (map (fun texts => ClientFacts.joined (map Client.frame texts))
       [[opening]; [closing]])
    EmptyString
  = "```json [1,true] ``` done".
Proof.
  rewrite (ClientFacts.rubric_reader_on_whole_records [[opening]; [closing]] EmptyString).
  - reflexivity.
  - repeat constructor; discriminate.
Defined.

Lemma cut_record_is_dropped_witness :
  Client.rubric_read
    ["data: " ++ Str.take 11 closing; Str.drop 11 closing ++ br ++ br] EmptyString
  = EmptyString
  /\ Client.rubric_read [Client.frame closing] EmptyString = "true] ``` done".
Proof.
  destruct (ClientFacts.cut_record_is_dropped (Str.take 11 closing) (Str.drop 11 closing)
              EmptyString SyntaxError)
    as (H1 & H2 & _).
  - reflexivity.
  - reflexivity.
  - reflexivity.
  - reflexivity.
  - discriminate.
  - discriminate.
  - split; [exact H1 | exact H2].
Defined.

(** The same response cut in two ways: at the end of a record, a
    rubric is suggested; inside a record, the page shows the alert. *)
Example rubric_depends_on_chunks :
  Client.generateRubric
    [Client.frame opening; Client.frame closing ++ Client.frame "[DONE]"] no_rubric
  = (Ok tt, {| Client.suggestedRubric := [JNum 1; JBool true];
               Client.rubric_alerts := [] |})
  /\ Client.generateRubric
       [Client.frame opening ++ "data: " ++ Str.take 11 closing;
        Str.drop 11 closing ++ br ++ br ++ Client.frame "[DONE]"] no_rubric
     = (Ok tt, {| Client.suggestedRubric := [];
                  Client.rubric_alerts := ["Failed to generate rubric. Please try again."] |}).
Proof. vm_compute. split; reflexivity. Qed.

End MoreExamples.

